(** * Markdown Kanban: the board model, its parser, serializer and mutations

    A shallow embedding of [MarkdownKanbanParser] and of the board
    mutations of [KanbanWebviewPanel].

    The parser and the serializer are those of the revision of
    [markdownParser.ts] that goes with [kanbanWebviewPanel.ts]: the
    dialect with blockquote metadata and bold section headers, task ids
    written [TSK_<n>], which still reads the older indented properties.
    (The file [src/markdownParser.ts] holds an earlier revision, with ids
    written [TSK-<n>] and a serializer of indented properties; the ids
    the panel hands out, [TSK_<n>], are not canonical for it.)

    Conventions of the embedding.
    - A JavaScript string is a [string]: a sequence of 8-bit code units
      (the Latin-1 range of UTF-16).  White space is the part of the
      ECMAScript [WhiteSpace] and [LineTerminator] sets in that range.
    - A JavaScript number that holds a counter is the [N] of the integer
      it holds, with the arithmetic of doubles ([toDouble], [increment],
      [numberToString]): exact up to 2^53, rounded above.  An index is a
      [Z].
    - An optional property ([description?: string]) is an [option];
      [None] is [undefined].  A checklist is the list of the values of
      its slots; which slots hold one object is given with a toggle
      ([setCompleted]).
    - [Math.random] is not modelled: [generateId] draws from a supply
      [gen : nat -> string], the n-th call returning [gen n]. *)

From Stdlib Require Import String Ascii List Bool Arith NArith ZArith Lia.
From Stdlib Require Import Decimal DecimalString DecimalN Permutation FinFun.
From Stdlib Require Floats.
Import ListNotations.
Open Scope string_scope.

(** ** JavaScript strings *)

Module JsString.

Definition LF : ascii := "010"%char.
Definition CR : ascii := "013"%char.

(** [\s], and what [trim] strips: TAB LF VT FF CR SP NBSP. *)
Definition isWhite (c : ascii) : bool :=
  let n := N_of_ascii c in
  (((9 <=? n) && (n <=? 13)) || (n =? 32) || (n =? 160))%N.

(** [\d] *)
Definition isDigit (c : ascii) : bool :=
  let n := N_of_ascii c in ((48 <=? n) && (n <=? 57))%N.

(** What [.] refuses. *)
Definition isLineTerminator (c : ascii) : bool :=
  Ascii.eqb c LF || Ascii.eqb c CR.

Definition isEmpty (s : string) : bool :=
  match s with EmptyString => true | String _ _ => false end.

(** Truthiness of a string: every string but the empty one. *)
Definition truthy (s : string) : bool := negb (isEmpty s).

Fixpoint trimStart (s : string) : string :=
  match s with
  | EmptyString => EmptyString
  | String c r => if isWhite c then trimStart r else s
  end.

Fixpoint trimEnd (s : string) : string :=
  match s with
  | EmptyString => EmptyString
  | String c r =>
      let r' := trimEnd r in
      if isWhite c && isEmpty r' then EmptyString else String c r'
  end.

Definition trim (s : string) : string := trimEnd (trimStart s).

Fixpoint startsWith (s p : string) {struct p} : bool :=
  match p, s with
  | EmptyString, _ => true
  | String a p', String b s' => Ascii.eqb a b && startsWith s' p'
  | String _ _, EmptyString => false
  end.

Fixpoint endsWith (s p : string) : bool :=
  String.eqb s p ||
  match s with
  | EmptyString => false
  | String _ r => endsWith r p
  end.

(** [s.substring(n)] *)
Fixpoint substringFrom (n : nat) (s : string) : string :=
  match n, s with
  | O, _ => s
  | S n', String _ r => substringFrom n' r
  | S _, EmptyString => EmptyString
  end.

(** [s.split(sep)] for a one-character separator. *)
Fixpoint split (sep : ascii) (s : string) : list string :=
  match s with
  | EmptyString => [EmptyString]
  | String c r =>
      if Ascii.eqb c sep then EmptyString :: split sep r
      else match split sep r with
           | h :: t => String c h :: t
           | [] => [String c EmptyString]
           end
  end.

(** [l.join(sep)] *)
Definition join (sep : string) (l : list string) : string :=
  String.concat sep l.

(** [s.replace(/\r\n/g, '\n')] *)
Fixpoint replaceCRLF (s : string) : string :=
  match s with
  | EmptyString => EmptyString
  | String c r =>
      match r with
      | String d r' =>
          if Ascii.eqb c CR && Ascii.eqb d LF
          then String LF (replaceCRLF r')
          else String c (replaceCRLF r)
      | EmptyString => String c EmptyString
      end
  end.

(** [s.replace(/\r/g, '\n')] *)
Fixpoint replaceCR (s : string) : string :=
  match s with
  | EmptyString => EmptyString
  | String c r => String (if Ascii.eqb c CR then LF else c) (replaceCR r)
  end.

Definition lowerChar (c : ascii) : ascii :=
  let n := N_of_ascii c in
  if (((65 <=? n) && (n <=? 90)) ||
      ((192 <=? n) && (n <=? 222) && negb (n =? 215)))%N
  then ascii_of_N (n + 32) else c.

Fixpoint toLowerCase (s : string) : string :=
  match s with
  | EmptyString => EmptyString
  | String c r => String (lowerChar c) (toLowerCase r)
  end.

(** The rest of [s] behind the literal [p]. *)
Fixpoint stripPrefix (p s : string) {struct p} : option string :=
  match p, s with
  | EmptyString, _ => Some s
  | String a p', String b s' =>
      if Ascii.eqb a b then stripPrefix p' s' else None
  | String _ _, EmptyString => None
  end.

(** The same under the [i] flag. *)
Fixpoint stripPrefixCI (p s : string) {struct p} : option string :=
  match p, s with
  | EmptyString, _ => Some s
  | String a p', String b s' =>
      if Ascii.eqb (lowerChar a) (lowerChar b) then stripPrefixCI p' s'
      else None
  | String _ _, EmptyString => None
  end.

(** A greedy [\d*]: the digits in front and the rest. *)
Fixpoint takeDigits (s : string) : string * string :=
  match s with
  | EmptyString => (EmptyString, EmptyString)
  | String c r =>
      if isDigit c
      then let '(d, rest) := takeDigits r in (String c d, rest)
      else (EmptyString, s)
  end.

(** The number of white characters in front, a greedy [\s*]. *)
Fixpoint countWhite (s : string) : nat :=
  match s with
  | EmptyString => O
  | String c r => if isWhite c then S (countWhite r) else O
  end.

(** A trailing capture of any characters up to the end of the input
    (dot, star, dollar) succeeds on exactly the strings that hold no line
    terminator. *)
Fixpoint noLineTerminator (s : string) : bool :=
  match s with
  | EmptyString => true
  | String c r => negb (isLineTerminator c) && noLineTerminator r
  end.

(** *** Numbers

    The counters of the source are JavaScript numbers: doubles.  Here a
    number that holds an integer is the [N] of that integer; the only
    other number the source can come to hold is [Infinity], which is
    the [N] 2^1024 here, the least power of two that no double holds.
    Every integer up to 2^53 is a double; above, one in two, then one in
    four, and so on. *)

Definition twoTo53 : N := 9007199254740992.

Definition infinity : N := 2 ^ 1024.

(** The double nearest to the integer [n], the one of even mantissa of
    two that are as near; [infinity] from 2^1024 - 2^970 on, where the
    nearest would be 2^1024. *)
Definition toDouble (n : N) : N :=
  if (n <=? twoTo53)%N then n
  else
    let e := (N.log2 n - 52)%N in
    let q := N.shiftr n e in
    let r := (n - N.shiftl q e)%N in
    let half := N.shiftl 1 (e - 1) in
    let q' := if (r <? half)%N then q
              else if (half <? r)%N then (q + 1)%N
              else if N.even q then q else (q + 1)%N in
    let m := N.shiftl q' e in
    if (N.log2 m <? 1024)%N then m else infinity.

(** [n + 1], and what [n++] leaves in [n]: the double nearest to the
    sum.  It is [n] itself from 2^53 on, but for one double in two
    between 2^53 and 2^54. *)
Definition increment (n : N) : N := toDouble (n + 1).

(** The integer a string of digits writes. *)
Fixpoint parseDigitsFrom (acc : N) (s : string) : N :=
  match s with
  | EmptyString => acc
  | String c r => parseDigitsFrom (acc * 10 + (N_of_ascii c - 48))%N r
  end.

(** [parseInt] of a string of digits: the double nearest to the integer
    written. *)
Definition parseInt (digits : string) : N :=
  toDouble (parseDigitsFrom 0%N digits).

(** The decimal digits of an integer. *)
Definition decimalDigits (n : N) : string :=
  NilEmpty.string_of_uint (N.to_uint n).

(** A number inside a template literal ([Number::toString]).  Up to
    2^53 it is written with its decimal digits.  Above, with the fewest
    digits [s] that still name the double, [s * 10^(len - k)] being
    read as the number, [k] the number of digits of [s]: up to 21
    places the digits and zeros behind them, from there on a mantissa
    and an exponent. *)

(** [s] has [k] digits and [s * p] is read as [n]. *)
Definition names (n p : N) (k : nat) (s : N) : bool :=
  ((10 ^ N.of_nat (k - 1) <=? s) && (s <? 10 ^ N.of_nat k)
   && (toDouble (s * p) =? n))%N.

Definition distance (a b : N) : N :=
  if (a <=? b)%N then (b - a)%N else (a - b)%N.

(** The better of two candidates [(s, len)] of [k] digits: the nearer
    to [n], the even one of two that are as near. *)
Definition better (n : N) (k : nat) (a b : N * N) : N * N :=
  let value (c : N * N) := (fst c * 10 ^ (snd c - N.of_nat k))%N in
  let da := distance (value a) n in
  let db := distance (value b) n in
  if (da <? db)%N then a
  else if (db <? da)%N then b
  else if N.even (fst a) then a else b.

(** The candidates of [k] digits: next to [n] from below and from
    above, for each of the two numbers of places [n] can be written
    with. *)
Definition candidates (n : N) (k : nat) : list (N * N) :=
  let len := N.of_nat (String.length (decimalDigits n)) in
  flat_map (fun l =>
              if (N.of_nat k <=? l)%N
              then let p := (10 ^ (l - N.of_nat k))%N in
                   filter (fun c => names n p k (fst c))
                     [((n / p)%N, l); ((n / p + 1)%N, l)]
              else [])
           [len; (len + 1)%N].

(** The candidate of the fewest digits, from [k] digits on. *)
Fixpoint shortest (n : N) (fuel k : nat) : option (N * N) :=
  match fuel with
  | O => None
  | S fuel' =>
      match candidates n k with
      | c :: more => Some (fold_left (better n k) more c)
      | [] => shortest n fuel' (S k)
      end
  end.

Fixpoint zeros (count : nat) : string :=
  match count with
  | O => EmptyString
  | S c => String "0" (zeros c)
  end.

(** Seventeen digits name every double; the last case is for an [N]
    that is no double, which no number of the source is. *)
Definition numberToString (n : N) : string :=
  if (n <=? twoTo53)%N then decimalDigits n
  else if (infinity <=? n)%N then "Infinity"
  else
    match shortest n 17 1 with
    | Some (s, len) =>
        let digits := decimalDigits s in
        let k := N.of_nat (String.length digits) in
        if (len <=? 21)%N
        then digits ++ zeros (N.to_nat (len - k))
        else match digits with
             | String d EmptyString =>
                 String d ("e+" ++ decimalDigits (len - 1))
             | String d rest =>
                 String d ("." ++ rest ++ "e+" ++ decimalDigits (len - 1))
             | EmptyString => EmptyString
             end
    | None => decimalDigits n
    end.

End JsString.
Import JsString.

(** ** The regular expressions of the parser

    Each pattern of the source is written out as the function that decides
    it and returns its captures.  Every quantifier of these patterns is
    followed by a character it cannot itself match, so the greedy choice
    is the only one and no backtracking is modelled. *)

Module Regex.

Definition bind {A B : Type} (o : option A) (f : A -> option B) : option B :=
  match o with
  | Some a => f a
  | None => None
  end.

Notation "x <- e ;; k" := (bind e (fun x => k))
  (at level 61, e at next level, right associativity).

Definition isSome {A : Type} (o : option A) : bool :=
  match o with Some _ => true | None => false end.

(** [\s+] and what follows it. *)
Definition skipWhite1 (s : string) : option string :=
  match s with
  | String c r => if isWhite c then Some (trimStart r) else None
  | EmptyString => None
  end.

(** One character out of a class, and what follows it. *)
Definition oneOf (cls : ascii -> bool) (s : string) : option (ascii * string) :=
  match s with
  | String c r => if cls c then Some (c, r) else None
  | EmptyString => None
  end.

(** [\d+] and what follows it. *)
Definition digits1 (s : string) : option (string * string) :=
  let '(d, rest) := takeDigits s in
  if isEmpty d then None else Some (d, rest).

(** The counter comment, anchored at the front of [s]:
    [<!--\s*next-id:\s*(\d+)\s*-->]. *)
Definition matchCounterAt (s : string) : option string :=
  r1 <- stripPrefix "<!--" s ;;
  r2 <- stripPrefix "next-id:" (trimStart r1) ;;
  dr <- digits1 (trimStart r2) ;;
  _ <- stripPrefix "-->" (trimStart (snd dr)) ;;
  Some (fst dr).

(** [content.match(/<!--\s*next-id:\s*(\d+)\s*-->/)]: the leftmost match. *)
Fixpoint searchCounter (s : string) : option string :=
  match matchCounterAt s with
  | Some d => Some d
  | None =>
      match s with
      | EmptyString => None
      | String _ r => searchCounter r
      end
  end.

Definition isIdSeparator (c : ascii) : bool :=
  Ascii.eqb c "_" || Ascii.eqb c "-".

(** [TSK[_-]\d+] in front of [s]: the text matched and the rest. *)
Definition matchTsk (s : string) : option (string * string) :=
  r1 <- stripPrefix "TSK" s ;;
  cr <- oneOf isIdSeparator r1 ;;
  dr <- digits1 (snd cr) ;;
  Some ("TSK" ++ String (fst cr) (fst dr), snd dr).

(** [/^TSK[_-]\d+$/] *)
Definition isCanonicalId (s : string) : bool :=
  match matchTsk s with
  | Some (_, rest) => isEmpty rest
  | None => false
  end.

(** [/^(TSK[_-]\d+)\s+(.* )$/]: the id and the title behind it. *)
Definition matchTskTitle (s : string) : option (string * string) :=
  ir <- matchTsk s ;;
  rest <- skipWhite1 (snd ir) ;;
  if noLineTerminator rest then Some (fst ir, rest) else None.

Inductive PropertyKey :=
  | Kid | Kdue | Ktags | Kpriority | Kworkload | Ksteps
  | KdefaultExpanded | Kdesc | Kac | Kverify | Kfiles.

(** The alternation
    [(id|due|tags|priority|workload|steps|defaultExpanded|desc|ac|verify|files)],
    in its order. *)
Definition propertyKeys : list (PropertyKey * string) :=
  [ (Kid, "id"); (Kdue, "due"); (Ktags, "tags"); (Kpriority, "priority");
    (Kworkload, "workload"); (Ksteps, "steps");
    (KdefaultExpanded, "defaultExpanded"); (Kdesc, "desc"); (Kac, "ac");
    (Kverify, "verify"); (Kfiles, "files") ].

(** The first alternative of [alts] that, followed by [close], is in
    front of [s]. *)
Fixpoint firstAlternative {K : Type}
    (strip : string -> string -> option string)
    (alts : list (K * string)) (close s : string) : option (K * string) :=
  match alts with
  | [] => None
  | (k, name) :: more =>
      match strip (name ++ close) s with
      | Some r => Some (k, r)
      | None => firstAlternative strip more close s
      end
  end.

(** [/^\s*- (id|...|files):/] *)
Definition matchPropertyPrefix (s : string) : option (PropertyKey * string) :=
  r <- stripPrefix "- " (trimStart s) ;;
  firstAlternative stripPrefix propertyKeys ":" r.

Definition isCheckMark (c : ascii) : bool :=
  Ascii.eqb c " " || Ascii.eqb c "x".

(** [- \[([ x])\]] in front of [s]: the mark and the rest. *)
Definition matchBox (s : string) : option (ascii * string) :=
  r1 <- stripPrefix "- [" s ;;
  mr <- oneOf isCheckMark r1 ;;
  r2 <- stripPrefix "]" (snd mr) ;;
  Some (fst mr, r2).

(** [/^\s{6,}- \[([ x])\]/]: the mark and the rest. *)
Definition matchIndentedBox (s : string) : option (ascii * string) :=
  if (6 <=? countWhite s)%nat then matchBox (trimStart s) else None.

(** [/^\s{6,}- \[([ x])\]\s*(.* )$/]: the mark and the text. *)
Definition matchOldChecklistItem (s : string) : option (ascii * string) :=
  mr <- matchIndentedBox s ;;
  let text := trimStart (snd mr) in
  if noLineTerminator text then Some (fst mr, text) else None.

(** [/^-\s+\[([ x])\]\s+/]: the mark and the rest. *)
Definition matchChecklistPrefix (s : string) : option (ascii * string) :=
  r1 <- stripPrefix "-" s ;;
  r2 <- skipWhite1 r1 ;;
  r3 <- stripPrefix "[" r2 ;;
  mr <- oneOf isCheckMark r3 ;;
  r4 <- stripPrefix "]" (snd mr) ;;
  r5 <- skipWhite1 r4 ;;
  Some (fst mr, r5).

(** [/^-\s+\[([ x])\]\s+(.* )$/]: the mark and the text. *)
Definition matchChecklistItem (s : string) : option (ascii * string) :=
  mr <- matchChecklistPrefix s ;;
  if noLineTerminator (snd mr) then Some mr else None.

Inductive SectionName := SecAC | SecVerify | SecSteps | SecFiles.

(** The alternation [(AC|Verify|Steps|Files)], in its order. *)
Definition sectionNames : list (SectionName * string) :=
  [ (SecAC, "AC"); (SecVerify, "Verify"); (SecSteps, "Steps");
    (SecFiles, "Files") ].

(** [/^\*\*(AC|Verify|Steps|Files):\*\*/i]: the section and the rest. *)
Definition matchBoldPrefix (s : string) : option (SectionName * string) :=
  r <- stripPrefixCI "**" s ;;
  firstAlternative stripPrefixCI sectionNames ":**" r.

(** [/^\*\*(AC|Verify|Steps|Files):\*\*\s*(.* )$/i]: the section and the
    inline value. *)
Definition matchBoldSection (s : string) : option (SectionName * string) :=
  sr <- matchBoldPrefix s ;;
  let value := trimStart (snd sr) in
  if noLineTerminator value then Some (fst sr, value) else None.

(** [/^\s+- (id|...|files):\s*(.* )$/]: the key and the value. *)
Definition matchProperty (s : string) : option (PropertyKey * string) :=
  r1 <- skipWhite1 s ;;
  r2 <- stripPrefix "- " r1 ;;
  kr <- firstAlternative stripPrefix propertyKeys ":" r2 ;;
  let value := trimStart (snd kr) in
  if noLineTerminator value then Some (fst kr, value) else None.

(** What a greedy [.*] can take at most: the text in front of the first
    line terminator. *)
Fixpoint dotStar (s : string) : string :=
  match s with
  | EmptyString => EmptyString
  | String c r => if isLineTerminator c then EmptyString else String c (dotStar r)
  end.

(** The text in front of the last [c] of [s]. *)
Fixpoint beforeLast (c : ascii) (s : string) : option string :=
  match s with
  | EmptyString => None
  | String d r =>
      match beforeLast c r with
      | Some p => Some (String d p)
      | None => if Ascii.eqb d c then Some EmptyString else None
      end
  end.

(** [value.match(/\[(.* )\]/)]: the capture of the leftmost match. *)
Fixpoint searchBracketed (s : string) : option string :=
  match s with
  | EmptyString => None
  | String c r =>
      if Ascii.eqb c "["
      then match beforeLast "]" (dotStar r) with
           | Some inner => Some inner
           | None => searchBracketed r
           end
      else searchBracketed r
  end.

(** The text behind the first occurrence of the literal [p] in [s]. *)
Fixpoint afterFirst (p s : string) : option string :=
  match stripPrefix p s with
  | Some r => Some r
  | None =>
      match s with
      | EmptyString => None
      | String _ r => afterFirst p r
      end
  end.

(** [/^!\[.*\]\(.*\)/] *)
Definition matchImage (s : string) : bool :=
  match stripPrefix "![" s with
  | Some r =>
      match afterFirst "](" (dotStar r) with
      | Some r' => isSome (afterFirst ")" r')
      | None => false
      end
  | None => false
  end.

(** [/^\s{4,}/] *)
Definition matchIndent4 (s : string) : bool := (4 <=? countWhite s)%nat.

(** [s.replace(/\s*\[Archived\]$/, '')]: the leftmost place from which
    only white space and the marker remain is where the text is cut. *)
Fixpoint stripArchived (s : string) : string :=
  if String.eqb (trimStart s) "[Archived]" then EmptyString
  else match s with
       | EmptyString => EmptyString
       | String c r => String c (stripArchived r)
       end.

End Regex.
Import Regex.

(** ** The board model ([KanbanTask], [KanbanColumn], [KanbanBoard]) *)

Inductive Priority := Low | Medium | High.
Inductive Workload := Easy | Normal | Hard | Extreme.
Inductive ChecklistKey := Steps | Ac | Verify.

Record ChecklistItem := {
  item_text : string;
  item_completed : bool
}.

Record KanbanTask := {
  task_id : string;
  task_title : string;
  description : option string;
  tags : option (list string);
  priority : option Priority;
  workload : option Workload;
  dueDate : option string;
  startDate : option string;
  defaultExpanded : option bool;
  steps : option (list ChecklistItem);
  ac : option (list ChecklistItem);
  verify : option (list ChecklistItem);
  files : option string
}.

Record KanbanColumn := {
  col_id : string;
  col_title : string;
  col_tasks : list KanbanTask;
  col_archived : option bool
}.

Record KanbanBoard := {
  board_title : string;
  board_columns : list KanbanColumn;
  board_nextId : N
}.

Definition priorityName (p : Priority) : string :=
  match p with Low => "low" | Medium => "medium" | High => "high" end.

Definition workloadName (w : Workload) : string :=
  match w with
  | Easy => "Easy" | Normal => "Normal" | Hard => "Hard" | Extreme => "Extreme"
  end.

(** [['low', 'medium', 'high'].includes(s)], with the member found. *)
Definition priorityOfString (s : string) : option Priority :=
  if String.eqb s "low" then Some Low
  else if String.eqb s "medium" then Some Medium
  else if String.eqb s "high" then Some High
  else None.

(** [['Easy', 'Normal', 'Hard', 'Extreme'].includes(s)], with the member found. *)
Definition workloadOfString (s : string) : option Workload :=
  if String.eqb s "Easy" then Some Easy
  else if String.eqb s "Normal" then Some Normal
  else if String.eqb s "Hard" then Some Hard
  else if String.eqb s "Extreme" then Some Extreme
  else None.

(** Assignments to one property of a task. *)
Definition set_id (t : KanbanTask) (v : string) : KanbanTask :=
  {| task_id := v; task_title := task_title t; description := description t;
     tags := tags t; priority := priority t; workload := workload t;
     dueDate := dueDate t; startDate := startDate t;
     defaultExpanded := defaultExpanded t; steps := steps t; ac := ac t;
     verify := verify t; files := files t |}.

Definition set_description (t : KanbanTask) (v : option string) : KanbanTask :=
  {| task_id := task_id t; task_title := task_title t; description := v;
     tags := tags t; priority := priority t; workload := workload t;
     dueDate := dueDate t; startDate := startDate t;
     defaultExpanded := defaultExpanded t; steps := steps t; ac := ac t;
     verify := verify t; files := files t |}.

Definition set_tags (t : KanbanTask) (v : option (list string)) : KanbanTask :=
  {| task_id := task_id t; task_title := task_title t;
     description := description t; tags := v; priority := priority t;
     workload := workload t; dueDate := dueDate t; startDate := startDate t;
     defaultExpanded := defaultExpanded t; steps := steps t; ac := ac t;
     verify := verify t; files := files t |}.

Definition set_priority (t : KanbanTask) (v : option Priority) : KanbanTask :=
  {| task_id := task_id t; task_title := task_title t;
     description := description t; tags := tags t; priority := v;
     workload := workload t; dueDate := dueDate t; startDate := startDate t;
     defaultExpanded := defaultExpanded t; steps := steps t; ac := ac t;
     verify := verify t; files := files t |}.

Definition set_workload (t : KanbanTask) (v : option Workload) : KanbanTask :=
  {| task_id := task_id t; task_title := task_title t;
     description := description t; tags := tags t; priority := priority t;
     workload := v; dueDate := dueDate t; startDate := startDate t;
     defaultExpanded := defaultExpanded t; steps := steps t; ac := ac t;
     verify := verify t; files := files t |}.

Definition set_dueDate (t : KanbanTask) (v : option string) : KanbanTask :=
  {| task_id := task_id t; task_title := task_title t;
     description := description t; tags := tags t; priority := priority t;
     workload := workload t; dueDate := v; startDate := startDate t;
     defaultExpanded := defaultExpanded t; steps := steps t; ac := ac t;
     verify := verify t; files := files t |}.

Definition set_defaultExpanded (t : KanbanTask) (v : option bool) : KanbanTask :=
  {| task_id := task_id t; task_title := task_title t;
     description := description t; tags := tags t; priority := priority t;
     workload := workload t; dueDate := dueDate t; startDate := startDate t;
     defaultExpanded := v; steps := steps t; ac := ac t;
     verify := verify t; files := files t |}.

Definition set_files (t : KanbanTask) (v : option string) : KanbanTask :=
  {| task_id := task_id t; task_title := task_title t;
     description := description t; tags := tags t; priority := priority t;
     workload := workload t; dueDate := dueDate t; startDate := startDate t;
     defaultExpanded := defaultExpanded t; steps := steps t; ac := ac t;
     verify := verify t; files := v |}.

(** [task[key]] and [task[key] = v] for a checklist key. *)
Definition getList (t : KanbanTask) (key : ChecklistKey)
  : option (list ChecklistItem) :=
  match key with Steps => steps t | Ac => ac t | Verify => verify t end.

Definition setList (t : KanbanTask) (key : ChecklistKey)
    (v : option (list ChecklistItem)) : KanbanTask :=
  {| task_id := task_id t; task_title := task_title t;
     description := description t; tags := tags t; priority := priority t;
     workload := workload t; dueDate := dueDate t; startDate := startDate t;
     defaultExpanded := defaultExpanded t;
     steps := match key with Steps => v | _ => steps t end;
     ac := match key with Ac => v | _ => ac t end;
     verify := match key with Verify => v | _ => verify t end;
     files := files t |}.

Definition set_tasks (c : KanbanColumn) (ts : list KanbanTask) : KanbanColumn :=
  {| col_id := col_id c; col_title := col_title c; col_tasks := ts;
     col_archived := col_archived c |}.

Definition set_archived (c : KanbanColumn) (v : option bool) : KanbanColumn :=
  {| col_id := col_id c; col_title := col_title c; col_tasks := col_tasks c;
     col_archived := v |}.

Definition set_columns (b : KanbanBoard) (cs : list KanbanColumn) : KanbanBoard :=
  {| board_title := board_title b; board_columns := cs;
     board_nextId := board_nextId b |}.

(** Truthiness of an optional string: defined and not empty. *)
Definition truthyOpt (o : option string) : bool :=
  match o with Some s => truthy s | None => false end.

(** The ids of all tasks of a board, in column and task order. *)
Definition columnIds (c : KanbanColumn) : list string :=
  map task_id (col_tasks c).

Definition taskIds (cs : list KanbanColumn) : list string :=
  flat_map columnIds cs.

(** ** The parser: [MarkdownKanbanParser.parseMarkdown] *)

(** The local variables of [parseMarkdown] that the loop over the lines
    reads and writes, the title and the columns of the board under
    construction among them; [generated] counts the calls of [generateId]. *)
Record ParserState := {
  st_title : string;
  st_columns : list KanbanColumn;
  currentColumn : option KanbanColumn;
  currentTask : option KanbanTask;
  inTaskBody : bool;
  inCodeBlock : bool;
  activeListKey : option ChecklistKey;
  collectingDescription : bool;
  generated : nat
}.

Definition initialState : ParserState :=
  {| st_title := EmptyString; st_columns := []; currentColumn := None;
     currentTask := None; inTaskBody := false; inCodeBlock := false;
     activeListKey := None; collectingDescription := false; generated := 0 |}.

(** [description = description ? description + '\n' + s : s] *)
Definition appendDescription (t : KanbanTask) (s : string) : KanbanTask :=
  set_description t
    (Some (match description t with
           | Some d => if truthy d then d ++ String LF s else s
           | None => s
           end)).

Definition checklistItem (mark : ascii) (s : string) : ChecklistItem :=
  {| item_text := trim s; item_completed := Ascii.eqb mark "x" |}.

(** [isTaskTitle(line, trimmedLine)] *)
Definition isTaskTitle (line trimmedLine : string) : bool :=
  if startsWith line "- " &&
     (isSome (matchPropertyPrefix trimmedLine) || isSome (matchIndentedBox line))
  then false
  else if isSome (matchChecklistPrefix trimmedLine) then false
  else if isSome (matchBoldPrefix trimmedLine) then false
  else (startsWith line "- " && negb (startsWith line "  "))
       || startsWith trimmedLine "### ".

(** [parseTaskProperty(line, task)]: [None] is [false], otherwise the key
    and the task as the call leaves it. *)
Definition parseTaskProperty (line : string) (task : KanbanTask)
  : option (PropertyKey * KanbanTask) :=
  match matchProperty line with
  | None => None
  | Some (propertyName, propertyValue) =>
      let value := trim propertyValue in
      Some (propertyName,
        match propertyName with
        | Kid => if truthy value then set_id task value else task
        | Kdue => set_dueDate task (Some value)
        | Ktags =>
            match searchBracketed value with
            | Some inner => set_tags task (Some (map trim (split "," inner)))
            | None => task
            end
        | Kpriority =>
            match priorityOfString value with
            | Some p => set_priority task (Some p)
            | None => task
            end
        | Kworkload =>
            match workloadOfString value with
            | Some w => set_workload task (Some w)
            | None => task
            end
        | KdefaultExpanded =>
            set_defaultExpanded task
              (Some (String.eqb (toLowerCase value) "true"))
        | Ksteps => setList task Steps (Some [])
        | Kac => setList task Ac (Some [])
        | Kverify => setList task Verify (Some [])
        | Kfiles => set_files task (Some value)
        | Kdesc => if truthy value then appendDescription task value else task
        end)
  end.

(** [parseOldChecklistItem(line, task, listKey)]: [None] is [false],
    otherwise the task with the item pushed. *)
Definition parseOldChecklistItem (line : string) (task : KanbanTask)
    (listKey : option ChecklistKey) : option KanbanTask :=
  match listKey with
  | None => None
  | Some key =>
      match getList task key with
      | None => None
      | Some targetList =>
          match matchOldChecklistItem line with
          | None => None
          | Some (checkmark, s) =>
              Some (setList task key
                      (Some (targetList ++ [checklistItem checkmark s])%list))
          end
      end
  end.

(** [finalizeCurrentTask(task, column)]: the column as the call leaves it. *)
Definition finalizeCurrentTask (task : option KanbanTask)
    (column : option KanbanColumn) : option KanbanColumn :=
  match task, column with
  | Some t, Some c =>
      let t' :=
        match description t with
        | Some d =>
            if truthy d
            then let d' := trim d in
                 set_description t (if isEmpty d' then None else Some d')
            else t
        | None => t
        end in
      Some (set_tasks c (col_tasks c ++ [t'])%list)
  | _, _ => column
  end.

Definition keyOfProperty (k : PropertyKey) : option ChecklistKey :=
  match k with
  | Ksteps => Some Steps
  | Kac => Some Ac
  | Kverify => Some Verify
  | _ => None
  end.

Definition keyOfSection (s : SectionName) : option ChecklistKey :=
  match s with
  | SecSteps => Some Steps
  | SecAC => Some Ac
  | SecVerify => Some Verify
  | SecFiles => None
  end.

Section Parser.

(** The supply behind [generateId]. *)
Variable gen : nat -> string.

(** The blockquote line [> tags | priority] on the open task. *)
Definition parseMetadata (trimmedLine : string) (t : KanbanTask) : KanbanTask :=
  let metaContent := trim (substringFrom 2 trimmedLine) in
  let parts := map trim (split "|" metaContent) in
  let tagsPart := hd EmptyString parts in
  let priorityPart := nth_error parts 1 in
  let t1 :=
    if truthy tagsPart
    then set_tags t (Some (filter truthy (map trim (split "," tagsPart))))
    else t in
  match priorityPart with
  | Some p =>
      if truthy p
      then match priorityOfString (toLowerCase p) with
           | Some pr => set_priority t1 (Some pr)
           | None => t1
           end
      else t1
  | None => t1
  end.

(** The body of the loop inside an open task, behind the test for an
    empty line.  The boolean asks for the line to be processed again
    (the [i--] of the source). *)
Definition taskBodyLine (st : ParserState) (t : KanbanTask)
    (line trimmedLine : string) : ParserState * bool :=
  let keep (t' : KanbanTask) (key : option ChecklistKey) (collecting : bool) :=
    ({| st_title := st_title st; st_columns := st_columns st;
        currentColumn := currentColumn st; currentTask := Some t';
        inTaskBody := inTaskBody st; inCodeBlock := inCodeBlock st;
        activeListKey := key; collectingDescription := collecting;
        generated := generated st |}, false) in
  if startsWith trimmedLine "> "
  then keep (parseMetadata trimmedLine t) None true
  else
  match matchBoldSection trimmedLine with
  | Some (sectionName, inline) =>
      let inlineValue := trim inline in
      match keyOfSection sectionName with
      | None =>
          keep (if truthy inlineValue then set_files t (Some inlineValue) else t)
               None false
      | Some key =>
          keep (setList t key
                  (Some (match getList t key with Some l => l | None => [] end)))
               (Some key) false
      end
  | None =>
  match matchChecklistItem trimmedLine, activeListKey st with
  | Some (mark, s), Some key =>
      keep (match getList t key with
            | Some targetList =>
                setList t key (Some (targetList ++ [checklistItem mark s])%list)
            | None => t
            end)
           (Some key) false
  | _, _ =>
  match parseTaskProperty line t with
  | Some (parsedKey, t') => keep t' (keyOfProperty parsedKey) false
  | None =>
  match parseOldChecklistItem line t (activeListKey st) with
  | Some t' => keep t' (activeListKey st) (collectingDescription st)
  | None =>
  if matchImage trimmedLine
  then keep (appendDescription t trimmedLine)
            (activeListKey st) (collectingDescription st)
  else if collectingDescription st && negb (isSome (activeListKey st))
  then keep (appendDescription t trimmedLine)
            (activeListKey st) (collectingDescription st)
  else if isSome (description t) && matchIndent4 line
          && negb (String.eqb trimmedLine EmptyString)
  then keep (appendDescription t trimmedLine)
            (activeListKey st) (collectingDescription st)
  else
    ({| st_title := st_title st; st_columns := st_columns st;
        currentColumn := finalizeCurrentTask (Some t) (currentColumn st);
        currentTask := None; inTaskBody := false;
        inCodeBlock := inCodeBlock st; activeListKey := None;
        collectingDescription := false; generated := generated st |}, true)
  end end end end.

(** The title text of a task header, before the id is looked for. *)
Definition headerTitle (trimmedLine : string) : string :=
  if startsWith trimmedLine "### "
  then trim (substringFrom 4 trimmedLine)
  else
    let s := trim (substringFrom 2 trimmedLine) in
    if startsWith s "[ ] " || startsWith s "[x] "
    then trim (substringFrom 4 s) else s.

(** The task a header opens. *)
Definition newTask (i t : string) : KanbanTask :=
  {| task_id := i; task_title := t; description := Some EmptyString;
     tags := None; priority := None; workload := None; dueDate := None;
     startDate := None; defaultExpanded := None; steps := None; ac := None;
     verify := None; files := None |}.

(** One pass through the body of the loop, on one line. *)
Definition step (st : ParserState) (line : string) : ParserState * bool :=
  let trimmedLine := trim line in
  if startsWith trimmedLine "<!--" && endsWith trimmedLine "-->"
  then (st, false)
  else if startsWith trimmedLine "```"
  then ({| st_title := st_title st; st_columns := st_columns st;
           currentColumn := currentColumn st; currentTask := currentTask st;
           inTaskBody := inTaskBody st; inCodeBlock := negb (inCodeBlock st);
           activeListKey := activeListKey st;
           collectingDescription := collectingDescription st;
           generated := generated st |}, false)
  else if inCodeBlock st then (st, false)
  else if startsWith trimmedLine "# " && negb (truthy (st_title st))
  then ({| st_title := trim (substringFrom 2 trimmedLine);
           st_columns := st_columns st;
           currentColumn := finalizeCurrentTask (currentTask st) (currentColumn st);
           currentTask := None; inTaskBody := false;
           inCodeBlock := inCodeBlock st; activeListKey := None;
           collectingDescription := false; generated := generated st |}, false)
  else if startsWith trimmedLine "## "
  then
    let finished := finalizeCurrentTask (currentTask st) (currentColumn st) in
    let columnTitle := trim (substringFrom 3 trimmedLine) in
    let isArchived := endsWith columnTitle "[Archived]" in
    ({| st_title := st_title st;
        st_columns := match finished with
                      | Some c => (st_columns st ++ [c])%list
                      | None => st_columns st
                      end;
        currentColumn :=
          Some {| col_id := gen (generated st);
                  col_title := if isArchived
                               then trim (stripArchived columnTitle)
                               else columnTitle;
                  col_tasks := [];
                  col_archived := Some isArchived |};
        currentTask := None; inTaskBody := false;
        inCodeBlock := inCodeBlock st; activeListKey := None;
        collectingDescription := false; generated := S (generated st) |}, false)
  else if isTaskTitle line trimmedLine
  then
    match currentColumn st with
    | Some _ =>
        let taskTitle := headerTitle trimmedLine in
        let tskMatch := matchTskTitle taskTitle in
        ({| st_title := st_title st; st_columns := st_columns st;
            currentColumn :=
              finalizeCurrentTask (currentTask st) (currentColumn st);
            currentTask :=
              Some (match tskMatch with
                    | Some (i, t) => newTask i t
                    | None => newTask (gen (generated st)) taskTitle
                    end);
            inTaskBody := true; inCodeBlock := inCodeBlock st;
            activeListKey := None; collectingDescription := false;
            generated := match tskMatch with
                         | Some _ => generated st
                         | None => S (generated st)
                         end |}, false)
    | None => (st, false)
    end
  else
    match currentTask st with
    | Some t =>
        if inTaskBody st
        then if String.eqb trimmedLine EmptyString then (st, false)
             else taskBodyLine st t line trimmedLine
        else (st, false)
    | None => (st, false)
    end.

(** The loop over the lines.  A line is presented again when [step] asks
    for it; [fuel] bounds the number of passes through the body. *)
Fixpoint run (fuel : nat) (st : ParserState) (lines : list string)
  : option ParserState :=
  match lines with
  | [] => Some st
  | line :: rest =>
      match fuel with
      | O => None
      | S fuel' =>
          let '(st', again) := step st line in
          if again then run fuel' st' lines else run fuel' st' rest
      end
  end.

(** What the loop does with one line: the line and its second
    presentation, when the first asks for one. *)
Definition stepLine (st : ParserState) (line : string) : ParserState :=
  let '(st', again) := step st line in
  if again then fst (step st' line) else st'.

(** The state of the loop behind the lines [lines]. *)
Definition stateAfter (st : ParserState) (lines : list string) : ParserState :=
  fold_left stepLine lines st.

(** The last pass: every task whose id is not canonical takes the id of
    the counter. *)
Fixpoint assignTasks (nextId : N) (ts : list KanbanTask)
  : list KanbanTask * N :=
  match ts with
  | [] => ([], nextId)
  | t :: rest =>
      if isCanonicalId (task_id t)
      then let '(rest', n) := assignTasks nextId rest in (t :: rest', n)
      else let '(rest', n) := assignTasks (increment nextId) rest in
           (set_id t ("TSK_" ++ numberToString nextId) :: rest', n)
  end.

Fixpoint assignColumns (nextId : N) (cs : list KanbanColumn)
  : list KanbanColumn * N :=
  match cs with
  | [] => ([], nextId)
  | c :: rest =>
      let '(ts, n) := assignTasks nextId (col_tasks c) in
      let '(rest', n') := assignColumns n rest in
      (set_tasks c ts :: rest', n')
  end.

(** The counter the text declares: [board.nextId] before the last pass. *)
Definition declaredNextId (content : string) : N :=
  match searchCounter content with
  | Some d => parseInt d
  | None => 1%N
  end.

Definition splitLines (content : string) : list string :=
  split LF (replaceCR (replaceCRLF content)).

(** The columns at the end of the loop, the open task and column added. *)
Definition closeColumns (st : ParserState) : list KanbanColumn :=
  match finalizeCurrentTask (currentTask st) (currentColumn st) with
  | Some c => (st_columns st ++ [c])%list
  | None => st_columns st
  end.

(** The board of the final state of the loop: the open task and column
    are closed, and the last pass assigns the ids. *)
Definition boardOfState (nextId : N) (st : ParserState) : KanbanBoard :=
  let '(cs, n) := assignColumns nextId (closeColumns st) in
  {| board_title := st_title st; board_columns := cs; board_nextId := n |}.

(** [parseMarkdown] on the lines of a text, the counter given. *)
Definition parseLines (nextId : N) (lines : list string) : option KanbanBoard :=
  match run (2 * length lines) initialState lines with
  | Some st => Some (boardOfState nextId st)
  | None => None
  end.

Definition parseMarkdown (content : string) : option KanbanBoard :=
  parseLines (declaredNextId content) (splitLines content).

End Parser.

(** ** The serializer: [MarkdownKanbanParser.generateMarkdown] *)

Inductive TaskHeaderFormat := TitleFormat | ListFormat.

Definition checkbox (item : ChecklistItem) : string :=
  if item_completed item then "[x]" else "[ ]".

Definition newline : string := String LF EmptyString.

(** One checklist under its bold header, or nothing for an absent or
    empty list. *)
Definition generateChecklist (header : string)
    (items : option (list ChecklistItem)) : string :=
  match items with
  | Some (i :: l) =>
      newline ++ header ++ newline ++
      String.concat EmptyString
        (map (fun item => "- " ++ checkbox item ++ " " ++ item_text item ++ newline)
             (i :: l))
  | _ => EmptyString
  end.

Definition headerPrefix (fmt : TaskHeaderFormat) : string :=
  match fmt with TitleFormat => "### " | ListFormat => "- " end.

(** The text of a header behind its marker: the id, when canonical, and
    the title. *)
Definition headerText (task : KanbanTask) : string :=
  (if truthy (task_id task) && isCanonicalId (task_id task)
   then task_id task ++ " " else EmptyString) ++ task_title task.

Definition metaParts (task : KanbanTask) : list string :=
  (match tags task with
   | Some (t :: l) => [join ", " (t :: l)]
   | _ => []
   end ++
   match priority task with
   | Some p => [priorityName p]
   | None => []
   end)%list.

(** What follows the header line of a task. *)
Definition generateTaskBody (task : KanbanTask) : string :=
  (match metaParts task with
   | [] => EmptyString
   | parts => "> " ++ join " | " parts ++ newline
   end) ++
  (match description task with
   | Some d =>
       if truthy d && negb (String.eqb (trim d) EmptyString)
       then newline ++ trim d ++ newline else EmptyString
   | None => EmptyString
   end) ++
  (match dueDate task with
   | Some d => if truthy d then newline ++ "**Due:** " ++ d ++ newline
               else EmptyString
   | None => EmptyString
   end) ++
  (match workload task with
   | Some w => newline ++ "**Workload:** " ++ workloadName w ++ newline
   | None => EmptyString
   end) ++
  generateChecklist "**Steps:**" (steps task) ++
  generateChecklist "**AC:**" (ac task) ++
  generateChecklist "**Verify:**" (verify task) ++
  (match files task with
   | Some f => if truthy f then newline ++ "**Files:** " ++ f ++ newline
               else EmptyString
   | None => EmptyString
   end) ++
  newline.

Definition generateTask (fmt : TaskHeaderFormat) (task : KanbanTask) : string :=
  headerPrefix fmt ++ headerText task ++ newline ++ generateTaskBody task.

Definition columnHeading (column : KanbanColumn) : string :=
  match col_archived column with
  | Some true => col_title column ++ " [Archived]"
  | _ => col_title column
  end.

Definition generateColumn (fmt : TaskHeaderFormat) (column : KanbanColumn)
  : string :=
  "## " ++ columnHeading column ++ newline ++ newline ++
  String.concat EmptyString (map (generateTask fmt) (col_tasks column)).

Definition generateMarkdown (board : KanbanBoard) (fmt : TaskHeaderFormat)
  : string :=
  "<!-- next-id: " ++ numberToString (board_nextId board) ++ " -->" ++ newline ++
  (if truthy (board_title board)
   then "# " ++ board_title board ++ newline ++ newline else EmptyString) ++
  String.concat EmptyString (map (generateColumn fmt) (board_columns board)).

(** ** The mutations of the board: [KanbanWebviewPanel]

    Each mutation is the action handed to [performAction], as a function
    of the board.  The source mutates the board in place; the functions
    return the board the action leaves behind. *)

(** [taskData], as [addTask] and [editTask] read it. *)
Record TaskData := {
  td_title : string;
  td_description : option string;
  td_tags : option (list string);
  td_priority : option Priority;
  td_workload : option Workload;
  td_dueDate : option string;
  td_defaultExpanded : option bool;
  td_steps : option (list ChecklistItem)
}.

(** *** Arrays *)

(** Where [splice(start, ...)] begins in an array of [len] elements: a
    negative [start] counts from the end, and both ends clamp. *)
Definition spliceStart (len : nat) (start : Z) : nat :=
  if (start <? 0)%Z
  then Z.to_nat (Z.max (Z.of_nat len + start) 0)
  else Nat.min (Z.to_nat start) len.

(** The array behind [splice(i, 1)]. *)
Definition removeAt {A : Type} (i : nat) (l : list A) : list A :=
  (firstn i l ++ skipn (S i) l)%list.

(** The array behind [splice(i, 0, x)]. *)
Definition insertAt {A : Type} (i : nat) (x : A) (l : list A) : list A :=
  (firstn i l ++ x :: skipn i l)%list.

(** [l.findIndex(p)]; [None] is -1. *)
Fixpoint findIndex {A : Type} (p : A -> bool) (l : list A) : option nat :=
  match l with
  | [] => None
  | x :: r => if p x then Some O else option_map S (findIndex p r)
  end.

(** The array with its first element that satisfies [p] replaced by its
    image under [f]: an update, in place, of the object [l.find(p)]. *)
Fixpoint updateFirst {A : Type} (p : A -> bool) (f : A -> A) (l : list A)
  : list A :=
  match l with
  | [] => []
  | x :: r => if p x then f x :: r else x :: updateFirst p f r
  end.

(** An index the source accepts for an array of [len] elements. *)
Definition inRange (len : nat) (i : Z) : bool :=
  ((0 <=? i) && (i <? Z.of_nat len))%Z.

(** *** Look-up *)

Definition hasColumnId (columnId : string) (c : KanbanColumn) : bool :=
  String.eqb (col_id c) columnId.

Definition hasTaskId (taskId : string) (t : KanbanTask) : bool :=
  String.eqb (task_id t) taskId.

(** [findColumn(columnId)] *)
Definition findColumn (b : KanbanBoard) (columnId : string)
  : option KanbanColumn :=
  find (hasColumnId columnId) (board_columns b).

(** [findTask(columnId, taskId)], without the index. *)
Definition findTask (b : KanbanBoard) (columnId taskId : string)
  : option (KanbanColumn * KanbanTask) :=
  match findColumn b columnId with
  | None => None
  | Some column =>
      match find (hasTaskId taskId) (col_tasks column) with
      | None => None
      | Some task => Some (column, task)
      end
  end.

(** The board with the column [findColumn] returns updated in place. *)
Definition updateColumn (b : KanbanBoard) (columnId : string)
    (f : KanbanColumn -> KanbanColumn) : KanbanBoard :=
  set_columns b (updateFirst (hasColumnId columnId) f (board_columns b)).

(** The board with the task [findTask] returns updated in place. *)
Definition updateTask (b : KanbanBoard) (columnId taskId : string)
    (f : KanbanTask -> KanbanTask) : KanbanBoard :=
  updateColumn b columnId
    (fun c => set_tasks c (updateFirst (hasTaskId taskId) f (col_tasks c))).

(** *** The actions *)

Definition moveTask (taskId fromColumnId toColumnId : string) (newIndex : Z)
    (b : KanbanBoard) : KanbanBoard :=
  match findColumn b fromColumnId, findColumn b toColumnId with
  | Some fromColumn, Some _ =>
      match findIndex (hasTaskId taskId) (col_tasks fromColumn) with
      | None => b
      | Some taskIndex =>
          match nth_error (col_tasks fromColumn) taskIndex with
          | None => b
          | Some task =>
              let b1 := updateColumn b fromColumnId
                          (fun c => set_tasks c (removeAt taskIndex (col_tasks c))) in
              updateColumn b1 toColumnId
                (fun c => set_tasks c
                   (insertAt (spliceStart (length (col_tasks c)) newIndex)
                             task (col_tasks c)))
          end
      end
  | _, _ => b
  end.

(** [_getNextTaskId()]: the id, and the board with the counter advanced. *)
Definition getNextTaskId (b : KanbanBoard) : string * KanbanBoard :=
  ("TSK_" ++ numberToString (board_nextId b),
   {| board_title := board_title b; board_columns := board_columns b;
      board_nextId := increment (board_nextId b) |}).

Definition orEmpty {A : Type} (o : option (list A)) : list A :=
  match o with Some l => l | None => [] end.

(** The object literal [newTask] of [addTask]. *)
Definition taskOfData (newId : string) (taskData : TaskData) : KanbanTask :=
  {| task_id := newId; task_title := td_title taskData;
     description := td_description taskData;
     tags := Some (orEmpty (td_tags taskData));
     priority := td_priority taskData;
     workload := td_workload taskData;
     dueDate := td_dueDate taskData; startDate := None;
     defaultExpanded := td_defaultExpanded taskData;
     steps := Some (orEmpty (td_steps taskData));
     ac := None; verify := None; files := None |}.

Definition addTask (columnId : string) (taskData : TaskData) (b : KanbanBoard)
  : KanbanBoard :=
  match findColumn b columnId with
  | None => b
  | Some _ =>
      let '(newId, b1) := getNextTaskId b in
      updateColumn b1 columnId
        (fun c => set_tasks c (col_tasks c ++ [taskOfData newId taskData])%list)
  end.

Definition deleteTask (taskId columnId : string) (b : KanbanBoard)
  : KanbanBoard :=
  match findColumn b columnId with
  | None => b
  | Some column =>
      match findIndex (hasTaskId taskId) (col_tasks column) with
      | None => b
      | Some taskIndex =>
          updateColumn b columnId
            (fun c => set_tasks c (removeAt taskIndex (col_tasks c)))
      end
  end.

(** [Object.assign(task, {...})] of [editTask]. *)
Definition assignTaskData (taskData : TaskData) (t : KanbanTask) : KanbanTask :=
  {| task_id := task_id t; task_title := td_title taskData;
     description := td_description taskData;
     tags := Some (orEmpty (td_tags taskData));
     priority := td_priority taskData; workload := td_workload taskData;
     dueDate := td_dueDate taskData; startDate := startDate t;
     defaultExpanded := td_defaultExpanded taskData;
     steps := Some (orEmpty (td_steps taskData));
     ac := ac t; verify := verify t; files := files t |}.

Definition editTask (taskId columnId : string) (taskData : TaskData)
    (b : KanbanBoard) : KanbanBoard :=
  match findTask b columnId taskId with
  | None => b
  | Some _ => updateTask b columnId taskId (assignTaskData taskData)
  end.

(** [checklist[i].completed = completed].  The assignment changes an
    object, and one object can stand in more than one slot of the steps:
    [reorderTaskSteps] with an index named twice puts it there.  A
    checklist here is the list of the values of its slots, and what the
    slots share is given with the request: [shared j] says that slot
    [j] holds the very object of slot [i].  The assignment then shows in
    slot [i] and in every such slot. *)
Definition unshared : nat -> bool := fun _ => false.

Definition complete (done : bool) (item : ChecklistItem) : ChecklistItem :=
  {| item_text := item_text item; item_completed := done |}.

Fixpoint completeFrom (shared : nat -> bool) (i : nat) (done : bool)
    (j : nat) (l : list ChecklistItem) : list ChecklistItem :=
  match l with
  | [] => []
  | item :: rest =>
      (if (j =? i)%nat || shared j then complete done item else item)
      :: completeFrom shared i done (S j) rest
  end.

Definition setCompleted (shared : nat -> bool) (i : nat) (done : bool)
    (l : list ChecklistItem) : list ChecklistItem :=
  match nth_error l i with
  | Some _ => completeFrom shared i done 0 l
  | None => l
  end.

(** [listKey] is one of the three keys the board surface sends. *)
Definition updateChecklistItem (shared : nat -> bool) (taskId columnId : string)
    (listKey : ChecklistKey) (stepIndex : Z) (done : bool) (b : KanbanBoard)
  : KanbanBoard :=
  match findTask b columnId taskId with
  | None => b
  | Some (_, task) =>
      match getList task listKey with
      | None => b
      | Some checklist =>
          if negb (inRange (length checklist) stepIndex) then b
          else updateTask b columnId taskId
                 (fun t => setList t listKey
                    (Some (setCompleted shared (Z.to_nat stepIndex) done
                             checklist)))
      end
  end.

Definition updateTaskStep (shared : nat -> bool) (taskId columnId : string)
    (stepIndex : Z) (done : bool) (b : KanbanBoard) : KanbanBoard :=
  match findTask b columnId taskId with
  | None => b
  | Some (_, task) =>
      match steps task with
      | None => b
      | Some l =>
          if negb (inRange (length l) stepIndex) then b
          else updateTask b columnId taskId
                 (fun t => setList t Steps
                    (Some (setCompleted shared (Z.to_nat stepIndex) done l)))
      end
  end.

(** [newOrder.filter(in range).map(index => originalSteps[index])]: an
    index named twice gives two slots with one object. *)
Fixpoint reorder (originalSteps : list ChecklistItem) (newOrder : list Z)
  : list ChecklistItem :=
  match newOrder with
  | [] => []
  | index :: more =>
      if inRange (length originalSteps) index
      then match nth_error originalSteps (Z.to_nat index) with
           | Some item => item :: reorder originalSteps more
           | None => reorder originalSteps more
           end
      else reorder originalSteps more
  end.

Definition reorderTaskSteps (taskId columnId : string) (newOrder : list Z)
    (b : KanbanBoard) : KanbanBoard :=
  match findTask b columnId taskId with
  | None => b
  | Some (_, task) =>
      match steps task with
      | None => b
      | Some originalSteps =>
          updateTask b columnId taskId
            (fun t => setList t Steps (Some (reorder originalSteps newOrder)))
      end
  end.

(** [addColumn(title)]; [freshId] is what [Math.random] gives. *)
Definition addColumn (freshId columnTitle : string) (b : KanbanBoard)
  : KanbanBoard :=
  set_columns b
    (board_columns b ++
     [{| col_id := freshId; col_title := columnTitle; col_tasks := [];
         col_archived := None |}])%list.

(** The columns array as [moveColumn] leaves it.  An entry [None] is
    [undefined]: what [columns.splice(fromIndex, 1)[0]] is when the splice
    removed nothing, and what the second splice then inserts. *)
Definition moveColumnSlots (fromIndex toIndex : Z) (columns : list KanbanColumn)
  : list (option KanbanColumn) :=
  if (fromIndex =? toIndex)%Z then map Some columns
  else
    let start := spliceStart (length columns) fromIndex in
    let column := nth_error columns start in
    let rest := removeAt start columns in
    insertAt (spliceStart (length rest) toIndex) column (map Some rest).

(** The columns of an array without an undefined entry. *)
Fixpoint definedColumns (slots : list (option KanbanColumn))
  : option (list KanbanColumn) :=
  match slots with
  | [] => Some []
  | None :: _ => None
  | Some c :: r => option_map (cons c) (definedColumns r)
  end.

(** [moveColumn(fromIndex, toIndex)]; [None] when the columns array
    ends up with an undefined entry and is no longer a [KanbanColumn[]]. *)
Definition moveColumn (fromIndex toIndex : Z) (b : KanbanBoard)
  : option KanbanBoard :=
  option_map (set_columns b)
    (definedColumns (moveColumnSlots fromIndex toIndex (board_columns b))).

Definition toggleColumnArchive (columnId : string) (archived : bool)
    (b : KanbanBoard) : KanbanBoard :=
  match findColumn b columnId with
  | None => b
  | Some _ => updateColumn b columnId (fun c => set_archived c (Some archived))
  end.

(** ** Documents and vocabulary of the properties *)

(** The text whose lines are [lines]. *)
Definition unlines (lines : list string) : string := join newline lines.

(** A supply of ids for the examples. *)
Definition demoIds (n : nat) : string := "col" ++ numberToString (N.of_nat n).

Definition scenario : string :=
"<!-- next-id: 3 -->
# My Board
## Todo
### TSK_1 Write spec
> backend, urgent | high

This needs doing.
**Steps:**
- [x] outline
- [ ] write".

Definition scenarioSaved : string :=
"<!-- next-id: 3 -->
# My Board

## Todo

### TSK_1 Write spec
> backend, urgent | high

This needs doing.

**Steps:**
- [x] outline
- [ ] write

".

(** A task with a due date, in the indented-property dialect, and what
    the serializer makes of it on a first and on a second save. *)
Definition dueDocument : string :=
"## Todo
### Pay rent
  - due: 2024-05-01".

Definition dueSavedOnce : string :=
"<!-- next-id: 2 -->
## Todo

### TSK_1 Pay rent

**Due:** 2024-05-01

".

Definition dueSavedTwice : string :=
"<!-- next-id: 2 -->
## Todo

### TSK_1 Pay rent

".

(** A task with a description and no tags, in the indented-property
    dialect, and its first save. *)
Definition descriptionDocument : string :=
"## Todo
### Pay rent
  - desc: before Friday".

Definition descriptionSavedOnce : string :=
"<!-- next-id: 2 -->
## Todo

### TSK_1 Pay rent

before Friday

".

(** The text a board is saved as, when the text [content] is loaded and
    saved at once. *)
Definition resave (gen : nat -> string) (content : string) : option string :=
  option_map (fun b => generateMarkdown b TitleFormat) (parseMarkdown gen content).

(** A string that begins with a character that is not white. *)
Definition startsBlack (s : string) : Prop :=
  exists c r, s = String c r /\ isWhite c = false.

(** The string [s] holds no character [c]. *)
Fixpoint lacks (c : ascii) (s : string) : bool :=
  match s with
  | EmptyString => true
  | String d r => negb (Ascii.eqb d c) && lacks c r
  end.

(** A line of a text: it holds no line terminator. *)
Definition properLine (l : string) : Prop := noLineTerminator l = true.

(** An archived column without tasks. *)
Definition archivedColumn (i t : string) : KanbanColumn :=
  {| col_id := i; col_title := t; col_tasks := []; col_archived := Some true |}.

(** The output of the serializer, cut into the header lines of its tasks
    and the text in between. *)
Inductive Segment :=
  | HeaderLine (headerText : string)
  | Verbatim (emitted : string).

(** A header line behind its marker; the rest as it is. *)
Definition renderSegment (marker : string) (seg : Segment) : string :=
  match seg with
  | HeaderLine t => marker ++ t ++ newline
  | Verbatim s => s
  end.

Definition render (marker : string) (segs : list Segment) : string :=
  String.concat EmptyString (map (renderSegment marker) segs).

Definition taskSegments (task : KanbanTask) : list Segment :=
  [HeaderLine (headerText task); Verbatim (generateTaskBody task)].

Definition columnSegments (column : KanbanColumn) : list Segment :=
  Verbatim ("## " ++ columnHeading column ++ newline ++ newline)
  :: flat_map taskSegments (col_tasks column).

Definition boardSegments (b : KanbanBoard) : list Segment :=
  Verbatim ("<!-- next-id: " ++ numberToString (board_nextId b) ++ " -->" ++ newline ++
            (if truthy (board_title b)
             then "# " ++ board_title b ++ newline ++ newline else EmptyString))
  :: flat_map columnSegments (board_columns b).

(** The ids of the tasks of a board. *)
Definition boardIds (b : KanbanBoard) : list string := taskIds (board_columns b).

(** The board has a column of that id. *)
Definition hasColumn (b : KanbanBoard) (columnId : string) : Prop :=
  findColumn b columnId <> None.

(** One [addTask] after another. *)
Definition addTasks (requests : list (string * TaskData)) (b : KanbanBoard)
  : KanbanBoard :=
  fold_left (fun board r => addTask (fst r) (snd r) board) requests b.

(** The ids the counter hands out from [k] on: TSK_k, TSK_(k+1), ... *)
Definition countedIds (k : N) (n : nat) : list string :=
  map (fun i => "TSK_" ++ numberToString (k + N.of_nat i)) (seq 0 n).

(** A board and a request for the examples. *)
Definition sampleTask (i t : string) : KanbanTask :=
  {| task_id := i; task_title := t; description := None; tags := Some [];
     priority := None; workload := None; dueDate := None; startDate := None;
     defaultExpanded := None;
     steps := Some [ {| item_text := "one"; item_completed := false |};
                     {| item_text := "two"; item_completed := true |} ];
     ac := None; verify := None; files := None |}.

Definition sampleBoard : KanbanBoard :=
  {| board_title := "Board";
     board_columns :=
       [ {| col_id := "c1"; col_title := "Todo";
            col_tasks := [sampleTask "TSK_1" "first"; sampleTask "TSK_2" "second"];
            col_archived := Some false |};
         {| col_id := "c2"; col_title := "Done";
            col_tasks := [sampleTask "TSK_3" "third"];
            col_archived := Some false |} ];
     board_nextId := 7 |}.

(** A board whose counter has reached 2^53, and two requests for it. *)
Definition fullBoard : KanbanBoard :=
  {| board_title := "Board";
     board_columns :=
       [ {| col_id := "c1"; col_title := "Todo"; col_tasks := [];
            col_archived := Some false |} ];
     board_nextId := 9007199254740992 |}.

Definition sampleData : TaskData :=
  {| td_title := "new"; td_description := None; td_tags := None;
     td_priority := None; td_workload := None; td_dueDate := None;
     td_defaultExpanded := None; td_steps := None |}.

Definition sampleRequests : list (string * TaskData) :=
  [("c1", sampleData); ("c1", sampleData); ("c1", sampleData)].

Definition fullRequests : list (string * TaskData) :=
  [("c1", sampleData); ("c1", sampleData)].

(** The tasks of the columns, in column and task order. *)
Definition allTasks (cs : list KanbanColumn) : list KanbanTask :=
  flat_map col_tasks cs.

(** How many of the tasks have an id that is not canonical. *)
Definition nonCanonical (ts : list KanbanTask) : nat :=
  length (filter (fun t => negb (isCanonicalId (task_id t))) ts).




Definition allocationDocument : string :=
"# Plan
<!-- next-id: 5 -->
## Todo
### first
### TSK-2 second
## Done
- third".

(** A fence marker: a line that, trimmed, starts with three backticks. *)
Definition isFenceLine (line : string) : bool := startsWith (trim line) "```".

Definition fenceCount (lines : list string) : nat :=
  length (filter isFenceLine lines).

(** A task behind a code block, the block holding a counter comment or
    nothing. *)
Definition fencedDocument : string :=
"## Todo
```
<!-- next-id: 50 -->
```
### Note".

Definition unfencedDocument : string :=
"## Todo
```
```
### Note".

(** A task header in front of the first column, holding a counter
    comment, and the text without it. *)
Definition orphanDocument : string :=
"### Plan <!-- next-id: 9 -->
## Todo
### Note".

Definition orphanlessDocument : string :=
"## Todo
### Note".

(** Two task headers that carry the same id. *)
Definition duplicateDocument : string :=
"## Todo
### TSK_1 first
### TSK_1 second".

(** ** Pasted images: [getNextImageFilename] and [handlePasteImage]

    The directory is what [fs.existsSync] and [fs.readdirSync] show of
    it: [None] when it does not exist, else its file names.  The
    extension is a plain one (letters and digits), the only kind the
    pattern built from it takes literally. *)

(** A string that does not go on with a digit. *)
Definition digitsEnd (s : string) : Prop :=
  match s with
  | EmptyString => True
  | String c _ => isDigit c = false
  end.

Definition isAlphaNum (c : ascii) : bool :=
  let n := N_of_ascii c in
  (((48 <=? n) && (n <=? 57)) || ((65 <=? n) && (n <=? 90))
   || ((97 <=? n) && (n <=? 122)))%N.

Fixpoint plainExtension (ext : string) : bool :=
  match ext with
  | EmptyString => true
  | String c r => isAlphaNum c && plainExtension r
  end.

(** The pattern [^image(?:-(\d+))?\.<ext>$] on a file name: [None] is
    no match, [Some None] a match without the group, [Some (Some d)] a
    match with the digits [d]. *)
Definition matchImageName (ext file : string) : option (option string) :=
  match stripPrefix "image" file with
  | None => None
  | Some r =>
      let plain := if String.eqb r ("." ++ ext) then Some None else None in
      match stripPrefix "-" r with
      | Some r1 =>
          match digits1 r1 with
          | Some (d, r2) =>
              if String.eqb r2 ("." ++ ext) then Some (Some d) else plain
          | None => plain
          end
      | None => plain
      end
  end.

(** The number a matching file name counts for: [parseInt] of the group,
    0 without it.  [maxN] starts at -1, so it is a [Z]; from the first
    match on it is a number [parseInt] has returned. *)
Definition imageNumber (group : option string) : Z :=
  match group with
  | Some d => Z.of_N (parseInt d)
  | None => 0
  end.

(** One turn of the loop over the files. *)
Definition countImage (ext : string) (maxN : Z) (file : string) : Z :=
  match matchImageName ext file with
  | Some group =>
      let n := imageNumber group in
      if (maxN <? n)%Z then n else maxN
  | None => maxN
  end.

Definition largestImageNumber (ext : string) (files : list string) : Z :=
  fold_left (countImage ext) files (-1)%Z.

Definition getNextImageFilename (dir : option (list string)) (ext : string)
  : string :=
  match dir with
  | None => "image." ++ ext
  | Some files =>
      let maxN := largestImageNumber ext files in
      if (maxN =? -1)%Z then "image." ++ ext
      else "image-" ++ numberToString (increment (Z.to_N maxN)) ++ "." ++ ext
  end.

(** [s.replace(/\\/g, '/')] *)
Fixpoint slashes (s : string) : string :=
  match s with
  | EmptyString => EmptyString
  | String c r => String (if Ascii.eqb c "\" then "/"%char else c) (slashes r)
  end.

(** The text [handlePasteImage] sends back for the file [fileName] saved
    under the relative directory [relativeDir] (empty: beside the
    document). *)
Definition pastedImageText (relativeDir fileName : string) : string :=
  let relativeMdPath :=
    if truthy relativeDir then relativeDir ++ "/" ++ fileName else fileName in
  "![alt text](" ++ slashes relativeMdPath ++ ")".

(** ** The lines of a saved board

    The text of the serializer, line by line: every line of these lists
    is written with a line feed behind it. *)

Definition itemLine (item : ChecklistItem) : string :=
  "- " ++ checkbox item ++ " " ++ item_text item.

Definition checklistLines (header : string)
    (items : option (list ChecklistItem)) : list string :=
  match items with
  | Some (i :: l) => EmptyString :: header :: map itemLine (i :: l)
  | _ => []
  end.

Definition metaLines (task : KanbanTask) : list string :=
  match metaParts task with
  | [] => []
  | parts => ["> " ++ join " | " parts]
  end.

Definition descriptionLines (task : KanbanTask) : list string :=
  match description task with
  | Some d =>
      if truthy d && negb (String.eqb (trim d) EmptyString)
      then EmptyString :: split LF (trim d) else []
  | None => []
  end.

Definition dueLines (task : KanbanTask) : list string :=
  match dueDate task with
  | Some d => if truthy d then [EmptyString; "**Due:** " ++ d] else []
  | None => []
  end.

Definition workloadLines (task : KanbanTask) : list string :=
  match workload task with
  | Some w => [EmptyString; "**Workload:** " ++ workloadName w]
  | None => []
  end.

Definition filesLines (task : KanbanTask) : list string :=
  match files task with
  | Some f => if truthy f then [EmptyString; "**Files:** " ++ f] else []
  | None => []
  end.

Definition taskBodyLines (task : KanbanTask) : list string :=
  (metaLines task ++ descriptionLines task ++ dueLines task ++
   workloadLines task ++
   checklistLines "**Steps:**" (steps task) ++
   checklistLines "**AC:**" (ac task) ++
   checklistLines "**Verify:**" (verify task) ++
   filesLines task ++ [EmptyString])%list.

Definition taskLines (fmt : TaskHeaderFormat) (task : KanbanTask) : list string :=
  (headerPrefix fmt ++ headerText task) :: taskBodyLines task.

Definition columnLines (fmt : TaskHeaderFormat) (column : KanbanColumn)
  : list string :=
  ("## " ++ columnHeading column) :: EmptyString
  :: flat_map (taskLines fmt) (col_tasks column).

Definition titleLines (b : KanbanBoard) : list string :=
  if truthy (board_title b) then ["# " ++ board_title b; EmptyString] else [].

Definition boardLines (fmt : TaskHeaderFormat) (b : KanbanBoard) : list string :=
  ("<!-- next-id: " ++ numberToString (board_nextId b) ++ " -->")
  :: (titleLines b ++ flat_map (columnLines fmt) (board_columns b))%list.

(** Lines, each with its line feed. *)
Definition text (lines : list string) : string :=
  String.concat EmptyString (map (fun l => l ++ newline) lines).

(** ** Boards that come back from a save as they are *)

(** A text of one line as the parser keeps it: trimmed and not empty. *)
Definition cleanText (s : string) : bool :=
  String.eqb (trim s) s && truthy s && noLineTerminator s.

Definition cleanTag (s : string) : bool :=
  cleanText s && lacks "," s && lacks "|" s.

(** A line that the loop, collecting a description, takes for text of
    it: none of the tests in front of the collecting applies. *)
Definition textLine (l : string) : bool :=
  cleanText l &&
  negb (startsWith l "<!--" && endsWith l "-->") &&
  negb (startsWith l "```") && negb (startsWith l "# ") &&
  negb (startsWith l "## ") && negb (isTaskTitle l l) &&
  negb (startsWith l "> ") && negb (isSome (matchBoldSection l)).

Definition cleanList (items : option (list ChecklistItem)) : bool :=
  match items with
  | None => true
  | Some [] => false
  | Some l => forallb (fun i => cleanText (item_text i)) l
  end.

(** A task that is written and read back as it is: a canonical id, a
    title, tags where there is a priority or a description, the
    description in lines of text, lists that are absent or not empty,
    and none of the properties the new dialect does not read back. *)
Definition cleanTask (t : KanbanTask) : bool :=
  isCanonicalId (task_id t) && cleanText (task_title t) &&
  match tags t with
  | None => negb (isSome (priority t))
  | Some [] => false
  | Some l => forallb cleanTag l
  end &&
  match description t with
  | None => false
  | Some d => isEmpty d || (isSome (tags t) && forallb textLine (split LF d))
  end &&
  negb (isSome (workload t)) && negb (isSome (dueDate t)) &&
  negb (isSome (startDate t)) && negb (isSome (defaultExpanded t)) &&
  cleanList (steps t) && cleanList (ac t) && cleanList (verify t) &&
  match files t with None => true | Some f => cleanText f end.

Definition cleanColumn (c : KanbanColumn) : bool :=
  cleanText (col_title c) &&
  match col_archived c with
  | Some true => true
  | Some false => negb (endsWith (col_title c) "[Archived]")
  | None => false
  end &&
  forallb cleanTask (col_tasks c).

Definition cleanBoard (b : KanbanBoard) : bool :=
  (isEmpty (board_title b) || cleanText (board_title b)) &&
  forallb cleanColumn (board_columns b).

(** The columns with the ids the parser gives them: the [n]-th and
    following values of the supply. *)
Fixpoint relabelFrom (gen : nat -> string) (n : nat) (cs : list KanbanColumn)
  : list KanbanColumn :=
  match cs with
  | [] => []
  | c :: rest =>
      {| col_id := gen n; col_title := col_title c; col_tasks := col_tasks c;
         col_archived := col_archived c |} :: relabelFrom gen (S n) rest
  end.

Definition relabel (gen : nat -> string) (b : KanbanBoard) : KanbanBoard :=
  set_columns b (relabelFrom gen 0 (board_columns b)).

(** The state of the loop inside the body of the task [t] of the column
    [c], outside a code block. *)
Definition openTask (title : string) (cols : list KanbanColumn)
    (c : option KanbanColumn) (t : KanbanTask) (key : option ChecklistKey)
    (collecting : bool) (n : nat) : ParserState :=
  {| st_title := title; st_columns := cols; currentColumn := c;
     currentTask := Some t; inTaskBody := true; inCodeBlock := false;
     activeListKey := key; collectingDescription := collecting;
     generated := n |}.

(** The header a list is written under. *)
Definition listHeader (key : ChecklistKey) : string :=
  match key with
  | Steps => "**Steps:**" | Ac => "**AC:**" | Verify => "**Verify:**"
  end.

(** The text of the metadata line of some tags and a priority. *)
Definition metaText (t : string) (ts : list string) (p : option Priority) : string :=
  join " | " (join ", " (t :: ts)
              :: match p with Some pr => [priorityName pr] | None => [] end).

(** The task with a list read into it, when the list is written. *)
Definition readList (key : ChecklistKey) (items : option (list ChecklistItem))
    (t : KanbanTask) : KanbanTask :=
  match items with
  | Some (i :: l) => setList t key (Some (i :: l))
  | _ => t
  end.

(** The column the loop would push if it closed the open task now. *)
Definition pendingColumn (st : ParserState) : option KanbanColumn :=
  finalizeCurrentTask (currentTask st) (currentColumn st).

(** The columns closed so far and the pending one. *)
Definition closed (cs : list KanbanColumn) (pending : option KanbanColumn)
  : list KanbanColumn :=
  match pending with
  | Some c => (cs ++ [c])%list
  | None => cs
  end.

(** What the loop has read between two tasks, outside a code block: the
    title, the closed columns, the pending column and the number of ids
    drawn from the supply. *)
Definition loopAt (title : string) (cs : list KanbanColumn)
    (pending : option KanbanColumn) (n : nat) (st : ParserState) : Prop :=
  st_title st = title /\ st_columns st = cs /\ pendingColumn st = pending /\
  inCodeBlock st = false /\ generated st = n.

(** A clean board for the examples. *)
Definition cleanSample : KanbanBoard :=
  {| board_title := "My Board";
     board_columns :=
       [ {| col_id := "col0"; col_title := "Todo";
            col_tasks :=
              [ {| task_id := "TSK_1"; task_title := "Write spec";
                   description := Some ("This needs doing." ++ newline ++ "Soon.");
                   tags := Some ["backend"; "urgent"];
                   priority := Some High; workload := None;
                   dueDate := None; startDate := None;
                   defaultExpanded := None;
                   steps :=
                     Some [ {| item_text := "outline"; item_completed := true |};
                            {| item_text := "write"; item_completed := false |} ];
                   ac := Some [ {| item_text := "reviewed"; item_completed := false |} ];
                   verify := None; files := Some "docs/spec.md" |};
                {| task_id := "TSK-2"; task_title := "Plan";
                   description := Some EmptyString; tags := None;
                   priority := None; workload := None;
                   dueDate := None; startDate := None;
                   defaultExpanded := None; steps := None; ac := None;
                   verify := None; files := None |} ];
            col_archived := Some false |};
         {| col_id := "col1"; col_title := "Done";
            col_tasks := []; col_archived := Some true |} ];
     board_nextId := 3 |}.

(** ** The serializer of the indented dialect
    ([MarkdownKanbanParser.generateMarkdown] of [markdownParser.ts])

    The earlier revision of the serializer writes the properties of a
    task as an indented list under its header; the parser above still
    reads that list. *)

Module Legacy.

(** [/^TSK-\d+$/] *)
Definition isLegacyId (s : string) : bool :=
  match stripPrefix "TSK-" s with
  | Some r =>
      match digits1 r with
      | Some (_, rest) => isEmpty rest
      | None => false
      end
  | None => false
  end.

Definition generateChecklistProperty (key : string) (items : list ChecklistItem)
  : string :=
  "  - " ++ key ++ ":" ++ newline ++
  String.concat EmptyString
    (map (fun item =>
            "      - " ++ checkbox item ++ " " ++ item_text item ++ newline)
         items).

Definition checklistProperty (key : string)
    (items : option (list ChecklistItem)) : string :=
  match items with
  | Some (i :: l) => generateChecklistProperty key (i :: l)
  | _ => EmptyString
  end.

Definition generateTaskProperties (task : KanbanTask) : string :=
  (if truthy (task_id task) && isLegacyId (task_id task)
   then "  - id: " ++ task_id task ++ newline else EmptyString) ++
  (match dueDate task with
   | Some d => if truthy d then "  - due: " ++ d ++ newline else EmptyString
   | None => EmptyString
   end) ++
  (match tags task with
   | Some (t :: l) => "  - tags: [" ++ join ", " (t :: l) ++ "]" ++ newline
   | _ => EmptyString
   end) ++
  (match priority task with
   | Some p => "  - priority: " ++ priorityName p ++ newline
   | None => EmptyString
   end) ++
  (match workload task with
   | Some w => "  - workload: " ++ workloadName w ++ newline
   | None => EmptyString
   end) ++
  (match defaultExpanded task with
   | Some true => "  - defaultExpanded: true" ++ newline
   | _ => EmptyString
   end) ++
  checklistProperty "steps" (steps task) ++
  checklistProperty "ac" (ac task) ++
  checklistProperty "verify" (verify task) ++
  (match files task with
   | Some f => if truthy f then "  - files: " ++ f ++ newline else EmptyString
   | None => EmptyString
   end).

(** The description, on the line of its key or on lines of its own. *)
Definition generateDescription (task : KanbanTask) : string :=
  match description task with
  | Some d =>
      if truthy d && negb (String.eqb (trim d) EmptyString)
      then match split LF (trim d) with
           | [l] => "  - desc: " ++ l ++ newline
           | descriptionLines =>
               "  - desc:" ++ newline ++
               String.concat EmptyString
                 (map (fun descLine => "    " ++ descLine ++ newline)
                      descriptionLines)
           end
      else EmptyString
  | None => EmptyString
  end.

Definition generateTask (fmt : TaskHeaderFormat) (task : KanbanTask) : string :=
  (match fmt with
   | TitleFormat => "### " ++ task_title task ++ newline ++ newline
   | ListFormat => "- " ++ task_title task ++ newline
   end) ++
  generateTaskProperties task ++ generateDescription task ++ newline.

Definition generateColumn (fmt : TaskHeaderFormat) (column : KanbanColumn)
  : string :=
  "## " ++ columnHeading column ++ newline ++ newline ++
  String.concat EmptyString (map (generateTask fmt) (col_tasks column)).

Definition generateMarkdown (board : KanbanBoard) (fmt : TaskHeaderFormat)
  : string :=
  "<!-- next-id: " ++ numberToString (board_nextId board) ++ " -->" ++ newline ++
  (if truthy (board_title board)
   then "# " ++ board_title board ++ newline ++ newline else EmptyString) ++
  String.concat EmptyString (map (generateColumn fmt) (board_columns board)).

(** *** The parser of that revision: [MarkdownKanbanParser.parseMarkdown]
    of [markdownParser.ts]

    [parseTaskProperty], [parseChecklistItem] (above:
    [parseOldChecklistItem]) and [finalizeCurrentTask] are the same in
    both revisions. *)

Record ParserState := {
  st_title : string;
  st_columns : list KanbanColumn;
  currentColumn : option KanbanColumn;
  currentTask : option KanbanTask;
  inTaskProperties : bool;
  inTaskDescription : bool;
  inCodeBlock : bool;
  activeListKey : option ChecklistKey;
  generated : nat
}.

Definition initialState : ParserState :=
  {| st_title := EmptyString; st_columns := []; currentColumn := None;
     currentTask := None; inTaskProperties := false; inTaskDescription := false;
     inCodeBlock := false; activeListKey := None; generated := 0 |}.

(** [isTaskTitle(line, trimmedLine)] *)
Definition isTaskTitle (line trimmedLine : string) : bool :=
  if startsWith line "- " &&
     (isSome (matchPropertyPrefix trimmedLine) || isSome (matchIndentedBox line))
  then false
  else (startsWith line "- " && negb (startsWith line "  "))
       || startsWith trimmedLine "### ".

(** [line.replace(/^\s{4,}/, '')] *)
Definition stripIndent4 (line : string) : string :=
  if matchIndent4 line then trimStart line else line.

(** [/^\s+```md/] *)
Definition matchFenceMd (line : string) : bool :=
  match skipWhite1 line with
  | Some r => startsWith r "```md"
  | None => false
  end.

Section Parser.

(** The supply behind [generateId]. *)
Variable gen : nat -> string.

(** The state with the open task and the flags of the body replaced. *)
Definition withTask (st : ParserState) (t : KanbanTask)
    (properties description code : bool) (key : option ChecklistKey)
  : ParserState :=
  {| st_title := st_title st; st_columns := st_columns st;
     currentColumn := currentColumn st; currentTask := Some t;
     inTaskProperties := properties; inTaskDescription := description;
     inCodeBlock := code; activeListKey := key; generated := generated st |}.

(** The tests on the properties of the open task; [None] when the loop
    goes on to the tests behind them. *)
Definition propertiesLine (st : ParserState) (t : KanbanTask)
    (line trimmedLine : string) : option ParserState :=
  match parseTaskProperty line t with
  | Some (parsedKey, t') =>
      Some (withTask st t' (inTaskProperties st) (inTaskDescription st)
              (inCodeBlock st) (keyOfProperty parsedKey))
  | None =>
  match parseOldChecklistItem line t (activeListKey st) with
  | Some t' =>
      Some (withTask st t' (inTaskProperties st) (inTaskDescription st)
              (inCodeBlock st) (activeListKey st))
  | None =>
  if matchFenceMd line
  then Some (withTask st t false true true None)
  else if matchImage trimmedLine
  then Some (withTask st (appendDescription t trimmedLine)
               (inTaskProperties st) (inTaskDescription st) (inCodeBlock st)
               (activeListKey st))
  else if isSome (description t) && matchIndent4 line
          && negb (String.eqb trimmedLine EmptyString)
  then Some (withTask st (appendDescription t trimmedLine)
               (inTaskProperties st) (inTaskDescription st) (inCodeBlock st)
               (activeListKey st))
  else None
  end end.

(** The end of the body of the loop: an empty line is passed over, any
    other line closes the open task and is presented again (the [i--] of
    the source). *)
Definition closingLine (st : ParserState) (trimmedLine : string)
  : ParserState * bool :=
  if String.eqb trimmedLine EmptyString then (st, false)
  else if negb (inCodeBlock st) && isSome (currentTask st)
          && (inTaskProperties st || inTaskDescription st)
  then ({| st_title := st_title st; st_columns := st_columns st;
           currentColumn := finalizeCurrentTask (currentTask st) (currentColumn st);
           currentTask := None; inTaskProperties := false;
           inTaskDescription := false; inCodeBlock := inCodeBlock st;
           activeListKey := None; generated := generated st |}, true)
  else (st, false).

(** One pass through the body of the loop, on one line. *)
Definition step (st : ParserState) (line : string) : ParserState * bool :=
  let trimmedLine := trim line in
  if startsWith trimmedLine "<!--" && endsWith trimmedLine "-->"
  then (st, false)
  else if startsWith trimmedLine "```" && inTaskDescription st
          && (String.eqb trimmedLine "```md" || String.eqb trimmedLine "```")
  then ({| st_title := st_title st; st_columns := st_columns st;
           currentColumn := currentColumn st; currentTask := currentTask st;
           inTaskProperties := inTaskProperties st;
           inTaskDescription := inTaskDescription st;
           inCodeBlock := negb (inCodeBlock st);
           activeListKey := activeListKey st; generated := generated st |}, false)
  else
  match (if inCodeBlock st && inTaskDescription st then currentTask st else None) with
  | Some t =>
      if String.eqb trimmedLine "```"
      then (withTask st t (inTaskProperties st) false false (activeListKey st), false)
      else (withTask st (appendDescription t (stripIndent4 line))
              (inTaskProperties st) (inTaskDescription st) (inCodeBlock st)
              (activeListKey st), false)
  | None =>
  if negb (inCodeBlock st) && startsWith trimmedLine "# " && negb (truthy (st_title st))
  then ({| st_title := trim (substringFrom 2 trimmedLine);
           st_columns := st_columns st;
           currentColumn := finalizeCurrentTask (currentTask st) (currentColumn st);
           currentTask := None; inTaskProperties := false;
           inTaskDescription := false; inCodeBlock := inCodeBlock st;
           activeListKey := None; generated := generated st |}, false)
  else if negb (inCodeBlock st) && startsWith trimmedLine "## "
  then
    let finished := finalizeCurrentTask (currentTask st) (currentColumn st) in
    let columnTitle := trim (substringFrom 3 trimmedLine) in
    let isArchived := endsWith columnTitle "[Archived]" in
    ({| st_title := st_title st;
        st_columns := match finished with
                      | Some c => (st_columns st ++ [c])%list
                      | None => st_columns st
                      end;
        currentColumn :=
          Some {| col_id := gen (generated st);
                  col_title := if isArchived
                               then trim (stripArchived columnTitle)
                               else columnTitle;
                  col_tasks := [];
                  col_archived := Some isArchived |};
        currentTask := None; inTaskProperties := false;
        inTaskDescription := false; inCodeBlock := inCodeBlock st;
        activeListKey := None; generated := S (generated st) |}, false)
  else if negb (inCodeBlock st) && isTaskTitle line trimmedLine
  then
    match currentColumn st with
    | Some _ =>
        ({| st_title := st_title st; st_columns := st_columns st;
            currentColumn :=
              finalizeCurrentTask (currentTask st) (currentColumn st);
            currentTask :=
              Some (newTask (gen (generated st)) (headerTitle trimmedLine));
            inTaskProperties := true; inTaskDescription := false;
            inCodeBlock := inCodeBlock st; activeListKey := None;
            generated := S (generated st) |}, false)
    | None => (st, false)
    end
  else
    match (if negb (inCodeBlock st) && inTaskProperties st
           then match currentTask st with
                | Some t => propertiesLine st t line trimmedLine
                | None => None
                end
           else None) with
    | Some st' => (st', false)
    | None => closingLine st trimmedLine
    end
  end.

(** The loop over the lines.  A line is presented again when [step] asks
    for it; [fuel] bounds the number of passes through the body. *)
Fixpoint run (fuel : nat) (st : ParserState) (lines : list string)
  : option ParserState :=
  match lines with
  | [] => Some st
  | line :: rest =>
      match fuel with
      | O => None
      | S fuel' =>
          let '(st', again) := step st line in
          if again then run fuel' st' lines else run fuel' st' rest
      end
  end.

(** What the loop does with one line: the line and its second
    presentation, when the first asks for one. *)
Definition stepLine (st : ParserState) (line : string) : ParserState :=
  let '(st', again) := step st line in
  if again then fst (step st' line) else st'.

Definition stateAfter (st : ParserState) (lines : list string) : ParserState :=
  fold_left stepLine lines st.

(** The last pass: every task whose id is not [TSK-] and digits takes
    the id of the counter, written with a hyphen. *)
Fixpoint assignTasks (nextId : N) (ts : list KanbanTask)
  : list KanbanTask * N :=
  match ts with
  | [] => ([], nextId)
  | t :: rest =>
      if isLegacyId (task_id t)
      then let '(rest', n) := assignTasks nextId rest in (t :: rest', n)
      else let '(rest', n) := assignTasks (increment nextId) rest in
           (set_id t ("TSK-" ++ numberToString nextId) :: rest', n)
  end.

Fixpoint assignColumns (nextId : N) (cs : list KanbanColumn)
  : list KanbanColumn * N :=
  match cs with
  | [] => ([], nextId)
  | c :: rest =>
      let '(ts, n) := assignTasks nextId (col_tasks c) in
      let '(rest', n') := assignColumns n rest in
      (set_tasks c ts :: rest', n')
  end.

(** The columns at the end of the loop, the open task and column added. *)
Definition closeColumns (st : ParserState) : list KanbanColumn :=
  match finalizeCurrentTask (currentTask st) (currentColumn st) with
  | Some c => (st_columns st ++ [c])%list
  | None => st_columns st
  end.

Definition boardOfState (nextId : N) (st : ParserState) : KanbanBoard :=
  let '(cs, n) := assignColumns nextId (closeColumns st) in
  {| board_title := st_title st; board_columns := cs; board_nextId := n |}.

Definition parseLines (nextId : N) (lines : list string) : option KanbanBoard :=
  match run (2 * length lines) initialState lines with
  | Some st => Some (boardOfState nextId st)
  | None => None
  end.

Definition parseMarkdown (content : string) : option KanbanBoard :=
  parseLines (declaredNextId content) (splitLines content).

End Parser.

(** The state of the loop inside the properties of the task [t] of the
    column [c]. *)
Definition openTask (title : string) (cols : list KanbanColumn)
    (c : option KanbanColumn) (t : KanbanTask) (key : option ChecklistKey)
    (n : nat) : ParserState :=
  {| st_title := title; st_columns := cols; currentColumn := c;
     currentTask := Some t; inTaskProperties := true; inTaskDescription := false;
     inCodeBlock := false; activeListKey := key; generated := n |}.

(** The column the loop would push if it closed the open task now. *)
Definition pendingColumn (st : ParserState) : option KanbanColumn :=
  finalizeCurrentTask (currentTask st) (currentColumn st).

(** What the loop has read between two tasks, outside a code block. *)
Definition loopAt (title : string) (cs : list KanbanColumn)
    (pending : option KanbanColumn) (n : nat) (st : ParserState) : Prop :=
  st_title st = title /\ st_columns st = cs /\ pendingColumn st = pending /\
  inCodeBlock st = false /\ generated st = n.

(** Some lines under the header of an open task, and the task they make
    of the task [t]. *)
Definition reads (gen : nat -> string) (lines : list string)
    (t t' : KanbanTask) : Prop :=
  forall T cs c key n,
  exists key',
    stateAfter gen (openTask T cs c t key n) lines = openTask T cs c t' key' n.

End Legacy.

(** The lines of a board saved in the indented dialect. *)

Definition legacyItemLine (item : ChecklistItem) : string :=
  "      " ++ itemLine item.

Definition legacyChecklistLines (key : string)
    (items : option (list ChecklistItem)) : list string :=
  match items with
  | Some (i :: l) => ("  - " ++ key ++ ":") :: map legacyItemLine (i :: l)
  | _ => []
  end.

Definition legacyIdLines (task : KanbanTask) : list string :=
  if truthy (task_id task) && Legacy.isLegacyId (task_id task)
  then ["  - id: " ++ task_id task] else [].

Definition legacyDueLines (task : KanbanTask) : list string :=
  match dueDate task with
  | Some d => if truthy d then ["  - due: " ++ d] else []
  | None => []
  end.

Definition legacyTagsLines (task : KanbanTask) : list string :=
  match tags task with
  | Some (t :: l) => ["  - tags: [" ++ join ", " (t :: l) ++ "]"]
  | _ => []
  end.

Definition legacyPriorityLines (task : KanbanTask) : list string :=
  match priority task with
  | Some p => ["  - priority: " ++ priorityName p]
  | None => []
  end.

Definition legacyWorkloadLines (task : KanbanTask) : list string :=
  match workload task with
  | Some w => ["  - workload: " ++ workloadName w]
  | None => []
  end.

Definition legacyExpandedLines (task : KanbanTask) : list string :=
  match defaultExpanded task with
  | Some true => ["  - defaultExpanded: true"]
  | _ => []
  end.

Definition legacyFilesLines (task : KanbanTask) : list string :=
  match files task with
  | Some f => if truthy f then ["  - files: " ++ f] else []
  | None => []
  end.

Definition legacyDescriptionLines (task : KanbanTask) : list string :=
  match description task with
  | Some d =>
      if truthy d && negb (String.eqb (trim d) EmptyString)
      then match split LF (trim d) with
           | [l] => ["  - desc: " ++ l]
           | descriptionLines =>
               "  - desc:" :: map (fun descLine => "    " ++ descLine) descriptionLines
           end
      else []
  | None => []
  end.

Definition legacyHeaderLines (fmt : TaskHeaderFormat) (task : KanbanTask)
  : list string :=
  match fmt with
  | TitleFormat => ["### " ++ task_title task; EmptyString]
  | ListFormat => ["- " ++ task_title task]
  end.

Definition legacyPropertyLines (task : KanbanTask) : list string :=
  (legacyIdLines task ++ legacyDueLines task ++ legacyTagsLines task ++
   legacyPriorityLines task ++ legacyWorkloadLines task ++
   legacyExpandedLines task ++
   legacyChecklistLines "steps" (steps task) ++
   legacyChecklistLines "ac" (ac task) ++
   legacyChecklistLines "verify" (verify task) ++
   legacyFilesLines task)%list.

Definition legacyTaskLines (fmt : TaskHeaderFormat) (task : KanbanTask)
  : list string :=
  (legacyHeaderLines fmt task ++ legacyPropertyLines task ++
   legacyDescriptionLines task ++ [EmptyString])%list.

Definition legacyColumnLines (fmt : TaskHeaderFormat) (column : KanbanColumn)
  : list string :=
  ("## " ++ columnHeading column) :: EmptyString
  :: flat_map (legacyTaskLines fmt) (col_tasks column).

Definition legacyBoardLines (fmt : TaskHeaderFormat) (b : KanbanBoard)
  : list string :=
  ("<!-- next-id: " ++ numberToString (board_nextId b) ++ " -->")
  :: (titleLines b ++ flat_map (legacyColumnLines fmt) (board_columns b))%list.

(** ** Boards the parser reads back from the indented dialect *)

(** A title that is read as it is behind either header marker: no id in
    front, and not the text of a property or of a checklist item. *)
Definition plainTitle (s : string) : bool :=
  cleanText s && negb (isSome (matchTskTitle s)) &&
  isTaskTitle ("- " ++ s) ("- " ++ s).

Definition legacyTag (s : string) : bool :=
  String.eqb (trim s) s && lacks "," s && noLineTerminator s.

(** A line of a description that, indented by four spaces under the
    [desc] key, is taken for text of the description. *)
Definition legacyTextLine (l : string) : bool :=
  cleanText l &&
  negb (startsWith l "<!--" && endsWith l "-->") &&
  negb (startsWith l "```") && negb (startsWith l "# ") &&
  negb (startsWith l "## ") && negb (isTaskTitle ("    " ++ l) l) &&
  negb (startsWith l "> ") && negb (isSome (matchBoldSection l)) &&
  negb (isSome (matchProperty ("    " ++ l))).

Definition legacyDescription (d : string) : bool :=
  isEmpty d ||
  match split LF d with
  | [l] => cleanText l
  | descriptionLines => forallb legacyTextLine descriptionLines
  end.

(** A task the indented dialect keeps: an id with a dash, which it
    writes; a plain title; tags without commas; a due date and a files
    line of one trimmed line; lists that are absent or not empty. *)
Definition legacyTask (t : KanbanTask) : bool :=
  Legacy.isLegacyId (task_id t) && plainTitle (task_title t) &&
  match dueDate t with None => true | Some d => cleanText d end &&
  match tags t with
  | None => true
  | Some [] => false
  | Some l => forallb legacyTag l
  end &&
  match defaultExpanded t with Some false => false | _ => true end &&
  negb (isSome (startDate t)) &&
  cleanList (steps t) && cleanList (ac t) && cleanList (verify t) &&
  match files t with None => true | Some f => cleanText f end &&
  match description t with None => false | Some d => legacyDescription d end.

Definition legacyColumn (c : KanbanColumn) : bool :=
  cleanText (col_title c) &&
  match col_archived c with
  | Some true => true
  | Some false => negb (endsWith (col_title c) "[Archived]")
  | None => false
  end &&
  forallb legacyTask (col_tasks c).

Definition legacyBoard (b : KanbanBoard) : bool :=
  (isEmpty (board_title b) || cleanText (board_title b)) &&
  forallb legacyColumn (board_columns b).

(** The columns with the ids the parser gives them when every header
    draws an id of its own from the supply. *)
Fixpoint relabelLegacyFrom (gen : nat -> string) (n : nat)
    (cs : list KanbanColumn) : list KanbanColumn :=
  match cs with
  | [] => []
  | c :: rest =>
      {| col_id := gen n; col_title := col_title c; col_tasks := col_tasks c;
         col_archived := col_archived c |}
      :: relabelLegacyFrom gen (S n + length (col_tasks c)) rest
  end.

Definition relabelLegacy (gen : nat -> string) (b : KanbanBoard) : KanbanBoard :=
  set_columns b (relabelLegacyFrom gen 0 (board_columns b)).

(** The key a list is written under in the indented dialect. *)
Definition legacyKey (key : ChecklistKey) : string :=
  match key with Steps => "steps" | Ac => "ac" | Verify => "verify" end.

(** Some lines of the body of an open task, and the task they make of
    the task [t]. *)
Definition reads (gen : nat -> string) (lines : list string)
    (t t' : KanbanTask) : Prop :=
  forall T cs c key collecting n,
  exists key' collecting',
    stateAfter gen (openTask T cs c t key collecting n) lines
    = openTask T cs c t' key' collecting' n.

(** A board for the examples of the indented dialect. *)
Definition legacySample : KanbanBoard :=
  {| board_title := "My Board";
     board_columns :=
       [ {| col_id := "col0"; col_title := "Todo";
            col_tasks :=
              [ {| task_id := "TSK-1"; task_title := "Write spec";
                   description := Some ("This needs doing." ++ newline ++ "Soon.");
                   tags := Some ["backend"; "urgent"];
                   priority := Some High; workload := Some Hard;
                   dueDate := Some "2024-05-01"; startDate := None;
                   defaultExpanded := Some true;
                   steps :=
                     Some [ {| item_text := "outline"; item_completed := true |};
                            {| item_text := "write"; item_completed := false |} ];
                   ac := Some [ {| item_text := "reviewed"; item_completed := false |} ];
                   verify := None; files := Some "docs/spec.md" |};
                {| task_id := "TSK-2"; task_title := "Plan";
                   description := Some "before Friday"; tags := None;
                   priority := Some Low; workload := None;
                   dueDate := None; startDate := None;
                   defaultExpanded := None; steps := None; ac := None;
                   verify := None; files := None |} ];
            col_archived := Some false |};
         {| col_id := "col3"; col_title := "Done";
            col_tasks := []; col_archived := Some true |} ];
     board_nextId := 3 |}.

(** ** What a save and a load make of a board

    The serializer writes an empty list like an absent one, an empty
    due date or files line like none, and a description trimmed; it
    does not write the start date and the expansion ([defaultExpanded]);
    the parser gives every task a description and every column the
    flag. *)

Definition normalizeList {A : Type} (o : option (list A)) : option (list A) :=
  match o with
  | Some [] => None
  | _ => o
  end.

Definition normalizeText (o : option string) : option string :=
  match o with
  | Some s => if truthy s then o else None
  | None => None
  end.

Definition normalizeTask (t : KanbanTask) : KanbanTask :=
  {| task_id := task_id t; task_title := task_title t;
     description := Some (match description t with
                          | Some d => trim d
                          | None => EmptyString
                          end);
     tags := normalizeList (tags t); priority := priority t;
     workload := workload t; dueDate := normalizeText (dueDate t);
     startDate := None; defaultExpanded := None;
     steps := normalizeList (steps t); ac := normalizeList (ac t);
     verify := normalizeList (verify t); files := normalizeText (files t) |}.

Definition normalizeColumn (c : KanbanColumn) : KanbanColumn :=
  {| col_id := col_id c; col_title := col_title c;
     col_tasks := map normalizeTask (col_tasks c);
     col_archived := Some (match col_archived c with
                           | Some a => a
                           | None => false
                           end) |}.

Definition normalizeBoard (b : KanbanBoard) : KanbanBoard :=
  set_columns b (map normalizeColumn (board_columns b)).


(** A board as the panel leaves it, and a request, for the examples. *)
Definition panelSample : KanbanBoard :=
  {| board_title := "Board";
     board_columns :=
       [ {| col_id := "col0"; col_title := "Todo";
            col_tasks :=
              [ {| task_id := "TSK_1"; task_title := "first";
                   description := None; tags := Some [];
                   priority := None; workload := None;
                   dueDate := Some EmptyString; startDate := None;
                   defaultExpanded := None;
                   steps := Some [ {| item_text := "one"; item_completed := false |} ];
                   ac := None; verify := None; files := None |} ];
            col_archived := None |} ];
     board_nextId := 2 |}.



(** ** The messages of the board surface: [_handleMessage]

    The messages the panel acts on, with the fields it reads.  The id
    [addColumn] draws from [Math.random] is given with the message.  The
    last four messages leave the board alone. *)

Inductive Message :=
  | MoveTask (taskId fromColumnId toColumnId : string) (newIndex : Z)
  | AddTask (columnId : string) (taskData : TaskData)
  | DeleteTask (taskId columnId : string)
  | EditTask (taskId columnId : string) (taskData : TaskData)
  | AddColumn (title : string)
  | MoveColumn (fromIndex toIndex : Z)
  | ToggleTask (taskId : string)
  | UpdateTaskStep (taskId columnId : string) (stepIndex : Z) (completed : bool)
  | UpdateChecklistItem (taskId columnId : string) (listKey : ChecklistKey)
      (stepIndex : Z) (completed : bool)
  | ReorderTaskSteps (taskId columnId : string) (newOrder : list Z)
  | ToggleColumnArchive (columnId : string) (archived : bool)
  | PasteImage (imageData : string) (extension : option string)
  | RequestBoard
  | OpenFile (path : string).

(** The board a message leaves; [None] when [moveColumn] leaves an
    undefined entry among the columns.  [shared] says which slots of the
    checklist a toggle is for hold the object of the slot toggled. *)
Definition handleMessageWith (shared : nat -> bool) (freshId : string)
    (message : Message) (b : KanbanBoard) : option KanbanBoard :=
  match message with
  | MoveTask taskId fromColumnId toColumnId newIndex =>
      Some (moveTask taskId fromColumnId toColumnId newIndex b)
  | AddTask columnId taskData => Some (addTask columnId taskData b)
  | DeleteTask taskId columnId => Some (deleteTask taskId columnId b)
  | EditTask taskId columnId taskData => Some (editTask taskId columnId taskData b)
  | AddColumn title => Some (addColumn freshId title b)
  | MoveColumn fromIndex toIndex => moveColumn fromIndex toIndex b
  | ToggleTask _ => Some b
  | UpdateTaskStep taskId columnId stepIndex completed =>
      Some (updateTaskStep shared taskId columnId stepIndex completed b)
  | UpdateChecklistItem taskId columnId listKey stepIndex completed =>
      Some (updateChecklistItem shared taskId columnId listKey stepIndex completed b)
  | ReorderTaskSteps taskId columnId newOrder =>
      Some (reorderTaskSteps taskId columnId newOrder b)
  | ToggleColumnArchive columnId archived =>
      Some (toggleColumnArchive columnId archived b)
  | PasteImage _ _ => Some b
  | RequestBoard => Some b
  | OpenFile _ => Some b
  end.

(** The panel on a board whose checklists hold every object once. *)
Definition handleMessage : string -> Message -> KanbanBoard -> option KanbanBoard :=
  handleMessageWith unshared.

(** ** Boards that a save keeps *)






(** ** Dropping a card: [calculateDropIndex] and the [drop] listener of
    the board surface ([webviewScript.js])

    The container of a column holds one card for each task shown, in
    order.  Of a card the listener reads the task id and, through
    [getBoundingClientRect], its top and its height, which are numbers of
    JavaScript: floating-point numbers of 64 bits.  Inside a card only
    its checklists carry a task id, the one of the card, so the first
    element of a container that carries a given id is a card. *)

Section Cards.

Import PrimFloat.

Record Card := {
  card_taskId : string;
  card_top : float;
  card_height : float
}.

(** [rect.top + rect.height / 2] *)
Definition taskCenter (card : Card) : float :=
  (card_top card + card_height card / 2)%float.

(** The loop over the cards: the index of the first card whose centre is
    below the pointer, the number of cards when there is none. *)
Fixpoint firstCardBelow (clientY : float) (cards : list Card) : nat :=
  match cards with
  | [] => O
  | card :: rest =>
      if (clientY <? taskCenter card)%float then O
      else S (firstCardBelow clientY rest)
  end.

Definition hasCardId (taskId : string) (card : Card) : bool :=
  String.eqb (card_taskId card) taskId.

(** The characters that a selector spells as themselves between double
    quotes: no double quote, no backslash, no control character. *)
Definition selectorChar (c : ascii) : bool :=
  negb (Ascii.eqb c (ascii_of_nat 34)) && negb (Ascii.eqb c (ascii_of_nat 92)) &&
  (32 <=? nat_of_ascii c)%nat.

Fixpoint plainSelector (taskId : string) : bool :=
  match taskId with
  | EmptyString => true
  | String c rest => selectorChar c && plainSelector rest
  end.

(** [calculateDropIndex]; [tasksContainer] is given by its cards.  The
    selector written around a task id with a double quote, a backslash or
    a control character is not the selector of that id: what
    [querySelector] does with it is left out, the result is [None]. *)
Definition calculateDropIndex (cards : list Card) (clientY : float)
    (fromColumnId toColumnId taskId : string) : option Z :=
  let dropIndex := Z.of_nat (firstCardBelow clientY cards) in
  if String.eqb fromColumnId toColumnId
  then if plainSelector taskId
       then match findIndex (hasCardId taskId) cards with
            | Some currentIndex =>
                if (Z.of_nat currentIndex <? dropIndex)%Z
                then Some (dropIndex - 1)%Z else Some dropIndex
            | None => Some dropIndex
            end
       else None
  else Some dropIndex.

(** What the [drop] listener of the column [columnId] posts: a message,
    or nothing ([Some None]); [None] where [calculateDropIndex] is left
    out. *)
Definition dropMessage (cards : list Card) (clientY : float)
    (taskId fromColumnId columnId : string) : option (option Message) :=
  if truthy taskId && truthy fromColumnId
  then match calculateDropIndex cards clientY fromColumnId columnId taskId with
       | Some dropIndex =>
           Some (Some (MoveTask taskId fromColumnId columnId dropIndex))
       | None => None
       end
  else Some None.

(** The cards of the first column of [sampleBoard], one below the other,
    each 30 high, and a pointer below the centres of both. *)
Definition sampleCards : list Card :=
  [ {| card_taskId := "TSK_1"; card_top := 0; card_height := 30 |};
    {| card_taskId := "TSK_2"; card_top := 40; card_height := 30 |} ].

Definition samplePointer : float := 60.

End Cards.

(** The cards of a container show the tasks [ts], all of them, in order. *)
Definition shows (cards : list Card) (ts : list KanbanTask) : Prop :=
  map card_taskId cards = map task_id ts.

(** The tasks of [ts] other than the task [taskId]. *)
Definition others (taskId : string) (ts : list KanbanTask) : list KanbanTask :=
  filter (fun t => negb (hasTaskId taskId t)) ts.

(** ** A description between fences, in the earlier revision *)

(** A line that, inside the fences, is taken for text: no comment line
    and no fence. *)
Definition fencedText (line : string) : bool :=
  negb (startsWith (trim line) "<!--" && endsWith (trim line) "-->") &&
  negb (String.eqb (trim line) "```") && negb (String.eqb (trim line) "```md").

(** The state of the earlier loop between the fences of the task [t]. *)
Definition fencedTask (title : string) (cols : list KanbanColumn)
    (c : option KanbanColumn) (t : KanbanTask) (n : nat) : Legacy.ParserState :=
  {| Legacy.st_title := title; Legacy.st_columns := cols;
     Legacy.currentColumn := c; Legacy.currentTask := Some t;
     Legacy.inTaskProperties := false; Legacy.inTaskDescription := true;
     Legacy.inCodeBlock := true; Legacy.activeListKey := None;
     Legacy.generated := n |}.

(** The state of the earlier loop behind the fences of the task [t]. *)
Definition describedTask (title : string) (cols : list KanbanColumn)
    (c : option KanbanColumn) (t : KanbanTask) (n : nat) : Legacy.ParserState :=
  {| Legacy.st_title := title; Legacy.st_columns := cols;
     Legacy.currentColumn := c; Legacy.currentTask := Some t;
     Legacy.inTaskProperties := false; Legacy.inTaskDescription := true;
     Legacy.inCodeBlock := false; Legacy.activeListKey := None;
     Legacy.generated := n |}.

(** A task and its fenced description, for the examples. *)
Definition fencedSample : list string :=
  [ "    ```md"; "    First line"; "      ## not a column"; "- [ ] not a task";
    "    ```" ].

(** ** The id shown on a card: [getTaskDisplayId] ([webviewScript.js]) *)

(** [/^TSK-\d+$/] *)
Definition isDisplayId (s : string) : bool :=
  match (r <- stripPrefix "TSK-" s ;; digits1 r) with
  | Some (_, rest) => isEmpty rest
  | None => false
  end.

Definition getTaskDisplayId (task : KanbanTask) : option string :=
  if truthy (task_id task) && isDisplayId (task_id task)
  then Some (task_id task) else None.

(** ** Archiving a column from the board surface ([webviewScript.js]) *)

(** [column.archived] as a condition. *)
Definition isArchived (column : KanbanColumn) : bool :=
  match col_archived column with
  | Some archived => archived
  | None => false
  end.

(** [renderBoard]: the columns drawn as columns, and the columns drawn
    inside the one archive column. *)
Definition normalColumns (currentBoard : KanbanBoard) : list KanbanColumn :=
  filter (fun column => negb (isArchived column)) (board_columns currentBoard).

Definition archivedColumns (currentBoard : KanbanBoard) : list KanbanColumn :=
  filter isArchived (board_columns currentBoard).

Module Webview.

(** [toggleColumnArchive(columnId)], behind the button in the heading of
    a column: the message posted, if any. *)
Definition toggleColumnArchive (currentBoard : KanbanBoard) (columnId : string)
  : option Message :=
  if String.eqb columnId "unified-archive" then None
  else match find (hasColumnId columnId) (board_columns currentBoard) with
       | None => None
       | Some column =>
           Some (ToggleColumnArchive columnId (negb (isArchived column)))
       end.

(** [unarchiveColumn(columnId)], behind the button of a section of the
    archive column. *)
Definition unarchiveColumn (currentBoard : KanbanBoard) (columnId : string)
  : option Message :=
  match find (hasColumnId columnId) (board_columns currentBoard) with
  | None => None
  | Some _ => Some (ToggleColumnArchive columnId false)
  end.

End Webview.

(** ** Dropping a column: [setupColumnDragAndDrop] ([webviewScript.js]) *)

(** [getOriginalColumnIndex(columnId)]; -1 when there is no such column. *)
Definition getOriginalColumnIndex (currentBoard : KanbanBoard) (columnId : string)
  : Z :=
  match findIndex (hasColumnId columnId) (board_columns currentBoard) with
  | Some i => Z.of_nat i
  | None => (-1)%Z
  end.

(** What the [drop] listener of the column [targetColumnId] posts while
    the column [draggedColumnId] is dragged; [None] for [draggedColumnId]
    is [null].  The archive column has no such listener. *)
Definition columnDropMessage (currentBoard : KanbanBoard)
    (draggedColumnId : option string) (targetColumnId : string)
  : option Message :=
  if String.eqb targetColumnId "unified-archive" then None
  else
  match draggedColumnId with
  | Some dragged =>
      if truthy dragged && negb (String.eqb dragged targetColumnId)
      then
        match find (hasColumnId dragged) (board_columns currentBoard),
              find (hasColumnId targetColumnId) (board_columns currentBoard) with
        | Some draggedColumn, Some targetColumn =>
            if negb (isArchived draggedColumn) && negb (isArchived targetColumn)
            then
              let fromOriginalIndex := getOriginalColumnIndex currentBoard dragged in
              let toOriginalIndex :=
                getOriginalColumnIndex currentBoard targetColumnId in
              if negb (fromOriginalIndex =? -1)%Z && negb (toOriginalIndex =? -1)%Z
              then Some (MoveColumn fromOriginalIndex toOriginalIndex)
              else None
            else None
        | _, _ => None
        end
      else None
  | None => None
  end.

(** ** Dropping a step: [setupTaskStepsDragAndDrop] ([webviewScript.js])

    The items of a list of steps on a card, in order: of an item the
    listener reads the index it was drawn with ([data-step-index]),
    whether it is the one being dragged (the class [dragging]), and its
    rectangle. *)

Section Steps.

Import PrimFloat.

Record StepItem := {
  step_index : Z;
  step_dragging : bool;
  step_top : float;
  step_height : float
}.

(** The elements of an array with their places. *)
Definition numbered {A : Type} (l : list A) : list (nat * A) :=
  combine (seq 0 (length l)) l.

(** The function [getDragAfterElement] reduces the items with: the
    closest item so far, by its offset and its place. *)
Definition closer (y : float) (closest : float * option nat)
    (child : nat * StepItem) : float * option nat :=
  let offset := (y - step_top (snd child) - step_height (snd child) / 2)%float in
  if (offset <? 0)%float && (fst closest <? offset)%float
  then (offset, Some (fst child))
  else closest.

(** [getDragAfterElement(container, y)]: the place of the item returned;
    [None] is [undefined]. *)
Definition getDragAfterElement (items : list StepItem) (y : float) : option nat :=
  snd (fold_left (closer y)
         (filter (fun child => negb (step_dragging (snd child))) (numbered items))
         (neg_infinity, None)).

(** The items after the [drop] listener has moved the dragged one. *)
Definition dropStep (items : list StepItem) (y : float) : list StepItem :=
  match findIndex step_dragging items with
  | Some d =>
      match nth_error items d with
      | Some draggingElement =>
          match getDragAfterElement items y with
          | None => (removeAt d items ++ [draggingElement])%list
          | Some a =>
              insertAt (if (d <? a)%nat then a - 1 else a) draggingElement
                (removeAt d items)
          end
      | None => items
      end
  | None => items
  end.

(** The message the listener posts. *)
Definition stepDropMessage (items : list StepItem) (y : float)
    (taskId columnId : string) : Message :=
  ReorderTaskSteps taskId columnId (map step_index (dropStep items y)).

(** Three items, the first one dragged, and a pointer between the other
    two. *)
Definition sampleItems : list StepItem :=
  [ {| step_index := 0; step_dragging := true; step_top := 0; step_height := 20 |};
    {| step_index := 1; step_dragging := false; step_top := 20; step_height := 20 |};
    {| step_index := 2; step_dragging := false; step_top := 40; step_height := 20 |} ].

Definition sampleStepPointer : float := 45.

End Steps.

(** The step an item was drawn for. *)
Definition stepOf (l : list ChecklistItem) (item : StepItem) : option ChecklistItem :=
  nth_error l (Z.to_nat (step_index item)).

(** The items of a list show the steps [l], all of them, in order. *)
Definition showsSteps (items : list StepItem) (l : list ChecklistItem) : Prop :=
  map step_index items = map Z.of_nat (seq 0 (length l)).

(** A board with a task of three steps, for the examples. *)
Definition stepsBoard : KanbanBoard :=
  {| board_title := "Board";
     board_columns :=
       [ {| col_id := "c1"; col_title := "Todo";
            col_tasks :=
              [ {| task_id := "TSK_1"; task_title := "first"; description := None;
                   tags := None; priority := None; workload := None;
                   dueDate := None; startDate := None; defaultExpanded := None;
                   steps := Some [ {| item_text := "one"; item_completed := false |};
                                   {| item_text := "two"; item_completed := true |};
                                   {| item_text := "three"; item_completed := false |} ];
                   ac := None; verify := None; files := None |} ];
            col_archived := Some false |} ];
     board_nextId := 2 |}.

(** * Properties *)

(** ** The loop terminates *)

Ltac break_if :=
  match goal with
  | |- context [if ?c then _ else _] => destruct c eqn:?
  | |- context [match ?c with _ => _ end] => destruct c eqn:?
  end.

Section Loop.

Variable gen : nat -> string.

Lemma taskBodyLine_again st t line trimmedLine st' :
  taskBodyLine st t line trimmedLine = (st', true) -> currentTask st' = None.
Proof.
  unfold taskBodyLine.
  repeat break_if; intros H; inversion H; reflexivity.
Qed.

Lemma step_again st line st' :
  step gen st line = (st', true) -> currentTask st' = None.
Proof.
  unfold step.
  repeat break_if; intros H; try discriminate H.
  eapply taskBodyLine_again; eassumption.
Qed.

Lemma step_no_task st line :
  currentTask st = None -> snd (step gen st line) = false.
Proof.
  intros H. unfold step. rewrite H.
  repeat break_if; reflexivity.
Qed.

Lemma run_stateAfter lines : forall fuel st,
  2 * length lines <= fuel ->
  run gen fuel st lines = Some (stateAfter gen st lines).
Proof.
  induction lines as [|line rest IH]; intros fuel st Hfuel.
  - destruct fuel; reflexivity.
  - simpl in Hfuel. destruct fuel as [|fuel]; [lia|].
    simpl. unfold stepLine.
    destruct (step gen st line) as [st1 again] eqn:Hstep.
    destruct again.
    + destruct fuel as [|fuel]; [lia|].
      simpl.
      pose proof (step_no_task st1 line (step_again _ _ _ Hstep)) as Hno.
      destruct (step gen st1 line) as [st2 again2]. simpl in Hno. subst again2.
      simpl. apply IH. lia.
    + apply IH. lia.
Qed.

Lemma parseLines_stateAfter nextId lines :
  parseLines gen nextId lines
  = Some (boardOfState nextId (stateAfter gen initialState lines)).
Proof.
  unfold parseLines. rewrite run_stateAfter by lia. reflexivity.
Qed.

(** [parseMarkdown] returns a board for every text. *)
Lemma parseMarkdown_total content :
  exists b, parseMarkdown gen content = Some b.
Proof.
  unfold parseMarkdown. rewrite parseLines_stateAfter. eauto.
Qed.

(** The numbers up to 2^53 are exact. *)
Lemma toDouble_safe (n : N) : (n <= twoTo53)%N -> toDouble n = n.
Proof.
  intros H. unfold toDouble. now rewrite (proj2 (N.leb_le n twoTo53) H).
Qed.

Lemma increment_safe (n : N) : (n < twoTo53)%N -> increment n = (n + 1)%N.
Proof.
  intros H. unfold increment. apply toDouble_safe. lia.
Qed.

(** At 2^53 the counter stays where it is. *)
Lemma increment_top : increment twoTo53 = twoTo53.
Proof. reflexivity. Qed.

Lemma numberToString_safe (n : N) :
  (n <= twoTo53)%N -> numberToString n = decimalDigits n.
Proof.
  intros H. unfold numberToString. now rewrite (proj2 (N.leb_le n twoTo53) H).
Qed.

End Loop.

(** ** Facts about strings *)

Section StringFacts.

Lemma append_assoc (a b c : string) : (a ++ b) ++ c = a ++ b ++ c.
Proof. induction a as [|x a IH]; simpl; [reflexivity | now rewrite IH]. Qed.

Lemma append_nil_r (a : string) : a ++ EmptyString = a.
Proof. induction a as [|x a IH]; simpl; [reflexivity | now rewrite IH]. Qed.

Lemma length_append (a b : string) :
  String.length (a ++ b) = String.length a + String.length b.
Proof. induction a as [|x a IH]; simpl; [reflexivity | now rewrite IH]. Qed.

Lemma isEmpty_true (s : string) : isEmpty s = true -> s = EmptyString.
Proof. destruct s; [reflexivity | discriminate]. Qed.

Lemma trimStart_black (s : string) : startsBlack s -> trimStart s = s.
Proof. intros (c & r & -> & Hc). simpl. now rewrite Hc. Qed.

Lemma trimStart_app (x m : string) :
  startsBlack m -> trimStart (x ++ m) = trimStart x ++ m.
Proof.
  intros Hm. induction x as [|c x IH]; simpl.
  - now apply trimStart_black.
  - destruct (isWhite c); [exact IH | reflexivity].
Qed.

Lemma trimStart_idem (s : string) : trimStart (trimStart s) = trimStart s.
Proof.
  induction s as [|c s IH]; simpl; [reflexivity|].
  destruct (isWhite c) eqn:Hc; [exact IH | simpl; now rewrite Hc].
Qed.

Lemma trimEnd_app (x m : string) :
  trimEnd m <> EmptyString -> trimEnd (x ++ m) = x ++ trimEnd m.
Proof.
  intros Hm. induction x as [|c x IH]; simpl; [reflexivity|].
  rewrite IH.
  destruct (x ++ trimEnd m) eqn:E.
  - destruct x; simpl in E; [contradiction | discriminate].
  - simpl. now rewrite andb_false_r.
Qed.

Lemma trimEnd_app_white (x u : string) :
  trimEnd u = EmptyString -> trimEnd (x ++ u) = trimEnd x.
Proof.
  intros Hu. induction x as [|c x IH]; simpl; [exact Hu | now rewrite IH].
Qed.

Lemma trimEnd_idem (s : string) : trimEnd (trimEnd s) = trimEnd s.
Proof.
  induction s as [|c s IH]; simpl; [reflexivity|].
  destruct (isWhite c && isEmpty (trimEnd s)) eqn:E; [reflexivity|].
  simpl. now rewrite IH, E.
Qed.

Lemma trim_commute (s : string) : trimStart (trimEnd s) = trimEnd (trimStart s).
Proof.
  induction s as [|c s IH]; simpl; [reflexivity|].
  destruct (isWhite c) eqn:Hc; simpl.
  - destruct (isEmpty (trimEnd s)) eqn:E.
    + apply isEmpty_true in E. rewrite <- IH, E. reflexivity.
    + simpl. now rewrite Hc.
  - now rewrite Hc.
Qed.

Lemma trim_trimEnd (s : string) : trim (trimEnd s) = trim s.
Proof.
  unfold trim. now rewrite trim_commute, trimEnd_idem.
Qed.

Lemma trim_idem (s : string) : trim (trim s) = trim s.
Proof.
  change (trim (trim s)) with (trim (trimEnd (trimStart s))).
  rewrite trim_trimEnd. unfold trim. now rewrite trimStart_idem.
Qed.

Lemma trimEnd_all_white (s : string) :
  trimStart s = EmptyString -> trimEnd s = EmptyString.
Proof.
  induction s as [|c s IH]; simpl; [reflexivity|].
  destruct (isWhite c); [|discriminate].
  intros H. now rewrite (IH H).
Qed.

Lemma eqb_self_app (a m : string) :
  String.eqb (a ++ m) m = true -> a = EmptyString.
Proof.
  intros H. apply String.eqb_eq in H.
  apply (f_equal String.length) in H. rewrite length_append in H.
  destruct a; [reflexivity | simpl in H; lia].
Qed.

Lemma endsWith_app (x m : string) : endsWith (x ++ m) m = true.
Proof.
  induction x as [|c x IH]; simpl.
  - destruct m; simpl; [reflexivity|].
    now rewrite Ascii.eqb_refl, String.eqb_refl.
  - rewrite IH. apply orb_true_r.
Qed.

(** Cutting the marker off cuts the white space in front of it too. *)
Lemma stripArchived_marker (x : string) :
  stripArchived (x ++ "[Archived]") = trimEnd x.
Proof.
  assert (Hm : startsBlack "[Archived]") by (do 2 eexists; split; reflexivity).
  induction x as [|c x IH].
  - reflexivity.
  - cbn [stripArchived append]. fold (String c x ++ "[Archived]").
    change (String c (x ++ "[Archived]")) with (String c x ++ "[Archived]") at 1.
    rewrite (trimStart_app (String c x) _ Hm).
    destruct (String.eqb (trimStart (String c x) ++ "[Archived]") "[Archived]") eqn:E.
    + apply eqb_self_app in E. symmetry. now apply trimEnd_all_white.
    + rewrite IH. simpl.
      destruct (isWhite c) eqn:Hc; [|reflexivity].
      destruct (isEmpty (trimEnd x)) eqn:Ex; [|reflexivity].
      exfalso.
      simpl in E. rewrite Hc in E.
      assert (trimStart x = EmptyString) as Hx.
      { apply isEmpty_true in Ex.
        assert (trimStart (trimEnd x) = EmptyString) by now rewrite Ex.
        rewrite trim_commute in H.
        destruct (trimStart x) as [|d r] eqn:Ed; [reflexivity|].
        exfalso.
        assert (isWhite d = false) as Hd.
        { clear -Ed. induction x as [|e x IH]; simpl in Ed; [discriminate|].
          destruct (isWhite e) eqn:He; [auto | now inversion Ed; subst]. }
        simpl in H. rewrite Hd in H. discriminate H. }
      rewrite Hx in E. simpl in E. discriminate E.
Qed.

End StringFacts.

(** ** Lines and texts *)

Section Lines.

Lemma lacks_app (c : ascii) (a b : string) :
  lacks c (a ++ b) = lacks c a && lacks c b.
Proof.
  induction a as [|x a IH]; simpl; [reflexivity|].
  rewrite IH. now rewrite andb_assoc.
Qed.

Lemma noLineTerminator_lacks (s : string) :
  noLineTerminator s = true -> lacks LF s = true /\ lacks CR s = true.
Proof.
  induction s as [|c s IH]; simpl; [auto|].
  unfold isLineTerminator. intros H.
  apply andb_prop in H as [Hc Hs]. apply negb_true_iff, orb_false_elim in Hc.
  destruct Hc as [H1 H2]. destruct (IH Hs) as [I1 I2].
  rewrite H1, H2, I1, I2. auto.
Qed.

Lemma replaceCR_lacks (s : string) : lacks CR s = true -> replaceCR s = s.
Proof.
  induction s as [|c s IH]; simpl; [reflexivity|].
  intros H. apply andb_prop in H as [Hc Hs]. apply negb_true_iff in Hc.
  now rewrite Hc, IH.
Qed.

Lemma replaceCRLF_lacks (s : string) : lacks CR s = true -> replaceCRLF s = s.
Proof.
  induction s as [|c s IH]; [reflexivity|].
  intros H. simpl in H. apply andb_prop in H as [Hc Hs].
  apply negb_true_iff in Hc. specialize (IH Hs).
  cbn [replaceCRLF]. fold replaceCRLF in *.
  destruct s as [|d s']; [reflexivity|].
  rewrite Hc. simpl andb. cbv iota. now rewrite IH.
Qed.

Lemma split_lacks (s : string) : lacks LF s = true -> split LF s = [s].
Proof.
  induction s as [|c s IH]; simpl; [reflexivity|].
  intros H. apply andb_prop in H as [Hc Hs]. apply negb_true_iff in Hc.
  now rewrite Hc, IH.
Qed.

Lemma split_line (s r : string) :
  lacks LF s = true -> split LF (s ++ String LF r) = s :: split LF r.
Proof.
  induction s as [|c s IH]; simpl.
  - intros _. reflexivity.
  - intros H. apply andb_prop in H as [Hc Hs]. apply negb_true_iff in Hc.
    now rewrite Hc, IH.
Qed.

Lemma lacks_CR_unlines (lines : list string) :
  Forall properLine lines -> lacks CR (unlines lines) = true.
Proof.
  unfold unlines, join.
  induction 1 as [|l ls Hl Hls IH]; [reflexivity|].
  apply noLineTerminator_lacks in Hl as [_ Hl].
  destruct ls as [|l2 ls]; simpl; [exact Hl|].
  rewrite lacks_app, Hl. simpl. exact IH.
Qed.

Lemma split_unlines (lines : list string) :
  Forall properLine lines -> lines <> [] ->
  split LF (unlines lines) = lines.
Proof.
  unfold unlines, join.
  induction 1 as [|l ls Hl Hls IH]; [congruence|].
  intros _. apply noLineTerminator_lacks in Hl as [Hl _].
  destruct ls as [|l2 ls].
  - simpl. now apply split_lacks.
  - change (String.concat newline (l :: l2 :: ls))
      with (l ++ String LF (String.concat newline (l2 :: ls))).
    rewrite split_line by assumption. f_equal. apply IH. discriminate.
Qed.

(** The lines of a text made of lines are those lines. *)
Lemma splitLines_unlines (lines : list string) :
  Forall properLine lines -> lines <> [] ->
  splitLines (unlines lines) = lines.
Proof.
  intros H Hne. unfold splitLines.
  rewrite replaceCRLF_lacks, replaceCR_lacks by now apply lacks_CR_unlines.
  now apply split_unlines.
Qed.

End Lines.

(** ** The scenario of the specification *)

(** C2.  The ten-line document of the specification parses to the board
    titled "My Board" with the single, not archived column "Todo", holding
    the single task TSK_1 "Write spec" with tags backend and urgent,
    priority high, the description "This needs doing." and the steps
    outline (done) and write (open); the counter stays 3. *)
Theorem scenario_parses (gen : nat -> string) :
  parseMarkdown gen scenario =
  Some {| board_title := "My Board";
          board_columns :=
            [ {| col_id := gen 0; col_title := "Todo";
                 col_tasks :=
                   [ {| task_id := "TSK_1"; task_title := "Write spec";
                        description := Some "This needs doing.";
                        tags := Some ["backend"; "urgent"];
                        priority := Some High; workload := None;
                        dueDate := None; startDate := None;
                        defaultExpanded := None;
                        steps :=
                          Some [ {| item_text := "outline"; item_completed := true |};
                                 {| item_text := "write"; item_completed := false |} ];
                        ac := None; verify := None; files := None |} ];
                 col_archived := Some false |} ];
          board_nextId := 3 |}.
Proof. vm_compute. reflexivity. Qed.

(** ** Parse, serialize, parse, serialize *)

(** C1.  A due date does not survive a second save.  The text [dueDocument]
    is saved with a line [**Due:** 2024-05-01]; the parser has no rule for
    that line, closes the task on it and drops it, so saving the saved
    text again gives a different text. *)
Theorem resave_drops_due_date :
  resave demoIds dueDocument = Some dueSavedOnce /\
  resave demoIds dueSavedOnce = Some dueSavedTwice /\
  dueSavedOnce <> dueSavedTwice.
Proof.
  split; [|split].
  - vm_compute. reflexivity.
  - vm_compute. reflexivity.
  - intros H. discriminate H.
Qed.

(** The scenario of the specification is saved as the same text the
    second time as the first. *)
Lemma resave_scenario_stable :
  resave demoIds scenario = Some scenarioSaved /\
  resave demoIds scenarioSaved = Some scenarioSaved.
Proof.
  split; vm_compute; reflexivity.
Qed.

(** A description without tags or priority does not survive a second
    save either: it is written without the blockquote line that makes
    the parser collect it. *)
Lemma resave_drops_bare_description :
  resave demoIds descriptionDocument = Some descriptionSavedOnce /\
  resave demoIds descriptionSavedOnce = Some dueSavedTwice.
Proof.
  split; vm_compute; reflexivity.
Qed.

(** ** The archived marker *)

Section Archived.

Variable gen : nat -> string.

(** What the loop does with a column header whose title ends with the
    marker, outside a code block. *)
Lemma step_archived_header st line rest x :
  trim line = "## " ++ rest -> trim rest = x ++ "[Archived]" ->
  inCodeBlock st = false ->
  step gen st line =
  ({| st_title := st_title st;
      st_columns := match finalizeCurrentTask (currentTask st) (currentColumn st) with
                    | Some c => (st_columns st ++ [c])%list
                    | None => st_columns st
                    end;
      currentColumn :=
        Some {| col_id := gen (generated st); col_title := trim x;
                col_tasks := []; col_archived := Some true |};
      currentTask := None; inTaskBody := false; inCodeBlock := false;
      activeListKey := None; collectingDescription := false;
      generated := S (generated st) |}, false).
Proof.
  intros Hline Hrest Hcode. unfold step. rewrite Hline, Hcode.
  cbn [append startsWith Ascii.eqb Bool.eqb andb substringFrom].
  rewrite Hrest, endsWith_app, stripArchived_marker, trim_trimEnd.
  reflexivity.
Qed.


Lemma noLineTerminator_app (a b : string) :
  noLineTerminator (a ++ b) = noLineTerminator a && noLineTerminator b.
Proof.
  induction a as [|c a IH]; simpl; [reflexivity|].
  now rewrite IH, andb_assoc.
Qed.

Lemma trim_marked (y : string) :
  trim (y ++ "[Archived]") = trimStart y ++ "[Archived]".
Proof.
  unfold trim. rewrite trimStart_app by (do 2 eexists; split; reflexivity).
  rewrite trimEnd_app by discriminate. reflexivity.
Qed.

Lemma trim_trimStart_space (t : string) :
  trim t = t -> trim (trimStart (t ++ " ")) = t.
Proof.
  intros Ht. unfold trim. rewrite trimStart_idem, <- trim_commute.
  rewrite trimEnd_app_white by reflexivity.
  rewrite trim_commute. exact Ht.
Qed.

Lemma heading_trim (t : string) :
  trim ("## " ++ t ++ " [Archived]") = "## " ++ (t ++ " [Archived]").
Proof.
  replace ("## " ++ t ++ " [Archived]") with (("## " ++ t ++ " ") ++ "[Archived]")
    by (simpl; now rewrite append_assoc).
  rewrite trim_marked. simpl. now rewrite append_assoc.
Qed.

Lemma rest_trim (t : string) :
  trim (t ++ " [Archived]") = trimStart (t ++ " ") ++ "[Archived]".
Proof.
  replace (t ++ " [Archived]") with ((t ++ " ") ++ "[Archived]")
    by (now rewrite append_assoc).
  apply trim_marked.
Qed.

Lemma stepLine_blank st :
  stepLine gen st EmptyString = st.
Proof.
  unfold stepLine, step. simpl.
  destruct (inCodeBlock st); [reflexivity|].
  destruct (currentTask st); [|reflexivity].
  destruct (inTaskBody st); reflexivity.
Qed.

Lemma parse_archived_header line rest x :
  properLine line ->
  trim line = "## " ++ rest -> trim rest = x ++ "[Archived]" ->
  option_map board_columns (parseMarkdown gen line)
  = Some [archivedColumn (gen 0) (trim x)].
Proof.
  intros Hp Hline Hrest. unfold parseMarkdown.
  replace (splitLines line) with [line]
    by (symmetry; apply (splitLines_unlines [line]); [now constructor | discriminate]).
  rewrite parseLines_stateAfter. simpl stateAfter. unfold stepLine.
  rewrite (step_archived_header initialState _ _ _ Hline Hrest eq_refl).
  reflexivity.
Qed.

(** C7.  A column header whose title text ends with [Archived] parses to
    an archived column, its title the text in front of the marker,
    trimmed; an archived column titled T is written [## T [Archived]];
    and that text parses back to the archived column titled T. *)
Theorem archived_round_trip (fmt : TaskHeaderFormat)
    (columnId T line rest x : string) :
  properLine line ->
  trim line = "## " ++ rest -> trim rest = x ++ "[Archived]" ->
  trim T = T -> properLine T ->
  option_map board_columns (parseMarkdown gen line)
    = Some [archivedColumn (gen 0) (trim x)] /\
  generateColumn fmt (archivedColumn columnId T)
    = unlines ["## " ++ T ++ " [Archived]"; EmptyString; EmptyString] /\
  option_map board_columns
    (parseMarkdown gen (generateColumn fmt (archivedColumn columnId T)))
    = Some [archivedColumn (gen 0) T].
Proof.
  intros Hp Hline Hrest HT HpT.
  assert (Hgen : generateColumn fmt (archivedColumn columnId T)
                 = unlines ["## " ++ T ++ " [Archived]"; EmptyString; EmptyString]).
  { unfold generateColumn, unlines, join. reflexivity. }
  split; [exact (parse_archived_header _ _ _ Hp Hline Hrest)|].
  split; [exact Hgen|].
  rewrite Hgen. unfold parseMarkdown.
  rewrite splitLines_unlines.
  2:{ repeat constructor. unfold properLine.
      simpl. rewrite noLineTerminator_app, HpT. reflexivity. }
  2: discriminate.
  rewrite parseLines_stateAfter. unfold stateAfter. cbn [fold_left].
  rewrite !stepLine_blank. unfold stepLine.
  rewrite (step_archived_header initialState _ _ _
             (heading_trim T) (rest_trim T) eq_refl).
  rewrite trim_trimStart_space by exact HT. reflexivity.
Qed.

End Archived.

(** The column header of the specification, there and back. *)
Lemma archived_round_trip_done :
  properLine "## Done [Archived]" /\
  trim "## Done [Archived]" = "## " ++ "Done [Archived]" /\
  trim "Done [Archived]" = "Done " ++ "[Archived]" /\
  trim "Done" = "Done" /\ properLine "Done" /\
  option_map board_columns (parseMarkdown demoIds "## Done [Archived]")
    = Some [archivedColumn (demoIds 0) "Done"] /\
  generateColumn TitleFormat (archivedColumn "c1" "Done")
    = unlines ["## Done [Archived]"; EmptyString; EmptyString] /\
  option_map board_columns
    (parseMarkdown demoIds
       (generateColumn TitleFormat (archivedColumn "c1" "Done")))
    = Some [archivedColumn (demoIds 0) "Done"].
Proof.
  do 5 (split; [reflexivity|]).
  exact (archived_round_trip demoIds TitleFormat "c1" "Done"
           "## Done [Archived]" "Done [Archived]" "Done "
           eq_refl eq_refl eq_refl eq_refl eq_refl).
Defined.

(** ** The two header styles *)

Section HeaderStyle.

Lemma concat_cons (x : string) (l : list string) :
  String.concat EmptyString (x :: l) = x ++ String.concat EmptyString l.
Proof.
  destruct l as [|y l]; simpl; [now rewrite append_nil_r | reflexivity].
Qed.

Lemma concat_app (l1 l2 : list string) :
  String.concat EmptyString (l1 ++ l2)
  = String.concat EmptyString l1 ++ String.concat EmptyString l2.
Proof.
  induction l1 as [|x l1 IH]; [reflexivity|].
  rewrite <- app_comm_cons, !concat_cons, IH. now rewrite append_assoc.
Qed.

Lemma render_app (marker : string) (s1 s2 : list Segment) :
  render marker (s1 ++ s2) = render marker s1 ++ render marker s2.
Proof. unfold render. now rewrite map_app, concat_app. Qed.

Lemma render_tasks (fmt : TaskHeaderFormat) (ts : list KanbanTask) :
  String.concat EmptyString (map (generateTask fmt) ts)
  = render (headerPrefix fmt) (flat_map taskSegments ts).
Proof.
  induction ts as [|t ts IH]; [reflexivity|].
  cbn [map flat_map]. rewrite concat_cons, render_app, IH.
  f_equal. unfold render, taskSegments, generateTask. simpl.
  now rewrite !append_assoc.
Qed.

Lemma render_columns (fmt : TaskHeaderFormat) (cs : list KanbanColumn) :
  String.concat EmptyString (map (generateColumn fmt) cs)
  = render (headerPrefix fmt) (flat_map columnSegments cs).
Proof.
  induction cs as [|c cs IH]; [reflexivity|].
  cbn [map flat_map]. rewrite concat_cons, render_app, IH.
  f_equal. unfold columnSegments, generateColumn.
  change (render (headerPrefix fmt) (?a :: ?l))
    with (String.concat EmptyString
            (renderSegment (headerPrefix fmt) a :: map (renderSegment (headerPrefix fmt)) l)).
  rewrite concat_cons. fold (render (headerPrefix fmt) (flat_map taskSegments (col_tasks c))).
  rewrite <- render_tasks. simpl. now rewrite !append_assoc.
Qed.

Lemma generateMarkdown_segments (b : KanbanBoard) (fmt : TaskHeaderFormat) :
  generateMarkdown b fmt = render (headerPrefix fmt) (boardSegments b).
Proof.
  unfold generateMarkdown, boardSegments.
  change (render (headerPrefix fmt) (?a :: ?l))
    with (String.concat EmptyString
            (renderSegment (headerPrefix fmt) a :: map (renderSegment (headerPrefix fmt)) l)).
  rewrite concat_cons.
  fold (render (headerPrefix fmt) (flat_map columnSegments (board_columns b))).
  rewrite <- render_columns. simpl. now rewrite !append_assoc.
Qed.

(** C9.  The two outputs for a board are the same sequence of segments,
    rendered alike but for the header lines: a header line of text [t] is
    [### t] under the heading style and [- t] under the list style; all
    that is emitted besides is the same text in both. *)
Theorem header_style_only_changes_headers (b : KanbanBoard) :
  generateMarkdown b TitleFormat = render "### " (boardSegments b) /\
  generateMarkdown b ListFormat = render "- " (boardSegments b).
Proof.
  split; apply generateMarkdown_segments.
Qed.

End HeaderStyle.

(** ** Arrays and look-up *)

Section Arrays.

Local Open Scope list_scope.

Context {A : Type}.

Lemma updateFirst_split (p : A -> bool) (f : A -> A) (l : list A) (x : A) :
  find p l = Some x ->
  exists l1 l2, l = l1 ++ x :: l2 /\ updateFirst p f l = l1 ++ f x :: l2.
Proof.
  induction l as [|y l IH]; simpl; [discriminate|].
  destruct (p y) eqn:Hy.
  - intros [= ->]. now exists [], l.
  - intros H. destruct (IH H) as (l1 & l2 & -> & Hu).
    exists (y :: l1), l2. simpl. now rewrite Hu.
Qed.


Lemma find_updateFirst_same (p : A -> bool) (f : A -> A) (l : list A) :
  (forall x, p (f x) = p x) ->
  find p (updateFirst p f l) = option_map f (find p l).
Proof.
  intros Hp. induction l as [|y l IH]; simpl; [reflexivity|].
  destruct (p y) eqn:E; simpl.
  - now rewrite Hp, E.
  - now rewrite E.
Qed.

Lemma find_updateFirst (p q : A -> bool) (f : A -> A) (l : list A) :
  (forall x, q (f x) = q x) ->
  find q (updateFirst p f l) = None <-> find q l = None.
Proof.
  intros Hq. induction l as [|y l IH]; simpl; [tauto|].
  destruct (p y); simpl.
  - rewrite Hq. destruct (q y); [split; discriminate | tauto].
  - destruct (q y); [tauto | exact IH].
Qed.

Lemma findIndex_nth (p : A -> bool) (l : list A) (i : nat) :
  findIndex p l = Some i -> exists x, nth_error l i = Some x /\ find p l = Some x.
Proof.
  revert i. induction l as [|y l IH]; simpl; intros i; [discriminate|].
  destruct (p y).
  - intros [= <-]. now exists y.
  - destruct (findIndex p l) as [j|]; [|discriminate].
    intros [= <-]. exact (IH j eq_refl).
Qed.

Lemma findIndex_none (p : A -> bool) (l : list A) :
  findIndex p l = None <-> find p l = None.
Proof.
  induction l as [|y l IH]; simpl; [tauto|].
  destruct (p y); [split; discriminate|].
  destruct (findIndex p l); simpl; [|tauto].
  split; [discriminate|]. intros H. apply IH in H. discriminate.
Qed.

Lemma removeAt_perm (l : list A) (i : nat) (x : A) :
  nth_error l i = Some x -> Permutation l (x :: removeAt i l).
Proof.
  unfold removeAt. revert i. induction l as [|y l IH]; intros [|i]; simpl;
    try discriminate.
  - intros [= ->]. reflexivity.
  - intros H. rewrite (IH i H) at 1. apply perm_swap.
Qed.

Lemma insertAt_perm (l : list A) (i : nat) (x : A) :
  Permutation (insertAt i x l) (x :: l).
Proof.
  unfold insertAt. rewrite <- (firstn_skipn i l) at 3.
  symmetry. apply Permutation_middle.
Qed.

End Arrays.

(** ** The ids of a board under an update *)

Section Ids.

Local Open Scope list_scope.

Lemma taskIds_app (c1 c2 : list KanbanColumn) :
  taskIds (c1 ++ c2) = (taskIds c1 ++ taskIds c2)%list.
Proof. apply flat_map_app. Qed.

(** An update of the column [findColumn] returns changes the ids of that
    column and no other. *)
Lemma boardIds_updateColumn b columnId f c :
  findColumn b columnId = Some c ->
  exists before after,
    boardIds b = (before ++ columnIds c ++ after)%list /\
    boardIds (updateColumn b columnId f) = (before ++ columnIds (f c) ++ after)%list.
Proof.
  unfold findColumn, boardIds, updateColumn. intros H.
  destruct (updateFirst_split _ f _ _ H) as (l1 & l2 & E1 & E2).
  exists (taskIds l1), (taskIds l2). simpl. rewrite E2, E1, !taskIds_app.
  simpl. unfold taskIds at 2 4. simpl. fold (taskIds l2). auto.
Qed.

Lemma hasColumn_updateColumn b columnId f x :
  (forall c, col_id (f c) = col_id c) ->
  hasColumn (updateColumn b columnId f) x <-> hasColumn b x.
Proof.
  intros Hf. unfold hasColumn, findColumn, updateColumn. simpl.
  rewrite find_updateFirst; [tauto|].
  intros c. unfold hasColumnId. now rewrite Hf.
Qed.

Lemma decimalDigits_inj (n m : N) :
  decimalDigits n = decimalDigits m -> n = m.
Proof.
  unfold decimalDigits. intros H.
  apply DecimalN.Unsigned.to_uint_inj.
  apply (f_equal NilEmpty.uint_of_string) in H.
  rewrite !NilEmpty.usu in H. now inversion H.
Qed.

Lemma numberToString_inj (n m : N) :
  (n <= twoTo53)%N -> (m <= twoTo53)%N ->
  numberToString n = numberToString m -> n = m.
Proof.
  intros Hn Hm. rewrite !numberToString_safe by assumption.
  apply decimalDigits_inj.
Qed.

Lemma countedIds_succ (k : N) (n : nat) :
  countedIds k (S n)
  = ("TSK_" ++ numberToString k)%string :: countedIds (k + 1) n.
Proof.
  unfold countedIds. simpl. rewrite N.add_0_r. f_equal.
  rewrite <- seq_shift, map_map. apply map_ext. intros i.
  replace (k + N.of_nat (S i))%N with (k + 1 + N.of_nat i)%N by lia.
  reflexivity.
Qed.

Lemma countedIds_NoDup (k : N) (n : nat) :
  (k + N.of_nat n <= twoTo53)%N -> NoDup (countedIds k n).
Proof.
  intros Hk. unfold countedIds.
  apply Injective_map_NoDup_in; [|apply seq_NoDup].
  intros i j Hi Hj H. apply in_seq in Hi, Hj.
  injection H as H. apply numberToString_inj in H; lia.
Qed.

End Ids.

(** ** Creating tasks *)

Section Creation.

Local Open Scope list_scope.

Lemma addTask_present columnId taskData b c :
  findColumn b columnId = Some c ->
  board_nextId (addTask columnId taskData b) = increment (board_nextId b) /\
  Permutation (boardIds (addTask columnId taskData b))
    (boardIds b ++ [("TSK_" ++ numberToString (board_nextId b))%string]) /\
  (forall x, hasColumn (addTask columnId taskData b) x <-> hasColumn b x).
Proof.
  intros H. unfold addTask. rewrite H. cbn [getNextTaskId].
  set (b1 := {| board_title := board_title b; board_columns := board_columns b;
                board_nextId := increment (board_nextId b) |}).
  assert (H1 : findColumn b1 columnId = Some c) by exact H.
  split; [reflexivity|]. split.
  - destruct (boardIds_updateColumn b1 columnId
                (fun c0 => set_tasks c0 (col_tasks c0 ++
                   [taskOfData ("TSK_" ++ numberToString (board_nextId b))%string taskData])) c H1)
      as (l1 & l2 & E1 & E2).
    rewrite E2. change (boardIds b) with (boardIds b1). rewrite E1.
    unfold columnIds. cbn [set_tasks col_tasks]. rewrite map_app. simpl.
    rewrite <- !app_assoc. apply Permutation_app_head.
    apply Permutation_app_head. simpl.
    apply Permutation_cons_append.
  - intros x. rewrite hasColumn_updateColumn; [reflexivity | reflexivity].
Qed.

(** C6.  From a board whose counter is k, n task creations (each for a
    column of the board), with k + n at most 2^53, leave the counter at
    k + n; the ids of the board are then the ids it had and TSK_k, ...,
    TSK_(k+n-1), the ids of the n created tasks, which are pairwise
    distinct. *)
Theorem creation_counts (requests : list (string * TaskData)) (b : KanbanBoard) :
  (board_nextId b + N.of_nat (length requests) <= twoTo53)%N ->
  Forall (fun r => hasColumn b (fst r)) requests ->
  board_nextId (addTasks requests b)
    = (board_nextId b + N.of_nat (length requests))%N /\
  Permutation (boardIds (addTasks requests b))
    (boardIds b ++ countedIds (board_nextId b) (length requests)) /\
  NoDup (countedIds (board_nextId b) (length requests)).
Proof.
  intros Hk H. split; [|split]; [| |now apply countedIds_NoDup].
  - revert b Hk H. induction requests as [|[cid td] rs IH]; intros b Hk H.
    + simpl. lia.
    + inversion H as [|? ? Hc Hrs]; subst. simpl in Hc.
      unfold hasColumn in Hc. cbn [length] in Hk.
      destruct (findColumn b cid) as [c|] eqn:Ec; [|congruence].
      destruct (addTask_present cid td b c Ec) as (Hn & _ & Hcols).
      rewrite increment_safe in Hn by lia.
      cbn [addTasks fold_left fst snd]. fold (addTasks rs (addTask cid td b)).
      rewrite IH.
      * rewrite Hn. cbn [length]. lia.
      * rewrite Hn. lia.
      * eapply Forall_impl; [|exact Hrs]. intros r Hr. now apply Hcols.
  - revert b Hk H. induction requests as [|[cid td] rs IH]; intros b Hk H.
    + simpl. now rewrite app_nil_r.
    + inversion H as [|? ? Hc Hrs]; subst. simpl in Hc.
      unfold hasColumn in Hc. cbn [length] in Hk.
      destruct (findColumn b cid) as [c|] eqn:Ec; [|congruence].
      destruct (addTask_present cid td b c Ec) as (Hn & Hp & Hcols).
      rewrite increment_safe in Hn by lia.
      cbn [addTasks fold_left fst snd]. fold (addTasks rs (addTask cid td b)).
      rewrite IH.
      * rewrite Hn, Hp. cbn [length]. rewrite countedIds_succ.
        rewrite <- app_assoc. reflexivity.
      * rewrite Hn. lia.
      * eapply Forall_impl; [|exact Hrs]. intros r Hr. now apply Hcols.
Qed.

(** Three creations in the first column of the sample board, whose
    counter is at 7. *)
Lemma creation_counts_three :
  (board_nextId sampleBoard + N.of_nat (length sampleRequests) <= twoTo53)%N /\
  Forall (fun r => hasColumn sampleBoard (fst r)) sampleRequests /\
  board_nextId (addTasks sampleRequests sampleBoard) = (7 + 3)%N /\
  Permutation (boardIds (addTasks sampleRequests sampleBoard))
    (boardIds sampleBoard ++ countedIds 7 3) /\
  NoDup (countedIds 7 3).
Proof.
  assert (H : Forall (fun r => hasColumn sampleBoard (fst r)) sampleRequests)
    by (repeat constructor; discriminate).
  assert (Hk : (board_nextId sampleBoard + N.of_nat (length sampleRequests)
                 <= twoTo53)%N) by (vm_compute; discriminate).
  split; [exact Hk|]. split; [exact H|].
  exact (creation_counts sampleRequests sampleBoard Hk H).
Defined.

(** C6, beyond 2^53.  On a board whose counter is 2^53, two creations
    leave the counter where it was, and the two created tasks have the
    same id: [nextId++] adds one in double arithmetic, where 2^53 + 1 is
    2^53. *)
Lemma creation_repeats_id :
  board_nextId fullBoard = twoTo53 /\
  Forall (fun r => hasColumn fullBoard (fst r)) fullRequests /\
  board_nextId (addTasks fullRequests fullBoard) = board_nextId fullBoard /\
  boardIds (addTasks fullRequests fullBoard)
  = ["TSK_9007199254740992"; "TSK_9007199254740992"]%string /\
  ~ NoDup (boardIds (addTasks fullRequests fullBoard)).
Proof.
  split; [reflexivity|]. split; [repeat constructor; discriminate|].
  split; [vm_compute; reflexivity|].
  assert (E : boardIds (addTasks fullRequests fullBoard)
              = ["TSK_9007199254740992"; "TSK_9007199254740992"]%string)
    by (vm_compute; reflexivity).
  split; [exact E|]. rewrite E. intros Hnd. inversion Hnd as [|? ? Hin _].
  apply Hin. now left.
Qed.

End Creation.

(** ** The counter and the last pass *)

Section Allocation.

Local Open Scope list_scope.

Lemma searchCounter_eq (s : string) :
  searchCounter s =
  match matchCounterAt s with
  | Some d => Some d
  | None => match s with
            | EmptyString => None
            | String _ r => searchCounter r
            end
  end.
Proof. destruct s; reflexivity. Qed.



Lemma nonCanonical_app (l1 l2 : list KanbanTask) :
  nonCanonical (l1 ++ l2) = nonCanonical l1 + nonCanonical l2.
Proof. unfold nonCanonical. now rewrite filter_app, length_app. Qed.

Lemma nonCanonical_cons (t : KanbanTask) (ts : list KanbanTask) :
  nonCanonical (t :: ts)
  = (if isCanonicalId (task_id t) then 0 else 1) + nonCanonical ts.
Proof.
  unfold nonCanonical. cbn [filter].
  now destruct (isCanonicalId (task_id t)).
Qed.



Lemma assignTasks_app (l1 l2 : list KanbanTask) : forall n,
  assignTasks n (l1 ++ l2) =
  (fst (assignTasks n l1) ++ fst (assignTasks (snd (assignTasks n l1)) l2),
   snd (assignTasks (snd (assignTasks n l1)) l2)).
Proof.
  induction l1 as [|t l1 IH]; intros n; simpl.
  - now destruct (assignTasks n l2).
  - destruct (isCanonicalId (task_id t)).
    + rewrite IH. destruct (assignTasks n l1). reflexivity.
    + rewrite IH. destruct (assignTasks (increment n) l1). reflexivity.
Qed.

(** The pass over the columns is the pass over their tasks, in order. *)
Lemma assignColumns_flat (cs : list KanbanColumn) : forall n,
  allTasks (fst (assignColumns n cs)) = fst (assignTasks n (allTasks cs)) /\
  snd (assignColumns n cs) = snd (assignTasks n (allTasks cs)).
Proof.
  unfold allTasks.
  induction cs as [|c cs IH]; intros n; simpl; [auto|].
  rewrite assignTasks_app.
  destruct (assignTasks n (col_tasks c)) as [ts m] eqn:E. simpl.
  destruct (IH m) as [I1 I2].
  destruct (assignColumns m cs) as [cs' k]. simpl in *.
  now rewrite I1, I2.
Qed.





End Allocation.



(** ** Lines the loop passes over *)

Section Skipped.

Variable gen : nat -> string.

Lemma stateAfter_app st l1 l2 :
  stateAfter gen st (l1 ++ l2) = stateAfter gen (stateAfter gen st l1) l2.
Proof. apply fold_left_app. Qed.

(** The text of some lines parses as the lines do. *)
Lemma parseMarkdown_unlines (lines : list string) :
  Forall properLine lines ->
  parseMarkdown gen (unlines lines)
  = parseLines gen (declaredNextId (unlines lines)) lines.
Proof.
  intros H. unfold parseMarkdown. destruct lines as [|l ls].
  - rewrite !parseLines_stateAfter. reflexivity.
  - rewrite splitLines_unlines; [reflexivity | exact H | discriminate].
Qed.

(** A line the loop leaves the state at can be taken out of the lines. *)
Lemma parseLines_skip (n : N) (pre mid post : list string) :
  stateAfter gen (stateAfter gen initialState pre) mid
  = stateAfter gen initialState pre ->
  parseLines gen n (pre ++ mid ++ post) = parseLines gen n (pre ++ post).
Proof.
  intros H. rewrite !parseLines_stateAfter, !stateAfter_app, H. reflexivity.
Qed.

Lemma fence_not_comment (t : string) :
  startsWith t "```" = true -> startsWith t "<!--" = false.
Proof.
  destruct t as [|c t]; [discriminate|].
  destruct c as [[] [] [] [] [] [] [] []]; try discriminate; reflexivity.
Qed.

(** Inside a code block, a line that is not a fence changes nothing. *)
Lemma stepLine_fenced st line :
  inCodeBlock st = true -> isFenceLine line = false ->
  stepLine gen st line = st.
Proof.
  unfold isFenceLine. intros Hin Hfence. unfold stepLine, step.
  rewrite Hfence, Hin.
  destruct (startsWith (trim line) "<!--" && endsWith (trim line) "-->");
    reflexivity.
Qed.

Lemma stateAfter_fenced st (mid : list string) :
  inCodeBlock st = true -> Forall (fun l => isFenceLine l = false) mid ->
  stateAfter gen st mid = st.
Proof.
  intros Hin H. induction H as [|l ls Hl Hls IH]; [reflexivity|].
  simpl. rewrite stepLine_fenced by assumption. exact IH.
Qed.

(** A fence line switches the code block on or off and does nothing else. *)
Lemma stepLine_fence st line :
  isFenceLine line = true ->
  inCodeBlock (stepLine gen st line) = negb (inCodeBlock st).
Proof.
  unfold isFenceLine. intros Hfence. unfold stepLine, step.
  rewrite Hfence, (fence_not_comment _ Hfence). reflexivity.
Qed.

(** No other line touches the flag. *)
Lemma step_keeps_flag st line :
  isFenceLine line = false ->
  inCodeBlock (fst (step gen st line)) = inCodeBlock st.
Proof.
  unfold isFenceLine. intros Hfence. unfold step. rewrite Hfence.
  repeat break_if; simpl; try congruence.
  unfold taskBodyLine.
  repeat break_if; simpl; congruence.
Qed.

Lemma stepLine_keeps_flag st line :
  isFenceLine line = false ->
  inCodeBlock (stepLine gen st line) = inCodeBlock st.
Proof.
  intros Hfence. unfold stepLine.
  pose proof (step_keeps_flag st line Hfence) as H1.
  destruct (step gen st line) as [st1 again]. simpl in H1.
  destruct again; [|exact H1].
  now rewrite step_keeps_flag, H1.
Qed.

(** The flag behind some lines: on after an odd number of fence lines. *)
Lemma inCodeBlock_parity (lines : list string) : forall st,
  inCodeBlock (stateAfter gen st lines)
  = xorb (inCodeBlock st) (Nat.odd (fenceCount lines)).
Proof.
  unfold fenceCount.
  induction lines as [|l ls IH]; intros st; simpl.
  - now rewrite xorb_false_r.
  - rewrite IH. destruct (isFenceLine l) eqn:E.
    + rewrite stepLine_fence by exact E. simpl length.
      rewrite Nat.odd_succ, <- Nat.negb_odd.
      destruct (inCodeBlock st), (Nat.odd _); reflexivity.
    + now rewrite stepLine_keeps_flag.
Qed.

End Skipped.

(** ** Code fences *)

Section Fences.

Variable gen : nat -> string.

Local Open Scope list_scope.

(** C8 (as amended).  Let a fence line open a code block (an even number
    of fence lines stands in front of it) and let [mid] be lines behind
    it up to the next fence line.  The loop leaves its state, and so
    every column, task, tag, checklist and description, as it is on the
    lines of [mid]; whatever the counter, the lines parse to the same
    board with and without [mid]; and the two texts parse to the same
    board when they declare the same counter.  The counter comment is the
    one thing the parser reads inside a fence. *)
Theorem fenced_lines_ignored (pre mid post : list string) (opening : string) :
  Forall properLine (pre ++ opening :: mid ++ post) ->
  Nat.even (fenceCount pre) = true ->
  isFenceLine opening = true ->
  Forall (fun l => isFenceLine l = false) mid ->
  stateAfter gen initialState (pre ++ opening :: mid)
    = stateAfter gen initialState (pre ++ [opening]) /\
  (forall n, parseLines gen n (pre ++ opening :: mid ++ post)
             = parseLines gen n (pre ++ opening :: post)) /\
  (declaredNextId (unlines (pre ++ opening :: mid ++ post))
     = declaredNextId (unlines (pre ++ opening :: post)) ->
   parseMarkdown gen (unlines (pre ++ opening :: mid ++ post))
     = parseMarkdown gen (unlines (pre ++ opening :: post))).
Proof.
  intros Hproper Heven Hopen Hmid.
  assert (Hstate : stateAfter gen (stateAfter gen initialState (pre ++ [opening])) mid
                   = stateAfter gen initialState (pre ++ [opening])).
  { apply stateAfter_fenced; [|exact Hmid].
    rewrite stateAfter_app. simpl. rewrite stepLine_fence by exact Hopen.
    rewrite inCodeBlock_parity. simpl. rewrite <- Nat.negb_even, Heven.
    reflexivity. }
  assert (Hloop : forall n, parseLines gen n (pre ++ opening :: mid ++ post)
                            = parseLines gen n (pre ++ opening :: post)).
  { intros n.
    replace (pre ++ opening :: mid ++ post) with ((pre ++ [opening]) ++ mid ++ post)
      by now rewrite <- app_assoc.
    replace (pre ++ opening :: post) with ((pre ++ [opening]) ++ post)
      by now rewrite <- app_assoc.
    apply parseLines_skip. exact Hstate. }
  split.
  { replace (pre ++ opening :: mid) with ((pre ++ [opening]) ++ mid)
      by now rewrite <- app_assoc.
    rewrite stateAfter_app. exact Hstate. }
  split; [exact Hloop|].
  intros Hcounter.
  rewrite !parseMarkdown_unlines.
  - rewrite Hcounter. apply Hloop.
  - apply Forall_app in Hproper as [Hpre Hrest].
    inversion Hrest as [|? ? Ho Hmp]; subst.
    apply Forall_app in Hmp as [_ Hpost].
    apply Forall_app. split; [exact Hpre | now constructor].
  - exact Hproper.
Qed.

End Fences.

(** A column header and a list item inside a fence. *)
Lemma fenced_lines_ignored_sample :
  Forall properLine
    (["## Todo"; "### Note"] ++ "```md" :: ["## Inside"; "- item"] ++ ["```"; "## Done"]) /\
  Nat.even (fenceCount ["## Todo"; "### Note"]) = true /\
  isFenceLine "```md" = true /\
  Forall (fun l => isFenceLine l = false) ["## Inside"; "- item"] /\
  parseMarkdown demoIds
    (unlines (["## Todo"; "### Note"] ++ "```md" :: ["## Inside"; "- item"] ++ ["```"; "## Done"]))
  = parseMarkdown demoIds
    (unlines (["## Todo"; "### Note"] ++ "```md" :: ["```"; "## Done"])).
Proof.
  assert (H1 : Forall properLine
            (["## Todo"; "### Note"] ++ "```md" :: ["## Inside"; "- item"] ++ ["```"; "## Done"]))
    by (repeat constructor).
  assert (H4 : Forall (fun l => isFenceLine l = false) ["## Inside"; "- item"])
    by (repeat constructor).
  split; [exact H1|]. split; [reflexivity|]. split; [reflexivity|].
  split; [exact H4|].
  exact (proj2 (proj2 (fenced_lines_ignored demoIds ["## Todo"; "### Note"]
                         ["## Inside"; "- item"] ["```"; "## Done"] "```md"
                         H1 eq_refl eq_refl H4)) eq_refl).
Defined.

(** A counter comment inside a fence is read all the same: the board has
    the counter 51 and the task TSK_50 with the fenced line, the counter
    2 and the task TSK_1 without it. *)
Lemma fenced_counter_comment_is_read :
  fencedDocument
    = unlines (["## Todo"] ++ "```" :: ["<!-- next-id: 50 -->"] ++ ["```"; "### Note"]) /\
  unfencedDocument = unlines (["## Todo"] ++ "```" :: ["```"; "### Note"]) /\
  Nat.even (fenceCount ["## Todo"]) = true /\
  isFenceLine "```" = true /\
  isFenceLine "<!-- next-id: 50 -->" = false /\
  option_map (fun b => (boardIds b, board_nextId b))
    (parseMarkdown demoIds fencedDocument) = Some (["TSK_50"], 51%N) /\
  option_map (fun b => (boardIds b, board_nextId b))
    (parseMarkdown demoIds unfencedDocument) = Some (["TSK_1"], 2%N) /\
  parseMarkdown demoIds fencedDocument <> parseMarkdown demoIds unfencedDocument.
Proof.
  repeat (split; [reflexivity|]).
  vm_compute. discriminate.
Qed.

(** ** Task headers in front of the first column *)

Section Orphans.

Variable gen : nat -> string.

Local Open Scope list_scope.

Lemma startsWith_inv (p : string) : forall s,
  startsWith s p = true -> exists r, s = (p ++ r)%string.
Proof.
  induction p as [|a p IH]; intros s H.
  - now exists s.
  - destruct s as [|b s]; [discriminate|]. simpl in H.
    apply andb_prop in H as [Hab Hs]. apply Ascii.eqb_eq in Hab. subst b.
    destruct (IH s Hs) as [r ->]. now exists r.
Qed.

(** A task header is a list item at the root or a third-level heading. *)
Lemma isTaskTitle_shape (line trimmedLine : string) :
  isTaskTitle line trimmedLine = true ->
  startsWith line "- " = true \/ startsWith trimmedLine "### " = true.
Proof.
  unfold isTaskTitle. repeat break_if; try discriminate.
  intros H. apply orb_prop in H as [H|H]; [|now right].
  apply andb_prop in H as [H _]. now left.
Qed.

(** Trimmed, it is no comment, no fence, no title and no column header. *)
Lemma taskTitle_trimmed (line : string) :
  isTaskTitle line (trim line) = true ->
  startsWith (trim line) "<!--" = false /\
  startsWith (trim line) "```" = false /\
  startsWith (trim line) "# " = false /\
  startsWith (trim line) "## " = false.
Proof.
  intros H. apply isTaskTitle_shape in H as [H|H].
  - apply startsWith_inv in H as [r ->]. unfold trim. simpl.
    repeat split; reflexivity.
  - apply startsWith_inv in H as [r ->]. repeat split; reflexivity.
Qed.

(** With no column open, the loop passes over a task header. *)
Lemma stepLine_orphan st line :
  currentColumn st = None -> isTaskTitle line (trim line) = true ->
  stepLine gen st line = st.
Proof.
  intros Hnone Htask.
  destruct (taskTitle_trimmed line Htask) as (Hc & Hf & Ht & Hh).
  unfold stepLine, step. rewrite Hc, Hf, Ht, Hh, Htask, Hnone. simpl.
  destruct (inCodeBlock st); reflexivity.
Qed.

(** C10 (as amended).  While no column is open, a task header line
    leaves the state of the loop as it is: no task is made of it, and,
    whatever the counter, the lines parse to the same board with and
    without it.  The two texts parse to the same board when they declare
    the same counter: a counter comment inside the header text is read
    like any other. *)
Theorem header_without_column (pre post : list string) (line : string) :
  Forall properLine (pre ++ line :: post) ->
  currentColumn (stateAfter gen initialState pre) = None ->
  isTaskTitle line (trim line) = true ->
  stateAfter gen initialState (pre ++ [line]) = stateAfter gen initialState pre /\
  (forall n, parseLines gen n (pre ++ line :: post)
             = parseLines gen n (pre ++ post)) /\
  (declaredNextId (unlines (pre ++ line :: post))
     = declaredNextId (unlines (pre ++ post)) ->
   parseMarkdown gen (unlines (pre ++ line :: post))
     = parseMarkdown gen (unlines (pre ++ post))).
Proof.
  intros Hproper Hnone Htask.
  assert (Hstate : stateAfter gen initialState (pre ++ [line])
                   = stateAfter gen initialState pre).
  { rewrite stateAfter_app. simpl. now apply stepLine_orphan. }
  assert (Hloop : forall n, parseLines gen n (pre ++ line :: post)
                            = parseLines gen n (pre ++ post)).
  { intros n. apply (parseLines_skip gen n pre [line] post).
    simpl. now apply stepLine_orphan. }
  split; [exact Hstate|]. split; [exact Hloop|].
  intros Hcounter. rewrite !parseMarkdown_unlines.
  - rewrite Hcounter. apply Hloop.
  - apply Forall_app in Hproper as [Hpre Hrest].
    inversion Hrest; subst. apply Forall_app. now split.
  - exact Hproper.
Qed.

End Orphans.

(** Two headers in front of the first column. *)
Lemma header_without_column_sample :
  Forall properLine (["# Plan"; "- early"] ++ "### TSK_4 too early" :: ["## Todo"; "### Note"]) /\
  currentColumn (stateAfter demoIds initialState ["# Plan"; "- early"]) = None /\
  isTaskTitle "### TSK_4 too early" (trim "### TSK_4 too early") = true /\
  parseMarkdown demoIds
    (unlines (["# Plan"; "- early"] ++ "### TSK_4 too early" :: ["## Todo"; "### Note"]))
  = parseMarkdown demoIds
    (unlines (["# Plan"; "- early"] ++ ["## Todo"; "### Note"])).
Proof.
  assert (H1 : Forall properLine
            (["# Plan"; "- early"] ++ "### TSK_4 too early" :: ["## Todo"; "### Note"]))
    by (repeat constructor).
  split; [exact H1|]. split; [reflexivity|]. split; [reflexivity|].
  exact (proj2 (proj2 (header_without_column demoIds ["# Plan"; "- early"]
                         ["## Todo"; "### Note"] "### TSK_4 too early"
                         H1 eq_refl eq_refl)) eq_refl).
Defined.

(** A counter comment inside such a header is read all the same: with
    the header the task of the board is TSK_9 and the counter 10,
    without it TSK_1 and 2. *)
Lemma orphan_counter_comment_is_read :
  orphanDocument = unlines ([] ++ "### Plan <!-- next-id: 9 -->" :: ["## Todo"; "### Note"]) /\
  orphanlessDocument = unlines ([] ++ ["## Todo"; "### Note"]) /\
  currentColumn (stateAfter demoIds initialState []) = None /\
  isTaskTitle "### Plan <!-- next-id: 9 -->" (trim "### Plan <!-- next-id: 9 -->") = true /\
  option_map (fun b => (boardIds b, board_nextId b))
    (parseMarkdown demoIds orphanDocument) = Some (["TSK_9"], 10%N) /\
  option_map (fun b => (boardIds b, board_nextId b))
    (parseMarkdown demoIds orphanlessDocument) = Some (["TSK_1"], 2%N) /\
  parseMarkdown demoIds orphanDocument <> parseMarkdown demoIds orphanlessDocument.
Proof.
  repeat (split; [reflexivity|]).
  vm_compute. discriminate.
Qed.

(** ** Requests for what is not there *)

Section Missing.

Local Open Scope list_scope.



(** A reordering by indices inside the steps takes the step of each. *)
Lemma reorder_in_range (l : list ChecklistItem) (order : list Z) :
  Forall (fun i => inRange (length l) i = true) order ->
  map Some (reorder l order) = map (fun i => nth_error l (Z.to_nat i)) order.
Proof.
  induction 1 as [|i order Hi _ IH]; [reflexivity|].
  cbn [reorder map]. rewrite Hi.
  destruct (nth_error l (Z.to_nat i)) as [item|] eqn:E.
  - cbn [map]. now rewrite IH.
  - apply nth_error_None in E. unfold inRange in Hi.
    apply andb_prop in Hi as [H1 H2]. apply Z.leb_le in H1. apply Z.ltb_lt in H2. lia.
Qed.

(** The task [findTask] returns, once updated, is the task it returns. *)
Lemma findTask_updateTask b columnId taskId f c t :
  (forall u, task_id (f u) = task_id u) ->
  findTask b columnId taskId = Some (c, t) ->
  exists c', findTask (updateTask b columnId taskId f) columnId taskId
             = Some (c', f t) /\
             col_id c' = col_id c /\ col_title c' = col_title c /\
             col_archived c' = col_archived c.
Proof.
  intros Hf. unfold findTask, findColumn, updateTask, updateColumn. simpl.
  rewrite find_updateFirst_same by reflexivity.
  destruct (find (hasColumnId columnId) (board_columns b)) as [c0|]; [|discriminate].
  simpl. rewrite find_updateFirst_same
    by (intros u; unfold hasTaskId; now rewrite Hf).
  destruct (find (hasTaskId taskId) (col_tasks c0)) as [t0|]; [|discriminate].
  intros [= <- <-]. simpl. eexists. split; [reflexivity|]. auto.
Qed.


End Missing.



(** ** Distinct task ids *)

Section Distinct.

Local Open Scope list_scope.

Lemma taskIds_allTasks (cs : list KanbanColumn) :
  taskIds cs = map task_id (allTasks cs).
Proof.
  unfold taskIds, allTasks, columnIds.
  induction cs as [|c cs IH]; simpl; [reflexivity|].
  now rewrite map_app, IH.
Qed.

(** What the last pass leaves as ids, up to 2^53: canonical ids that
    were there, and ids of the counter from its start on. *)
Lemma assignTasks_ids (ts : list KanbanTask) : forall n x,
  (n + N.of_nat (nonCanonical ts) <= twoTo53)%N ->
  In x (map task_id (fst (assignTasks n ts))) ->
  (In x (map task_id ts) /\ isCanonicalId x = true) \/
  (exists m, (n <= m < n + N.of_nat (nonCanonical ts))%N /\
             x = ("TSK_" ++ numberToString m)%string).
Proof.
  induction ts as [|t ts IH]; intros n x; [simpl; tauto|].
  rewrite nonCanonical_cons. cbn [assignTasks].
  destruct (isCanonicalId (task_id t)) eqn:E; intros Hn.
  - specialize (IH n x). destruct (assignTasks n ts) as [r k]. simpl in *.
    intros [<-|H]; [left; auto|].
    destruct (IH Hn H) as [[H1 H2]|H1]; [left; auto | right; exact H1].
  - rewrite increment_safe by lia.
    specialize (IH (n + 1)%N x). destruct (assignTasks (n + 1) ts) as [r k].
    simpl in *. intros [<-|H].
    + right. exists n. split; [lia | reflexivity].
    + destruct (IH ltac:(lia) H) as [[H1 H2]|(m & Hm & ->)]; [left; auto|].
      right. exists m. split; [lia | reflexivity].
Qed.

Lemma assignTasks_NoDup (ts : list KanbanTask) : forall n,
  (n + N.of_nat (nonCanonical ts) <= twoTo53)%N ->
  NoDup (filter isCanonicalId (map task_id ts)) ->
  (forall m, (n <= m < n + N.of_nat (nonCanonical ts))%N ->
             ~ In ("TSK_" ++ numberToString m)%string (map task_id ts)) ->
  NoDup (map task_id (fst (assignTasks n ts))).
Proof.
  induction ts as [|t ts IH]; intros n; [constructor|].
  rewrite nonCanonical_cons. cbn [assignTasks map filter].
  destruct (isCanonicalId (task_id t)) eqn:E; intros Hn Hdup Hfresh.
  - pose proof (assignTasks_ids ts n (task_id t)) as Hin.
    specialize (IH n). destruct (assignTasks n ts) as [r k]. simpl in *.
    inversion Hdup as [|? ? Hnotin Hdup']; subst.
    constructor.
    + intros H. destruct (Hin Hn H) as [[H1 H2]|(m & Hm & Hx)].
      * apply Hnotin. apply filter_In. auto.
      * apply (Hfresh m Hm). left. exact Hx.
    + apply IH; [exact Hn | exact Hdup'|].
      intros m Hm H. apply (Hfresh m Hm). now right.
  - rewrite increment_safe by lia.
    pose proof (assignTasks_ids ts (n + 1)%N ("TSK_" ++ numberToString n)%string) as Hin.
    specialize (IH (n + 1)%N). destruct (assignTasks (n + 1) ts) as [r k].
    simpl in *. constructor.
    + intros H. destruct (Hin ltac:(lia) H) as [[H1 H2]|(m & Hm & Hx)].
      * apply (Hfresh n); [lia | now right].
      * injection Hx as Hx. apply numberToString_inj in Hx; lia.
    + apply IH; [lia | exact Hdup|].
      intros m Hm H. apply (Hfresh m); [lia | now right].
Qed.

(** An update of tasks that keeps their ids keeps the ids of the board. *)
Lemma map_id_updateFirst (p : KanbanTask -> bool) (f : KanbanTask -> KanbanTask)
    (ts : list KanbanTask) :
  (forall t, task_id (f t) = task_id t) ->
  map task_id (updateFirst p f ts) = map task_id ts.
Proof.
  intros Hf. induction ts as [|t ts IH]; simpl; [reflexivity|].
  destruct (p t); simpl; [now rewrite Hf | now rewrite IH].
Qed.

Lemma taskIds_updateFirst (p : KanbanColumn -> bool)
    (g : KanbanColumn -> KanbanColumn) (cs : list KanbanColumn) :
  (forall c, columnIds (g c) = columnIds c) ->
  taskIds (updateFirst p g cs) = taskIds cs.
Proof.
  intros Hg. unfold taskIds. induction cs as [|c cs IH]; simpl; [reflexivity|].
  destruct (p c); simpl; [now rewrite Hg | now rewrite IH].
Qed.

Lemma boardIds_updateTask b columnId taskId f :
  (forall t, task_id (f t) = task_id t) ->
  boardIds (updateTask b columnId taskId f) = boardIds b.
Proof.
  intros Hf. unfold boardIds, updateTask, updateColumn. simpl.
  apply taskIds_updateFirst. intros c. unfold columnIds. simpl.
  now apply map_id_updateFirst.
Qed.

Lemma findColumn_updateColumn b columnId f x c :
  (forall c0, col_id (f c0) = col_id c0) ->
  findColumn b x = Some c ->
  exists c', findColumn (updateColumn b columnId f) x = Some c'.
Proof.
  intros Hf H.
  destruct (findColumn (updateColumn b columnId f) x) as [c'|] eqn:E;
    [now exists c'|].
  exfalso.
  assert (Hc : hasColumn b x) by (unfold hasColumn; congruence).
  apply (hasColumn_updateColumn b columnId f x Hf) in Hc. exact (Hc E).
Qed.

Lemma definedColumns_map (cs : list KanbanColumn) :
  definedColumns (map Some cs) = Some cs.
Proof. induction cs as [|c cs IH]; simpl; [reflexivity | now rewrite IH]. Qed.

Lemma definedColumns_undefined (l1 l2 : list (option KanbanColumn)) :
  definedColumns (l1 ++ None :: l2) = None.
Proof.
  induction l1 as [|[c|] l1 IH]; simpl; [reflexivity | now rewrite IH | reflexivity].
Qed.

Lemma insertAt_map (i : nat) (c : KanbanColumn) (cs : list KanbanColumn) :
  insertAt i (Some c) (map Some cs) = map Some (insertAt i c cs).
Proof.
  unfold insertAt. now rewrite map_app, firstn_map, skipn_map.
Qed.

(** A move that leaves the columns defined leaves them permuted. *)
Lemma moveColumn_perm fromIndex toIndex b b' :
  moveColumn fromIndex toIndex b = Some b' ->
  Permutation (board_columns b) (board_columns b') /\
  board_nextId b' = board_nextId b /\ board_title b' = board_title b.
Proof.
  unfold moveColumn, moveColumnSlots.
  destruct (fromIndex =? toIndex)%Z.
  - rewrite definedColumns_map. simpl. intros [= <-]. simpl. auto.
  - destruct (nth_error (board_columns b) (spliceStart (length (board_columns b)) fromIndex))
      as [c|] eqn:E.
    + rewrite insertAt_map, definedColumns_map. simpl. intros [= <-]. simpl.
      split; [|auto]. rewrite insertAt_perm. now apply removeAt_perm.
    + unfold insertAt. rewrite definedColumns_undefined. discriminate.
Qed.

Lemma NoDup_moveTask taskId fromColumnId toColumnId newIndex b :
  NoDup (boardIds b) ->
  NoDup (boardIds (moveTask taskId fromColumnId toColumnId newIndex b)).
Proof.
  intros Hb. unfold moveTask.
  destruct (findColumn b fromColumnId) as [fromColumn|] eqn:Hfrom; [|exact Hb].
  destruct (findColumn b toColumnId) as [toColumn|] eqn:Hto; [|exact Hb].
  destruct (findIndex (hasTaskId taskId) (col_tasks fromColumn)) as [i|] eqn:Hi;
    [|exact Hb].
  destruct (nth_error (col_tasks fromColumn) i) as [task|] eqn:Hnth; [|exact Hb].
  set (remove := fun c => set_tasks c (removeAt i (col_tasks c))).
  set (insert := fun c => set_tasks c
                   (insertAt (spliceStart (length (col_tasks c)) newIndex)
                             task (col_tasks c))).
  destruct (boardIds_updateColumn b fromColumnId remove fromColumn Hfrom)
    as (l1 & l2 & E1 & E2).
  destruct (findColumn_updateColumn b fromColumnId remove toColumnId toColumn
              (fun _ => eq_refl) Hto) as [toColumn' Hto'].
  destruct (boardIds_updateColumn (updateColumn b fromColumnId remove)
              toColumnId insert toColumn' Hto') as (l3 & l4 & E3 & E4).
  apply (Permutation_NoDup (l := boardIds b)); [|exact Hb].
  rewrite E4.
  transitivity (task_id task :: l3 ++ columnIds toColumn' ++ l4).
  - rewrite <- E3, E2, E1.
    transitivity (l1 ++ (task_id task :: columnIds (remove fromColumn)) ++ l2).
    + apply Permutation_app_head, Permutation_app_tail.
      unfold columnIds, remove. simpl.
      change (task_id task :: map task_id (removeAt i (col_tasks fromColumn)))
        with (map task_id (task :: removeAt i (col_tasks fromColumn))).
      apply Permutation_map. now apply removeAt_perm.
    + simpl. symmetry. apply Permutation_middle.
  - transitivity (l3 ++ (task_id task :: columnIds toColumn') ++ l4).
    + simpl. apply Permutation_middle.
    + apply Permutation_app_head, Permutation_app_tail.
      unfold columnIds, insert. simpl. symmetry.
      change (task_id task :: map task_id (col_tasks toColumn'))
        with (map task_id (task :: col_tasks toColumn')).
      apply Permutation_map. apply insertAt_perm.
Qed.

Lemma NoDup_deleteTask taskId columnId b :
  NoDup (boardIds b) -> NoDup (boardIds (deleteTask taskId columnId b)).
Proof.
  intros Hb. unfold deleteTask.
  destruct (findColumn b columnId) as [column|] eqn:Hcol; [|exact Hb].
  destruct (findIndex (hasTaskId taskId) (col_tasks column)) as [i|] eqn:Hi;
    [|exact Hb].
  destruct (findIndex_nth _ _ _ Hi) as (task & Hnth & _).
  destruct (boardIds_updateColumn b columnId
              (fun c => set_tasks c (removeAt i (col_tasks c))) column Hcol)
    as (l1 & l2 & E1 & E2).
  rewrite E2. rewrite E1 in Hb.
  assert (Hp : Permutation (l1 ++ columnIds column ++ l2)
                 (task_id task :: l1 ++
                  columnIds (set_tasks column (removeAt i (col_tasks column))) ++ l2)).
  { transitivity (l1 ++ (task_id task ::
                   columnIds (set_tasks column (removeAt i (col_tasks column)))) ++ l2).
    - apply Permutation_app_head, Permutation_app_tail.
      unfold columnIds. simpl.
      change (task_id task :: map task_id (removeAt i (col_tasks column)))
        with (map task_id (task :: removeAt i (col_tasks column))).
      apply Permutation_map. now apply removeAt_perm.
    - simpl. symmetry. apply Permutation_middle. }
  apply (Permutation_NoDup Hp) in Hb. now inversion Hb.
Qed.

End Distinct.

Section DistinctIds.

Local Open Scope list_scope.

(** C4 (as amended).  The board parse returns has pairwise distinct task
    ids when the declared counter plus the number of tasks without a
    canonical id is at most 2^53 and, among the ids the tasks carry at
    the end of the loop, the canonical ones are pairwise distinct and
    none is an id TSK_m with m from the declared counter up to what the
    last pass hands out.  Applied to a board with pairwise
    distinct task ids, every mutation but the creation of a task leaves
    them pairwise distinct (a move of a column: when it leaves the
    columns defined); the creation of a task does when the id of the
    counter, TSK_nextId, is not yet an id of the board. *)
Theorem distinct_ids_preserved :
  (forall gen content,
     let columns :=
       closeColumns (stateAfter gen initialState (splitLines content)) in
     let before := taskIds columns in
     let last :=
       (declaredNextId content + N.of_nat (nonCanonical (allTasks columns)))%N in
     (last <= twoTo53)%N ->
     NoDup (filter isCanonicalId before) ->
     (forall m, (declaredNextId content <= m < last)%N ->
                ~ In ("TSK_" ++ numberToString m)%string before) ->
     exists b, parseMarkdown gen content = Some b /\ NoDup (boardIds b)) /\
  (forall b, NoDup (boardIds b) ->
     (forall taskId fromColumnId toColumnId newIndex,
        NoDup (boardIds (moveTask taskId fromColumnId toColumnId newIndex b))) /\
     (forall taskId columnId, NoDup (boardIds (deleteTask taskId columnId b))) /\
     (forall taskId columnId taskData,
        NoDup (boardIds (editTask taskId columnId taskData b))) /\
     (forall shared taskId columnId i done,
        NoDup (boardIds (updateTaskStep shared taskId columnId i done b))) /\
     (forall shared taskId columnId key i done,
        NoDup (boardIds (updateChecklistItem shared taskId columnId key i done b))) /\
     (forall taskId columnId newOrder,
        NoDup (boardIds (reorderTaskSteps taskId columnId newOrder b))) /\
     (forall freshId columnTitle,
        NoDup (boardIds (addColumn freshId columnTitle b))) /\
     (forall fromIndex toIndex b',
        moveColumn fromIndex toIndex b = Some b' -> NoDup (boardIds b')) /\
     (forall columnId archived,
        NoDup (boardIds (toggleColumnArchive columnId archived b))) /\
     (forall columnId taskData,
        ~ In ("TSK_" ++ numberToString (board_nextId b))%string (boardIds b) ->
        NoDup (boardIds (addTask columnId taskData b)))).
Proof.
  split.
  - intros gen content cols before last Hlast Hdup Hfresh.
    unfold parseMarkdown. rewrite parseLines_stateAfter.
    eexists. split; [reflexivity|].
    unfold boardOfState, boardIds. fold cols.
    pose proof (assignColumns_flat cols (declaredNextId content)) as [Hflat _].
    destruct (assignColumns (declaredNextId content) cols) as [cs k]. simpl in *.
    rewrite taskIds_allTasks, Hflat.
    unfold before, last in *. rewrite taskIds_allTasks in Hdup, Hfresh.
    now apply assignTasks_NoDup.
  - intros b Hb. repeat split; intros.
    + now apply NoDup_moveTask.
    + now apply NoDup_deleteTask.
    + unfold editTask. destruct (findTask b columnId taskId); [|exact Hb].
      now rewrite boardIds_updateTask.
    + unfold updateTaskStep.
      destruct (findTask b columnId taskId) as [[c t]|]; [|exact Hb].
      destruct (steps t); [|exact Hb].
      destruct (negb _); [exact Hb|]. now rewrite boardIds_updateTask.
    + unfold updateChecklistItem.
      destruct (findTask b columnId taskId) as [[c t]|]; [|exact Hb].
      destruct (getList t key); [|exact Hb].
      destruct (negb _); [exact Hb|]. now rewrite boardIds_updateTask.
    + unfold reorderTaskSteps.
      destruct (findTask b columnId taskId) as [[c t]|]; [|exact Hb].
      destruct (steps t); [|exact Hb]. now rewrite boardIds_updateTask.
    + unfold addColumn, boardIds. simpl. rewrite taskIds_app. simpl.
      now rewrite app_nil_r.
    + destruct (moveColumn_perm _ _ _ _ H) as (Hp & _).
      unfold boardIds, taskIds. now rewrite <- Hp.
    + unfold toggleColumnArchive. destruct (findColumn b columnId); [|exact Hb].
      unfold boardIds, updateColumn. simpl.
      now rewrite taskIds_updateFirst.
    + destruct (findColumn b columnId) as [c|] eqn:E.
      * destruct (addTask_present columnId taskData b c E) as (_ & Hp & _).
        apply (Permutation_NoDup (Permutation_sym Hp)).
        apply (Permutation_NoDup (Permutation_cons_append _ _)).
        now constructor.
      * unfold addTask. now rewrite E.
Qed.

End DistinctIds.

(** The text of the allocation example and the sample board. *)
Lemma distinct_ids_sample :
  (declaredNextId allocationDocument
   + N.of_nat (nonCanonical (allTasks (closeColumns
       (stateAfter demoIds initialState (splitLines allocationDocument)))))
   <= twoTo53)%N /\
  NoDup (filter isCanonicalId
           (taskIds (closeColumns
              (stateAfter demoIds initialState (splitLines allocationDocument))))) /\
  NoDup (boardIds sampleBoard) /\
  ~ In "TSK_7" (boardIds sampleBoard) /\
  (exists b, parseMarkdown demoIds allocationDocument = Some b /\ NoDup (boardIds b)) /\
  NoDup (boardIds (moveTask "TSK_1" "c1" "c2" 0 sampleBoard)) /\
  NoDup (boardIds (addTask "c1" sampleData sampleBoard)).
Proof.
  assert (H1 : NoDup (filter isCanonicalId
           (taskIds (closeColumns
              (stateAfter demoIds initialState (splitLines allocationDocument))))))
    by (vm_compute; repeat constructor; simpl; tauto).
  assert (H2 : NoDup (boardIds sampleBoard))
    by (vm_compute; repeat constructor; simpl; intuition discriminate).
  assert (H3 : ~ In "TSK_7" (boardIds sampleBoard))
    by (vm_compute; intuition discriminate).
  assert (H0 : (declaredNextId allocationDocument
     + N.of_nat (nonCanonical (allTasks (closeColumns
         (stateAfter demoIds initialState (splitLines allocationDocument)))))
     <= twoTo53)%N) by (vm_compute; discriminate).
  destruct distinct_ids_preserved as [Hparse Hmut].
  split; [exact H0|].
  split; [exact H1|]. split; [exact H2|]. split; [exact H3|].
  split; [|split].
  - apply (Hparse demoIds allocationDocument H0 H1).
    intros m Hm.
    assert (E1 : declaredNextId allocationDocument = 5%N)
      by (vm_compute; reflexivity).
    cbv zeta in Hm. rewrite E1 in H0, Hm.
    assert (Hcases : m = 5%N \/ m = 6%N).
    { revert Hm. generalize (nonCanonical (allTasks (closeColumns
        (stateAfter demoIds initialState (splitLines allocationDocument))))),
        (eq_refl : nonCanonical (allTasks (closeColumns
        (stateAfter demoIds initialState (splitLines allocationDocument)))) = 2).
      intros k -> Hm. lia. }
    destruct Hcases as [-> | ->]; vm_compute;
      intros [H|[H|[H|[]]]]; discriminate H.
  - exact (proj1 (Hmut sampleBoard H2) "TSK_1" "c1" "c2" 0%Z).
  - destruct (Hmut sampleBoard H2) as (_ & _ & _ & _ & _ & _ & _ & _ & _ & Hadd).
    exact (Hadd "c1" sampleData H3).
Defined.

(** Two headers with the same id give two tasks with the same id. *)
Lemma parse_keeps_duplicate_ids :
  option_map boardIds (parseMarkdown demoIds duplicateDocument)
    = Some ["TSK_1"; "TSK_1"] /\
  ~ NoDup ["TSK_1"; "TSK_1"].
Proof.
  split; [reflexivity|].
  intros H. inversion H as [|? ? Hin _]; subst. apply Hin. now left.
Qed.

(** * Further properties *)

(** ** The counter, written and read *)

Section CounterRoundTrip.

Local Open Scope N_scope.

Lemma parseDigits_uint (d : uint) : forall d',
  parseDigitsFrom (DecimalPos.Unsigned.of_lu d') (NilEmpty.string_of_uint d)
  = DecimalPos.Unsigned.of_lu (revapp d d').
Proof.
  induction d; intros d'; cbn [NilEmpty.string_of_uint parseDigitsFrom revapp];
    try reflexivity;
    rewrite <- IHd; f_equal; cbn [DecimalPos.Unsigned.of_lu];
    change (N_of_ascii _ - 48) with 0 || change (N_of_ascii _ - 48) with 1
    || change (N_of_ascii _ - 48) with 2 || change (N_of_ascii _ - 48) with 3
    || change (N_of_ascii _ - 48) with 4 || change (N_of_ascii _ - 48) with 5
    || change (N_of_ascii _ - 48) with 6 || change (N_of_ascii _ - 48) with 7
    || change (N_of_ascii _ - 48) with 8 || change (N_of_ascii _ - 48) with 9;
    lia.
Qed.

(** [parseInt] reads a number up to 2^53 back from its decimal digits. *)
Lemma parseInt_decimalDigits (n : N) :
  n <= twoTo53 -> parseInt (decimalDigits n) = n.
Proof.
  intros Hn. unfold parseInt, decimalDigits.
  replace (parseDigitsFrom 0 (NilEmpty.string_of_uint (N.to_uint n))) with n;
    [now apply toDouble_safe|].
  symmetry.
  etransitivity; [exact (parseDigits_uint (N.to_uint n) Nil)|].
  change (revapp (N.to_uint n) Nil) with (rev (N.to_uint n)).
  rewrite <- DecimalPos.Unsigned.of_uint_alt.
  apply DecimalN.Unsigned.of_to.
Qed.

Lemma parseInt_numberToString (n : N) :
  n <= twoTo53 -> parseInt (numberToString n) = n.
Proof.
  intros Hn. rewrite numberToString_safe by exact Hn.
  now apply parseInt_decimalDigits.
Qed.

Lemma takeDigits_uint (d : uint) (rest : string) :
  digitsEnd rest ->
  takeDigits (NilEmpty.string_of_uint d ++ rest)%string
  = (NilEmpty.string_of_uint d, rest).
Proof.
  intros Hrest.
  induction d; cbn [NilEmpty.string_of_uint append takeDigits];
    try (change (isDigit _) with true; cbv iota; rewrite IHd; reflexivity).
  destruct rest as [|c r]; [reflexivity|]. simpl in Hrest.
  cbn [takeDigits]. now rewrite Hrest.
Qed.

Lemma to_uint_cons (n : N) :
  exists c r, decimalDigits n = String c r /\ isDigit c = true.
Proof.
  unfold decimalDigits.
  assert (H : N.to_uint n <> Nil).
  { destruct n; [discriminate | apply DecimalPos.Unsigned.to_uint_nonnil]. }
  destruct (N.to_uint n); try contradiction;
    cbn [NilEmpty.string_of_uint]; do 2 eexists; split; reflexivity.
Qed.

Lemma digits1_number (n : N) (rest : string) :
  digitsEnd rest ->
  digits1 (decimalDigits n ++ rest)%string = Some (decimalDigits n, rest).
Proof.
  intros Hrest. unfold digits1, decimalDigits.
  rewrite takeDigits_uint by exact Hrest.
  fold (decimalDigits n).
  destruct (to_uint_cons n) as (c & r & -> & _). reflexivity.
Qed.

Lemma isDigit_black (c : ascii) : isDigit c = true -> isWhite c = false.
Proof.
  unfold isDigit, isWhite. intros H.
  apply andb_prop in H as [H1 H2].
  apply N.leb_le in H1. apply N.leb_le in H2.
  destruct (N.leb_spec 9 (N_of_ascii c)); destruct (N.leb_spec (N_of_ascii c) 13);
    destruct (N.eqb_spec (N_of_ascii c) 32); destruct (N.eqb_spec (N_of_ascii c) 160);
    simpl; try reflexivity; lia.
Qed.

(** The comment the serializer writes is one the counter pattern reads. *)
Lemma matchCounterAt_written (n : N) (rest : string) :
  matchCounterAt ("<!-- next-id: " ++ decimalDigits n ++ " -->" ++ rest)%string
  = Some (decimalDigits n).
Proof.
  set (X := (decimalDigits n ++ " -->" ++ rest)%string).
  assert (Hstart : trimStart X = X).
  { unfold X. destruct (to_uint_cons n) as (c & r & -> & Hc).
    cbn [append trimStart]. now rewrite (isDigit_black c Hc). }
  assert (Hdigits : digits1 X = Some (decimalDigits n, (" -->" ++ rest)%string))
    by (apply digits1_number; reflexivity).
  unfold matchCounterAt. simpl. rewrite Hstart, Hdigits. reflexivity.
Qed.

(** Up to 2^53 the counter does not go back, and stays there. *)
Lemma increment_bounded (n : N) :
  n <= twoTo53 -> n <= increment n <= twoTo53.
Proof.
  intros Hn. destruct (N.eq_dec n twoTo53) as [-> | Hne].
  - rewrite increment_top. lia.
  - rewrite increment_safe by lia. lia.
Qed.

Lemma assignTasks_bounded (ts : list KanbanTask) : forall n,
  n <= twoTo53 -> n <= snd (assignTasks n ts) <= twoTo53.
Proof.
  induction ts as [|t ts IH]; intros n Hn; cbn [assignTasks]; [simpl; lia|].
  destruct (isCanonicalId (task_id t)).
  - specialize (IH n Hn). destruct (assignTasks n ts). exact IH.
  - pose proof (increment_bounded n Hn) as Hi.
    specialize (IH (increment n) (proj2 Hi)).
    destruct (assignTasks (increment n) ts). simpl in *. lia.
Qed.

End CounterRoundTrip.

Section CounterSurvives.

Variable gen : nat -> string.

Lemma declaredNextId_written (b : KanbanBoard) (fmt : TaskHeaderFormat) :
  (board_nextId b <= twoTo53)%N ->
  declaredNextId (generateMarkdown b fmt) = board_nextId b.
Proof.
  intros Hn. unfold declaredNextId, generateMarkdown.
  rewrite numberToString_safe by exact Hn.
  rewrite searchCounter_eq, matchCounterAt_written.
  now apply parseInt_decimalDigits.
Qed.

(** X1.  The counter comment the serializer writes in front is the one
    the parser reads, for a counter up to 2^53: the text of a board
    declares the counter of the board, and the board parsed from that
    text has a counter that is not below it. *)
Theorem counter_survives_save (b : KanbanBoard) (fmt : TaskHeaderFormat) :
  (board_nextId b <= twoTo53)%N ->
  declaredNextId (generateMarkdown b fmt) = board_nextId b /\
  exists b', parseMarkdown gen (generateMarkdown b fmt) = Some b' /\
             (board_nextId b <= board_nextId b')%N.
Proof.
  intros Hn. split; [now apply declaredNextId_written|].
  unfold parseMarkdown.
  rewrite parseLines_stateAfter, declaredNextId_written by exact Hn.
  eexists. split; [reflexivity|].
  unfold boardOfState.
  set (cols := closeColumns _).
  pose proof (assignColumns_flat cols (board_nextId b)) as [_ Hcount].
  destruct (assignColumns (board_nextId b) cols) as [cs k]. simpl in *.
  rewrite Hcount. now apply assignTasks_bounded.
Qed.

Lemma isCanonicalId_digits (n : N) :
  isCanonicalId ("TSK_" ++ decimalDigits n) = true.
Proof.
  unfold isCanonicalId, matchTsk.
  cbn [append stripPrefix Ascii.eqb Bool.eqb bind oneOf isIdSeparator orb fst snd].
  change (Ascii.eqb "_" "_") with true. cbn [orb bind fst snd].
  rewrite <- (append_nil_r (decimalDigits n)) at 1.
  rewrite digits1_number by exact I.
  reflexivity.
Qed.

Lemma isCanonicalId_counted (n : N) :
  (n <= twoTo53)%N -> isCanonicalId ("TSK_" ++ numberToString n) = true.
Proof.
  intros Hn. rewrite numberToString_safe by exact Hn.
  apply isCanonicalId_digits.
Qed.

Lemma assignTasks_canonical (ts : list KanbanTask) : forall n,
  (n <= twoTo53)%N ->
  Forall (fun i => isCanonicalId i = true) (map task_id (fst (assignTasks n ts))).
Proof.
  induction ts as [|t ts IH]; intros n Hn; simpl; [constructor|].
  destruct (isCanonicalId (task_id t)) eqn:E.
  - specialize (IH n Hn). destruct (assignTasks n ts). simpl in *.
    now constructor.
  - specialize (IH (increment n) (proj2 (increment_bounded n Hn))).
    destruct (assignTasks (increment n) ts). simpl in *.
    constructor; [now apply isCanonicalId_counted | exact IH].
Qed.

(** X2.  Every task of a parsed board has a canonical id when the
    declared counter is at most 2^53: the ids of headers and [id:]
    properties that are not canonical, and the placeholders, are all
    replaced by the last pass. *)
Theorem parsed_ids_are_canonical (content : string) :
  (declaredNextId content <= twoTo53)%N ->
  exists b, parseMarkdown gen content = Some b /\
            Forall (fun i => isCanonicalId i = true) (boardIds b).
Proof.
  intros Hn. unfold parseMarkdown. rewrite parseLines_stateAfter.
  eexists. split; [reflexivity|].
  unfold boardOfState, boardIds.
  set (cols := closeColumns _).
  pose proof (assignColumns_flat cols (declaredNextId content)) as [Hflat _].
  destruct (assignColumns (declaredNextId content) cols) as [cs k]. simpl in *.
  rewrite taskIds_allTasks, Hflat. now apply assignTasks_canonical.
Qed.

End CounterSurvives.

(** The sample board, saved with the task ids in the headers. *)
Lemma counter_survives_save_sample :
  (board_nextId sampleBoard <= twoTo53)%N /\
  declaredNextId (generateMarkdown sampleBoard TitleFormat) = 7%N /\
  exists b', parseMarkdown demoIds (generateMarkdown sampleBoard TitleFormat) = Some b' /\
             (7 <= board_nextId b')%N.
Proof.
  assert (Hn : (board_nextId sampleBoard <= twoTo53)%N)
    by (vm_compute; discriminate).
  split; [exact Hn|].
  exact (counter_survives_save demoIds sampleBoard TitleFormat Hn).
Defined.

(** The text of the allocation example: its counter comment says 5. *)
Lemma parsed_ids_are_canonical_sample :
  (declaredNextId allocationDocument <= twoTo53)%N /\
  exists b, parseMarkdown demoIds allocationDocument = Some b /\
            Forall (fun i => isCanonicalId i = true) (boardIds b).
Proof.
  assert (Hn : (declaredNextId allocationDocument <= twoTo53)%N)
    by (vm_compute; discriminate).
  split; [exact Hn|].
  exact (parsed_ids_are_canonical demoIds allocationDocument Hn).
Defined.

(** ** Line endings *)

Section LineEndings.

Lemma lacks_replaceCR (s : string) : lacks CR (replaceCR s) = true.
Proof.
  induction s as [|c s IH]; simpl; [reflexivity|].
  rewrite IH. destruct (Ascii.eqb c CR) eqn:E; [reflexivity|].
  now rewrite E.
Qed.

Lemma split_nonempty (c : ascii) (s : string) : split c s <> [].
Proof.
  destruct s as [|d s]; simpl; [discriminate|].
  destruct (Ascii.eqb d c); [discriminate|].
  destruct (split c s); discriminate.
Qed.

Lemma split_lacks_separator (c : ascii) (s : string) :
  Forall (fun l => lacks c l = true) (split c s).
Proof.
  induction s as [|d s IH]; simpl; [now repeat constructor|].
  destruct (Ascii.eqb d c) eqn:E; [now constructor|].
  destruct (split c s) as [|h t]; [now repeat constructor; simpl; rewrite E|].
  inversion IH; subst. constructor; [simpl; now rewrite E | assumption].
Qed.

Lemma split_keeps_lacks (c e : ascii) (s : string) :
  lacks e s = true -> Forall (fun l => lacks e l = true) (split c s).
Proof.
  induction s as [|d s IH]; simpl; [now repeat constructor|].
  intros H. apply andb_prop in H as [Hd Hs]. specialize (IH Hs).
  destruct (Ascii.eqb d c); [now constructor|].
  destruct (split c s) as [|h t]; [now repeat constructor; simpl; rewrite Hd|].
  inversion IH; subst. constructor; [simpl; now rewrite Hd | assumption].
Qed.

Lemma lacks_noLineTerminator (s : string) :
  lacks LF s = true -> lacks CR s = true -> noLineTerminator s = true.
Proof.
  induction s as [|c s IH]; simpl; [reflexivity|].
  intros H1 H2. apply andb_prop in H1 as [A1 B1]. apply andb_prop in H2 as [A2 B2].
  unfold isLineTerminator. apply negb_true_iff in A1, A2.
  now rewrite A1, A2, IH.
Qed.

Lemma replaceCRLF_line (l rest : string) :
  lacks CR l = true ->
  replaceCRLF (l ++ String CR (String LF rest)) = l ++ String LF (replaceCRLF rest).
Proof.
  induction l as [|c l IH]; intros H.
  - reflexivity.
  - simpl in H. apply andb_prop in H as [Hc Hl]. apply negb_true_iff in Hc.
    specialize (IH Hl).
    change ((String c l ++ String CR (String LF rest)))
      with (String c (l ++ String CR (String LF rest))).
    cbn [replaceCRLF]. fold replaceCRLF.
    destruct (l ++ String CR (String LF rest)) as [|d r] eqn:E.
    + destruct l; discriminate.
    + rewrite Hc. cbn [andb]. rewrite IH. reflexivity.
Qed.

Lemma replaceCRLF_lacks_LF (s : string) : lacks LF s = true -> replaceCRLF s = s.
Proof.
  induction s as [|c s IH]; [reflexivity|].
  intros H. simpl in H. apply andb_prop in H as [Hc Hs]. specialize (IH Hs).
  cbn [replaceCRLF]. fold replaceCRLF.
  destruct s as [|d s']; [reflexivity|].
  simpl in Hs. apply andb_prop in Hs as [Hd _]. apply negb_true_iff in Hd.
  rewrite Hd, andb_false_r. now rewrite IH.
Qed.

Lemma replaceCR_line (l rest : string) :
  lacks CR l = true ->
  replaceCR (l ++ String CR rest) = l ++ String LF (replaceCR rest).
Proof.
  induction l as [|c l IH]; intros H; simpl.
  - reflexivity.
  - simpl in H. apply andb_prop in H as [Hc Hl]. apply negb_true_iff in Hc.
    now rewrite Hc, IH.
Qed.

Lemma lacks_join (c : ascii) (sep : string) (lines : list string) :
  lacks c sep = true -> Forall (fun l => lacks c l = true) lines ->
  lacks c (join sep lines) = true.
Proof.
  intros Hsep H. unfold join. induction H as [|l ls Hl Hls IH]; [reflexivity|].
  destruct ls as [|l2 ls]; [exact Hl|].
  change (String.concat sep (l :: l2 :: ls))
    with (l ++ sep ++ String.concat sep (l2 :: ls)).
  now rewrite !lacks_app, Hl, Hsep, IH.
Qed.

Lemma properLines_lack (lines : list string) :
  Forall properLine lines ->
  Forall (fun l => lacks LF l = true) lines /\
  Forall (fun l => lacks CR l = true) lines.
Proof.
  induction 1 as [|l ls Hl Hls [I1 I2]]; [split; constructor|].
  apply noLineTerminator_lacks in Hl as [H1 H2]. split; now constructor.
Qed.

Lemma replaceCRLF_join (lines : list string) :
  Forall properLine lines ->
  replaceCRLF (join (String CR newline) lines) = unlines lines.
Proof.
  unfold unlines, join. induction 1 as [|l ls Hl Hls IH]; [reflexivity|].
  apply noLineTerminator_lacks in Hl as [_ Hl].
  destruct ls as [|l2 ls]; [now apply replaceCRLF_lacks|].
  change (String.concat (String CR newline) (l :: l2 :: ls))
    with (l ++ String CR (String LF (String.concat (String CR newline) (l2 :: ls)))).
  rewrite replaceCRLF_line by exact Hl. now rewrite IH.
Qed.

Lemma replaceCR_join (lines : list string) :
  Forall properLine lines ->
  replaceCR (join (String CR EmptyString) lines) = unlines lines.
Proof.
  unfold unlines, join. induction 1 as [|l ls Hl Hls IH]; [reflexivity|].
  apply noLineTerminator_lacks in Hl as [_ Hl].
  destruct ls as [|l2 ls]; [now apply replaceCR_lacks|].
  change (String.concat (String CR EmptyString) (l :: l2 :: ls))
    with (l ++ String CR (String.concat (String CR EmptyString) (l2 :: ls))).
  rewrite replaceCR_line by exact Hl. now rewrite IH.
Qed.

(** X3.  The lines the loop works on hold no line terminator, whatever
    the text; and some lines joined by LF, by CR LF or by CR alone are
    split into those very lines. *)
Theorem line_endings_are_normalized :
  (forall content, Forall properLine (splitLines content)) /\
  (forall lines, Forall properLine lines -> lines <> [] ->
     splitLines (join newline lines) = lines /\
     splitLines (join (String CR newline) lines) = lines /\
     splitLines (join (String CR EmptyString) lines) = lines).
Proof.
  split.
  - intros content. unfold splitLines.
    pose proof (split_lacks_separator LF (replaceCR (replaceCRLF content))) as H1.
    pose proof (split_keeps_lacks LF CR _ (lacks_replaceCR (replaceCRLF content))) as H2.
    revert H1 H2. generalize (split LF (replaceCR (replaceCRLF content))).
    induction l as [|x l IH]; intros H1 H2; [constructor|].
    inversion H1; inversion H2; subst.
    constructor; [now apply lacks_noLineTerminator | now apply IH].
  - intros lines H Hne. split; [|split].
    + now apply splitLines_unlines.
    + unfold splitLines. rewrite replaceCRLF_join by exact H.
      rewrite replaceCR_lacks by now apply lacks_CR_unlines.
      now apply split_unlines.
    + unfold splitLines.
      rewrite replaceCRLF_lacks_LF.
      * rewrite replaceCR_join by exact H. now apply split_unlines.
      * apply lacks_join; [reflexivity | apply (properLines_lack _ H)].
Qed.

End LineEndings.

(** Three lines, with each of the three line endings. *)
Lemma line_endings_sample :
  Forall properLine ["# Plan"; "## Todo"; "- first"] /\
  ["# Plan"; "## Todo"; "- first"] <> [] /\
  splitLines (join (String CR newline) ["# Plan"; "## Todo"; "- first"])
    = ["# Plan"; "## Todo"; "- first"].
Proof.
  assert (H : Forall properLine ["# Plan"; "## Todo"; "- first"])
    by (repeat constructor).
  split; [exact H|]. split; [discriminate|].
  exact (proj1 (proj2 (proj2 line_endings_are_normalized _ H
                         (fun E => nil_cons (eq_sym E))))).
Defined.

(** ** Blank lines, comments and the title *)

Section Ignored.

Variable gen : nat -> string.

Lemma blank_not_item (line : string) :
  trim line = EmptyString -> startsWith line "- " = false.
Proof.
  intros H. destruct (startsWith line "- ") eqn:E; [|reflexivity].
  apply startsWith_inv in E as [r ->]. unfold trim in H. simpl in H.
  discriminate H.
Qed.

(** A line of white space changes nothing, inside a task or outside. *)
Lemma stepLine_white st line :
  trim line = EmptyString -> stepLine gen st line = st.
Proof.
  intros H. unfold stepLine, step, isTaskTitle.
  rewrite H, (blank_not_item line H). simpl.
  destruct (inCodeBlock st); [reflexivity|].
  destruct (currentTask st); [|reflexivity].
  destruct (inTaskBody st); reflexivity.
Qed.

(** Nor does an HTML comment line. *)
Lemma stepLine_comment st line :
  startsWith (trim line) "<!--" = true -> endsWith (trim line) "-->" = true ->
  stepLine gen st line = st.
Proof.
  intros H1 H2. unfold stepLine, step. now rewrite H1, H2.
Qed.

(** X4.  A blank line (white space only) and an HTML comment line leave
    the loop where it is, also inside an open task: they close nothing;
    whatever the counter, the lines parse to the same board with and
    without them; and the two texts parse to the same board when they
    declare the same counter.  (The counter is read from the whole text,
    and a comment line can be the counter comment.) *)
Theorem blank_and_comment_lines_are_skipped (line : string) :
  trim line = EmptyString \/
  (startsWith (trim line) "<!--" = true /\ endsWith (trim line) "-->" = true) ->
  (forall st, stepLine gen st line = st) /\
  (forall n pre post, parseLines gen n (pre ++ line :: post)%list
                      = parseLines gen n (pre ++ post)%list) /\
  (forall pre post,
     Forall properLine (pre ++ line :: post)%list ->
     declaredNextId (unlines (pre ++ line :: post)%list)
       = declaredNextId (unlines (pre ++ post)%list) ->
     parseMarkdown gen (unlines (pre ++ line :: post)%list)
       = parseMarkdown gen (unlines (pre ++ post)%list)).
Proof.
  intros H.
  assert (Hstep : forall st, stepLine gen st line = st).
  { intros st. destruct H as [H|[H1 H2]];
      [now apply stepLine_white | now apply stepLine_comment]. }
  assert (Hloop : forall n pre post,
             parseLines gen n (pre ++ line :: post)%list
             = parseLines gen n (pre ++ post)%list).
  { intros n pre post. apply (parseLines_skip gen n pre [line] post).
    simpl. apply Hstep. }
  split; [exact Hstep|]. split; [exact Hloop|].
  intros pre post Hproper Hcounter.
  rewrite !parseMarkdown_unlines.
  - rewrite Hcounter. apply Hloop.
  - apply Forall_app in Hproper as [Hpre Hrest].
    inversion Hrest as [|? ? _ Hpost]; subst.
    apply Forall_app. now split.
  - exact Hproper.
Qed.

(** A title that is set stays. *)
Lemma step_keeps_title st line :
  truthy (st_title st) = true ->
  st_title (fst (step gen st line)) = st_title st.
Proof.
  intros H. unfold step. rewrite H, andb_false_r.
  repeat break_if; simpl; try reflexivity.
  unfold taskBodyLine. repeat break_if; reflexivity.
Qed.

Lemma stepLine_keeps_title st line :
  truthy (st_title st) = true ->
  st_title (stepLine gen st line) = st_title st.
Proof.
  intros H. unfold stepLine.
  pose proof (step_keeps_title st line H) as H1.
  destruct (step gen st line) as [st1 again]. simpl in H1.
  destruct again; [|exact H1].
  rewrite step_keeps_title; [exact H1 | now rewrite H1].
Qed.

Lemma stateAfter_keeps_title (lines : list string) : forall st,
  truthy (st_title st) = true ->
  st_title (stateAfter gen st lines) = st_title st.
Proof.
  induction lines as [|l ls IH]; intros st H; [reflexivity|].
  simpl. rewrite IH; [now apply stepLine_keeps_title|].
  now rewrite stepLine_keeps_title.
Qed.

Lemma title_text_nonempty (t r : string) :
  trim t = "# " ++ r -> truthy (trim r) = true.
Proof.
  intros H.
  assert (He : trimEnd ("# " ++ r) = "# " ++ r).
  { rewrite <- H. unfold trim. apply trimEnd_idem. }
  destruct (trim r) as [|c s] eqn:E; [|reflexivity].
  exfalso.
  assert (Hr : trimEnd r = EmptyString).
  { unfold trim in E. rewrite <- trim_commute in E.
    destruct (trimEnd r) as [|d u] eqn:Er; [reflexivity|].
    assert (Hidem : trimEnd (String d u) = String d u)
      by (rewrite <- Er; apply trimEnd_idem).
    apply trimEnd_all_white in E. rewrite Hidem in E. discriminate E. }
  change ("# " ++ r) with (String "#" (String " " r)) in He.
  cbn [trimEnd] in He. rewrite Hr in He. simpl in He. discriminate He.
Qed.

(** X5.  The title of the board is the text of the first line that,
    outside a code block, starts with [# ]: when the lines [pre] leave
    the title empty and the code block closed, the board parsed from
    [pre], the title line and any lines [post] carries the text of that
    line, trimmed, whatever title lines [post] holds. *)
Theorem first_title_line_wins (n : N) (pre post : list string) (line r : string) :
  st_title (stateAfter gen initialState pre) = EmptyString ->
  inCodeBlock (stateAfter gen initialState pre) = false ->
  trim line = "# " ++ r ->
  exists b, parseLines gen n (pre ++ line :: post)%list = Some b /\
            board_title b = trim r.
Proof.
  intros Htitle Hcode Hline.
  rewrite parseLines_stateAfter. eexists. split; [reflexivity|].
  unfold boardOfState. destruct (assignColumns _ _) as [cs k]. simpl.
  rewrite stateAfter_app. simpl.
  set (st := stateAfter gen initialState pre) in *.
  assert (Hstep : st_title (stepLine gen st line) = trim r).
  { unfold stepLine, step. rewrite Hline, Hcode, Htitle. reflexivity. }
  rewrite stateAfter_keeps_title; [exact Hstep|].
  rewrite Hstep. now apply (title_text_nonempty (line) r).
Qed.

End Ignored.

(** A blank line and a comment in the middle of a task. *)
Lemma blank_and_comment_sample :
  trim "   " = EmptyString /\
  parseLines demoIds 1 (["## Todo"; "### Note"; "> a"] ++ "   " :: ["text"])%list
  = parseLines demoIds 1 (["## Todo"; "### Note"; "> a"] ++ ["text"])%list /\
  Forall properLine (["## Todo"; "### Note"; "> a"] ++ "   " :: ["text"])%list /\
  declaredNextId (unlines (["## Todo"; "### Note"; "> a"] ++ "   " :: ["text"])%list)
  = declaredNextId (unlines (["## Todo"; "### Note"; "> a"] ++ ["text"])%list) /\
  parseMarkdown demoIds
    (unlines (["## Todo"; "### Note"; "> a"] ++ "   " :: ["text"])%list)
  = parseMarkdown demoIds (unlines (["## Todo"; "### Note"; "> a"] ++ ["text"])%list).
Proof.
  assert (Hproper : Forall properLine
            (["## Todo"; "### Note"; "> a"] ++ "   " :: ["text"])%list)
    by (repeat constructor).
  assert (Hcounter :
    declaredNextId (unlines (["## Todo"; "### Note"; "> a"] ++ "   " :: ["text"])%list)
    = declaredNextId (unlines (["## Todo"; "### Note"; "> a"] ++ ["text"])%list))
    by reflexivity.
  destruct (blank_and_comment_lines_are_skipped demoIds "   " (or_introl eq_refl))
    as (_ & Hlines & Htext).
  split; [reflexivity|].
  split; [exact (Hlines 1%N ["## Todo"; "### Note"; "> a"] ["text"])|].
  split; [exact Hproper|]. split; [exact Hcounter|].
  exact (Htext ["## Todo"; "### Note"; "> a"] ["text"] Hproper Hcounter).
Defined.

(** Two title lines, the first behind a column header. *)
Lemma first_title_sample :
  st_title (stateAfter demoIds initialState ["## Todo"]) = EmptyString /\
  inCodeBlock (stateAfter demoIds initialState ["## Todo"]) = false /\
  trim "  # Plan  " = "# " ++ "Plan" /\
  exists b, parseLines demoIds 1 (["## Todo"] ++ "  # Plan  " :: ["# Other"])%list = Some b /\
            board_title b = trim "Plan".
Proof.
  split; [reflexivity|]. split; [reflexivity|]. split; [reflexivity|].
  exact (first_title_line_wins demoIds 1%N ["## Todo"] ["# Other"] "  # Plan  " "Plan"
           eq_refl eq_refl eq_refl).
Defined.

(** ** More on arrays *)

Section MoreArrays.

Local Open Scope list_scope.

Context {A : Type}.

Lemma nth_error_insertAt (i : nat) (x : A) (l : list A) :
  i <= length l -> nth_error (insertAt i x l) i = Some x.
Proof.
  intros H. unfold insertAt.
  rewrite nth_error_app2; rewrite length_firstn, Nat.min_l by lia; [|lia].
  now rewrite Nat.sub_diag.
Qed.

Lemma removeAt_insertAt (i : nat) (x : A) (l : list A) :
  i <= length l -> removeAt i (insertAt i x l) = l.
Proof.
  revert l. induction i as [|i IH]; intros l H.
  - reflexivity.
  - destruct l as [|y l]; [simpl in H; lia|].
    unfold removeAt, insertAt in *. simpl. f_equal.
    apply IH. simpl in H. lia.
Qed.

Lemma insertAt_removeAt (i : nat) (x : A) (l : list A) :
  nth_error l i = Some x -> insertAt i x (removeAt i l) = l.
Proof.
  revert i. induction l as [|y l IH]; intros [|i]; simpl; try discriminate.
  - intros [= ->]. reflexivity.
  - intros H. unfold insertAt, removeAt in *. simpl. f_equal.
    exact (IH i H).
Qed.

Lemma length_removeAt (i : nat) (l : list A) :
  i < length l -> length (removeAt i l) = length l - 1.
Proof.
  intros H. unfold removeAt.
  rewrite length_app, length_firstn, length_skipn. lia.
Qed.

Lemma length_insertAt (i : nat) (x : A) (l : list A) :
  length (insertAt i x l) = S (length l).
Proof.
  unfold insertAt. rewrite length_app. simpl.
  rewrite length_firstn, length_skipn. lia.
Qed.

Lemma updateFirst_fixed (p : A -> bool) (f : A -> A) (l : list A) (x : A) :
  find p l = Some x -> f x = x -> updateFirst p f l = l.
Proof.
  induction l as [|y l IH]; simpl; [discriminate|].
  destruct (p y).
  - intros [= ->] H. now rewrite H.
  - intros H1 H2. now rewrite IH.
Qed.

Lemma updateFirst_twice (p : A -> bool) (f g : A -> A) (l : list A) :
  (forall x, p (f x) = p x) ->
  updateFirst p g (updateFirst p f l) = updateFirst p (fun x => g (f x)) l.
Proof.
  intros Hp. induction l as [|y l IH]; simpl; [reflexivity|].
  destruct (p y) eqn:E; simpl.
  - now rewrite Hp, E.
  - now rewrite E, IH.
Qed.

Lemma findIndex_last (p : A -> bool) (l : list A) (x : A) :
  find p l = None -> p x = true -> findIndex p (l ++ [x]) = Some (length l).
Proof.
  intros Hl Hx. induction l as [|y l IH]; simpl in *.
  - now rewrite Hx.
  - destruct (p y); [discriminate|]. now rewrite IH.
Qed.

Lemma removeAt_last (l : list A) (x : A) :
  removeAt (length l) (l ++ [x]) = l.
Proof.
  induction l as [|y l IH]; [reflexivity|].
  unfold removeAt in *. simpl. f_equal. exact IH.
Qed.

End MoreArrays.

Lemma set_columns_same (b : KanbanBoard) : set_columns b (board_columns b) = b.
Proof. now destruct b. Qed.

Lemma set_tasks_same (c : KanbanColumn) : set_tasks c (col_tasks c) = c.
Proof. now destruct c. Qed.

(** ** Moving a column *)

Section MoveColumn.

Local Open Scope list_scope.

Lemma spliceStart_inRange (len : nat) (i : Z) :
  inRange len i = true -> spliceStart len i = Z.to_nat i /\ Z.to_nat i < len.
Proof.
  unfold inRange, spliceStart. intros H.
  apply andb_prop in H as [H1 H2].
  apply Z.leb_le in H1. apply Z.ltb_lt in H2.
  destruct (Z.ltb_spec i 0); [lia|].
  split; lia.
Qed.

Lemma moveColumn_distinct fromIndex toIndex b c :
  (fromIndex =? toIndex)%Z = false ->
  inRange (length (board_columns b)) fromIndex = true ->
  inRange (length (board_columns b)) toIndex = true ->
  nth_error (board_columns b) (Z.to_nat fromIndex) = Some c ->
  moveColumn fromIndex toIndex b
  = Some (set_columns b
            (insertAt (Z.to_nat toIndex) c
               (removeAt (Z.to_nat fromIndex) (board_columns b)))).
Proof.
  intros Hne Hfrom Hto Hc.
  apply spliceStart_inRange in Hfrom as [Ef Lf].
  pose proof Hto as Hto'. apply spliceStart_inRange in Hto' as [_ Lt].
  unfold moveColumn, moveColumnSlots. rewrite Hne, Ef, Hc.
  rewrite length_removeAt by exact Lf.
  assert (Et : spliceStart (length (board_columns b) - 1) toIndex = Z.to_nat toIndex).
  { unfold spliceStart. unfold inRange in Hto.
    apply andb_prop in Hto as [H1 H2]. apply Z.leb_le in H1.
    destruct (Z.ltb_spec toIndex 0); lia. }
  rewrite Et, insertAt_map, definedColumns_map. reflexivity.
Qed.

(** X6.  With both indices inside the columns, [moveColumn] puts the
    column of [fromIndex] at [toIndex]: the board it leaves has the same
    columns in another order, as many as before, the moved one at
    [toIndex], and the same title and counter. *)
Theorem moveColumn_in_range fromIndex toIndex b :
  inRange (length (board_columns b)) fromIndex = true ->
  inRange (length (board_columns b)) toIndex = true ->
  exists b',
    moveColumn fromIndex toIndex b = Some b' /\
    nth_error (board_columns b') (Z.to_nat toIndex)
      = nth_error (board_columns b) (Z.to_nat fromIndex) /\
    Permutation (board_columns b) (board_columns b') /\
    length (board_columns b') = length (board_columns b) /\
    board_title b' = board_title b /\ board_nextId b' = board_nextId b.
Proof.
  intros Hfrom Hto.
  destruct (fromIndex =? toIndex)%Z eqn:Hne.
  - apply Z.eqb_eq in Hne. subst toIndex. exists b.
    unfold moveColumn, moveColumnSlots. rewrite Z.eqb_refl, definedColumns_map.
    simpl. rewrite set_columns_same. repeat split; reflexivity.
  - destruct (spliceStart_inRange _ _ Hfrom) as [_ Lf].
    destruct (spliceStart_inRange _ _ Hto) as [_ Lt].
    destruct (nth_error (board_columns b) (Z.to_nat fromIndex)) as [c|] eqn:Hc;
      [|apply nth_error_None in Hc; lia].
    eexists. split; [exact (moveColumn_distinct _ _ _ _ Hne Hfrom Hto Hc)|].
    simpl. split; [|split; [|split]].
    + apply nth_error_insertAt. rewrite length_removeAt by exact Lf. lia.
    + rewrite insertAt_perm. now apply removeAt_perm.
    + rewrite length_insertAt, length_removeAt by exact Lf. lia.
    + auto.
Qed.

(** X7.  Moving a column and moving it back, both indices inside the
    columns, gives the board one started with. *)
Theorem moveColumn_there_and_back fromIndex toIndex b :
  inRange (length (board_columns b)) fromIndex = true ->
  inRange (length (board_columns b)) toIndex = true ->
  exists b', moveColumn fromIndex toIndex b = Some b' /\
             moveColumn toIndex fromIndex b' = Some b.
Proof.
  intros Hfrom Hto.
  destruct (fromIndex =? toIndex)%Z eqn:Hne.
  - apply Z.eqb_eq in Hne. subst toIndex. exists b.
    unfold moveColumn, moveColumnSlots. rewrite Z.eqb_refl, definedColumns_map.
    simpl. now rewrite set_columns_same.
  - destruct (spliceStart_inRange _ _ Hfrom) as [_ Lf].
    destruct (spliceStart_inRange _ _ Hto) as [_ Lt].
    destruct (nth_error (board_columns b) (Z.to_nat fromIndex)) as [c|] eqn:Hc;
      [|apply nth_error_None in Hc; lia].
    eexists. split; [exact (moveColumn_distinct _ _ _ _ Hne Hfrom Hto Hc)|].
    set (rest := removeAt (Z.to_nat fromIndex) (board_columns b)).
    assert (Hrest : length rest = length (board_columns b) - 1)
      by now apply length_removeAt.
    rewrite (moveColumn_distinct toIndex fromIndex _ c).
    + simpl. rewrite removeAt_insertAt by lia.
      unfold rest. rewrite insertAt_removeAt by exact Hc.
      destruct b; reflexivity.
    + now rewrite Z.eqb_sym.
    + simpl. rewrite length_insertAt, Hrest.
      replace (S (length (board_columns b) - 1)) with (length (board_columns b)) by lia.
      exact Hto.
    + simpl. rewrite length_insertAt, Hrest.
      replace (S (length (board_columns b) - 1)) with (length (board_columns b)) by lia.
      exact Hfrom.
    + simpl. apply nth_error_insertAt. lia.
Qed.

End MoveColumn.

(** The first column of the sample board moved behind the second, and
    back. *)
Lemma moveColumn_in_range_sample :
  inRange (length (board_columns sampleBoard)) 0 = true /\
  inRange (length (board_columns sampleBoard)) 1 = true /\
  exists b',
    moveColumn 0 1 sampleBoard = Some b' /\
    nth_error (board_columns b') (Z.to_nat 1)
      = nth_error (board_columns sampleBoard) (Z.to_nat 0) /\
    Permutation (board_columns sampleBoard) (board_columns b') /\
    length (board_columns b') = length (board_columns sampleBoard) /\
    board_title b' = board_title sampleBoard /\
    board_nextId b' = board_nextId sampleBoard.
Proof.
  split; [reflexivity|]. split; [reflexivity|].
  exact (moveColumn_in_range 0 1 sampleBoard eq_refl eq_refl).
Defined.

Lemma moveColumn_there_and_back_sample :
  inRange (length (board_columns sampleBoard)) 0 = true /\
  inRange (length (board_columns sampleBoard)) 1 = true /\
  exists b', moveColumn 0 1 sampleBoard = Some b' /\
             moveColumn 1 0 b' = Some sampleBoard.
Proof.
  split; [reflexivity|]. split; [reflexivity|].
  exact (moveColumn_there_and_back 0 1 sampleBoard eq_refl eq_refl).
Defined.

(** ** Tasks under the mutations *)

Section TaskMutations.

Local Open Scope list_scope.

Lemma hasTaskId_true taskId t : hasTaskId taskId t = true <-> task_id t = taskId.
Proof. unfold hasTaskId. apply String.eqb_eq. Qed.

Lemma completeFrom_length shared i done (l : list ChecklistItem) : forall j,
  length (completeFrom shared i done j l) = length l.
Proof.
  induction l as [|x l IH]; intros j; [reflexivity|].
  cbn [completeFrom length]. now rewrite IH.
Qed.

Lemma completeFrom_texts shared i done (l : list ChecklistItem) : forall j,
  map item_text (completeFrom shared i done j l) = map item_text l.
Proof.
  induction l as [|x l IH]; intros j; [reflexivity|].
  cbn [completeFrom map]. rewrite IH. f_equal.
  now destruct ((j =? i)%nat || shared j).
Qed.

(** Slot by slot. *)
Lemma completeFrom_nth shared i done (l : list ChecklistItem) : forall j k,
  nth_error (completeFrom shared i done j l) k
  = option_map (fun item => if (j + k =? i)%nat || shared (j + k)
                            then complete done item else item)
               (nth_error l k).
Proof.
  induction l as [|x l IH]; intros j k; [now destruct k|].
  destruct k as [|k]; cbn [completeFrom nth_error option_map].
  - now rewrite Nat.add_0_r.
  - rewrite IH. now rewrite Nat.add_succ_comm.
Qed.

Lemma setCompleted_spec shared (i : nat) (done : bool) (l : list ChecklistItem) :
  i < length l ->
  length (setCompleted shared i done l) = length l /\
  map item_text (setCompleted shared i done l) = map item_text l /\
  option_map item_completed (nth_error (setCompleted shared i done l) i)
    = Some done /\
  (forall j, j <> i -> shared j = false ->
             nth_error (setCompleted shared i done l) j = nth_error l j) /\
  (forall j, j < length l -> shared j = true ->
             option_map item_completed (nth_error (setCompleted shared i done l) j)
             = Some done).
Proof.
  intros Hi. unfold setCompleted.
  destruct (nth_error l i) as [item|] eqn:E; [|apply nth_error_None in E; lia].
  split; [apply completeFrom_length|]. split; [apply completeFrom_texts|].
  split; [|split].
  - rewrite completeFrom_nth, E. cbn [Nat.add option_map].
    now rewrite Nat.eqb_refl.
  - intros j Hj Hs. rewrite completeFrom_nth. cbn [Nat.add].
    rewrite Hs, (proj2 (Nat.eqb_neq j i) Hj).
    now destruct (nth_error l j).
  - intros j Hj Hs. rewrite completeFrom_nth. cbn [Nat.add].
    rewrite Hs, orb_true_r.
    destruct (nth_error l j) as [x|] eqn:Ex; [reflexivity|].
    apply nth_error_None in Ex. lia.
Qed.

(** X8.  A toggle at an index inside the list sets the completion of
    that item: the task found afterwards is the task with the list
    updated, the list as long as before, with the same texts, the item
    at the index completed as asked, and so the item of every slot that
    holds the same object, the other items as they were.  A slot that
    holds the same object holds an equal item: so every item that
    differs from the item toggled is as it was. *)
Theorem checklist_toggle_in_range shared taskId columnId key i done b c t l :
  findTask b columnId taskId = Some (c, t) ->
  getList t key = Some l ->
  inRange (length l) i = true ->
  exists c' l',
    findTask (updateChecklistItem shared taskId columnId key i done b)
             columnId taskId
      = Some (c', setList t key (Some l')) /\
    length l' = length l /\
    map item_text l' = map item_text l /\
    option_map item_completed (nth_error l' (Z.to_nat i)) = Some done /\
    (forall j, j <> Z.to_nat i -> shared j = false ->
               nth_error l' j = nth_error l j) /\
    (forall j, j < length l -> shared j = true ->
               option_map item_completed (nth_error l' j) = Some done) /\
    ((forall j, shared j = true -> nth_error l j = nth_error l (Z.to_nat i)) ->
     forall j, nth_error l j <> nth_error l (Z.to_nat i) ->
               nth_error l' j = nth_error l j).
Proof.
  intros Hfind Hlist Hrange.
  unfold updateChecklistItem. rewrite Hfind, Hlist, Hrange. simpl.
  destruct (findTask_updateTask b columnId taskId
              (fun u => setList u key
                 (Some (setCompleted shared (Z.to_nat i) done l)))
              c t (fun _ => eq_refl) Hfind) as (c' & Hc' & _).
  exists c', (setCompleted shared (Z.to_nat i) done l).
  split; [exact Hc'|].
  destruct (setCompleted_spec shared (Z.to_nat i) done l)
    as (H1 & H2 & H3 & H4 & H5).
  { unfold inRange in Hrange. apply andb_prop in Hrange as [H1 H2].
    apply Z.leb_le in H1. apply Z.ltb_lt in H2. lia. }
  repeat split; try assumption.
  intros Hshared j Hj. apply H4.
  - intros ->. now apply Hj.
  - destruct (shared j) eqn:Hs; [|reflexivity].
    exfalso. apply Hj. now apply Hshared.
Qed.

Lemma firstn_skipn_cons {A : Type} (l : list A) : forall k m item,
  nth_error l k = Some item ->
  firstn (S m) (skipn k l) = item :: firstn m (skipn (S k) l).
Proof.
  induction l as [|x l IH]; intros [|k] m item H; try discriminate.
  - injection H as ->. reflexivity.
  - simpl in H. exact (IH k m item H).
Qed.

(** The indices of a list, in order. *)
Lemma reorder_seq (l : list ChecklistItem) : forall m k,
  k + m <= length l ->
  reorder l (map Z.of_nat (seq k m)) = firstn m (skipn k l).
Proof.
  induction m as [|m IH]; intros k H; [reflexivity|].
  cbn [seq map reorder].
  assert (Hr : inRange (length l) (Z.of_nat k) = true).
  { unfold inRange. apply andb_true_intro. split;
      [apply Z.leb_le | apply Z.ltb_lt]; lia. }
  rewrite Hr, Nat2Z.id.
  destruct (nth_error l k) as [item|] eqn:E; [|apply nth_error_None in E; lia].
  rewrite IH by lia. symmetry. now apply firstn_skipn_cons.
Qed.

Lemma reorder_flat_map (l : list ChecklistItem) (order : list Z) :
  reorder l order
  = flat_map (fun i => if inRange (length l) i
                       then match nth_error l (Z.to_nat i) with
                            | Some item => [item]
                            | None => []
                            end
                       else []) order.
Proof.
  induction order as [|i order IH]; [reflexivity|].
  simpl. destruct (inRange (length l) i); [|exact IH].
  destruct (nth_error l (Z.to_nat i)); simpl; now rewrite IH.
Qed.

(** X9.  A reordering by a rearrangement of all the indices of the steps
    rearranges the steps, losing and repeating none; by the indices in
    their order it leaves them as they are. *)
Theorem reorder_permutes (l : list ChecklistItem) (newOrder : list Z) :
  Permutation newOrder (map Z.of_nat (seq 0 (length l))) ->
  Permutation (reorder l newOrder) l /\
  reorder l (map Z.of_nat (seq 0 (length l))) = l.
Proof.
  intros Hperm.
  assert (Hid : reorder l (map Z.of_nat (seq 0 (length l))) = l).
  { rewrite reorder_seq by lia. simpl. apply firstn_all. }
  split; [|exact Hid].
  rewrite <- Hid at 2. rewrite !reorder_flat_map.
  now apply Permutation_flat_map.
Qed.

(** X10.  A task created and deleted at once leaves the columns as they
    were and the counter as [nextId++] has left it: advanced by one
    when it was below 2^53, so that the id is not handed out again.
    (The id of the counter must not be taken in that column already; the
    deletion would find the older task first.) *)
Theorem create_then_delete columnId taskData b c :
  findColumn b columnId = Some c ->
  ~ In ("TSK_" ++ numberToString (board_nextId b))%string (columnIds c) ->
  deleteTask ("TSK_" ++ numberToString (board_nextId b))%string columnId
    (addTask columnId taskData b)
  = {| board_title := board_title b; board_columns := board_columns b;
       board_nextId := increment (board_nextId b) |} /\
  ((board_nextId b < twoTo53)%N ->
   increment (board_nextId b) = (board_nextId b + 1)%N).
Proof.
  intros Hcol Hfresh. split; [|apply increment_safe].
  set (newId := ("TSK_" ++ numberToString (board_nextId b))%string) in *.
  unfold addTask. rewrite Hcol. cbn [getNextTaskId]. fold newId.
  set (push := fun c0 => set_tasks c0 (col_tasks c0 ++ [taskOfData newId taskData])).
  unfold deleteTask, findColumn, updateColumn. cbn [board_columns set_columns].
  rewrite find_updateFirst_same by reflexivity.
  unfold findColumn in Hcol. rewrite Hcol. cbn [option_map].
  assert (Hnone : find (hasTaskId newId) (col_tasks c) = None).
  { destruct (find (hasTaskId newId) (col_tasks c)) as [t|] eqn:E; [|reflexivity].
    exfalso. apply find_some in E as [Hin Hid]. apply hasTaskId_true in Hid.
    apply Hfresh. unfold columnIds. rewrite <- Hid. now apply in_map. }
  unfold push at 1. cbn [col_tasks set_tasks].
  rewrite (findIndex_last _ _ _ Hnone)
    by (unfold hasTaskId; apply String.eqb_refl).
  rewrite updateFirst_twice by reflexivity.
  unfold set_columns. cbn [board_columns board_title board_nextId].
  rewrite (updateFirst_fixed _ _ _ c Hcol).
  - reflexivity.
  - unfold push. cbn [col_tasks set_tasks]. rewrite removeAt_last.
    now destruct c.
Qed.

Lemma updateFirst_ext {A : Type} (p : A -> bool) (f g : A -> A) (l : list A) :
  (forall x, f x = g x) -> updateFirst p f l = updateFirst p g l.
Proof.
  intros H. induction l as [|x l IH]; simpl; [reflexivity|].
  destruct (p x); [now rewrite H | now rewrite IH].
Qed.

Lemma updateTask_idem b columnId taskId f :
  (forall u, f (f u) = f u) -> (forall u, task_id (f u) = task_id u) ->
  updateTask (updateTask b columnId taskId f) columnId taskId f
  = updateTask b columnId taskId f.
Proof.
  intros Hidem Hid. unfold updateTask, updateColumn, set_columns.
  cbn [board_columns board_title board_nextId]. f_equal.
  rewrite updateFirst_twice by reflexivity.
  apply updateFirst_ext. intros c. unfold set_tasks.
  cbn [col_tasks col_id col_title col_archived]. f_equal.
  rewrite updateFirst_twice by (intros u; unfold hasTaskId; now rewrite Hid).
  now apply updateFirst_ext.
Qed.

(** X11.  An edit writes the title, description, tags, priority,
    workload, due date, expansion and steps of the request over the task
    it finds (tags and steps left out of the request become empty lists)
    and keeps its id, its start date, its AC and Verify lists and its
    files line; the same edit a second time changes nothing more. *)
Theorem edit_overwrites_and_keeps taskId columnId taskData b c t :
  findTask b columnId taskId = Some (c, t) ->
  (exists c',
     findTask (editTask taskId columnId taskData b) columnId taskId
     = Some (c', assignTaskData taskData t)) /\
  task_id (assignTaskData taskData t) = task_id t /\
  task_title (assignTaskData taskData t) = td_title taskData /\
  description (assignTaskData taskData t) = td_description taskData /\
  tags (assignTaskData taskData t) = Some (orEmpty (td_tags taskData)) /\
  priority (assignTaskData taskData t) = td_priority taskData /\
  workload (assignTaskData taskData t) = td_workload taskData /\
  dueDate (assignTaskData taskData t) = td_dueDate taskData /\
  startDate (assignTaskData taskData t) = startDate t /\
  defaultExpanded (assignTaskData taskData t) = td_defaultExpanded taskData /\
  steps (assignTaskData taskData t) = Some (orEmpty (td_steps taskData)) /\
  ac (assignTaskData taskData t) = ac t /\
  verify (assignTaskData taskData t) = verify t /\
  files (assignTaskData taskData t) = files t /\
  editTask taskId columnId taskData (editTask taskId columnId taskData b)
  = editTask taskId columnId taskData b.
Proof.
  intros Hfind.
  destruct (findTask_updateTask b columnId taskId (assignTaskData taskData)
              c t (fun _ => eq_refl) Hfind) as (c' & Hc' & _).
  assert (Hedit : editTask taskId columnId taskData b
                  = updateTask b columnId taskId (assignTaskData taskData))
    by (unfold editTask; now rewrite Hfind).
  split; [exists c'; now rewrite Hedit|].
  repeat (split; [reflexivity|]).
  rewrite Hedit. unfold editTask. rewrite Hc'.
  apply updateTask_idem; reflexivity.
Qed.

End TaskMutations.

(** The steps of the sample task: a toggle of the first step, no slot
    sharing its object; and, after a reordering that puts the first step
    in both slots, a toggle of slot 0, which shows in slot 1. *)
Lemma checklist_toggle_sample :
  findTask sampleBoard "c1" "TSK_1"
    = Some (nth 0 (board_columns sampleBoard) (archivedColumn "" ""),
            sampleTask "TSK_1" "first") /\
  getList (sampleTask "TSK_1" "first") Steps
    = Some [ {| item_text := "one"; item_completed := false |};
             {| item_text := "two"; item_completed := true |} ] /\
  inRange 2 0 = true /\
  (exists c' l',
    findTask (updateChecklistItem unshared "TSK_1" "c1" Steps 0 true sampleBoard)
             "c1" "TSK_1"
      = Some (c', setList (sampleTask "TSK_1" "first") Steps (Some l')) /\
    map item_text l' = ["one"; "two"] /\
    option_map item_completed (nth_error l' 0) = Some true /\
    nth_error l' 1 = Some {| item_text := "two"; item_completed := true |}) /\
  option_map (fun ct => steps (snd ct))
    (findTask (updateChecklistItem (fun j => Nat.eqb j 1) "TSK_1" "c1" Steps 0 true
                 (reorderTaskSteps "TSK_1" "c1" [0; 0]%Z sampleBoard))
              "c1" "TSK_1")
  = Some (Some [ {| item_text := "one"; item_completed := true |};
                 {| item_text := "one"; item_completed := true |} ]).
Proof.
  split; [reflexivity|]. split; [reflexivity|]. split; [reflexivity|].
  split; [|reflexivity].
  destruct (checklist_toggle_in_range unshared "TSK_1" "c1" Steps 0%Z true
              sampleBoard _ _ _ eq_refl eq_refl eq_refl)
    as (c' & l' & H1 & _ & H3 & H4 & H5 & _).
  exists c', l'. split; [exact H1|]. split; [exact H3|]. split; [exact H4|].
  apply (H5 1); [discriminate | reflexivity].
Defined.

Lemma reorder_permutes_sample :
  Permutation [1; 0]%Z (map Z.of_nat (seq 0 2)) /\
  Permutation
    (reorder [ {| item_text := "one"; item_completed := false |};
               {| item_text := "two"; item_completed := true |} ] [1; 0]%Z)
    [ {| item_text := "one"; item_completed := false |};
      {| item_text := "two"; item_completed := true |} ].
Proof.
  assert (H : Permutation [1; 0]%Z (map Z.of_nat (seq 0 2))) by apply perm_swap.
  split; [exact H|].
  exact (proj1 (reorder_permutes
                  [ {| item_text := "one"; item_completed := false |};
                    {| item_text := "two"; item_completed := true |} ] _ H)).
Defined.

Lemma create_then_delete_sample :
  findColumn sampleBoard "c2" = Some (nth 1 (board_columns sampleBoard) (archivedColumn "" "")) /\
  ~ In "TSK_7" (columnIds (nth 1 (board_columns sampleBoard) (archivedColumn "" ""))) /\
  (board_nextId sampleBoard < twoTo53)%N /\
  deleteTask "TSK_7" "c2" (addTask "c2" sampleData sampleBoard)
  = {| board_title := "Board"; board_columns := board_columns sampleBoard;
       board_nextId := 8 |}.
Proof.
  assert (H : ~ In "TSK_7" (columnIds (nth 1 (board_columns sampleBoard) (archivedColumn "" ""))))
    by (vm_compute; intuition discriminate).
  assert (Hn : (board_nextId sampleBoard < twoTo53)%N) by reflexivity.
  split; [reflexivity|]. split; [exact H|]. split; [exact Hn|].
  destruct (create_then_delete "c2" sampleData sampleBoard _ eq_refl H)
    as [Hboard Hcount].
  etransitivity; [exact Hboard|]. rewrite (Hcount Hn). reflexivity.
Defined.

Lemma edit_sample :
  findTask sampleBoard "c1" "TSK_2"
    = Some (nth 0 (board_columns sampleBoard) (archivedColumn "" ""),
            sampleTask "TSK_2" "second") /\
  editTask "TSK_2" "c1" sampleData (editTask "TSK_2" "c1" sampleData sampleBoard)
  = editTask "TSK_2" "c1" sampleData sampleBoard.
Proof.
  split; [reflexivity|].
  destruct (edit_overwrites_and_keeps "TSK_2" "c1" sampleData sampleBoard _ _ eq_refl)
    as (_ & _ & _ & _ & _ & _ & _ & _ & _ & _ & _ & _ & _ & _ & H).
  exact H.
Defined.

(** ** Moving a task *)

Section MoveTask.

Local Open Scope list_scope.

Lemma allTasks_app (c1 c2 : list KanbanColumn) :
  allTasks (c1 ++ c2) = allTasks c1 ++ allTasks c2.
Proof. apply flat_map_app. Qed.

Lemma allTasks_updateColumn b columnId f c :
  findColumn b columnId = Some c ->
  exists before after,
    allTasks (board_columns b) = before ++ col_tasks c ++ after /\
    allTasks (board_columns (updateColumn b columnId f))
      = before ++ col_tasks (f c) ++ after.
Proof.
  unfold findColumn, updateColumn. intros H.
  destruct (updateFirst_split _ f _ _ H) as (l1 & l2 & E1 & E2).
  exists (allTasks l1), (allTasks l2). simpl. rewrite E2, E1, !allTasks_app.
  simpl. unfold allTasks at 2 4. simpl. fold (allTasks l2). auto.
Qed.

Lemma map_col_id_updateFirst (p : KanbanColumn -> bool)
    (f : KanbanColumn -> KanbanColumn) (cs : list KanbanColumn) :
  (forall c, col_id (f c) = col_id c) ->
  map col_id (updateFirst p f cs) = map col_id cs.
Proof.
  intros Hf. induction cs as [|c cs IH]; simpl; [reflexivity|].
  destruct (p c); simpl; [now rewrite Hf | now rewrite IH].
Qed.

Lemma spliceStart_le (len : nat) (i : Z) : spliceStart len i <= len.
Proof.
  unfold spliceStart. destruct (Z.ltb_spec i 0); lia.
Qed.

(** X12.  A move of a task loses and repeats no task: the tasks of the
    board are the same afterwards, in another place, and the columns
    keep their ids, the board its title and counter.  When both columns
    and the task are found, the task stands in the target column at the
    index asked for, clamped to the ends of that column as [splice]
    clamps it. *)
Theorem moveTask_conserves taskId fromColumnId toColumnId newIndex b :
  Permutation (allTasks (board_columns (moveTask taskId fromColumnId toColumnId newIndex b)))
              (allTasks (board_columns b)) /\
  map col_id (board_columns (moveTask taskId fromColumnId toColumnId newIndex b))
    = map col_id (board_columns b) /\
  board_title (moveTask taskId fromColumnId toColumnId newIndex b) = board_title b /\
  board_nextId (moveTask taskId fromColumnId toColumnId newIndex b) = board_nextId b /\
  (forall fromColumn toColumn task,
     findColumn b fromColumnId = Some fromColumn ->
     findColumn b toColumnId = Some toColumn ->
     find (hasTaskId taskId) (col_tasks fromColumn) = Some task ->
     exists target,
       findColumn (moveTask taskId fromColumnId toColumnId newIndex b) toColumnId
         = Some target /\
       nth_error (col_tasks target)
         (spliceStart (length (col_tasks target) - 1) newIndex) = Some task).
Proof.
  unfold moveTask.
  destruct (findColumn b fromColumnId) as [fromColumn|] eqn:Hfrom;
    [|repeat split; try reflexivity; discriminate].
  destruct (findColumn b toColumnId) as [toColumn|] eqn:Hto;
    [|repeat split; try reflexivity; discriminate].
  destruct (findIndex (hasTaskId taskId) (col_tasks fromColumn)) as [i|] eqn:Hi.
  2:{ repeat split; try reflexivity. intros ? ? task [= <-] _ Hfind.
      apply findIndex_none in Hi. congruence. }
  destruct (findIndex_nth _ _ _ Hi) as (task & Hnth & Hfind).
  rewrite Hnth.
  set (remove := fun c => set_tasks c (removeAt i (col_tasks c))).
  set (insert := fun c => set_tasks c
                   (insertAt (spliceStart (length (col_tasks c)) newIndex)
                             task (col_tasks c))).
  destruct (allTasks_updateColumn b fromColumnId remove fromColumn Hfrom)
    as (l1 & l2 & E1 & E2).
  destruct (findColumn_updateColumn b fromColumnId remove toColumnId toColumn
              (fun _ => eq_refl) Hto) as [toColumn' Hto'].
  destruct (allTasks_updateColumn (updateColumn b fromColumnId remove)
              toColumnId insert toColumn' Hto') as (l3 & l4 & E3 & E4).
  split; [|split; [|split; [|split]]].
  - rewrite E4.
    transitivity (task :: l3 ++ col_tasks toColumn' ++ l4).
    + transitivity (l3 ++ (task :: col_tasks toColumn') ++ l4).
      * apply Permutation_app_head, Permutation_app_tail.
        unfold insert. simpl. apply insertAt_perm.
      * simpl. symmetry. apply Permutation_middle.
    + rewrite <- E3, E2, E1.
      transitivity (l1 ++ (task :: col_tasks (remove fromColumn)) ++ l2).
      * simpl. apply Permutation_middle.
      * apply Permutation_app_head, Permutation_app_tail.
        unfold remove. simpl. symmetry. now apply removeAt_perm.
  - unfold updateColumn. simpl.
    now rewrite !map_col_id_updateFirst by reflexivity.
  - reflexivity.
  - reflexivity.
  - intros ? ? task' [= <-] [= <-] Hfind'.
    assert (task' = task) by congruence. subst task'.
    exists (insert toColumn'). split.
    + unfold findColumn, updateColumn in *. cbn [board_columns set_columns] in *.
      rewrite find_updateFirst_same by reflexivity.
      now rewrite Hto'.
    + unfold insert. cbn [col_tasks set_tasks].
      rewrite length_insertAt.
      replace (S (length (col_tasks toColumn')) - 1) with (length (col_tasks toColumn'))
        by lia.
      apply nth_error_insertAt. apply spliceStart_le.
Qed.

End MoveTask.

(** The first task of the sample board moved to the front of the second
    column. *)
Lemma moveTask_sample :
  findColumn sampleBoard "c1" = Some (nth 0 (board_columns sampleBoard) (archivedColumn "" "")) /\
  findColumn sampleBoard "c2" = Some (nth 1 (board_columns sampleBoard) (archivedColumn "" "")) /\
  find (hasTaskId "TSK_1") (col_tasks (nth 0 (board_columns sampleBoard) (archivedColumn "" "")))
    = Some (sampleTask "TSK_1" "first") /\
  exists target,
    findColumn (moveTask "TSK_1" "c1" "c2" 0 sampleBoard) "c2" = Some target /\
    nth_error (col_tasks target) (spliceStart (length (col_tasks target) - 1) 0)
      = Some (sampleTask "TSK_1" "first").
Proof.
  split; [reflexivity|]. split; [reflexivity|]. split; [reflexivity|].
  destruct (moveTask_conserves "TSK_1" "c1" "c2" 0%Z sampleBoard)
    as (_ & _ & _ & _ & H).
  exact (H _ _ _ eq_refl eq_refl eq_refl).
Defined.

(** ** Pasted images *)

Section Images.

Local Open Scope Z_scope.

Lemma countImage_le (ext : string) (m : Z) (file : string) :
  m <= countImage ext m file.
Proof.
  unfold countImage. destruct (matchImageName ext file) as [g|]; [|lia].
  cbv zeta. destruct (Z.ltb_spec m (imageNumber g)); lia.
Qed.

Lemma countImage_counts (ext : string) (m : Z) (file : string) group :
  matchImageName ext file = Some group ->
  imageNumber group <= countImage ext m file.
Proof.
  unfold countImage. intros ->. cbv zeta.
  destruct (Z.ltb_spec m (imageNumber group)); lia.
Qed.

Lemma largest_from (ext : string) (files : list string) : forall m,
  m <= fold_left (countImage ext) files m /\
  (forall file group, In file files -> matchImageName ext file = Some group ->
                      imageNumber group <= fold_left (countImage ext) files m).
Proof.
  induction files as [|f fs IH]; intros m; simpl.
  - split; [lia|]. intros ? ? [].
  - destruct (IH (countImage ext m f)) as [H1 H2].
    pose proof (countImage_le ext m f) as Hm.
    split; [lia|].
    intros file group [<-|Hin] Hmatch.
    + pose proof (countImage_counts ext m f group Hmatch). lia.
    + now apply (H2 file group).
Qed.

Lemma imageNumber_nonneg group : 0 <= imageNumber group.
Proof. destruct group; simpl; lia. Qed.

Lemma matchImageName_plain (ext : string) :
  matchImageName ext ("image." ++ ext) = Some None.
Proof.
  unfold matchImageName. cbn [append stripPrefix Ascii.eqb Bool.eqb].
  now rewrite String.eqb_refl.
Qed.

Lemma matchImageName_numbered (ext : string) (n : N) :
  matchImageName ext ("image-" ++ decimalDigits n ++ "." ++ ext)
  = Some (Some (decimalDigits n)).
Proof.
  unfold matchImageName. cbn [append stripPrefix Ascii.eqb Bool.eqb].
  change (String "." ext) with ("." ++ ext)%string.
  rewrite digits1_number by reflexivity.
  now rewrite String.eqb_refl.
Qed.

(** X13.  The name [getNextImageFilename] returns for a directory whose
    largest image number is below 2^53 is not the name of a file of that
    directory, and is a name of the pattern itself, so that the next
    call counts it: [image.<ext>] when no file of the directory matches,
    [image-<n+1>.<ext>] for the largest number n among the files that
    do. *)
Theorem next_image_name_is_fresh (files : list string) (ext : string) :
  plainExtension ext = true ->
  largestImageNumber ext files < Z.of_N twoTo53 ->
  ~ In (getNextImageFilename (Some files) ext) files /\
  (exists group,
     matchImageName ext (getNextImageFilename (Some files) ext) = Some group /\
     imageNumber group = largestImageNumber ext files + 1).
Proof.
  intros _ Hsafe. unfold getNextImageFilename.
  destruct (largest_from ext files (-1)) as [Hlow Hall].
  fold (largestImageNumber ext files) in Hlow, Hall.
  destruct (Z.eqb_spec (largestImageNumber ext files) (-1)) as [E|E].
  - split.
    + intros Hin. pose proof (Hall _ _ Hin (matchImageName_plain ext)) as H.
      simpl in H. lia.
    + exists None. split; [apply matchImageName_plain | simpl; lia].
  - set (n := Z.to_N (largestImageNumber ext files + 1)).
    assert (Hn : Z.of_N n = largestImageNumber ext files + 1)
      by (unfold n; rewrite Z2N.id; lia).
    assert (Hle : (n <= twoTo53)%N) by lia.
    assert (Hinc : increment (Z.to_N (largestImageNumber ext files)) = n).
    { rewrite increment_safe by lia. unfold n. lia. }
    rewrite Hinc, numberToString_safe by exact Hle.
    split.
    + intros Hin. pose proof (Hall _ _ Hin (matchImageName_numbered ext n)) as H.
      simpl in H. rewrite parseInt_decimalDigits in H by exact Hle. lia.
    + exists (Some (decimalDigits n)).
      split; [apply matchImageName_numbered|].
      simpl. now rewrite parseInt_decimalDigits.
Qed.

End Images.

Lemma next_image_name_sample :
  plainExtension "png" = true /\
  (largestImageNumber "png" ["notes.md"; "image.png"; "image-4.png"; "image-2.jpg"]
   < Z.of_N twoTo53)%Z /\
  getNextImageFilename (Some ["notes.md"; "image.png"; "image-4.png"; "image-2.jpg"]) "png"
    = "image-5.png" /\
  ~ In (getNextImageFilename (Some ["notes.md"; "image.png"; "image-4.png"; "image-2.jpg"]) "png")
       ["notes.md"; "image.png"; "image-4.png"; "image-2.jpg"].
Proof.
  split; [reflexivity|]. split; [reflexivity|]. split; [reflexivity|].
  exact (proj1 (next_image_name_is_fresh
                  ["notes.md"; "image.png"; "image-4.png"; "image-2.jpg"] "png"
                  eq_refl eq_refl)).
Defined.

(** ** Image lines *)

Section ImageLines.

Variable gen : nat -> string.

Lemma trimStart_head (s : string) c r :
  trimStart s = String c r -> isWhite c = false.
Proof.
  induction s as [|a s IH]; simpl; [discriminate|].
  destruct (isWhite a) eqn:E; [exact IH|].
  intros H. injection H as <- _. exact E.
Qed.

(** The first character of a trimmed line is the first character of the
    line that is not white. *)
Lemma trim_head (line : string) c r :
  trim line = String c r ->
  isWhite c = false /\ exists r0, trimStart line = String c r0.
Proof.
  unfold trim. destruct (trimStart line) as [|a r0] eqn:E; [discriminate|].
  pose proof (trimStart_head _ _ _ E) as Ha.
  simpl. rewrite Ha. simpl. intros H. injection H as <- _.
  split; [exact Ha | now exists r0].
Qed.

(** A line whose first black character is no dash is no list line of
    any kind. *)
Lemma not_dash_line (line : string) c r :
  trim line = String c r -> c <> "-"%char ->
  startsWith line "- " = false /\ matchProperty line = None /\
  matchOldChecklistItem line = None.
Proof.
  intros H Hc. destruct (trim_head _ _ _ H) as [Hw [r0 H0]].
  assert (Hd : Ascii.eqb "-" c = false) by (apply Ascii.eqb_neq; congruence).
  assert (Hstrip : forall p, stripPrefix (String "-" p) (trimStart line) = None).
  { intros p. rewrite H0. cbn [stripPrefix]. now rewrite Hd. }
  split; [|split].
  - destruct line as [|a l]; [reflexivity|]. cbn [startsWith].
    destruct (Ascii.eqb_spec "-" a) as [<-|]; [|reflexivity].
    simpl in H0. congruence.
  - unfold matchProperty, skipWhite1.
    destruct line as [|a l]; [reflexivity|].
    destruct (isWhite a) eqn:Ea; [|reflexivity].
    assert (E : trimStart (String a l) = trimStart l) by (simpl; now rewrite Ea).
    rewrite E in Hstrip. unfold Regex.bind. now rewrite Hstrip.
  - unfold matchOldChecklistItem, matchIndentedBox, matchBox.
    destruct (6 <=? countWhite line)%nat; [|reflexivity].
    unfold Regex.bind. now rewrite Hstrip.
Qed.

Lemma stripPrefix_inv (p : string) : forall s r,
  stripPrefix p s = Some r -> s = (p ++ r)%string.
Proof.
  induction p as [|a p IH]; intros s r H; simpl in H.
  - now injection H as ->.
  - destruct s as [|b s]; [discriminate|].
    destruct (Ascii.eqb_spec a b) as [->|]; [|discriminate].
    simpl. f_equal. now apply IH.
Qed.

(** What the loop does with an image line in an open task. *)
Lemma stepLine_image st t line :
  currentTask st = Some t -> inTaskBody st = true -> inCodeBlock st = false ->
  matchImage (trim line) = true ->
  stepLine gen st line
  = {| st_title := st_title st; st_columns := st_columns st;
       currentColumn := currentColumn st;
       currentTask := Some (appendDescription t (trim line));
       inTaskBody := true; inCodeBlock := false;
       activeListKey := activeListKey st;
       collectingDescription := collectingDescription st;
       generated := generated st |}.
Proof.
  intros Ht Hbody Hcode Himg.
  assert (Hline : exists r, trim line = String "!" (String "[" r)).
  { unfold matchImage in Himg.
    destruct (stripPrefix "![" (trim line)) as [r|] eqn:E; [|discriminate].
    exists r. now apply stripPrefix_inv in E. }
  destruct Hline as [r Hr].
  destruct (not_dash_line line "!" _ Hr ltac:(discriminate)) as (H1 & H2 & H3).
  unfold stepLine, step, isTaskTitle. rewrite H1, Ht, Hbody, Hcode.
  unfold taskBodyLine, parseTaskProperty, parseOldChecklistItem.
  rewrite H2, H3, Himg, Hr. cbn.
  rewrite Hbody, Hcode.
  destruct (activeListKey st) as [k|]; [destruct (getList t k)|]; reflexivity.
Qed.

Lemma afterFirst_closing (a : string) :
  isSome (afterFirst ")" (a ++ ")")) = true.
Proof.
  induction a as [|c a IH]; [reflexivity|].
  cbn [append afterFirst stripPrefix].
  destruct (Ascii.eqb ")" c); [reflexivity | exact IH].
Qed.

Lemma dotStar_line (s : string) : noLineTerminator s = true -> dotStar s = s.
Proof.
  induction s as [|c s IH]; simpl; [reflexivity|].
  destruct (isLineTerminator c); [discriminate|].
  simpl. intros H. now rewrite IH.
Qed.

Lemma slashes_line (s : string) : noLineTerminator (slashes s) = noLineTerminator s.
Proof.
  induction s as [|c s IH]; simpl; [reflexivity|]. rewrite IH.
  destruct (Ascii.eqb_spec c "\") as [->|]; reflexivity.
Qed.

Lemma slashes_lacks (s : string) : lacks "\" (slashes s) = true.
Proof.
  induction s as [|c s IH]; simpl; [reflexivity|]. rewrite IH.
  destruct (Ascii.eqb_spec c "\") as [->|]; [reflexivity|].
  rewrite andb_true_r. apply negb_true_iff. now apply Ascii.eqb_neq.
Qed.

Lemma matchImage_link (alt path : string) :
  lacks "]" alt = true ->
  noLineTerminator alt = true -> noLineTerminator path = true ->
  matchImage ("![" ++ alt ++ "](" ++ path ++ ")") = true.
Proof.
  intros Ha Hl Hp.
  assert (Hline : noLineTerminator (alt ++ "](" ++ path ++ ")") = true).
  { rewrite noLineTerminator_app, Hl.
    change ("](" ++ path ++ ")") with ("](" ++ (path ++ ")")).
    now rewrite !noLineTerminator_app, Hp. }
  assert (E : stripPrefix "![" ("![" ++ alt ++ "](" ++ path ++ ")")
              = Some (alt ++ "](" ++ path ++ ")")) by reflexivity.
  unfold matchImage. rewrite E, dotStar_line by exact Hline.
  assert (H : afterFirst "](" (alt ++ "](" ++ path ++ ")") = Some (path ++ ")")).
  { clear Hl Hline. induction alt as [|c alt IH].
    - reflexivity.
    - simpl in Ha. apply andb_true_iff in Ha as [Hc Ha].
      apply negb_true_iff in Hc. rewrite Ascii.eqb_sym in Hc.
      cbn [append afterFirst stripPrefix]. rewrite Hc. now apply IH. }
  rewrite H. apply afterFirst_closing.
Qed.

(** X14.  The text [handlePasteImage] sends back holds no backslash and
    is an image line for the parser: written on a line of an open task,
    with any indentation, it is appended to the description of the
    task, and the task, its active list and the collecting of the
    description stay as they are. *)
Theorem pasted_image_is_read (st : ParserState) (t : KanbanTask)
    (relativeDir fileName indent : string) :
  noLineTerminator relativeDir = true -> noLineTerminator fileName = true ->
  trimStart indent = EmptyString ->
  currentTask st = Some t -> inTaskBody st = true -> inCodeBlock st = false ->
  let text := pastedImageText relativeDir fileName in
  lacks "\" text = true /\ matchImage text = true /\
  stepLine gen st (indent ++ text)
  = {| st_title := st_title st; st_columns := st_columns st;
       currentColumn := currentColumn st;
       currentTask := Some (appendDescription t text);
       inTaskBody := true; inCodeBlock := false;
       activeListKey := activeListKey st;
       collectingDescription := collectingDescription st;
       generated := generated st |}.
Proof.
  intros Hd Hf Hi Ht Hbody Hcode text.
  set (p := if truthy relativeDir then relativeDir ++ "/" ++ fileName else fileName).
  assert (Hp : noLineTerminator (slashes p) = true).
  { rewrite slashes_line. unfold p. destruct (truthy relativeDir); [|exact Hf].
    rewrite !noLineTerminator_app, Hd, Hf. reflexivity. }
  assert (Htext : text = "![" ++ "alt text" ++ "](" ++ slashes p ++ ")") by reflexivity.
  assert (Himg : matchImage text = true).
  { rewrite Htext. now apply matchImage_link. }
  assert (Htrim : trim (indent ++ text) = text).
  { unfold trim. rewrite trimStart_app, Hi
      by (do 2 eexists; split; reflexivity).
    change (EmptyString ++ text) with text.
    change text with ("![alt text](" ++ slashes p ++ ")").
    rewrite <- append_assoc. now rewrite trimEnd_app by discriminate. }
  split; [|split; [exact Himg|]].
  - change text with ("![alt text](" ++ slashes p ++ ")").
    rewrite !lacks_app, slashes_lacks. reflexivity.
  - rewrite (stepLine_image st t (indent ++ text) Ht Hbody Hcode)
      by (now rewrite Htrim).
    now rewrite Htrim.
Qed.

End ImageLines.

Lemma pasted_image_sample :
  let st := {| st_title := "Board"; st_columns := [];
               currentColumn := Some {| col_id := "c1"; col_title := "Todo";
                                        col_tasks := []; col_archived := Some false |};
               currentTask := Some (sampleTask "TSK_1" "first");
               inTaskBody := true; inCodeBlock := false;
               activeListKey := Some Steps; collectingDescription := false;
               generated := 1 |} in
  pastedImageText "ss\tasks" "image-2.png" = "![alt text](ss/tasks/image-2.png)" /\
  currentTask (stepLine demoIds st ("    " ++ pastedImageText "ss\tasks" "image-2.png"))
  = Some (appendDescription (sampleTask "TSK_1" "first") "![alt text](ss/tasks/image-2.png)").
Proof.
  intros st. split; [reflexivity|].
  exact (f_equal currentTask
           (proj2 (proj2 (pasted_image_is_read demoIds st (sampleTask "TSK_1" "first")
                            "ss\tasks" "image-2.png" "    "
                            eq_refl eq_refl eq_refl eq_refl eq_refl eq_refl)))).
Defined.

(** ** The text of a board, line by line *)

Section TextLines.

Lemma text_cons (l : string) (ls : list string) :
  text (l :: ls) = l ++ newline ++ text ls.
Proof.
  unfold text. cbn [map]. rewrite concat_cons. now rewrite append_assoc.
Qed.

Lemma text_app (a b : list string) : text (a ++ b)%list = text a ++ text b.
Proof.
  induction a as [|l a IH]; [reflexivity|].
  rewrite <- app_comm_cons, !text_cons, IH. now rewrite !append_assoc.
Qed.

Lemma split_cons (s : string) : exists h t, split LF s = h :: t.
Proof.
  destruct s as [|c r]; simpl; [eauto|].
  destruct (Ascii.eqb c LF); [eauto|].
  destruct (split LF r); eauto.
Qed.

(** A text cut at its line feeds, and every piece written as a line. *)
Lemma text_split (s : string) : text (split LF s) = s ++ newline.
Proof.
  induction s as [|c r IH]; [reflexivity|].
  cbn [split]. destruct (Ascii.eqb_spec c LF) as [->|Hc].
  - rewrite text_cons, IH. reflexivity.
  - destruct (split LF r) as [|h t] eqn:E.
    + destruct (split_cons r) as (h & t & H). congruence.
    + rewrite text_cons in IH |- *. cbn [append]. now rewrite <- IH.
Qed.

Lemma unlines_text (ls : list string) :
  unlines (ls ++ [EmptyString])%list = text ls.
Proof.
  induction ls as [|l ls IH]; [reflexivity|].
  rewrite text_cons, <- IH. unfold unlines, join.
  rewrite <- app_comm_cons. cbn [String.concat].
  destruct (ls ++ [EmptyString])%list eqn:E; [|reflexivity].
  destruct ls; discriminate.
Qed.

Lemma generateChecklist_text (header : string) items :
  generateChecklist header items = text (checklistLines header items).
Proof.
  unfold generateChecklist, checklistLines.
  destruct items as [[|i l]|]; try reflexivity.
  rewrite !text_cons. cbn [append]. do 2 f_equal.
  unfold text. rewrite map_map. f_equal. f_equal. apply map_ext.
  intros item. unfold itemLine. simpl. now rewrite !append_assoc.
Qed.

Lemma generateTaskBody_text (task : KanbanTask) :
  generateTaskBody task = text (taskBodyLines task).
Proof.
  unfold generateTaskBody, taskBodyLines.
  rewrite !text_app, !generateChecklist_text.
  f_equal; [|f_equal; [|f_equal; [|f_equal; [|do 3 f_equal]]]].
  - unfold metaLines. destruct (metaParts task); [reflexivity|].
    rewrite text_cons. change (text []) with EmptyString.
    now rewrite !append_assoc, append_nil_r.
  - unfold descriptionLines. destruct (description task) as [d|]; [|reflexivity].
    destruct (truthy d && negb (String.eqb (trim d) EmptyString)); [|reflexivity].
    now rewrite text_cons, text_split.
  - unfold dueLines. destruct (dueDate task) as [d|]; [|reflexivity].
    destruct (truthy d); [|reflexivity].
    rewrite !text_cons. change (text []) with EmptyString.
    now rewrite !append_assoc, append_nil_r.
  - unfold workloadLines. destruct (workload task) as [w|]; [|reflexivity].
    rewrite !text_cons. change (text []) with EmptyString.
    now rewrite !append_assoc, append_nil_r.
  - f_equal. unfold filesLines. destruct (files task) as [f|]; [|reflexivity].
    destruct (truthy f); [|reflexivity].
    rewrite !text_cons. change (text []) with EmptyString.
    now rewrite !append_assoc, append_nil_r.
Qed.

Lemma generateTasks_text (fmt : TaskHeaderFormat) (ts : list KanbanTask) :
  String.concat EmptyString (map (generateTask fmt) ts)
  = text (flat_map (taskLines fmt) ts).
Proof.
  induction ts as [|t ts IH]; [reflexivity|].
  cbn [map flat_map]. rewrite concat_cons, text_app, IH. f_equal.
  unfold generateTask, taskLines.
  rewrite text_cons, generateTaskBody_text. now rewrite ?append_assoc.
Qed.

Lemma generateColumns_text (fmt : TaskHeaderFormat) (cs : list KanbanColumn) :
  String.concat EmptyString (map (generateColumn fmt) cs)
  = text (flat_map (columnLines fmt) cs).
Proof.
  induction cs as [|c cs IH]; [reflexivity|].
  cbn [map flat_map]. rewrite concat_cons, text_app, IH. f_equal.
  unfold generateColumn, columnLines.
  rewrite !text_cons, generateTasks_text. now rewrite ?append_assoc.
Qed.

(** The serializer writes the lines of [boardLines], each with its line
    feed. *)
Lemma generateMarkdown_text (b : KanbanBoard) (fmt : TaskHeaderFormat) :
  generateMarkdown b fmt = text (boardLines fmt b).
Proof.
  assert (Ht : (if truthy (board_title b)
                then "# " ++ board_title b ++ newline ++ newline
                else EmptyString) = text (titleLines b)).
  { unfold titleLines. destruct (truthy (board_title b)); [|reflexivity].
    rewrite !text_cons. change (text []) with EmptyString.
    now rewrite ?append_assoc. }
  unfold generateMarkdown, boardLines.
  rewrite text_cons, text_app, generateColumns_text, Ht.
  now rewrite ?append_assoc.
Qed.

End TextLines.

(** ** The lines of a saved task, read back *)

Section ReadBack.

Variable gen : nat -> string.

Lemma cleanText_spec (s : string) :
  cleanText s = true ->
  trim s = s /\ s <> EmptyString /\ noLineTerminator s = true.
Proof.
  unfold cleanText. intros H.
  apply andb_prop in H as [H H3]. apply andb_prop in H as [H1 H2].
  apply String.eqb_eq in H1. repeat split; try assumption.
  intros ->. discriminate H2.
Qed.

Lemma trim_fixed (s : string) :
  trim s = s -> trimStart s = s /\ trimEnd s = s.
Proof.
  intros H. split.
  - rewrite <- H at 1. unfold trim. rewrite <- trim_commute.
    rewrite trimStart_idem, trim_commute. exact H.
  - rewrite <- H at 1. unfold trim. rewrite trimEnd_idem. exact H.
Qed.

Lemma trimStart_startsBlack (s : string) :
  trimStart s = s -> s <> EmptyString -> startsBlack s.
Proof.
  intros H Hne. destruct s as [|c r]; [congruence|].
  exists c, r. split; [reflexivity|]. now apply (trimStart_head _ _ _ H).
Qed.

(** A trimmed text behind a prefix that begins black makes a trimmed
    line. *)
Lemma trim_prefixed (p s : string) :
  startsBlack p -> trim s = s -> s <> EmptyString -> trim (p ++ s) = p ++ s.
Proof.
  intros (c & r & -> & Hc) Hs Hne. destruct (trim_fixed s Hs) as [_ He].
  unfold trim. rewrite trimStart_black by (exists c, (r ++ s); now split).
  rewrite trimEnd_app; [now rewrite He | now rewrite He].
Qed.

Lemma stepLine_meta T cs c t key collecting n X :
  trim X = X -> X <> EmptyString ->
  stepLine gen (openTask T cs c t key collecting n) ("> " ++ X)
  = openTask T cs c (parseMetadata ("> " ++ X) t) None true n.
Proof.
  intros HX Hne.
  assert (Htrim : trim ("> " ++ X) = "> " ++ X)
    by (apply trim_prefixed; [do 2 eexists; split; reflexivity | assumption..]).
  unfold stepLine, step, isTaskTitle, taskBodyLine. rewrite Htrim.
  cbn. reflexivity.
Qed.

Lemma stepLine_text T cs c t n l :
  textLine l = true ->
  stepLine gen (openTask T cs c t None true n) l
  = openTask T cs c (appendDescription t l) None true n.
Proof.
  unfold textLine. intros H.
  repeat (apply andb_prop in H as [H ?]).
  repeat match goal with
         | [ Hn : negb _ = true |- _ ] => apply negb_true_iff in Hn
         end.
  apply String.eqb_eq in H. rename H into Htrim.
  assert (Hne : l <> EmptyString) by (intros ->; discriminate).
  destruct (trim_fixed l Htrim) as [Hs _].
  assert (Hprop : matchProperty l = None).
  { unfold matchProperty, skipWhite1. destruct l as [|a r]; [reflexivity|].
    now rewrite (trimStart_head _ _ _ Hs). }
  assert (Hempty : String.eqb l EmptyString = false)
    by (destruct l; [congruence | reflexivity]).
  unfold stepLine, step. rewrite Htrim.
  repeat match goal with
         | [ Hc : ?x = false |- context [?x] ] => rewrite Hc
         end.
  cbn [openTask inCodeBlock currentTask inTaskBody fst snd andb].
  rewrite ?Hempty.
  unfold taskBodyLine, parseTaskProperty, parseOldChecklistItem.
  repeat match goal with
         | [ Hc : ?x = false |- context [?x] ] => rewrite Hc
         end.
  rewrite Hprop.
  destruct (matchBoldSection l); [discriminate|].
  cbn [openTask activeListKey collectingDescription st_title st_columns
       currentColumn inTaskBody inCodeBlock generated isSome negb andb].
  destruct (matchChecklistItem l) as [[m x]|]; destruct (matchImage l); reflexivity.
Qed.

Lemma stepLine_listHeader T cs c t key0 collecting n key :
  stepLine gen (openTask T cs c t key0 collecting n) (listHeader key)
  = openTask T cs c
      (setList t key (Some (match getList t key with Some l => l | None => [] end)))
      (Some key) false n.
Proof. destruct key; reflexivity. Qed.

Lemma stepLine_item T cs c t key collecting n l item :
  getList t key = Some l ->
  cleanText (item_text item) = true ->
  stepLine gen (openTask T cs c t (Some key) collecting n) (itemLine item)
  = openTask T cs c (setList t key (Some (l ++ [item])%list)) (Some key) false n.
Proof.
  intros Hl Hc. destruct (cleanText_spec _ Hc) as (Htrim & Hne & Hline).
  destruct (trim_fixed _ Htrim) as [Hs He].
  destruct item as [x done]. cbn [item_text] in *.
  assert (Hitem : forall m, checklistItem m x
                            = {| item_text := x; item_completed := Ascii.eqb m "x" |}).
  { intros m. unfold checklistItem. now rewrite Htrim. }
  unfold itemLine, checkbox. cbn [item_completed item_text].
  destruct done.
  - assert (Ht : trim ("- [x] " ++ x) = "- [x] " ++ x)
      by (apply trim_prefixed; [do 2 eexists; split; reflexivity | assumption..]).
    change ("- " ++ "[x]" ++ " " ++ x) with ("- [x] " ++ x).
    unfold stepLine, step, isTaskTitle, taskBodyLine. rewrite Ht.
    assert (Hm : matchChecklistPrefix ("- [x] " ++ x) = Some ("x"%char, x)).
    { unfold matchChecklistPrefix. cbn. now rewrite Hs. }
    unfold matchChecklistItem. rewrite Hm.
    cbn [Regex.bind snd]. rewrite Hline.
    cbn. rewrite Hl, Hitem. reflexivity.
  - assert (Ht : trim ("- [ ] " ++ x) = "- [ ] " ++ x)
      by (apply trim_prefixed; [do 2 eexists; split; reflexivity | assumption..]).
    change ("- " ++ "[ ]" ++ " " ++ x) with ("- [ ] " ++ x).
    unfold stepLine, step, isTaskTitle, taskBodyLine. rewrite Ht.
    assert (Hm : matchChecklistPrefix ("- [ ] " ++ x) = Some (" "%char, x)).
    { unfold matchChecklistPrefix. cbn. now rewrite Hs. }
    unfold matchChecklistItem. rewrite Hm.
    cbn [Regex.bind snd]. rewrite Hline.
    cbn. rewrite Hl, Hitem. reflexivity.
Qed.

Lemma stepLine_files T cs c t key collecting n f :
  cleanText f = true ->
  stepLine gen (openTask T cs c t key collecting n) ("**Files:** " ++ f)
  = openTask T cs c (set_files t (Some f)) None false n.
Proof.
  intros Hc. destruct (cleanText_spec _ Hc) as (Htrim & Hne & Hline).
  destruct (trim_fixed _ Htrim) as [Hs He].
  assert (Ht : trim ("**Files:** " ++ f) = "**Files:** " ++ f)
    by (apply trim_prefixed; [do 2 eexists; split; reflexivity | assumption..]).
  assert (Hm : matchBoldSection ("**Files:** " ++ f) = Some (SecFiles, f)).
  { unfold matchBoldSection, matchBoldPrefix. cbn. now rewrite Hs, Hline. }
  assert (Htruthy : truthy f = true) by (destruct f; [congruence | reflexivity]).
  unfold stepLine, step, isTaskTitle, taskBodyLine. rewrite Ht, Hm.
  cbn. rewrite Htrim, Htruthy. reflexivity.
Qed.

(** *** The header line *)

Lemma takeDigits_all (d : string) : forall taken,
  takeDigits d = (taken, EmptyString) ->
  taken = d /\ forall rest, digitsEnd rest -> takeDigits (d ++ rest) = (d, rest).
Proof.
  induction d as [|c d IH]; intros taken H.
  - simpl in H. injection H as <-. split; [reflexivity|].
    intros [|a r] Hr; [reflexivity|]. simpl in Hr |- *. now rewrite Hr.
  - cbn [takeDigits] in H. destruct (isDigit c) eqn:Hc; [|discriminate].
    destruct (takeDigits d) as [d' r'] eqn:E. injection H as <- ->.
    destruct (IH d' eq_refl) as [-> IH']. split; [reflexivity|].
    intros rest Hr. cbn [append takeDigits]. now rewrite Hc, (IH' rest Hr).
Qed.

(** A canonical id is TSK, a separator and digits; behind it the
    pattern of the id of a header ends where the digits end. *)
Lemma canonical_shape (i : string) :
  isCanonicalId i = true ->
  (exists sep d, i = "TSK" ++ String sep d) /\
  forall rest, digitsEnd rest -> matchTsk (i ++ rest) = Some (i, rest).
Proof.
  unfold isCanonicalId, matchTsk. intros H.
  destruct (stripPrefix "TSK" i) as [r1|] eqn:E1; [|discriminate].
  apply stripPrefix_inv in E1. subst i.
  destruct r1 as [|sep r2]; [discriminate|].
  cbn [Regex.bind oneOf] in H.
  destruct (isIdSeparator sep) eqn:Hsep; [|discriminate].
  cbn [Regex.bind snd fst] in H. unfold digits1 in H.
  destruct (takeDigits r2) as [d rest0] eqn:E2.
  destruct (isEmpty d) eqn:Hd; [discriminate|].
  cbn [Regex.bind snd fst] in H. apply isEmpty_true in H. subst rest0.
  destruct (takeDigits_all r2 d E2) as [-> Hall].
  split; [now exists sep, r2|].
  intros rest Hr.
  cbn [append stripPrefix Ascii.eqb Bool.eqb Regex.bind oneOf].
  rewrite Hsep. cbn [Regex.bind snd fst]. unfold digits1.
  rewrite (Hall rest Hr), Hd. reflexivity.
Qed.

Lemma matchTskTitle_written (i title : string) :
  isCanonicalId i = true -> cleanText title = true ->
  trim (i ++ " " ++ title) = i ++ " " ++ title /\
  matchTskTitle (i ++ " " ++ title) = Some (i, title).
Proof.
  intros Hi Hc. destruct (cleanText_spec _ Hc) as (Htrim & Hne & Hline).
  destruct (trim_fixed _ Htrim) as [Hs He].
  destruct (canonical_shape i Hi) as [(sep & d & Hshape) Hm].
  split.
  - rewrite <- append_assoc. apply trim_prefixed; try assumption.
    subst i. do 2 eexists. split; reflexivity.
  - unfold matchTskTitle. rewrite (Hm (" " ++ title)) by reflexivity.
    cbn [Regex.bind snd fst skipWhite1 append]. change (isWhite " ") with true.
    cbv iota. rewrite Hs. cbn [Regex.bind]. now rewrite Hline.
Qed.

Lemma stepLine_header fmt st c i title :
  currentColumn st = Some c -> inCodeBlock st = false ->
  isCanonicalId i = true -> cleanText title = true ->
  stepLine gen st (headerPrefix fmt ++ i ++ " " ++ title)
  = openTask (st_title st) (st_columns st)
      (finalizeCurrentTask (currentTask st) (Some c))
      (newTask i title) None false (generated st).
Proof.
  intros Hcol Hcode Hi Hc.
  destruct (matchTskTitle_written i title Hi Hc) as [Htrim Hm].
  destruct (canonical_shape i Hi) as [(sep & d & Hshape) _].
  assert (Hline : trim (headerPrefix fmt ++ i ++ " " ++ title)
                  = headerPrefix fmt ++ i ++ " " ++ title).
  { destruct (cleanText_spec _ Hc) as (Ht & Hne & _).
    replace (headerPrefix fmt ++ i ++ " " ++ title)
      with ((headerPrefix fmt ++ i ++ " ") ++ title)
      by (now rewrite !append_assoc).
    apply trim_prefixed; try assumption.
    destruct fmt; do 2 eexists; split; reflexivity. }
  assert (Htitle : headerTitle (headerPrefix fmt ++ i ++ " " ++ title)
                   = i ++ " " ++ title).
  { destruct fmt.
    - unfold headerTitle. cbn [headerPrefix append startsWith Ascii.eqb Bool.eqb andb
                               substringFrom].
      exact Htrim.
    - change (headerTitle (headerPrefix ListFormat ++ i ++ " " ++ title))
        with (if startsWith (trim (i ++ " " ++ title)) "[ ] "
                 || startsWith (trim (i ++ " " ++ title)) "[x] "
              then trim (substringFrom 4 (trim (i ++ " " ++ title)))
              else trim (i ++ " " ++ title)).
      rewrite Htrim. subst i. reflexivity. }
  assert (His : isTaskTitle (headerPrefix fmt ++ i ++ " " ++ title)
                            (headerPrefix fmt ++ i ++ " " ++ title) = true).
  { subst i. destruct fmt; reflexivity. }
  unfold stepLine, step. rewrite Hline, His, Htitle, Hm, Hcol, Hcode.
  subst i. destruct fmt; reflexivity.
Qed.

(** *** The lines in front of the tasks *)

Lemma stepLine_counter st (n : N) :
  stepLine gen st ("<!-- next-id: " ++ numberToString n ++ " -->") = st.
Proof.
  assert (Htrim : trim ("<!-- next-id: " ++ numberToString n ++ " -->")
                  = ("<!-- next-id: " ++ numberToString n ++ " ") ++ "-->").
  { rewrite <- (trim_prefixed ("<!-- next-id: " ++ numberToString n ++ " ") "-->");
      [ now rewrite !append_assoc
      | do 2 eexists; split; reflexivity | reflexivity | discriminate ]. }
  apply stepLine_comment; rewrite Htrim; [reflexivity | apply endsWith_app].
Qed.

Lemma stepLine_title st title :
  st_title st = EmptyString -> inCodeBlock st = false ->
  cleanText title = true ->
  stepLine gen st ("# " ++ title)
  = {| st_title := title; st_columns := st_columns st;
       currentColumn := finalizeCurrentTask (currentTask st) (currentColumn st);
       currentTask := None; inTaskBody := false; inCodeBlock := false;
       activeListKey := None; collectingDescription := false;
       generated := generated st |}.
Proof.
  intros HT Hcode Hc. destruct (cleanText_spec _ Hc) as (Htrim & Hne & _).
  assert (Hline : trim ("# " ++ title) = "# " ++ title)
    by (apply trim_prefixed; [do 2 eexists; split; reflexivity | assumption..]).
  unfold stepLine, step. rewrite Hline, HT, Hcode.
  cbn [append startsWith Ascii.eqb Bool.eqb andb negb truthy isEmpty substringFrom
       fst snd].
  now rewrite Htrim.
Qed.

Lemma stepLine_column st c :
  inCodeBlock st = false ->
  cleanText (col_title c) = true ->
  match col_archived c with
  | Some true => true
  | Some false => negb (endsWith (col_title c) "[Archived]")
  | None => false
  end = true ->
  stepLine gen st ("## " ++ columnHeading c)
  = {| st_title := st_title st;
       st_columns := match finalizeCurrentTask (currentTask st) (currentColumn st) with
                     | Some d => (st_columns st ++ [d])%list
                     | None => st_columns st
                     end;
       currentColumn :=
         Some {| col_id := gen (generated st); col_title := col_title c;
                 col_tasks := []; col_archived := col_archived c |};
       currentTask := None; inTaskBody := false; inCodeBlock := false;
       activeListKey := None; collectingDescription := false;
       generated := S (generated st) |}.
Proof.
  intros Hcode Hc Ha. destruct (cleanText_spec _ Hc) as (Htrim & Hne & _).
  unfold columnHeading.
  destruct (col_archived c) as [[|]|]; [| |discriminate].
  - unfold stepLine.
    rewrite (step_archived_header gen st _ _ _
               (heading_trim (col_title c)) (rest_trim (col_title c)) Hcode).
    cbn [fst snd]. now rewrite trim_trimStart_space by exact Htrim.
  - apply negb_true_iff in Ha.
    assert (Hline : trim ("## " ++ col_title c) = "## " ++ col_title c)
      by (apply trim_prefixed; [do 2 eexists; split; reflexivity | assumption..]).
    unfold stepLine, step. rewrite Hline, Hcode.
    cbn [append startsWith Ascii.eqb Bool.eqb andb negb substringFrom fst snd].
    rewrite Htrim, Ha. reflexivity.
Qed.

End ReadBack.

(** ** The metadata line, read back *)

Section Metadata.

Variable gen : nat -> string.

Lemma split_sep (c : ascii) (a r : string) :
  lacks c a = true -> split c (a ++ String c r) = (a :: split c r)%list.
Proof.
  induction a as [|x a IH]; simpl.
  - intros _. now rewrite Ascii.eqb_refl.
  - intros H. apply andb_prop in H as [Hx Ha]. apply negb_true_iff in Hx.
    now rewrite Hx, IH.
Qed.

Lemma split_whole (c : ascii) (a : string) :
  lacks c a = true -> split c a = [a].
Proof.
  induction a as [|x a IH]; simpl; [reflexivity|].
  intros H. apply andb_prop in H as [Hx Ha]. apply negb_true_iff in Hx.
  now rewrite Hx, IH.
Qed.

Lemma join_cons (sep a b : string) (l : list string) :
  join sep (a :: b :: l) = a ++ sep ++ join sep (b :: l).
Proof. reflexivity. Qed.

(** Trimmed pieces joined make a trimmed text. *)
Lemma trimEnd_join (sep : string) (ls : list string) :
  ls <> [] -> Forall (fun l => trimEnd l = l /\ l <> EmptyString) ls ->
  trimEnd (join sep ls) = join sep ls /\ join sep ls <> EmptyString.
Proof.
  intros Hne H. induction H as [|l ls [Hl Hl'] Hls IH]; [congruence|].
  destruct ls as [|l2 ls]; [now split|].
  destruct IH as [IH1 IH2]; [discriminate|].
  rewrite join_cons. split.
  - rewrite <- append_assoc. rewrite trimEnd_app by (now rewrite IH1).
    now rewrite IH1.
  - destruct l; [congruence | discriminate].
Qed.

Lemma trimStart_join (sep : string) (l : string) (ls : list string) :
  startsBlack l -> startsBlack (join sep (l :: ls)).
Proof.
  intros (c & r & -> & Hc). destruct ls as [|l2 ls].
  - now exists c, r.
  - rewrite join_cons. exists c, (r ++ sep ++ join sep (l2 :: ls)). now split.
Qed.

Lemma trim_space_r (t : string) : trim t = t -> trim (t ++ " ") = t.
Proof.
  intros Ht. unfold trim. rewrite <- trim_commute.
  rewrite trimEnd_app_white by reflexivity.
  rewrite trim_commute. exact Ht.
Qed.

Lemma cleanTag_spec (s : string) :
  cleanTag s = true ->
  trim s = s /\ s <> EmptyString /\ noLineTerminator s = true /\
  lacks "," s = true /\ lacks "|" s = true.
Proof.
  unfold cleanTag. intros H.
  apply andb_prop in H as [H H2]. apply andb_prop in H as [H H1].
  destruct (cleanText_spec s H) as (A & B & C). auto.
Qed.

Lemma split_tags (t : string) (ts : list string) :
  Forall (fun s => lacks "," s = true) (t :: ts) ->
  split "," (join ", " (t :: ts)) = t :: map (fun s => " " ++ s) ts.
Proof.
  revert t. induction ts as [|t2 ts IH]; intros t H.
  - inversion H; subst. now apply split_whole.
  - inversion H as [|? ? Ht Hts]; subst.
    rewrite join_cons. change (", " ++ ?x) with (String "," (" " ++ x)).
    rewrite split_sep by exact Ht. f_equal.
    cbn [append split]. change (Ascii.eqb " " ",") with false. cbv iota.
    now rewrite (IH t2 Hts).
Qed.

Lemma tags_read (t : string) (ts : list string) :
  forallb cleanTag (t :: ts) = true ->
  filter truthy (map trim (split "," (join ", " (t :: ts)))) = (t :: ts)%list.
Proof.
  intros H. rewrite forallb_forall in H.
  assert (Hall : Forall (fun s => cleanTag s = true) (t :: ts))
    by (apply Forall_forall; exact H).
  rewrite split_tags
    by (eapply Forall_impl; [|exact Hall]; intros s Hs; now apply cleanTag_spec in Hs).
  clear H. cbn [map]. inversion Hall as [|? ? Ht Hts]; subst.
  destruct (cleanTag_spec t Ht) as (A & B & _).
  cbn [filter]. rewrite A.
  replace (truthy t) with true by (destruct t; [congruence | reflexivity]).
  f_equal. clear Hall Ht A B.
  induction Hts as [|s ss Hs Hss IH]; [reflexivity|].
  destruct (cleanTag_spec s Hs) as (A & B & _).
  cbn [map filter]. change (trim (" " ++ s)) with (trim s). rewrite A.
  replace (truthy s) with true by (destruct s; [congruence | reflexivity]).
  now rewrite IH.
Qed.

(** The tags of a metadata line, joined: a trimmed text without a bar. *)
Lemma tags_joined (t : string) (ts : list string) :
  forallb cleanTag (t :: ts) = true ->
  trim (join ", " (t :: ts)) = join ", " (t :: ts) /\
  join ", " (t :: ts) <> EmptyString /\
  lacks "|" (join ", " (t :: ts)) = true /\
  noLineTerminator (join ", " (t :: ts)) = true.
Proof.
  intros H. rewrite forallb_forall in H.
  assert (Hall : Forall (fun s => cleanTag s = true) (t :: ts))
    by (apply Forall_forall; exact H).
  clear H.
  destruct (trimEnd_join ", " (t :: ts)) as [E1 E2]; [discriminate| |].
  { eapply Forall_impl; [|exact Hall]. intros s Hs.
    destruct (cleanTag_spec s Hs) as (A & B & _).
    split; [now apply trim_fixed | exact B]. }
  assert (Hb : startsBlack (join ", " (t :: ts))).
  { apply trimStart_join. inversion Hall as [|? ? Ht _]; subst.
    destruct (cleanTag_spec t Ht) as (A & B & _).
    apply trimStart_startsBlack; [now apply trim_fixed | exact B]. }
  split; [|split; [exact E2|split]].
  - unfold trim. now rewrite trimStart_black.
  - apply lacks_join; [reflexivity|].
    eapply Forall_impl; [|exact Hall]. intros s Hs. now apply cleanTag_spec in Hs.
  - apply lacks_noLineTerminator; (apply lacks_join; [reflexivity|]);
      (eapply Forall_impl; [|exact Hall]); intros s Hs;
      apply cleanTag_spec in Hs as (_ & _ & Hs & _);
      now apply noLineTerminator_lacks in Hs.
Qed.

Lemma metaText_trimmed t ts p :
  forallb cleanTag (t :: ts) = true ->
  trim (metaText t ts p) = metaText t ts p /\ metaText t ts p <> EmptyString /\
  noLineTerminator (metaText t ts p) = true.
Proof.
  intros H. destruct (tags_joined t ts H) as (A & B & C & D).
  destruct (trim_fixed _ A) as [As Ae].
  unfold metaText. destruct p as [pr|]; [|now repeat split].
  rewrite join_cons. change (join " | " [priorityName pr]) with (priorityName pr).
  split; [|split].
  - rewrite <- !append_assoc. apply trim_prefixed.
    + destruct (trimStart_startsBlack _ As B) as (c & r & E & Hc).
      rewrite E. exists c, (r ++ " | "). now split.
    + destruct pr; reflexivity.
    + destruct pr; discriminate.
  - destruct (join ", " (t :: ts)); [congruence | discriminate].
  - rewrite !noLineTerminator_app, D. destruct pr; reflexivity.
Qed.

Lemma parseMetadata_written t0 t ts p :
  forallb cleanTag (t :: ts) = true ->
  parseMetadata ("> " ++ metaText t ts p) t0
  = match p with
    | Some pr => set_priority (set_tags t0 (Some (t :: ts)%list)) (Some pr)
    | None => set_tags t0 (Some (t :: ts)%list)
    end.
Proof.
  intros H. destruct (tags_joined t ts H) as (A & B & C & D).
  destruct (metaText_trimmed t ts p H) as (M & _).
  pose proof (tags_read t ts H) as Htags.
  assert (Htruthy : truthy (join ", " (t :: ts)) = true)
    by (destruct (join ", " (t :: ts)); [congruence | reflexivity]).
  unfold parseMetadata.
  change (substringFrom 2 ("> " ++ metaText t ts p)) with (metaText t ts p).
  rewrite M. unfold metaText in *. destruct p as [pr|].
  - rewrite join_cons. change (join " | " [priorityName pr]) with (priorityName pr).
    change (" | " ++ priorityName pr) with (" " ++ String "|" (" " ++ priorityName pr)).
    rewrite <- append_assoc.
    rewrite split_sep by (rewrite lacks_app, C; reflexivity).
    replace (split "|" (" " ++ priorityName pr)) with [" " ++ priorityName pr]
      by (destruct pr; reflexivity).
    cbn [map hd nth_error]. rewrite (trim_space_r _ A), Htruthy, Htags.
    destruct pr; reflexivity.
  - change (join " | " [join ", " (t :: ts)]) with (join ", " (t :: ts)).
    rewrite split_whole by exact C.
    cbn [map hd nth_error]. now rewrite A, Htruthy, Htags.
Qed.

End Metadata.

(** ** A saved task, read back *)

Section TaskReadBack.

Variable gen : nat -> string.

Local Open Scope list_scope.

Lemma join_split (s : string) : join newline (split LF s) = s.
Proof.
  induction s as [|c r IH]; [reflexivity|].
  cbn [split]. destruct (split_cons r) as (h & t & E). rewrite E in *.
  destruct (Ascii.eqb_spec c LF) as [->|Hc].
  - rewrite join_cons, IH. reflexivity.
  - destruct t as [|b l].
    + unfold join in *. simpl in *. now rewrite IH.
    + rewrite join_cons in *. cbn [append]. now rewrite IH.
Qed.

Lemma textLine_clean (l : string) : textLine l = true -> cleanText l = true.
Proof.
  unfold textLine. intros H. now do 7 (apply andb_prop in H as [H _]).
Qed.

(** A text whose lines are trimmed and not empty is trimmed. *)
Lemma trim_clean_lines (d : string) :
  Forall (fun l => cleanText l = true) (split LF d) -> trim d = d.
Proof.
  intros Hall. rewrite <- (join_split d) at 1 2.
  destruct (split_cons d) as (l & ls & E). rewrite E in *.
  destruct (trimEnd_join newline (l :: ls)) as [E1 _]; [discriminate| |].
  { eapply Forall_impl; [|exact Hall]. intros x Hx.
    destruct (cleanText_spec x Hx) as (A & B & _).
    split; [now apply trim_fixed | exact B]. }
  unfold trim. rewrite trimStart_black; [exact E1|].
  apply trimStart_join. inversion Hall as [|? ? Hl _]; subst.
  destruct (cleanText_spec l Hl) as (A & B & _).
  apply trimStart_startsBlack; [now apply trim_fixed | exact B].
Qed.

Lemma trim_lines (d : string) :
  forallb textLine (split LF d) = true -> trim d = d.
Proof.
  intros H. rewrite forallb_forall in H. apply trim_clean_lines.
  apply Forall_forall. intros l Hl. apply textLine_clean. now apply H.
Qed.

Lemma stateAfter_cons st l ls :
  stateAfter gen st (l :: ls) = stateAfter gen (stepLine gen st l) ls.
Proof. reflexivity. Qed.

(** The lines of a description, collected. *)
Lemma stateAfter_text T cs c n (ls : list string) : forall t d,
  forallb textLine ls = true ->
  description t = Some d -> d <> EmptyString ->
  stateAfter gen (openTask T cs c t None true n) ls
  = openTask T cs c (set_description t (Some (join newline (d :: ls)))) None true n.
Proof.
  induction ls as [|l ls IH]; intros t d H Hd Hne.
  - destruct t; simpl in Hd; subst. reflexivity.
  - cbn [forallb] in H. apply andb_prop in H as [Hl Hls].
    rewrite stateAfter_cons, stepLine_text by exact Hl.
    assert (Ha : appendDescription t l
                 = set_description t (Some (d ++ newline ++ l)%string)).
    { unfold appendDescription. rewrite Hd.
      destruct d; [congruence | reflexivity]. }
    rewrite Ha.
    rewrite (IH (set_description t (Some (d ++ newline ++ l)%string))
               (d ++ newline ++ l)%string Hls eq_refl)
      by (destruct d; [congruence | discriminate]).
    rewrite !join_cons.
    destruct ls as [|l2 ls]; unfold set_description; cbn [description];
      [reflexivity|].
    rewrite !join_cons. now rewrite !append_assoc.
Qed.

Lemma stateAfter_description T cs c n t d :
  description t = Some EmptyString ->
  d <> EmptyString -> forallb textLine (split LF d) = true ->
  stateAfter gen (openTask T cs c t None true n) (EmptyString :: split LF d)
  = openTask T cs c (set_description t (Some d)) None true n.
Proof.
  intros Ht Hd H. rewrite stateAfter_cons, stepLine_blank.
  rewrite <- (join_split d) at 2.
  destruct (split_cons d) as (l & ls & E). rewrite E in *.
  cbn [forallb] in H. apply andb_prop in H as [Hl Hls].
  rewrite stateAfter_cons, stepLine_text by exact Hl.
  assert (Hne : l <> EmptyString).
  { intros ->. discriminate Hl. }
  assert (Ha : appendDescription t l = set_description t (Some l)).
  { unfold appendDescription. now rewrite Ht. }
  rewrite Ha, (stateAfter_text T cs c n ls (set_description t (Some l)) l Hls eq_refl Hne).
  reflexivity.
Qed.

Lemma setList_twice t key a b :
  setList (setList t key a) key b = setList t key b.
Proof. destruct key; reflexivity. Qed.

Lemma getList_setList t key a : getList (setList t key a) key = a.
Proof. destruct key; reflexivity. Qed.

(** The items of a list, pushed one by one. *)
Lemma stateAfter_items T cs c n t key (items : list ChecklistItem) : forall l0,
  forallb (fun i => cleanText (item_text i)) items = true ->
  stateAfter gen (openTask T cs c (setList t key (Some l0)) (Some key) false n)
    (map itemLine items)
  = openTask T cs c (setList t key (Some (l0 ++ items))) (Some key) false n.
Proof.
  induction items as [|i items IH]; intros l0 H.
  - now rewrite app_nil_r.
  - cbn [forallb] in H. apply andb_prop in H as [Hi His].
    cbn [map]. rewrite stateAfter_cons.
    rewrite (stepLine_item gen T cs c _ key false n l0 i (getList_setList _ _ _) Hi).
    rewrite setList_twice, (IH _ His), <- app_assoc. reflexivity.
Qed.

Lemma stateAfter_checklist T cs c n t key0 collecting key items :
  getList t key = None -> cleanList items = true ->
  exists key1 collecting1,
    stateAfter gen (openTask T cs c t key0 collecting n)
      (checklistLines (listHeader key) items)
    = openTask T cs c (readList key items t) key1 collecting1 n.
Proof.
  intros Hnone Hclean. unfold checklistLines, readList.
  destruct items as [[|i l]|]; [discriminate| |now exists key0, collecting].
  exists (Some key), false.
  rewrite !stateAfter_cons, stepLine_blank, stepLine_listHeader, Hnone.
  now rewrite (stateAfter_items T cs c n t key (i :: l) [] Hclean).
Qed.

Lemma stateAfter_files T cs c n t key collecting f :
  match f with None => true | Some x => cleanText x end = true ->
  exists key1 collecting1,
    stateAfter gen (openTask T cs c t key collecting n)
      (match f with
       | Some x => if truthy x then [EmptyString; ("**Files:** " ++ x)%string] else []
       | None => []
       end)
    = openTask T cs c (match f with Some x => set_files t (Some x) | None => t end)
        key1 collecting1 n.
Proof.
  intros H. destruct f as [x|]; [|now exists key, collecting].
  destruct (cleanText_spec x H) as (_ & Hne & _).
  replace (truthy x) with true by (destruct x; [congruence | reflexivity]).
  exists None, false.
  now rewrite !stateAfter_cons, stepLine_blank, stepLine_files.
Qed.

(** The lines behind the header of a clean task build the task up from
    the task the header opens. *)
Lemma task_body T cs c n t :
  cleanTask t = true ->
  exists key collecting,
    stateAfter gen (openTask T cs c (newTask (task_id t) (task_title t)) None false n)
      (taskBodyLines t)
    = openTask T cs c t key collecting n.
Proof.
  destruct t as [i ti d tg p w due sd de s a v f].
  unfold cleanTask. cbn [task_id task_title description tags priority workload
                         dueDate startDate defaultExpanded steps ac verify files].
  intros H. repeat (apply andb_prop in H as [H ?]).
  destruct w; [discriminate|]. destruct due; [discriminate|].
  destruct sd; [discriminate|]. destruct de; [discriminate|].
  destruct d as [d|]; [|discriminate].
  unfold taskBodyLines, metaLines, descriptionLines, dueLines, workloadLines,
    filesLines, metaParts.
  cbn [task_id task_title description tags priority workload
       dueDate startDate defaultExpanded steps ac verify files app].
  rewrite !stateAfter_app.
  set (t0 := newTask i ti).
  (* the metadata line and the description *)
  assert (Hfront : exists t1 collecting1,
    stateAfter gen
      (stateAfter gen (openTask T cs c t0 None false n)
         match
           match tg with
           | Some (t :: l) => [join ", " (t :: l)]
           | _ => []
           end ++ match p with
                  | Some p0 => [priorityName p0]
                  | None => []
                  end
         with
         | [] => []
         | s0 :: l => [("> " ++ join " | " (s0 :: l))%string]
         end)
      (if truthy d && negb (String.eqb (trim d) EmptyString)
       then EmptyString :: split LF (trim d) else [])
    = openTask T cs c t1 None collecting1 n /\
    t1 = {| task_id := i; task_title := ti; description := Some d; tags := tg;
            priority := p; workload := None; dueDate := None; startDate := None;
            defaultExpanded := None; steps := None; ac := None; verify := None;
            files := None |}).
  { destruct tg as [[|x xs]|].
    - discriminate.
    - match goal with [ Ht : forallb cleanTag _ = true |- _ ] => rename Ht into Htags end.
      destruct (metaText_trimmed x xs p Htags) as (M1 & M2 & _).
      change (match [join ", " (x :: xs)] ++ match p with
                                             | Some p0 => [priorityName p0]
                                             | None => []
                                             end
              with
              | [] => []
              | s0 :: l => [("> " ++ join " | " (s0 :: l))%string]
              end) with [("> " ++ metaText x xs p)%string].
      rewrite stateAfter_cons, (stepLine_meta gen) by assumption.
      rewrite (parseMetadata_written _ x xs p) by exact Htags.
      cbn [stateAfter fold_left].
      destruct d as [|c0 d0].
      + cbn [truthy isEmpty negb andb stateAfter fold_left].
        eexists _, _. split; [reflexivity|]. destruct p; reflexivity.
      + match goal with
        | [ Hd : isEmpty _ || _ = true |- _ ] =>
            cbn [isEmpty orb isSome andb] in Hd; rename Hd into Hlines
        end.
        assert (Htrim : trim (String c0 d0) = String c0 d0)
          by (now apply trim_lines).
        rewrite Htrim. cbn [truthy isEmpty negb andb String.eqb].
        rewrite (stateAfter_description T cs c n _ (String c0 d0));
          [ | destruct p; reflexivity | discriminate | exact Hlines ].
        eexists _, _. split; [reflexivity|]. destruct p; reflexivity.
    - destruct p; [discriminate|].
      cbn [app stateAfter fold_left].
      destruct d as [|c0 d0]; [|discriminate].
      cbn [truthy isEmpty negb andb stateAfter fold_left].
      eexists _, _. split; reflexivity. }
  destruct Hfront as (t1 & collecting1 & -> & Ht1).
  change (stateAfter gen (openTask T cs c t1 None collecting1 n) [])
    with (openTask T cs c t1 None collecting1 n).
  change (stateAfter gen (openTask T cs c t1 None collecting1 n) [])
    with (openTask T cs c t1 None collecting1 n).
  destruct (stateAfter_checklist T cs c n t1 None collecting1 Steps s)
    as (k2 & c2 & E2); [now subst t1 | assumption |].
  change "**Steps:**"%string with (listHeader Steps). rewrite E2.
  destruct (stateAfter_checklist T cs c n (readList Steps s t1) k2 c2 Ac a)
    as (k3 & c3 & E3);
    [subst t1; now destruct s as [[|? ?]|] | assumption |].
  change "**AC:**"%string with (listHeader Ac). rewrite E3.
  destruct (stateAfter_checklist T cs c n
              (readList Ac a (readList Steps s t1)) k3 c3 Verify v)
    as (k4 & c4 & E4);
    [subst t1; now destruct s as [[|? ?]|], a as [[|? ?]|] | assumption |].
  change "**Verify:**"%string with (listHeader Verify). rewrite E4.
  destruct (stateAfter_files T cs c n
              (readList Verify v (readList Ac a (readList Steps s t1))) k4 c4 f)
    as (k5 & c5 & E5); [assumption|].
  rewrite E5, stateAfter_cons, stepLine_blank.
  exists k5, c5. cbn [stateAfter fold_left]. f_equal. subst t1.
  destruct s as [[|? ?]|]; [discriminate| |];
    (destruct a as [[|? ?]|]; [discriminate| |]);
    (destruct v as [[|? ?]|]; [discriminate| |]);
    destruct f; reflexivity.
Qed.

End TaskReadBack.

(** ** A saved board, read back *)

Section BoardReadBack.

Variable gen : nat -> string.

Local Open Scope list_scope.

(** Closing a clean task leaves it as it is. *)
Lemma finalize_clean t c :
  cleanTask t = true ->
  finalizeCurrentTask (Some t) (Some c) = Some (set_tasks c (col_tasks c ++ [t])).
Proof.
  intros H. unfold finalizeCurrentTask.
  destruct t as [i ti d tg p w due sd de s a v f].
  unfold cleanTask in H.
  cbn [task_id task_title description tags priority workload
       dueDate startDate defaultExpanded steps ac verify files] in *.
  do 8 (apply andb_prop in H as [H _]). apply andb_prop in H as [_ H].
  destruct d as [[|c0 d0]|]; [reflexivity | | discriminate].
  cbn [isEmpty orb] in H. apply andb_prop in H as [_ H].
  cbn [truthy isEmpty negb]. rewrite (trim_lines _ H). reflexivity.
Qed.

Lemma pending_column st pc :
  pendingColumn st = Some pc -> exists c, currentColumn st = Some c.
Proof.
  unfold pendingColumn, finalizeCurrentTask.
  destruct (currentColumn st) as [c|]; [eauto|].
  destruct (currentTask st); discriminate.
Qed.

Lemma headerText_clean t :
  cleanTask t = true ->
  isCanonicalId (task_id t) = true /\ cleanText (task_title t) = true /\
  headerText t = (task_id t ++ " " ++ task_title t)%string.
Proof.
  unfold cleanTask. intros H.
  do 10 (apply andb_prop in H as [H _]). apply andb_prop in H as [Hi Ht].
  split; [exact Hi|split; [exact Ht|]].
  unfold headerText. rewrite Hi.
  destruct (canonical_shape _ Hi) as [(sep & d & ->) _].
  cbn [truthy isEmpty negb andb append]. now rewrite ?append_assoc.
Qed.

(** The lines of a clean task add the task to the pending column. *)
Lemma task_lines fmt T cs pc n st t :
  loopAt T cs (Some pc) n st -> cleanTask t = true ->
  loopAt T cs (Some (set_tasks pc (col_tasks pc ++ [t]))) n
    (stateAfter gen st (taskLines fmt t)).
Proof.
  intros (HT & Hcs & Hp & Hcode & Hn) Hclean.
  destruct (pending_column st pc Hp) as [c Hc].
  destruct (headerText_clean t Hclean) as (Hi & Hti & Hh).
  unfold taskLines. rewrite stateAfter_cons, Hh.
  rewrite (stepLine_header gen fmt st c _ _ Hc Hcode Hi Hti).
  unfold pendingColumn in Hp. rewrite Hc in Hp. rewrite Hp, HT, Hcs, Hn.
  destruct (task_body gen T cs (Some pc) n t Hclean) as (key & collecting & E).
  rewrite E. unfold loopAt, pendingColumn.
  cbn [openTask st_title st_columns currentTask currentColumn inCodeBlock generated].
  now rewrite finalize_clean.
Qed.

Lemma tasks_lines fmt T cs n (ts : list KanbanTask) : forall pc st,
  loopAt T cs (Some pc) n st -> forallb cleanTask ts = true ->
  loopAt T cs (Some (set_tasks pc (col_tasks pc ++ ts))) n
    (stateAfter gen st (flat_map (taskLines fmt) ts)).
Proof.
  induction ts as [|t ts IH]; intros pc st Hst H.
  - rewrite app_nil_r. now destruct pc.
  - cbn [forallb] in H. apply andb_prop in H as [Ht Hts].
    cbn [flat_map]. rewrite stateAfter_app.
    pose proof (IH _ _ (task_lines fmt T cs pc n st t Hst Ht) Hts) as H.
    unfold set_tasks in H |- *. cbn [col_id col_title col_tasks col_archived] in H.
    now rewrite <- app_assoc in H.
Qed.

(** The lines of a clean column close the pending column and leave the
    column pending, under the next id of the supply. *)
Lemma column_lines fmt T cs pc n st c :
  loopAt T cs pc n st -> cleanColumn c = true ->
  loopAt T (closed cs pc)
    (Some {| col_id := gen n; col_title := col_title c; col_tasks := col_tasks c;
             col_archived := col_archived c |})
    (S n) (stateAfter gen st (columnLines fmt c)).
Proof.
  intros (HT & Hcs & Hp & Hcode & Hn) H.
  unfold cleanColumn in H. apply andb_prop in H as [H Hts].
  apply andb_prop in H as [Ht Ha].
  unfold columnLines. rewrite !stateAfter_cons.
  rewrite (stepLine_column gen st c Hcode Ht Ha), stepLine_blank.
  fold (pendingColumn st). rewrite Hp, HT, Hcs, Hn.
  fold (closed cs pc).
  apply (tasks_lines fmt T (closed cs pc) (S n) (col_tasks c)
           {| col_id := gen n; col_title := col_title c; col_tasks := [];
              col_archived := col_archived c |}); [|exact Hts].
  repeat split.
Qed.

Lemma columns_lines fmt T (cols : list KanbanColumn) : forall cs pc n st,
  loopAt T cs pc n st -> forallb cleanColumn cols = true ->
  exists cs' pc',
    loopAt T cs' pc' (n + length cols) (stateAfter gen st (flat_map (columnLines fmt) cols)) /\
    closed cs' pc' = closed cs pc ++ relabelFrom gen n cols.
Proof.
  induction cols as [|c cols IH]; intros cs pc n st Hst H.
  - exists cs, pc. rewrite Nat.add_0_r, app_nil_r. now split.
  - cbn [forallb] in H. apply andb_prop in H as [Hc Hcols].
    cbn [flat_map]. rewrite stateAfter_app.
    destruct (IH _ _ _ _ (column_lines fmt T cs pc n st c Hst Hc) Hcols)
      as (cs' & pc' & Hst' & E).
    exists cs', pc'. split.
    + cbn [length]. now rewrite Nat.add_succ_r.
    + rewrite E. cbn [closed relabelFrom]. now rewrite <- app_assoc.
Qed.

(** *** The lines hold no line terminator *)

Lemma digits_line (d : string) : forall taken,
  takeDigits d = (taken, EmptyString) -> noLineTerminator d = true.
Proof.
  induction d as [|c d IH]; intros taken H; [reflexivity|].
  cbn [takeDigits] in H. destruct (isDigit c) eqn:Hc; [|discriminate].
  destruct (takeDigits d) as [d' r'] eqn:E. injection H as <- ->.
  cbn [noLineTerminator]. rewrite (IH d' eq_refl), andb_true_r.
  unfold isLineTerminator.
  destruct (Ascii.eqb_spec c LF) as [->|]; [discriminate Hc|].
  destruct (Ascii.eqb_spec c CR) as [->|]; [discriminate Hc | reflexivity].
Qed.

Lemma decimalDigits_line (n : N) : noLineTerminator (decimalDigits n) = true.
Proof.
  apply (digits_line _ (decimalDigits n)).
  rewrite <- (append_nil_r (decimalDigits n)) at 1.
  unfold decimalDigits. now apply takeDigits_uint.
Qed.

Lemma zeros_line (count : nat) : noLineTerminator (zeros count) = true.
Proof. induction count as [|k IH]; [reflexivity | exact IH]. Qed.

(** Also in exponent form, and as [Infinity]. *)
Lemma numberToString_line (n : N) : noLineTerminator (numberToString n) = true.
Proof.
  unfold numberToString.
  destruct (n <=? twoTo53)%N; [apply decimalDigits_line|].
  destruct (infinity <=? n)%N; [reflexivity|].
  destruct (shortest n 17 1) as [[s len]|]; [|apply decimalDigits_line].
  cbv zeta. pose proof (decimalDigits_line s) as Hs.
  pose proof (decimalDigits_line (len - 1)) as He.
  destruct (len <=? 21)%N.
  - now rewrite noLineTerminator_app, Hs, zeros_line.
  - destruct (decimalDigits s) as [|d [|d' rest]]; [reflexivity| |].
    + cbn [noLineTerminator] in Hs |- *.
      apply andb_prop in Hs as [Hd _]. rewrite Hd.
      change (noLineTerminator ("e+" ++ decimalDigits (len - 1)))
        with (noLineTerminator (decimalDigits (len - 1))).
      now rewrite He.
    + change (noLineTerminator (String d ("." ++ String d' rest ++
                "e+" ++ decimalDigits (len - 1))))
        with (negb (isLineTerminator d)
              && noLineTerminator (String d' rest ++ "e+" ++ decimalDigits (len - 1))).
      change (noLineTerminator (String d (String d' rest)))
        with (negb (isLineTerminator d) && noLineTerminator (String d' rest)) in Hs.
      apply andb_prop in Hs as [Hd Hrest]. rewrite Hd.
      rewrite noLineTerminator_app, Hrest.
      change (noLineTerminator ("e+" ++ decimalDigits (len - 1)))
        with (noLineTerminator (decimalDigits (len - 1))).
      now rewrite He.
Qed.

Lemma canonical_line (i : string) :
  isCanonicalId i = true -> noLineTerminator i = true.
Proof.
  unfold isCanonicalId, matchTsk. intros H.
  destruct (stripPrefix "TSK" i) as [r1|] eqn:E1; [|discriminate].
  apply stripPrefix_inv in E1. subst i.
  destruct r1 as [|sep r2]; [discriminate|].
  cbn [Regex.bind oneOf] in H.
  destruct (isIdSeparator sep) eqn:Hsep; [|discriminate].
  cbn [Regex.bind snd fst] in H. unfold digits1 in H.
  destruct (takeDigits r2) as [d rest0] eqn:E2.
  destruct (isEmpty d) eqn:Hd; [discriminate|].
  cbn [Regex.bind snd fst] in H. apply isEmpty_true in H. subst rest0.
  cbn [append noLineTerminator]. rewrite (digits_line r2 d E2).
  unfold isIdSeparator in Hsep.
  destruct (Ascii.eqb_spec sep "_") as [->|]; [reflexivity|].
  destruct (Ascii.eqb_spec sep "-") as [->|]; [reflexivity | discriminate].
Qed.

Lemma checklistLines_proper header items :
  properLine header -> cleanList items = true ->
  Forall properLine (checklistLines header items).
Proof.
  intros Hh H. unfold checklistLines.
  destruct items as [[|i l]|]; try constructor; [reflexivity|].
  constructor; [exact Hh|].
  unfold cleanList in H. rewrite forallb_forall in H.
  apply Forall_forall. intros x Hx. apply in_map_iff in Hx as (it & <- & Hin).
  destruct (cleanText_spec _ (H it Hin)) as (_ & _ & Hl).
  unfold properLine, itemLine, checkbox.
  rewrite !noLineTerminator_app, Hl. now destruct (item_completed it).
Qed.

Lemma taskLines_proper fmt t :
  cleanTask t = true -> Forall properLine (taskLines fmt t).
Proof.
  intros Hclean. destruct (headerText_clean t Hclean) as (Hi & Hti & Hh).
  unfold taskLines. constructor.
  { rewrite Hh. unfold properLine.
    destruct (cleanText_spec _ Hti) as (_ & _ & Hl).
    rewrite !noLineTerminator_app, (canonical_line _ Hi), Hl.
    now destruct fmt. }
  revert Hclean. clear Hi Hti Hh.
  destruct t as [i ti d tg p w due sd de s a v f].
  unfold cleanTask. cbn [task_id task_title description tags priority workload
                         dueDate startDate defaultExpanded steps ac verify files].
  intros H. repeat (apply andb_prop in H as [H ?]).
  destruct w; [discriminate|]. destruct due; [discriminate|].
  destruct sd; [discriminate|]. destruct de; [discriminate|].
  destruct d as [d|]; [|discriminate].
  unfold taskBodyLines, metaLines, descriptionLines, dueLines, workloadLines,
    filesLines, metaParts.
  cbn [task_id task_title description tags priority workload
       dueDate startDate defaultExpanded steps ac verify files].
  repeat match goal with
         | [ |- Forall _ (_ ++ _) ] => apply Forall_app; split
         end;
    try (apply checklistLines_proper; [reflexivity | assumption]);
    try (now repeat constructor).
  - destruct tg as [[|x xs]|]; [discriminate| |destruct p; [discriminate|constructor]].
    match goal with [ Ht : forallb cleanTag _ = true |- _ ] => rename Ht into Htags end.
    destruct (metaText_trimmed x xs p Htags) as (_ & _ & M).
    change (match [join ", " (x :: xs)] ++ match p with
                                           | Some p0 => [priorityName p0]
                                           | None => []
                                           end
            with
            | [] => []
            | s0 :: l => [("> " ++ join " | " (s0 :: l))%string]
            end) with [("> " ++ metaText x xs p)%string].
    constructor; [|constructor]. unfold properLine.
    now rewrite noLineTerminator_app, M.
  - destruct d as [|c0 d0]; [constructor|].
    match goal with
    | [ Hd : isEmpty _ || _ = true |- _ ] =>
        cbn [isEmpty orb] in Hd; apply andb_prop in Hd as [_ Hlines]
    end.
    rewrite (trim_lines _ Hlines). cbn [truthy isEmpty negb andb String.eqb].
    constructor; [reflexivity|].
    rewrite forallb_forall in Hlines. apply Forall_forall. intros l Hl.
    now destruct (cleanText_spec l (textLine_clean l (Hlines l Hl))) as (_ & _ & ?).
  - destruct f as [x|]; [|constructor].
    match goal with [ Hf : cleanText x = true |- _ ] =>
      destruct (cleanText_spec x Hf) as (_ & Hne & Hl) end.
    replace (truthy x) with true by (destruct x; [congruence | reflexivity]).
    repeat constructor. unfold properLine. now rewrite noLineTerminator_app, Hl.
Qed.

Lemma columnLines_proper fmt c :
  cleanColumn c = true -> Forall properLine (columnLines fmt c).
Proof.
  intros H. unfold cleanColumn in H. apply andb_prop in H as [H Hts].
  apply andb_prop in H as [Ht Ha].
  destruct (cleanText_spec _ Ht) as (_ & _ & Hl).
  unfold columnLines. constructor; [|constructor; [reflexivity|]].
  - unfold properLine, columnHeading.
    destruct (col_archived c) as [[|]|];
      rewrite ?noLineTerminator_app, Hl; reflexivity.
  - rewrite forallb_forall in Hts. apply Forall_forall. intros l Hl'.
    apply in_flat_map in Hl' as (t & Hin & Hl').
    pose proof (taskLines_proper fmt t (Hts t Hin)) as Hp.
    rewrite Forall_forall in Hp. now apply Hp.
Qed.

Lemma boardLines_proper fmt b :
  cleanBoard b = true -> Forall properLine (boardLines fmt b).
Proof.
  intros H. unfold cleanBoard in H. apply andb_prop in H as [HT Hcs].
  unfold boardLines. constructor; [|apply Forall_app; split].
  - unfold properLine. now rewrite !noLineTerminator_app, numberToString_line.
  - unfold titleLines. destruct (board_title b) as [|c0 T0] eqn:E; [constructor|].
    cbn [isEmpty orb] in HT. destruct (cleanText_spec _ HT) as (_ & _ & Hl).
    cbn [truthy isEmpty negb]. repeat constructor.
    unfold properLine. now rewrite noLineTerminator_app, Hl.
  - rewrite forallb_forall in Hcs. apply Forall_forall. intros l Hl.
    apply in_flat_map in Hl as (c & Hin & Hl).
    pose proof (columnLines_proper fmt c (Hcs c Hin)) as Hp.
    rewrite Forall_forall in Hp. now apply Hp.
Qed.

End BoardReadBack.

Section RoundTrip.

Variable gen : nat -> string.

Local Open Scope list_scope.

Lemma assignTasks_clean (ts : list KanbanTask) (n : N) :
  forallb cleanTask ts = true -> assignTasks n ts = (ts, n).
Proof.
  induction ts as [|t ts IH]; intros H; [reflexivity|].
  cbn [forallb] in H. apply andb_prop in H as [Ht Hts].
  destruct (headerText_clean t Ht) as (Hi & _).
  cbn [assignTasks]. now rewrite Hi, (IH Hts).
Qed.

Lemma assignColumns_clean (cs : list KanbanColumn) (n : N) :
  forallb cleanColumn cs = true -> forall k,
  assignColumns n (relabelFrom gen k cs) = (relabelFrom gen k cs, n).
Proof.
  induction cs as [|c cs IH]; intros H k; [reflexivity|].
  cbn [forallb] in H. apply andb_prop in H as [Hc Hcs].
  unfold cleanColumn in Hc. apply andb_prop in Hc as [_ Hts].
  cbn [relabelFrom assignColumns col_tasks].
  now rewrite (assignTasks_clean _ n Hts), (IH Hcs).
Qed.

Lemma generateColumn_relabel fmt (cs : list KanbanColumn) : forall k,
  map (generateColumn fmt) (relabelFrom gen k cs) = map (generateColumn fmt) cs.
Proof.
  induction cs as [|c cs IH]; intros k; [reflexivity|].
  cbn [relabelFrom map]. now rewrite IH.
Qed.

(** The loop in front of the columns of a clean board. *)
Lemma front_lines b :
  isEmpty (board_title b) || cleanText (board_title b) = true ->
  loopAt (board_title b) [] None 0
    (stateAfter gen initialState
       (("<!-- next-id: " ++ numberToString (board_nextId b) ++ " -->")%string
        :: titleLines b)).
Proof.
  intros HT.
  rewrite stateAfter_cons, stepLine_counter. unfold titleLines.
  destruct (board_title b) as [|c0 T0] eqn:E; [now repeat split|].
  cbn [isEmpty orb] in HT. cbn [truthy isEmpty negb].
  rewrite !stateAfter_cons, (stepLine_title gen initialState _ eq_refl eq_refl HT).
  rewrite stepLine_blank. now repeat split.
Qed.

Lemma boardOfState_loopAt T cs pc n st (k : N) :
  loopAt T cs pc n st ->
  boardOfState k st
  = let '(cols, k') := assignColumns k (closed cs pc) in
    {| board_title := T; board_columns := cols; board_nextId := k' |}.
Proof.
  intros (HT & Hcs & Hp & _ & _). unfold boardOfState, closeColumns.
  unfold pendingColumn in Hp. now rewrite Hp, Hcs, HT.
Qed.

(** The text of a clean board parses to the board. *)
Lemma parse_of_clean (b : KanbanBoard) (fmt : TaskHeaderFormat) :
  cleanBoard b = true ->
  (board_nextId b <= twoTo53)%N ->
  parseMarkdown gen (generateMarkdown b fmt) = Some (relabel gen b).
Proof.
  intros Hclean Hn.
  pose proof (declaredNextId_written b fmt Hn) as Hcounter.
  rewrite generateMarkdown_text, <- unlines_text in Hcounter |- *.
  rewrite parseMarkdown_unlines, Hcounter
    by (apply Forall_app; split;
        [now apply boardLines_proper | now repeat constructor]).
  rewrite parseLines_stateAfter, stateAfter_app.
  unfold boardLines. rewrite app_comm_cons, stateAfter_app.
  unfold cleanBoard in Hclean. apply andb_prop in Hclean as [HT Hcols].
  pose proof (front_lines b HT) as Hfront.
  destruct (columns_lines gen fmt _ (board_columns b) _ _ _ _ Hfront Hcols)
    as (cs & pc & Hst & E).
  rewrite (stateAfter_cons gen _ EmptyString []), stepLine_blank.
  change (stateAfter gen ?st []) with st.
  rewrite (boardOfState_loopAt _ _ _ _ _ _ Hst), E.
  change (closed [] None ++ ?l) with l.
  now rewrite (assignColumns_clean _ _ Hcols).
Qed.

(** X15.  A clean board whose counter is at most 2^53 comes back from a
    save as it is: the text the serializer writes for it, in either
    header style, parses to the board itself, with the ids of the supply
    for its columns, and saving that board again gives the same text,
    byte for byte. *)
Theorem clean_board_round_trip (b : KanbanBoard) (fmt : TaskHeaderFormat) :
  cleanBoard b = true ->
  (board_nextId b <= twoTo53)%N ->
  parseMarkdown gen (generateMarkdown b fmt) = Some (relabel gen b) /\
  generateMarkdown (relabel gen b) fmt = generateMarkdown b fmt.
Proof.
  intros Hclean Hn. split; [now apply parse_of_clean|].
  unfold generateMarkdown, relabel, set_columns.
  cbn [board_title board_columns board_nextId].
  now rewrite generateColumn_relabel.
Qed.

End RoundTrip.

Lemma clean_board_sample :
  cleanBoard cleanSample = true /\
  (board_nextId cleanSample <= twoTo53)%N /\
  relabel demoIds cleanSample = cleanSample /\
  parseMarkdown demoIds (generateMarkdown cleanSample ListFormat) = Some cleanSample.
Proof.
  assert (Hn : (board_nextId cleanSample <= twoTo53)%N)
    by (vm_compute; discriminate).
  split; [reflexivity|]. split; [exact Hn|]. split; [reflexivity|].
  exact (proj1 (clean_board_round_trip demoIds cleanSample ListFormat eq_refl Hn)).
Defined.

(** ** Property lines of the indented dialect *)

Section PropertyLines.

Variable gen : nat -> string.

Lemma firstAlternative_inv {K : Type} (alts : list (K * string))
    (close s : string) k r :
  firstAlternative stripPrefix alts close s = Some (k, r) ->
  exists name, In (k, name) alts /\ s = (name ++ close) ++ r.
Proof.
  induction alts as [|[k0 name0] alts IH]; [discriminate|].
  cbn [firstAlternative].
  destruct (stripPrefix (name0 ++ close) s) as [r0|] eqn:E.
  - intros H. injection H as <- <-. exists name0. split; [now left|].
    now apply stripPrefix_inv.
  - intros H. destruct (IH H) as (name & Hin & Hs).
    exists name. split; [now right | exact Hs].
Qed.

Lemma trimEnd_black (b : ascii) (r : string) :
  isWhite b = false -> trimEnd (String b r) = String b (trimEnd r).
Proof. intros Hb. cbn [trimEnd]. now rewrite Hb. Qed.

(** A line the property pattern matches begins with white space, and
    trimmed it is the dash, the key and the colon, and a rest. *)
Lemma property_line_shape (line : string) k v :
  matchProperty line = Some (k, v) ->
  startsWith line "- " = false /\
  exists name rest, In (k, name) propertyKeys /\
                    trim line = "- " ++ name ++ ":" ++ rest.
Proof.
  unfold matchProperty, skipWhite1. intros H.
  destruct line as [|w l]; [discriminate|].
  destruct (isWhite w) eqn:Hw; [|discriminate].
  cbn [Regex.bind] in H.
  destruct (stripPrefix "- " (trimStart l)) as [r2|] eqn:E2; [|discriminate].
  cbn [Regex.bind] in H.
  destruct (firstAlternative stripPrefix propertyKeys ":" r2) as [[k0 r3]|] eqn:E3;
    [|discriminate].
  cbn [Regex.bind fst snd] in H.
  destruct (noLineTerminator (trimStart r3)); [|discriminate].
  injection H as -> _.
  apply stripPrefix_inv in E2.
  destruct (firstAlternative_inv _ _ _ _ _ E3) as (name & Hin & ->).
  split.
  - cbn [startsWith]. destruct (Ascii.eqb_spec "-" w) as [<-|]; [discriminate Hw | reflexivity].
  - exists name. unfold trim. cbn [trimStart]. rewrite Hw, E2.
    exists (trimEnd r3). split; [exact Hin|].
    rewrite append_assoc.
    change ("- " ++ name ++ ":" ++ r3) with (("- " ++ name) ++ String ":" r3).
    change ("- " ++ name ++ ":" ++ trimEnd r3) with (("- " ++ name) ++ String ":" (trimEnd r3)).
    rewrite trimEnd_app; rewrite trimEnd_black by reflexivity;
      [reflexivity | discriminate].
Qed.

(** In an open task, a line the property pattern matches is read as that
    property, whatever was being read before; it makes the list of its
    key the active one, or none. *)
Lemma stepLine_property T cs c t key collecting n line k t' :
  parseTaskProperty line t = Some (k, t') ->
  stepLine gen (openTask T cs c t key collecting n) line
  = openTask T cs c t' (keyOfProperty k) false n.
Proof.
  intros Hparse.
  assert (Hm : exists v, matchProperty line = Some (k, v)).
  { unfold parseTaskProperty in Hparse.
    destruct (matchProperty line) as [[k0 v]|]; [|discriminate].
    injection Hparse as -> _. now exists v. }
  destruct Hm as [v Hm].
  destruct (property_line_shape line k v Hm) as (Hdash & name & rest & Hin & Htrim).
  unfold stepLine, step, isTaskTitle.
  rewrite Htrim, Hdash.
  cbn [In propertyKeys] in Hin.
  repeat (destruct Hin as [Hin|Hin];
          [injection Hin as <- <-; cbn -[taskBodyLine];
           unfold taskBodyLine; rewrite Hparse; reflexivity|]).
  destruct Hin.
Qed.

End PropertyLines.

(** ** The indented dialect, line by line *)

Section LegacyText.

Lemma text_one (l : string) : text [l] = l ++ newline.
Proof. rewrite text_cons. change (text []) with EmptyString. now rewrite append_nil_r. Qed.

Lemma text_map (f : string -> string) (ls : list string) :
  text (map f ls) = String.concat EmptyString (map (fun l => f l ++ newline) ls).
Proof. unfold text. now rewrite map_map. Qed.

Lemma legacyChecklist_text key items :
  Legacy.checklistProperty key items = text (legacyChecklistLines key items).
Proof.
  unfold Legacy.checklistProperty, legacyChecklistLines.
  destruct items as [[|i l]|]; try reflexivity.
  unfold Legacy.generateChecklistProperty. rewrite text_cons.
  rewrite ?append_assoc. do 4 f_equal.
  unfold text. rewrite map_map. f_equal. apply map_ext.
  intros item. unfold legacyItemLine, itemLine. now rewrite ?append_assoc.
Qed.

Lemma legacyProperties_text task :
  Legacy.generateTaskProperties task = text (legacyPropertyLines task).
Proof.
  unfold Legacy.generateTaskProperties, legacyPropertyLines.
  rewrite !text_app, !legacyChecklist_text.
  repeat f_equal.
  - unfold legacyIdLines.
    destruct (truthy (task_id task) && Legacy.isLegacyId (task_id task));
      [|reflexivity].
    rewrite text_one. now rewrite ?append_assoc.
  - unfold legacyDueLines. destruct (dueDate task) as [d|]; [|reflexivity].
    destruct (truthy d); [|reflexivity]. rewrite text_one. now rewrite ?append_assoc.
  - unfold legacyTagsLines. destruct (tags task) as [[|t l]|]; try reflexivity.
    rewrite text_one. now rewrite ?append_assoc.
  - unfold legacyPriorityLines. destruct (priority task); [|reflexivity].
    rewrite text_one. now rewrite ?append_assoc.
  - unfold legacyWorkloadLines. destruct (workload task); [|reflexivity].
    rewrite text_one. now rewrite ?append_assoc.
  - unfold legacyExpandedLines. now destruct (defaultExpanded task) as [[|]|].
  - unfold legacyFilesLines. destruct (files task) as [f|]; [|reflexivity].
    destruct (truthy f); [|reflexivity]. rewrite text_one. now rewrite ?append_assoc.
Qed.

Lemma legacyDescription_text task :
  Legacy.generateDescription task = text (legacyDescriptionLines task).
Proof.
  unfold Legacy.generateDescription, legacyDescriptionLines.
  destruct (description task) as [d|]; [|reflexivity].
  destruct (truthy d && negb (String.eqb (trim d) EmptyString)); [|reflexivity].
  destruct (split LF (trim d)) as [|l [|l2 ls]].
  - reflexivity.
  - rewrite text_one. now rewrite ?append_assoc.
  - rewrite text_cons, text_map. reflexivity.
Qed.

Lemma legacyTasks_text fmt (ts : list KanbanTask) :
  String.concat EmptyString (map (Legacy.generateTask fmt) ts)
  = text (flat_map (legacyTaskLines fmt) ts).
Proof.
  induction ts as [|t ts IH]; [reflexivity|].
  cbn [map flat_map]. rewrite concat_cons, text_app, IH. f_equal.
  unfold Legacy.generateTask, legacyTaskLines.
  rewrite !text_app, legacyProperties_text, legacyDescription_text, text_one.
  f_equal. destruct fmt; unfold legacyHeaderLines.
  - rewrite !text_cons. change (text []) with EmptyString.
    now rewrite ?append_assoc.
  - rewrite text_one. now rewrite ?append_assoc.
Qed.

Lemma legacyColumns_text fmt (cs : list KanbanColumn) :
  String.concat EmptyString (map (Legacy.generateColumn fmt) cs)
  = text (flat_map (legacyColumnLines fmt) cs).
Proof.
  induction cs as [|c cs IH]; [reflexivity|].
  cbn [map flat_map]. rewrite concat_cons, text_app, IH. f_equal.
  unfold Legacy.generateColumn, legacyColumnLines.
  rewrite !text_cons, legacyTasks_text. now rewrite ?append_assoc.
Qed.

(** The serializer of the indented dialect writes the lines of
    [legacyBoardLines], each with its line feed. *)
Lemma legacyMarkdown_text (b : KanbanBoard) (fmt : TaskHeaderFormat) :
  Legacy.generateMarkdown b fmt = text (legacyBoardLines fmt b).
Proof.
  assert (Ht : (if truthy (board_title b)
                then "# " ++ board_title b ++ newline ++ newline
                else EmptyString) = text (titleLines b)).
  { unfold titleLines. destruct (truthy (board_title b)); [|reflexivity].
    rewrite !text_cons. change (text []) with EmptyString.
    now rewrite ?append_assoc. }
  unfold Legacy.generateMarkdown, legacyBoardLines.
  rewrite text_cons, text_app, legacyColumns_text, Ht.
  now rewrite ?append_assoc.
Qed.

End LegacyText.

(** ** The lines of the indented dialect, read *)

Section LegacyLines.

Variable gen : nat -> string.

Local Open Scope list_scope.

(** A property line with a value. *)
Lemma matchProperty_value k name v :
  In (k, name) propertyKeys ->
  trimStart v = v -> noLineTerminator v = true ->
  matchProperty ("  - " ++ name ++ ": " ++ v) = Some (k, v).
Proof.
  intros Hin Hs Hl. cbn [In propertyKeys] in Hin.
  repeat (destruct Hin as [Hin|Hin];
          [injection Hin as <- <-; unfold matchProperty; cbn;
           rewrite Hs, Hl; reflexivity|]).
  destruct Hin.
Qed.

Lemma parseTaskProperty_value k name v t :
  In (k, name) propertyKeys -> cleanText v = true ->
  parseTaskProperty ("  - " ++ name ++ ": " ++ v) t
  = Some (k,
      match k with
      | Kid => set_id t v
      | Kdue => set_dueDate t (Some v)
      | Ktags =>
          match searchBracketed v with
          | Some inner => set_tags t (Some (map trim (split "," inner)))
          | None => t
          end
      | Kpriority =>
          match priorityOfString v with
          | Some p => set_priority t (Some p)
          | None => t
          end
      | Kworkload =>
          match workloadOfString v with
          | Some w => set_workload t (Some w)
          | None => t
          end
      | KdefaultExpanded =>
          set_defaultExpanded t (Some (String.eqb (toLowerCase v) "true"))
      | Ksteps => setList t Steps (Some [])
      | Kac => setList t Ac (Some [])
      | Kverify => setList t Verify (Some [])
      | Kfiles => set_files t (Some v)
      | Kdesc => appendDescription t v
      end).
Proof.
  intros Hin Hc. destruct (cleanText_spec v Hc) as (Htrim & Hne & Hl).
  destruct (trim_fixed v Htrim) as [Hs _].
  unfold parseTaskProperty.
  rewrite (matchProperty_value k name v Hin Hs Hl), Htrim.
  replace (truthy v) with true by (destruct v; [congruence | reflexivity]).
  reflexivity.
Qed.

(** The key line of a list. *)
Lemma stepLine_legacyKey T cs c t key0 collecting n key :
  stepLine gen (openTask T cs c t key0 collecting n) ("  - " ++ legacyKey key ++ ":")
  = openTask T cs c (setList t key (Some [])) (Some key) false n.
Proof. destruct key; reflexivity. Qed.

Lemma checklist_not_title (line trimmedLine : string) :
  isSome (matchChecklistPrefix trimmedLine) = true ->
  isTaskTitle line trimmedLine = false.
Proof.
  intros H. unfold isTaskTitle. rewrite H.
  now destruct (startsWith line "- " &&
                (isSome (matchPropertyPrefix trimmedLine) || isSome (matchIndentedBox line))).
Qed.

(** The loop hands a line to the body of the open task when none of the
    tests in front applies. *)
Lemma stepLine_in_body st t line :
  currentTask st = Some t -> inTaskBody st = true -> inCodeBlock st = false ->
  startsWith (trim line) "<!--" && endsWith (trim line) "-->" = false ->
  startsWith (trim line) "```" = false ->
  startsWith (trim line) "# " = false -> startsWith (trim line) "## " = false ->
  isTaskTitle line (trim line) = false -> trim line <> EmptyString ->
  snd (taskBodyLine st t line (trim line)) = false ->
  stepLine gen st line = fst (taskBodyLine st t line (trim line)).
Proof.
  intros Ht Hb Hc H1 H2 H3 H4 H5 H6 H7. unfold stepLine, step.
  rewrite H1, H2, H3, H4, H5, Ht, Hb, Hc.
  replace (String.eqb (trim line) EmptyString) with false
    by (destruct (trim line); [congruence | reflexivity]).
  cbn [andb]. destruct (taskBodyLine st t line (trim line)) as [st' again].
  cbn [snd] in H7. now subst again.
Qed.

(** An item line under an active list, with any indentation. *)
Lemma stepLine_item_indented T cs c t key collecting n l item indent :
  trimStart indent = EmptyString ->
  getList t key = Some l ->
  cleanText (item_text item) = true ->
  stepLine gen (openTask T cs c t (Some key) collecting n) (indent ++ itemLine item)
  = openTask T cs c (setList t key (Some (l ++ [item]))) (Some key) false n.
Proof.
  intros Hindent Hl Hc. destruct (cleanText_spec _ Hc) as (Htrim & Hne & Hline).
  destruct (trim_fixed _ Htrim) as [Hs He].
  destruct item as [x done]. cbn [item_text] in *.
  assert (Hitem : forall m, checklistItem m x
                            = {| item_text := x; item_completed := Ascii.eqb m "x" |}).
  { intros m. unfold checklistItem. now rewrite Htrim. }
  set (mark := if done then "x"%char else " "%char).
  assert (Hshape : itemLine {| item_text := x; item_completed := done |}
                   = ("- [" ++ String mark ("] " ++ x))%string)
    by (unfold itemLine, checkbox, mark; now destruct done).
  rewrite Hshape.
  assert (Ht : trim (indent ++ "- [" ++ String mark ("] " ++ x))
               = ("- [" ++ String mark ("] " ++ x))%string).
  { unfold trim. rewrite trimStart_app, Hindent
      by (do 2 eexists; split; reflexivity).
    change (trimEnd (("- [" ++ String mark "] ") ++ x)
            = (("- [" ++ String mark "] ") ++ x)%string).
    rewrite trimEnd_app; rewrite He; [reflexivity | exact Hne]. }
  assert (Hm : matchChecklistPrefix ("- [" ++ String mark ("] " ++ x))
               = Some (mark, x)).
  { unfold matchChecklistPrefix, mark. destruct done; cbn; now rewrite Hs. }
  assert (Hdone : Ascii.eqb mark "x" = done) by (unfold mark; now destruct done).
  assert (Hbody : taskBodyLine (openTask T cs c t (Some key) collecting n) t
                    (indent ++ "- [" ++ String mark ("] " ++ x))
                    ("- [" ++ String mark ("] " ++ x))
                  = (openTask T cs c (setList t key (Some (l ++ [{| item_text := x; item_completed := done |}])))
                       (Some key) false n, false)).
  { unfold taskBodyLine, matchChecklistItem. rewrite Hm.
    cbn [Regex.bind snd]. rewrite Hline.
    change (startsWith ("- [" ++ String mark ("] " ++ x)) "> ") with false.
    change (matchBoldSection ("- [" ++ String mark ("] " ++ x))) with
      (@None (SectionName * string)).
    cbn [openTask activeListKey]. rewrite Hl, Hitem, Hdone. reflexivity. }
  rewrite (stepLine_in_body _ t); rewrite ?Ht, ?Hbody; try reflexivity.
  - apply checklist_not_title. now rewrite Hm.
  - discriminate.
Qed.

(** A line of a description under the [desc] key. *)
Lemma stepLine_indented_text T cs c t collecting n l :
  legacyTextLine l = true -> isSome (description t) = true ->
  stepLine gen (openTask T cs c t None collecting n) ("    " ++ l)
  = openTask T cs c (appendDescription t l) None collecting n.
Proof.
  unfold legacyTextLine. intros H Hd.
  do 8 (apply andb_prop in H as [H ?]).
  repeat match goal with
         | [ Hn : negb _ = true |- _ ] => apply negb_true_iff in Hn
         end.
  destruct (cleanText_spec l H) as (Htrim & Hne & Hline).
  assert (Ht : trim ("    " ++ l) = l) by exact Htrim.
  assert (Hprop : matchProperty ("    " ++ l) = None)
    by (destruct (matchProperty ("    " ++ l)); [discriminate | reflexivity]).
  assert (Hbold : matchBoldSection l = None)
    by (destruct (matchBoldSection l); [discriminate | reflexivity]).
  assert (Hindent : matchIndent4 ("    " ++ l) = true) by reflexivity.
  assert (Hempty : String.eqb l EmptyString = false)
    by (destruct l; [congruence | reflexivity]).
  assert (Hbody : taskBodyLine (openTask T cs c t None collecting n) t ("    " ++ l) l
                  = (openTask T cs c (appendDescription t l) None collecting n, false)).
  { unfold taskBodyLine, parseTaskProperty, parseOldChecklistItem.
    rewrite Hprop, Hbold, Hindent, Hd, Hempty.
    match goal with [ Hgt : startsWith l "> " = false |- _ ] => rewrite Hgt end.
    cbn [openTask activeListKey collectingDescription isSome negb andb].
    destruct (matchChecklistItem l) as [[m x]|]; destruct (matchImage l);
      destruct collecting; reflexivity. }
  rewrite (stepLine_in_body _ t); rewrite ?Ht, ?Hbody; try reflexivity; assumption.
Qed.

(** *** The header without an id *)

Lemma plainTitle_spec (title : string) :
  plainTitle title = true ->
  cleanText title = true /\ matchTskTitle title = None /\
  isTaskTitle ("- " ++ title) ("- " ++ title) = true /\
  startsWith title "[ ] " || startsWith title "[x] " = false.
Proof.
  unfold plainTitle. intros H.
  apply andb_prop in H as [H H3]. apply andb_prop in H as [H1 H2].
  apply negb_true_iff in H2.
  repeat split; try assumption.
  - now destruct (matchTskTitle title).
  - destruct (startsWith title "[ ] ") eqn:E1.
    { apply startsWith_inv in E1 as [r ->]. discriminate H3. }
    destruct (startsWith title "[x] ") eqn:E2; [|reflexivity].
    apply startsWith_inv in E2 as [r ->]. discriminate H3.
Qed.

Lemma stepLine_plain_header fmt st c title :
  currentColumn st = Some c -> inCodeBlock st = false ->
  plainTitle title = true ->
  stepLine gen st (headerPrefix fmt ++ title)
  = openTask (st_title st) (st_columns st)
      (finalizeCurrentTask (currentTask st) (Some c))
      (newTask (gen (generated st)) title) None false (S (generated st)).
Proof.
  intros Hcol Hcode Hp.
  destruct (plainTitle_spec title Hp) as (Hc & Hm & His & Hbox).
  destruct (cleanText_spec _ Hc) as (Htrim & Hne & _).
  assert (Hline : trim (headerPrefix fmt ++ title) = (headerPrefix fmt ++ title)%string).
  { apply trim_prefixed; try assumption.
    destruct fmt; do 2 eexists; split; reflexivity. }
  assert (Htitle : headerTitle (headerPrefix fmt ++ title) = title).
  { destruct fmt.
    - exact Htrim.
    - change (headerTitle (headerPrefix ListFormat ++ title))
        with (if startsWith (trim title) "[ ] " || startsWith (trim title) "[x] "
              then trim (substringFrom 4 (trim title))
              else trim title).
      now rewrite Htrim, Hbox. }
  assert (His' : isTaskTitle (headerPrefix fmt ++ title) (headerPrefix fmt ++ title)
                 = true)
    by (destruct fmt; [reflexivity | exact His]).
  unfold stepLine, step. rewrite Hline, His', Htitle, Hm, Hcol, Hcode.
  destruct fmt; reflexivity.
Qed.

(** *** The values of the properties *)

Lemma beforeLast_closing (c : ascii) (s : string) :
  beforeLast c (s ++ String c EmptyString) = Some s.
Proof.
  induction s as [|d s IH].
  - cbn [append beforeLast]. now rewrite Ascii.eqb_refl.
  - cbn [append beforeLast]. now rewrite IH.
Qed.

Lemma legacyTag_spec (s : string) :
  legacyTag s = true ->
  trim s = s /\ lacks "," s = true /\ noLineTerminator s = true.
Proof.
  unfold legacyTag. intros H.
  apply andb_prop in H as [H H3]. apply andb_prop in H as [H1 H2].
  apply String.eqb_eq in H1. auto.
Qed.

Lemma noLineTerminator_join (sep : string) (ls : list string) :
  noLineTerminator sep = true ->
  Forall (fun l => noLineTerminator l = true) ls ->
  noLineTerminator (join sep ls) = true.
Proof.
  intros Hsep H. induction H as [|l ls Hl Hls IH]; [reflexivity|].
  destruct ls as [|l2 ls]; [exact Hl|].
  rewrite join_cons, !noLineTerminator_app, Hl, Hsep. exact IH.
Qed.

(** The tags between their brackets are read as they are. *)
Lemma tags_value (t : string) (ts : list string) :
  forallb legacyTag (t :: ts) = true ->
  cleanText ("[" ++ join ", " (t :: ts) ++ "]") = true /\
  match searchBracketed ("[" ++ join ", " (t :: ts) ++ "]") with
  | Some inner => Some (map trim (split "," inner))
  | None => None
  end = Some (t :: ts).
Proof.
  intros H. rewrite forallb_forall in H.
  assert (Hall : Forall (fun s => legacyTag s = true) (t :: ts))
    by (apply Forall_forall; exact H).
  clear H.
  assert (Hl : noLineTerminator (join ", " (t :: ts)) = true).
  { apply noLineTerminator_join; [reflexivity|].
    eapply Forall_impl; [|exact Hall]. intros s Hs. now apply legacyTag_spec in Hs. }
  split.
  - unfold cleanText. apply andb_true_intro. split; [apply andb_true_intro; split|].
    + apply String.eqb_eq. unfold trim.
      rewrite trimStart_black by (do 2 eexists; split; reflexivity).
      change ("[" ++ join ", " (t :: ts) ++ "]")%string
        with (("[" ++ join ", " (t :: ts)) ++ "]")%string.
      now rewrite trimEnd_app by discriminate.
    + reflexivity.
    + cbn [append noLineTerminator]. now rewrite noLineTerminator_app, Hl.
  - cbn [append searchBracketed]. change (Ascii.eqb "[" "[") with true. cbv iota.
    rewrite dotStar_line by (now rewrite noLineTerminator_app, Hl).
    rewrite beforeLast_closing.
    rewrite split_tags
      by (eapply Forall_impl; [|exact Hall]; intros s Hs; now apply legacyTag_spec in Hs).
    f_equal. cbn [map]. inversion Hall as [|? ? Ht Hts]; subst.
    destruct (legacyTag_spec t Ht) as (A & _). rewrite A. f_equal.
    clear Hall Ht A Hl. induction Hts as [|s ss Hs Hss IH]; [reflexivity|].
    destruct (legacyTag_spec s Hs) as (A & _).
    cbn [map]. change (trim (" " ++ s)) with (trim s). now rewrite A, IH.
Qed.

End LegacyLines.

(** ** A task of the indented dialect, read *)

Section LegacyTask.

Variable gen : nat -> string.

Local Open Scope list_scope.

Lemma digits_trimEnd (d : string) : forall taken,
  takeDigits d = (taken, EmptyString) -> trimEnd d = d.
Proof.
  induction d as [|c d IH]; intros taken H; [reflexivity|].
  cbn [takeDigits] in H. destruct (isDigit c) eqn:Hc; [|discriminate].
  destruct (takeDigits d) as [d' r'] eqn:E. injection H as <- ->.
  rewrite (trimEnd_black c d (isDigit_black c Hc)). f_equal. now apply (IH d').
Qed.

Lemma legacyId_spec (i : string) :
  Legacy.isLegacyId i = true ->
  isCanonicalId i = true /\ cleanText i = true.
Proof.
  unfold Legacy.isLegacyId. intros H.
  destruct (stripPrefix "TSK-" i) as [r|] eqn:E; [|discriminate].
  apply stripPrefix_inv in E. subst i.
  assert (Hcan : isCanonicalId ("TSK-" ++ r) = true).
  { unfold isCanonicalId, matchTsk.
    cbn [append stripPrefix Ascii.eqb Bool.eqb Regex.bind oneOf].
    change (isIdSeparator "-") with true. cbn [Regex.bind snd fst].
    destruct (digits1 r) as [[d rest]|]; [|discriminate].
    cbn [Regex.bind snd fst]. exact H. }
  split; [exact Hcan|].
  unfold digits1 in H. destruct (takeDigits r) as [d rest] eqn:Ed.
  destruct (isEmpty d) eqn:Hd; [discriminate|].
  apply isEmpty_true in H. subst rest.
  destruct (takeDigits_all r d Ed) as [-> _].
  assert (Hend : trimEnd r = r /\ r <> EmptyString).
  { split; [now apply (digits_trimEnd r r) | intros ->; discriminate Hd]. }
  destruct Hend as [He Hne].
  unfold cleanText. apply andb_true_intro. split; [apply andb_true_intro; split|].
  - apply String.eqb_eq. unfold trim.
    rewrite trimStart_black by (do 2 eexists; split; reflexivity).
    rewrite trimEnd_app; rewrite He; [reflexivity | exact Hne].
  - reflexivity.
  - now apply canonical_line.
Qed.

Lemma reads_nil t : reads gen [] t t.
Proof. intros T cs c key collecting n. now exists key, collecting. Qed.

Lemma reads_app l1 l2 t1 t2 t3 :
  reads gen l1 t1 t2 -> reads gen l2 t2 t3 -> reads gen (l1 ++ l2) t1 t3.
Proof.
  intros H1 H2 T cs c key collecting n.
  destruct (H1 T cs c key collecting n) as (k1 & c1 & E1).
  destruct (H2 T cs c k1 c1 n) as (k2 & c2 & E2).
  exists k2, c2. now rewrite stateAfter_app, E1, E2.
Qed.

Lemma reads_value k name v t t' :
  In (k, name) propertyKeys -> cleanText v = true ->
  (forall t0, parseTaskProperty ("  - " ++ name ++ ": " ++ v) t = Some (k, t0) ->
              t0 = t') ->
  reads gen [("  - " ++ name ++ ": " ++ v)%string] t t'.
Proof.
  intros Hin Hc Ht T cs c key collecting n.
  pose proof (parseTaskProperty_value k name v t Hin Hc) as Hp.
  exists (keyOfProperty k), false.
  rewrite stateAfter_cons, (stepLine_property gen T cs c t key collecting n _ _ _ Hp).
  cbn [stateAfter fold_left]. f_equal. now apply Ht.
Qed.

Ltac value_phase k name :=
  apply (reads_value k name);
  [ cbn; tauto
  | assumption
  | let t0 := fresh "t0" in
    let H := fresh "H" in
    intros t0 H;
    rewrite (parseTaskProperty_value k name) in H by (assumption || (cbn; tauto));
    injection H as <-; try reflexivity ].

Lemma reads_id i t :
  Legacy.isLegacyId i = true ->
  reads gen (if truthy i && Legacy.isLegacyId i then [("  - id: " ++ i)%string] else [])
    t (set_id t i).
Proof.
  intros H. destruct (legacyId_spec i H) as [_ Hc]. rewrite H.
  destruct (cleanText_spec i Hc) as (_ & Hne & _).
  replace (truthy i) with true by (destruct i; [congruence | reflexivity]).
  cbn [andb]. value_phase Kid "id"%string.
Qed.

Lemma reads_due due t :
  match due with None => true | Some d => cleanText d end = true ->
  reads gen
    (match due with
     | Some d => if truthy d then [("  - due: " ++ d)%string] else []
     | None => []
     end)
    t (match due with Some d => set_dueDate t (Some d) | None => t end).
Proof.
  intros H. destruct due as [d|]; [|apply reads_nil].
  destruct (cleanText_spec d H) as (_ & Hne & _).
  replace (truthy d) with true by (destruct d; [congruence | reflexivity]).
  value_phase Kdue "due"%string.
Qed.

Lemma reads_tags tg t :
  match tg with
  | None => true
  | Some [] => false
  | Some l => forallb legacyTag l
  end = true ->
  reads gen
    (match tg with
     | Some (x :: l) => [("  - tags: [" ++ join ", " (x :: l) ++ "]")%string]
     | _ => []
     end)
    t (match tg with Some (x :: l) => set_tags t (Some (x :: l)) | _ => t end).
Proof.
  intros H. destruct tg as [[|x l]|]; [discriminate| |apply reads_nil].
  destruct (tags_value x l H) as [Hc Hv].
  apply (reads_value Ktags "tags"); [cbn; tauto | exact Hc |].
  intros t0 Ht0.
  rewrite (parseTaskProperty_value Ktags "tags") in Ht0 by (assumption || (cbn; tauto)).
  change (String "[" (join ", " (x :: l) ++ "]"))
    with ("[" ++ join ", " (x :: l) ++ "]")%string in Ht0.
  destruct (searchBracketed ("[" ++ join ", " (x :: l) ++ "]")); [|discriminate].
  injection Hv as Hv. rewrite Hv in Ht0. now injection Ht0 as <-.
Qed.

Lemma reads_priority p t :
  reads gen
    (match p with
     | Some p0 => [("  - priority: " ++ priorityName p0)%string]
     | None => []
     end)
    t (match p with Some p0 => set_priority t (Some p0) | None => t end).
Proof.
  destruct p as [p0|]; [|apply reads_nil].
  assert (Hc : cleanText (priorityName p0) = true) by (now destruct p0).
  value_phase Kpriority "priority"%string. now destruct p0.
Qed.

Lemma reads_workload w t :
  reads gen
    (match w with
     | Some w0 => [("  - workload: " ++ workloadName w0)%string]
     | None => []
     end)
    t (match w with Some w0 => set_workload t (Some w0) | None => t end).
Proof.
  destruct w as [w0|]; [|apply reads_nil].
  assert (Hc : cleanText (workloadName w0) = true) by (now destruct w0).
  value_phase Kworkload "workload"%string. now destruct w0.
Qed.

Lemma reads_expanded de t :
  reads gen
    (match de with
     | Some true => ["  - defaultExpanded: true"%string]
     | _ => []
     end)
    t (match de with Some true => set_defaultExpanded t (Some true) | _ => t end).
Proof.
  destruct de as [[|]|]; try apply reads_nil.
  assert (Hc : cleanText "true" = true) by reflexivity.
  change "  - defaultExpanded: true"%string
    with ("  - " ++ "defaultExpanded" ++ ": " ++ "true")%string.
  value_phase KdefaultExpanded "defaultExpanded"%string.
Qed.

Lemma reads_files f t :
  match f with None => true | Some x => cleanText x end = true ->
  reads gen
    (match f with
     | Some x => if truthy x then [("  - files: " ++ x)%string] else []
     | None => []
     end)
    t (match f with Some x => set_files t (Some x) | None => t end).
Proof.
  intros H. destruct f as [x|]; [|apply reads_nil].
  destruct (cleanText_spec x H) as (_ & Hne & _).
  replace (truthy x) with true by (destruct x; [congruence | reflexivity]).
  value_phase Kfiles "files"%string.
Qed.

(** The items of a list under its key, pushed one by one. *)
Lemma stateAfter_legacy_items T cs c n t key (items : list ChecklistItem) :
  forall l0,
  forallb (fun i => cleanText (item_text i)) items = true ->
  stateAfter gen (openTask T cs c (setList t key (Some l0)) (Some key) false n)
    (map legacyItemLine items)
  = openTask T cs c (setList t key (Some (l0 ++ items))) (Some key) false n.
Proof.
  induction items as [|i items IH]; intros l0 H.
  - now rewrite app_nil_r.
  - cbn [forallb] in H. apply andb_prop in H as [Hi His].
    cbn [map]. rewrite stateAfter_cons. unfold legacyItemLine at 1.
    rewrite (stepLine_item_indented gen T cs c _ key false n l0 i "      "
               eq_refl (getList_setList _ _ _) Hi).
    rewrite setList_twice, (IH _ His), <- app_assoc. reflexivity.
Qed.

Lemma reads_list key items t :
  cleanList items = true ->
  reads gen (legacyChecklistLines (legacyKey key) items) t (readList key items t).
Proof.
  intros Hclean T cs c key0 collecting n. unfold legacyChecklistLines, readList.
  destruct items as [[|i l]|]; [discriminate| |now exists key0, collecting].
  exists (Some key), false.
  rewrite stateAfter_cons, stepLine_legacyKey.
  now rewrite (stateAfter_legacy_items T cs c n t key (i :: l) [] Hclean).
Qed.

(** *** The description under its key *)

Lemma appendDescription_fresh t l :
  description t = Some EmptyString ->
  appendDescription t l = set_description t (Some l).
Proof. intros H. unfold appendDescription. now rewrite H. Qed.

Lemma appendLines (ls : list string) : forall t l,
  description t = Some l -> l <> EmptyString ->
  fold_left appendDescription ls t
  = set_description t (Some (join newline (l :: ls))).
Proof.
  induction ls as [|x ls IH]; intros t l Hd Hne.
  - destruct t; simpl in Hd; subst. reflexivity.
  - cbn [fold_left].
    assert (Ha : appendDescription t x
                 = set_description t (Some (l ++ newline ++ x)%string)).
    { unfold appendDescription. rewrite Hd.
      destruct l; [congruence | reflexivity]. }
    rewrite Ha.
    rewrite (IH (set_description t (Some (l ++ newline ++ x)%string))
               (l ++ newline ++ x)%string eq_refl)
      by (destruct l; [congruence | discriminate]).
    rewrite !join_cons.
    destruct ls as [|x2 ls]; unfold set_description; cbn [description];
      [reflexivity|].
    rewrite !join_cons. now rewrite !append_assoc.
Qed.

Lemma stateAfter_indented T cs c n (ls : list string) : forall t collecting,
  forallb legacyTextLine ls = true -> isSome (description t) = true ->
  stateAfter gen (openTask T cs c t None collecting n)
    (map (fun descLine => ("    " ++ descLine)%string) ls)
  = openTask T cs c (fold_left appendDescription ls t) None collecting n.
Proof.
  induction ls as [|l ls IH]; intros t collecting H Hd; [reflexivity|].
  cbn [forallb] in H. apply andb_prop in H as [Hl Hls].
  cbn [map fold_left]. rewrite stateAfter_cons.
  rewrite stepLine_indented_text by assumption.
  now apply IH.
Qed.

Lemma legacyTextLine_clean (l : string) :
  legacyTextLine l = true -> cleanText l = true.
Proof.
  unfold legacyTextLine. intros H. now do 8 (apply andb_prop in H as [H _]).
Qed.

Lemma reads_description d t :
  description t = Some EmptyString -> legacyDescription d = true ->
  reads gen
    (if truthy d && negb (String.eqb (trim d) EmptyString)
     then match split LF (trim d) with
          | [l] => [("  - desc: " ++ l)%string]
          | descriptionLines =>
              "  - desc:"%string
              :: map (fun descLine => ("    " ++ descLine)%string) descriptionLines
          end
     else [])
    t (if isEmpty d then t else set_description t (Some d)).
Proof.
  intros Hd H. destruct d as [|c0 d0]; [apply reads_nil|].
  unfold legacyDescription in H. cbn [isEmpty orb] in H.
  set (d := String c0 d0) in *.
  assert (Hall : Forall (fun l => cleanText l = true) (split LF d)).
  { destruct (split LF d) as [|l [|l2 ls]]; [constructor | now repeat constructor |].
    rewrite forallb_forall in H. apply Forall_forall.
    intros x Hx. apply legacyTextLine_clean. now apply H. }
  rewrite (trim_clean_lines d Hall).
  change (truthy d && negb (String.eqb d EmptyString)) with true.
  cbv iota. change (isEmpty d) with false. cbv iota.
  pose proof (join_split d) as Hjoin.
  destruct (split LF d) as [|l [|l2 ls]].
  - discriminate Hjoin.
  - change (join newline [l]) with l in Hjoin. subst l.
    apply (reads_value Kdesc "desc"); [cbn; tauto | exact H |].
    intros t0 Ht0.
    rewrite (parseTaskProperty_value Kdesc "desc") in Ht0 by (assumption || (cbn; tauto)).
    injection Ht0 as <-. now apply appendDescription_fresh.
  - intros T cs c key collecting n. exists None, false.
    assert (Hkey : parseTaskProperty "  - desc:" t = Some (Kdesc, t)) by reflexivity.
    rewrite stateAfter_cons, (stepLine_property gen T cs c t key collecting n _ _ _ Hkey).
    rewrite stateAfter_indented; [|exact H | now rewrite Hd].
    f_equal. cbn [fold_left keyOfProperty].
    rewrite (appendDescription_fresh t l Hd).
    change (fold_left appendDescription ls
              (appendDescription (set_description t (Some l)) l2))
      with (fold_left appendDescription (l2 :: ls) (set_description t (Some l))).
    assert (Hne : l <> EmptyString).
    { inversion Hall as [|? ? Hl _]; subst.
      now destruct (cleanText_spec l Hl) as (_ & ? & _). }
    rewrite (appendLines (l2 :: ls) (set_description t (Some l)) l eq_refl Hne).
    rewrite Hjoin. reflexivity.
Qed.

Lemma reads_blank t : reads gen [EmptyString] t t.
Proof.
  intros T cs c key collecting n. exists key, collecting.
  now rewrite stateAfter_cons, stepLine_blank.
Qed.

Lemma reads_eq lines t t1 t2 :
  reads gen lines t t1 -> t1 = t2 -> reads gen lines t t2.
Proof. now intros H <-. Qed.

(** The lines behind the header of a task of the indented dialect make
    the task of the task the header opens, whatever id the header drew. *)
Lemma legacy_body t g :
  legacyTask t = true ->
  reads gen (legacyPropertyLines t ++ legacyDescriptionLines t ++ [EmptyString])
    (newTask g (task_title t)) t.
Proof.
  destruct t as [i ti d tg p w due sd de s a v f].
  unfold legacyTask. cbn [task_id task_title description tags priority workload
                          dueDate startDate defaultExpanded steps ac verify files].
  intros H. repeat (apply andb_prop in H as [H ?]).
  destruct sd; [discriminate|]. destruct d as [d|]; [|discriminate].
  unfold legacyPropertyLines, legacyIdLines, legacyDueLines, legacyTagsLines,
    legacyPriorityLines, legacyWorkloadLines, legacyExpandedLines, legacyFilesLines,
    legacyDescriptionLines.
  cbn [task_id task_title description tags priority workload
       dueDate startDate defaultExpanded steps ac verify files].
  rewrite <- !app_assoc.
  set (e := Some EmptyString).
  apply (reads_app _ _ _
           (Build_KanbanTask i ti e None None None None None None None None None None)).
  { eapply reads_eq; [apply reads_id; assumption | reflexivity]. }
  apply (reads_app _ _ _
           (Build_KanbanTask i ti e None None None due None None None None None None)).
  { eapply reads_eq; [apply reads_due; assumption | now destruct due]. }
  apply (reads_app _ _ _
           (Build_KanbanTask i ti e tg None None due None None None None None None)).
  { eapply reads_eq; [apply reads_tags; assumption | now destruct tg as [[|? ?]|]]. }
  apply (reads_app _ _ _
           (Build_KanbanTask i ti e tg p None due None None None None None None)).
  { eapply reads_eq; [apply reads_priority | now destruct p]. }
  apply (reads_app _ _ _
           (Build_KanbanTask i ti e tg p w due None None None None None None)).
  { eapply reads_eq; [apply reads_workload | now destruct w]. }
  apply (reads_app _ _ _
           (Build_KanbanTask i ti e tg p w due None de None None None None)).
  { eapply reads_eq; [apply reads_expanded | now destruct de as [[|]|]]. }
  apply (reads_app _ _ _
           (Build_KanbanTask i ti e tg p w due None de s None None None)).
  { eapply reads_eq; [apply (reads_list Steps); assumption
                     | now destruct s as [[|? ?]|]]. }
  apply (reads_app _ _ _
           (Build_KanbanTask i ti e tg p w due None de s a None None)).
  { eapply reads_eq; [apply (reads_list Ac); assumption
                     | now destruct a as [[|? ?]|]]. }
  apply (reads_app _ _ _
           (Build_KanbanTask i ti e tg p w due None de s a v None)).
  { eapply reads_eq; [apply (reads_list Verify); assumption
                     | now destruct v as [[|? ?]|]]. }
  apply (reads_app _ _ _
           (Build_KanbanTask i ti e tg p w due None de s a v f)).
  { eapply reads_eq; [apply reads_files; assumption | now destruct f]. }
  apply (reads_app _ _ _
           (Build_KanbanTask i ti (Some d) tg p w due None de s a v f)).
  { eapply reads_eq; [apply reads_description; [reflexivity | assumption]
                     | now destruct d]. }
  apply reads_blank.
Qed.

End LegacyTask.

(** ** A board of the indented dialect, read *)

Section LegacyBoard.

Variable gen : nat -> string.

Local Open Scope list_scope.

Lemma legacyDescription_clean (d : string) :
  legacyDescription d = true -> d <> EmptyString ->
  Forall (fun l => cleanText l = true) (split LF d).
Proof.
  unfold legacyDescription. intros H Hne.
  destruct d as [|c0 d0]; [congruence|]. cbn [isEmpty orb] in H.
  destruct (split LF (String c0 d0)) as [|l [|l2 ls]];
    [constructor | now repeat constructor |].
  rewrite forallb_forall in H. apply Forall_forall.
  intros x Hx. apply legacyTextLine_clean. now apply H.
Qed.

Lemma legacyTask_spec t :
  legacyTask t = true ->
  Legacy.isLegacyId (task_id t) = true /\ plainTitle (task_title t) = true /\
  exists d, description t = Some d /\ legacyDescription d = true.
Proof.
  unfold legacyTask. intros H.
  apply andb_prop in H as [H Hd].
  do 8 (apply andb_prop in H as [H _]). apply andb_prop in H as [Hi Ht].
  repeat split; try assumption.
  destruct (description t) as [d|]; [|discriminate]. now exists d.
Qed.

Lemma finalize_legacy t c :
  legacyTask t = true ->
  finalizeCurrentTask (Some t) (Some c) = Some (set_tasks c (col_tasks c ++ [t])).
Proof.
  intros H. destruct (legacyTask_spec t H) as (_ & _ & d & Hd & Hl).
  unfold finalizeCurrentTask. rewrite Hd.
  destruct d as [|c0 d0]; [reflexivity|].
  cbn [truthy isEmpty negb].
  rewrite (trim_clean_lines _ (legacyDescription_clean _ Hl ltac:(discriminate))).
  cbn [isEmpty]. do 2 f_equal.
  destruct t; cbn [description] in Hd; subst. reflexivity.
Qed.

(** The lines of a task of the indented dialect add the task to the
    pending column; its header draws one id from the supply. *)
Lemma legacy_task_lines fmt T cs pc n st t :
  loopAt T cs (Some pc) n st -> legacyTask t = true ->
  loopAt T cs (Some (set_tasks pc (col_tasks pc ++ [t]))) (S n)
    (stateAfter gen st (legacyTaskLines fmt t)).
Proof.
  intros (HT & Hcs & Hp & Hcode & Hn) Hclean.
  destruct (pending_column st pc Hp) as [c Hc].
  destruct (legacyTask_spec t Hclean) as (_ & Hti & _).
  unfold pendingColumn in Hp. rewrite Hc in Hp.
  assert (Hheader : stateAfter gen st (legacyHeaderLines fmt t)
                    = openTask T cs (Some pc) (newTask (gen n) (task_title t))
                        None false (S n)).
  { unfold legacyHeaderLines. destruct fmt.
    - rewrite !stateAfter_cons.
      change ("### " ++ task_title t)%string
        with (headerPrefix TitleFormat ++ task_title t)%string.
      rewrite (stepLine_plain_header gen TitleFormat st c _ Hc Hcode Hti).
      rewrite stepLine_blank, Hp, HT, Hcs, Hn. reflexivity.
    - rewrite !stateAfter_cons.
      change ("- " ++ task_title t)%string
        with (headerPrefix ListFormat ++ task_title t)%string.
      rewrite (stepLine_plain_header gen ListFormat st c _ Hc Hcode Hti).
      rewrite Hp, HT, Hcs, Hn. reflexivity. }
  unfold legacyTaskLines. rewrite stateAfter_app, Hheader.
  destruct (legacy_body gen t (gen n) Hclean T cs (Some pc) None false (S n))
    as (key & collecting & E).
  rewrite E. unfold loopAt, pendingColumn.
  cbn [openTask st_title st_columns currentTask currentColumn inCodeBlock generated].
  now rewrite finalize_legacy.
Qed.

Lemma legacy_tasks_lines fmt T cs (ts : list KanbanTask) : forall pc n st,
  loopAt T cs (Some pc) n st -> forallb legacyTask ts = true ->
  loopAt T cs (Some (set_tasks pc (col_tasks pc ++ ts))) (n + length ts)
    (stateAfter gen st (flat_map (legacyTaskLines fmt) ts)).
Proof.
  induction ts as [|t ts IH]; intros pc n st Hst H.
  - rewrite app_nil_r, Nat.add_0_r. now destruct pc.
  - cbn [forallb] in H. apply andb_prop in H as [Ht Hts].
    cbn [flat_map]. rewrite stateAfter_app.
    pose proof (IH _ _ _ (legacy_task_lines fmt T cs pc n st t Hst Ht) Hts) as H.
    unfold set_tasks in H |- *. cbn [col_id col_title col_tasks col_archived] in H.
    rewrite <- app_assoc in H. cbn [length]. now rewrite Nat.add_succ_r.
Qed.

Lemma legacy_column_lines fmt T cs pc n st c :
  loopAt T cs pc n st -> legacyColumn c = true ->
  loopAt T (closed cs pc)
    (Some {| col_id := gen n; col_title := col_title c; col_tasks := col_tasks c;
             col_archived := col_archived c |})
    (S n + length (col_tasks c)) (stateAfter gen st (legacyColumnLines fmt c)).
Proof.
  intros (HT & Hcs & Hp & Hcode & Hn) H.
  unfold legacyColumn in H. apply andb_prop in H as [H Hts].
  apply andb_prop in H as [Ht Ha].
  unfold legacyColumnLines. rewrite !stateAfter_cons.
  rewrite (stepLine_column gen st c Hcode Ht Ha), stepLine_blank.
  fold (pendingColumn st). rewrite Hp, HT, Hcs, Hn.
  fold (closed cs pc).
  apply (legacy_tasks_lines fmt T (closed cs pc) (col_tasks c)
           {| col_id := gen n; col_title := col_title c; col_tasks := [];
              col_archived := col_archived c |}); [|exact Hts].
  repeat split.
Qed.

Lemma legacy_columns_lines fmt T (cols : list KanbanColumn) : forall cs pc n st,
  loopAt T cs pc n st -> forallb legacyColumn cols = true ->
  exists cs' pc' n',
    loopAt T cs' pc' n' (stateAfter gen st (flat_map (legacyColumnLines fmt) cols)) /\
    closed cs' pc' = closed cs pc ++ relabelLegacyFrom gen n cols.
Proof.
  induction cols as [|c cols IH]; intros cs pc n st Hst H.
  - exists cs, pc, n. rewrite app_nil_r. now split.
  - cbn [forallb] in H. apply andb_prop in H as [Hc Hcols].
    cbn [flat_map]. rewrite stateAfter_app.
    destruct (IH _ _ _ _ (legacy_column_lines fmt T cs pc n st c Hst Hc) Hcols)
      as (cs' & pc' & n' & Hst' & E).
    exists cs', pc', n'. split; [exact Hst'|].
    rewrite E. cbn [closed relabelLegacyFrom]. now rewrite <- app_assoc.
Qed.

(** *** The lines hold no line terminator *)

Lemma legacyChecklistLines_proper key items :
  cleanList items = true ->
  Forall properLine (legacyChecklistLines (legacyKey key) items).
Proof.
  intros H. unfold legacyChecklistLines.
  destruct items as [[|i l]|]; try constructor; [now destruct key|].
  unfold cleanList in H. rewrite forallb_forall in H.
  apply Forall_forall. intros x Hx. apply in_map_iff in Hx as (it & <- & Hin).
  destruct (cleanText_spec _ (H it Hin)) as (_ & _ & Hl).
  unfold properLine, legacyItemLine, itemLine, checkbox.
  rewrite !noLineTerminator_app, Hl. now destruct (item_completed it).
Qed.

Lemma legacyTaskLines_proper fmt t :
  legacyTask t = true -> Forall properLine (legacyTaskLines fmt t).
Proof.
  intros Hclean.
  destruct (legacyTask_spec t Hclean) as (Hi & Hti & d & Hd & Hdesc).
  destruct (plainTitle_spec _ Hti) as (Hc & _).
  destruct (cleanText_spec _ Hc) as (_ & _ & Htl).
  destruct (legacyId_spec _ Hi) as (_ & Hic).
  destruct (cleanText_spec _ Hic) as (_ & Hine & Hil).
  unfold legacyTask in Hclean. repeat (apply andb_prop in Hclean as [Hclean ?]).
  unfold legacyTaskLines, legacyPropertyLines.
  repeat match goal with
         | [ |- Forall _ (_ ++ _) ] => apply Forall_app; split
         end;
    try (apply (legacyChecklistLines_proper Steps); assumption);
    try (apply (legacyChecklistLines_proper Ac); assumption);
    try (apply (legacyChecklistLines_proper Verify); assumption);
    try (now repeat constructor).
  - unfold legacyHeaderLines, properLine.
    destruct fmt; repeat constructor; now rewrite noLineTerminator_app, Htl.
  - unfold legacyIdLines. rewrite Hi.
    replace (truthy (task_id t)) with true
      by (destruct (task_id t); [congruence | reflexivity]).
    repeat constructor. unfold properLine. now rewrite noLineTerminator_app, Hil.
  - unfold legacyDueLines. destruct (dueDate t) as [x|]; [|constructor].
    match goal with [ Hx : cleanText x = true |- _ ] =>
      destruct (cleanText_spec x Hx) as (_ & Hne & Hl) end.
    replace (truthy x) with true by (destruct x; [congruence | reflexivity]).
    repeat constructor. unfold properLine. now rewrite noLineTerminator_app, Hl.
  - unfold legacyTagsLines. destruct (tags t) as [[|x l]|]; try constructor; [|constructor].
    match goal with [ Hx : forallb legacyTag _ = true |- _ ] =>
      destruct (tags_value x l Hx) as [Hv _] end.
    destruct (cleanText_spec _ Hv) as (_ & _ & Hl).
    unfold properLine.
    change ("  - tags: [" ++ join ", " (x :: l) ++ "]")%string
      with ("  - tags: " ++ ("[" ++ join ", " (x :: l) ++ "]"))%string.
    now rewrite noLineTerminator_app, Hl.
  - unfold legacyPriorityLines. destruct (priority t) as [[]|]; now repeat constructor.
  - unfold legacyWorkloadLines. destruct (workload t) as [[]|]; now repeat constructor.
  - unfold legacyExpandedLines.
    destruct (defaultExpanded t) as [[|]|]; now repeat constructor.
  - unfold legacyFilesLines. destruct (files t) as [x|]; [|constructor].
    match goal with [ Hx : cleanText x = true |- _ ] =>
      destruct (cleanText_spec x Hx) as (_ & Hne & Hl) end.
    replace (truthy x) with true by (destruct x; [congruence | reflexivity]).
    repeat constructor. unfold properLine. now rewrite noLineTerminator_app, Hl.
  - unfold legacyDescriptionLines. rewrite Hd.
    destruct d as [|c0 d0]; [constructor|].
    pose proof (legacyDescription_clean _ Hdesc ltac:(discriminate)) as Hall.
    rewrite (trim_clean_lines _ Hall).
    change (truthy (String c0 d0) && negb (String.eqb (String c0 d0) EmptyString))
      with true. cbv iota.
    assert (Hp : Forall properLine
                   (map (fun descLine => ("    " ++ descLine)%string)
                        (split LF (String c0 d0)))).
    { apply Forall_forall. intros x Hx. apply in_map_iff in Hx as (l & <- & Hin).
      rewrite Forall_forall in Hall.
      destruct (cleanText_spec l (Hall l Hin)) as (_ & _ & Hl).
      unfold properLine. now rewrite noLineTerminator_app, Hl. }
    destruct (split LF (String c0 d0)) as [|l [|l2 ls]].
    + now repeat constructor.
    + inversion Hp as [|? ? Hl _]; subst. repeat constructor.
      unfold properLine in *. cbn [append noLineTerminator] in Hl |- *. exact Hl.
    + constructor; [reflexivity | exact Hp].
Qed.

Lemma legacyColumnLines_proper fmt c :
  legacyColumn c = true -> Forall properLine (legacyColumnLines fmt c).
Proof.
  intros H. unfold legacyColumn in H. apply andb_prop in H as [H Hts].
  apply andb_prop in H as [Ht Ha].
  destruct (cleanText_spec _ Ht) as (_ & _ & Hl).
  unfold legacyColumnLines. constructor; [|constructor; [reflexivity|]].
  - unfold properLine, columnHeading.
    destruct (col_archived c) as [[|]|];
      rewrite ?noLineTerminator_app, Hl; reflexivity.
  - rewrite forallb_forall in Hts. apply Forall_forall. intros l Hl'.
    apply in_flat_map in Hl' as (t & Hin & Hl').
    pose proof (legacyTaskLines_proper fmt t (Hts t Hin)) as Hp.
    rewrite Forall_forall in Hp. now apply Hp.
Qed.

Lemma legacyBoardLines_proper fmt b :
  legacyBoard b = true -> Forall properLine (legacyBoardLines fmt b).
Proof.
  intros H. unfold legacyBoard in H. apply andb_prop in H as [HT Hcs].
  unfold legacyBoardLines. constructor; [|apply Forall_app; split].
  - unfold properLine. now rewrite !noLineTerminator_app, numberToString_line.
  - unfold titleLines. destruct (board_title b) as [|c0 T0] eqn:E; [constructor|].
    cbn [isEmpty orb] in HT. destruct (cleanText_spec _ HT) as (_ & _ & Hl).
    cbn [truthy isEmpty negb]. repeat constructor.
    unfold properLine. now rewrite noLineTerminator_app, Hl.
  - rewrite forallb_forall in Hcs. apply Forall_forall. intros l Hl.
    apply in_flat_map in Hl as (c & Hin & Hl).
    pose proof (legacyColumnLines_proper fmt c (Hcs c Hin)) as Hp.
    rewrite Forall_forall in Hp. now apply Hp.
Qed.

(** *** The board *)

Lemma assignTasks_legacy (ts : list KanbanTask) (n : N) :
  forallb legacyTask ts = true -> assignTasks n ts = (ts, n).
Proof.
  induction ts as [|t ts IH]; intros H; [reflexivity|].
  cbn [forallb] in H. apply andb_prop in H as [Ht Hts].
  destruct (legacyTask_spec t Ht) as (Hi & _).
  destruct (legacyId_spec _ Hi) as (Hcan & _).
  cbn [assignTasks]. now rewrite Hcan, (IH Hts).
Qed.

Lemma assignColumns_legacy (cs : list KanbanColumn) (n : N) :
  forallb legacyColumn cs = true -> forall k,
  assignColumns n (relabelLegacyFrom gen k cs) = (relabelLegacyFrom gen k cs, n).
Proof.
  induction cs as [|c cs IH]; intros H k; [reflexivity|].
  cbn [forallb] in H. apply andb_prop in H as [Hc Hcs].
  unfold legacyColumn in Hc. apply andb_prop in Hc as [_ Hts].
  cbn [relabelLegacyFrom assignColumns col_tasks].
  now rewrite (assignTasks_legacy _ n Hts), (IH Hcs).
Qed.

Lemma declaredNextId_legacy (b : KanbanBoard) (fmt : TaskHeaderFormat) :
  (board_nextId b <= twoTo53)%N ->
  declaredNextId (Legacy.generateMarkdown b fmt) = board_nextId b.
Proof.
  intros Hn. unfold declaredNextId, Legacy.generateMarkdown.
  rewrite numberToString_safe by exact Hn.
  rewrite searchCounter_eq, matchCounterAt_written.
  now apply parseInt_decimalDigits.
Qed.

(** The text of a board of the indented dialect parses to the board. *)
Lemma parse_legacy_text (b : KanbanBoard) (fmt : TaskHeaderFormat) :
  legacyBoard b = true ->
  (board_nextId b <= twoTo53)%N ->
  parseMarkdown gen (Legacy.generateMarkdown b fmt) = Some (relabelLegacy gen b).
Proof.
  intros Hclean Hn.
  pose proof (declaredNextId_legacy b fmt Hn) as Hcounter.
  rewrite legacyMarkdown_text, <- unlines_text in Hcounter |- *.
  rewrite parseMarkdown_unlines, Hcounter
    by (apply Forall_app; split;
        [now apply legacyBoardLines_proper | now repeat constructor]).
  rewrite parseLines_stateAfter, stateAfter_app.
  unfold legacyBoardLines. rewrite app_comm_cons, stateAfter_app.
  unfold legacyBoard in Hclean. apply andb_prop in Hclean as [HT Hcols].
  pose proof (front_lines gen b HT) as Hfront.
  destruct (legacy_columns_lines fmt _ (board_columns b) _ _ _ _ Hfront Hcols)
    as (cs & pc & n' & Hst & E).
  rewrite (stateAfter_cons gen _ EmptyString []), stepLine_blank.
  change (stateAfter gen ?st []) with st.
  rewrite (boardOfState_loopAt _ _ _ _ _ _ Hst), E.
  change (closed [] None ++ ?l) with l.
  now rewrite (assignColumns_legacy _ _ Hcols).
Qed.


(** X16.  The parser reads the indented dialect of the earlier
    serializer: the text that serializer writes for a board of tasks
    with dashed ids and a counter of at most 2^53, in either header
    style, parses to the board itself, due dates, workloads and
    expansion included, the ids of its columns drawn from the supply. *)
Theorem legacy_text_is_read (b : KanbanBoard) (fmt : TaskHeaderFormat) :
  legacyBoard b = true ->
  (board_nextId b <= twoTo53)%N ->
  parseMarkdown gen (Legacy.generateMarkdown b fmt) = Some (relabelLegacy gen b).
Proof. exact (parse_legacy_text b fmt). Qed.

End LegacyBoard.

Lemma legacy_text_sample :
  legacyBoard legacySample = true /\
  (board_nextId legacySample <= twoTo53)%N /\
  relabelLegacy demoIds legacySample = legacySample /\
  parseMarkdown demoIds (Legacy.generateMarkdown legacySample TitleFormat)
    = Some legacySample.
Proof.
  assert (Hn : (board_nextId legacySample <= twoTo53)%N)
    by (vm_compute; discriminate).
  split; [reflexivity|]. split; [exact Hn|]. split; [reflexivity|].
  exact (legacy_text_is_read demoIds legacySample TitleFormat eq_refl Hn).
Defined.

(** ** What a save and a load make of any board *)

Section Normalise.

Variable gen : nat -> string.

Local Open Scope list_scope.

Lemma generateChecklist_normalize header items :
  generateChecklist header (normalizeList items) = generateChecklist header items.
Proof. now destruct items as [[|i l]|]. Qed.

Lemma generateTaskBody_normalize t :
  generateTaskBody (normalizeTask t) = generateTaskBody t.
Proof.
  assert (Hmeta : metaParts (normalizeTask t) = metaParts t)
    by (unfold metaParts, normalizeTask; cbn [tags priority];
        now destruct (tags t) as [[|x l]|]).
  assert (Hdesc :
    match description (normalizeTask t) with
    | Some d =>
        if truthy d && negb (String.eqb (trim d) EmptyString)
        then (newline ++ trim d ++ newline)%string else EmptyString
    | None => EmptyString
    end
    = match description t with
      | Some d =>
          if truthy d && negb (String.eqb (trim d) EmptyString)
          then (newline ++ trim d ++ newline)%string else EmptyString
      | None => EmptyString
      end).
  { unfold normalizeTask. cbn [description].
    destruct (description t) as [d|]; [|reflexivity].
    rewrite trim_idem.
    destruct (String.eqb (trim d) EmptyString) eqn:E.
    + now rewrite !andb_false_r.
    + destruct d as [|c0 d0]; [discriminate E|].
      destruct (trim (String c0 d0)); [discriminate E | reflexivity]. }
  assert (Hdue :
    match dueDate (normalizeTask t) with
    | Some d => if truthy d then (newline ++ "**Due:** " ++ d ++ newline)%string
                else EmptyString
    | None => EmptyString
    end
    = match dueDate t with
      | Some d => if truthy d then (newline ++ "**Due:** " ++ d ++ newline)%string
                  else EmptyString
      | None => EmptyString
      end).
  { unfold normalizeTask, normalizeText. cbn [dueDate].
    destruct (dueDate t) as [d|]; [|reflexivity].
    destruct (truthy d) eqn:E; [now rewrite E | reflexivity]. }
  assert (Hfiles :
    match files (normalizeTask t) with
    | Some f => if truthy f then (newline ++ "**Files:** " ++ f ++ newline)%string
                else EmptyString
    | None => EmptyString
    end
    = match files t with
      | Some f => if truthy f then (newline ++ "**Files:** " ++ f ++ newline)%string
                  else EmptyString
      | None => EmptyString
      end).
  { unfold normalizeTask, normalizeText. cbn [files].
    destruct (files t) as [f|]; [|reflexivity].
    destruct (truthy f) eqn:E; [now rewrite E | reflexivity]. }
  unfold generateTaskBody. rewrite Hmeta, Hdesc, Hdue, Hfiles.
  unfold normalizeTask at 1 2 3 4. cbn [workload steps ac verify].
  now rewrite !generateChecklist_normalize.
Qed.

Lemma generateTask_normalize fmt t :
  generateTask fmt (normalizeTask t) = generateTask fmt t.
Proof.
  unfold generateTask. now rewrite generateTaskBody_normalize.
Qed.

Lemma generateColumn_normalize fmt c :
  generateColumn fmt (normalizeColumn c) = generateColumn fmt c.
Proof.
  assert (Hh : columnHeading (normalizeColumn c) = columnHeading c)
    by (unfold columnHeading, normalizeColumn; cbn [col_title col_archived];
        now destruct (col_archived c) as [[|]|]).
  assert (Hts : map (generateTask fmt) (col_tasks (normalizeColumn c))
                = map (generateTask fmt) (col_tasks c)).
  { unfold normalizeColumn. cbn [col_tasks]. rewrite map_map.
    apply map_ext. intros t. apply generateTask_normalize. }
  unfold generateColumn. now rewrite Hh, Hts.
Qed.

(** The serializer writes a board and its normal form alike. *)
Lemma generateMarkdown_normalize fmt b :
  generateMarkdown (normalizeBoard b) fmt = generateMarkdown b fmt.
Proof.
  assert (Hcs : map (generateColumn fmt) (board_columns (normalizeBoard b))
                = map (generateColumn fmt) (board_columns b)).
  { unfold normalizeBoard, set_columns. cbn [board_columns]. rewrite map_map.
    apply map_ext. intros c. apply generateColumn_normalize. }
  unfold generateMarkdown. now rewrite Hcs.
Qed.

(** The text of a board whose normal form is clean parses to that
    normal form. *)
Lemma parse_normal (b : KanbanBoard) (fmt : TaskHeaderFormat) :
  cleanBoard (normalizeBoard b) = true ->
  (board_nextId b <= twoTo53)%N ->
  parseMarkdown gen (generateMarkdown b fmt)
  = Some (relabel gen (normalizeBoard b)).
Proof.
  intros H Hn. rewrite <- (generateMarkdown_normalize fmt b).
  now apply parse_of_clean.
Qed.

Lemma normalizeList_clean (o : option (list ChecklistItem)) :
  cleanList o = true -> normalizeList o = o.
Proof. now destruct o as [[|i l]|]. Qed.

Lemma normalizeText_clean (o : option string) :
  match o with None => true | Some s => cleanText s end = true ->
  normalizeText o = o.
Proof.
  destruct o as [s|]; [|reflexivity]. intros H.
  destruct (cleanText_spec s H) as (_ & Hne & _).
  unfold normalizeText. now destruct s.
Qed.

(** A clean task is its own normal form. *)
Lemma normalizeTask_clean t : cleanTask t = true -> normalizeTask t = t.
Proof.
  destruct t as [i ti d tg p w due sd de s a v f].
  unfold cleanTask, normalizeTask.
  cbn [task_id task_title description tags priority workload
       dueDate startDate defaultExpanded steps ac verify files].
  intros H. do 11 (apply andb_prop in H as [H ?]).
  destruct due; [discriminate|]. destruct d as [d|]; [|discriminate].
  destruct sd; [discriminate|]. destruct de; [discriminate|].
  rewrite !normalizeList_clean, normalizeText_clean by assumption.
  assert (Hd : trim d = d).
  { destruct d as [|c0 d0]; [reflexivity|].
    match goal with
    | [ Hx : isEmpty _ || _ = true |- _ ] =>
        cbn [isEmpty orb] in Hx; apply andb_prop in Hx as [_ Hx];
        exact (trim_lines _ Hx)
    end. }
  rewrite Hd. cbn [normalizeText].
  f_equal; try (now apply normalizeText_clean).
  destruct tg as [[|x l]|]; [discriminate | reflexivity | reflexivity].
Qed.

Lemma normalizeColumn_clean c : cleanColumn c = true -> normalizeColumn c = c.
Proof.
  destruct c as [i t ts a]. unfold cleanColumn, normalizeColumn.
  cbn [col_id col_title col_tasks col_archived].
  intros H. apply andb_prop in H as [H Hts]. apply andb_prop in H as [_ Ha].
  destruct a as [a|]; [|discriminate]. f_equal.
  rewrite forallb_forall in Hts.
  rewrite <- (map_id ts) at 2. apply map_ext_in.
  intros x Hx. apply normalizeTask_clean. now apply Hts.
Qed.

Lemma normalizeBoard_clean b : cleanBoard b = true -> normalizeBoard b = b.
Proof.
  destruct b as [T cs n]. unfold cleanBoard, normalizeBoard, set_columns.
  cbn [board_title board_columns board_nextId].
  intros H. apply andb_prop in H as [_ Hcs]. f_equal.
  rewrite forallb_forall in Hcs.
  rewrite <- (map_id cs) at 2. apply map_ext_in.
  intros x Hx. apply normalizeColumn_clean. now apply Hcs.
Qed.

(** X17.  The board that is read back from a save is the normal form of
    the board saved (empty lists and empty due date and files absent,
    the start date and the expansion, which are not written, absent, the
    description trimmed and present, the archive flag set): when that
    normal form is clean and the counter at most 2^53, the text written
    for the board parses to it, with the ids of the supply for its
    columns; and the normal form is its own normal form, so a second
    save and load change nothing. *)
Theorem save_and_load_normalise (b : KanbanBoard) (fmt : TaskHeaderFormat) :
  cleanBoard (normalizeBoard b) = true ->
  (board_nextId b <= twoTo53)%N ->
  parseMarkdown gen (generateMarkdown b fmt)
    = Some (relabel gen (normalizeBoard b)) /\
  normalizeBoard (normalizeBoard b) = normalizeBoard b.
Proof.
  intros H Hn. split; [now apply parse_normal | now apply normalizeBoard_clean].
Qed.

End Normalise.

Lemma save_and_load_sample :
  cleanBoard (normalizeBoard panelSample) = true /\
  (board_nextId panelSample <= twoTo53)%N /\
  cleanBoard panelSample = false /\
  parseMarkdown demoIds (generateMarkdown panelSample TitleFormat)
    = Some (normalizeBoard panelSample).
Proof.
  assert (Hn : (board_nextId panelSample <= twoTo53)%N)
    by (vm_compute; discriminate).
  split; [reflexivity|]. split; [exact Hn|]. split; [reflexivity|].
  exact (proj1 (save_and_load_normalise demoIds panelSample TitleFormat eq_refl Hn)).
Defined.

(** ** The panel keeps a board savable *)

Section Savable.

Variable gen : nat -> string.

Local Open Scope list_scope.




(** *** Columns and tasks updated in place *)








(** *** The fields of a savable task *)





Ltac split_andb :=
  repeat match goal with
         | [ H : _ && _ = true |- _ ] => apply andb_prop in H as [? ?]
         end.





(** *** The actions *)














End Savable.


(** ** Dropping a card *)

Section DragAndDrop.

Local Open Scope list_scope.

Lemma firstCardBelow_le clientY (cards : list Card) :
  firstCardBelow clientY cards <= length cards.
Proof.
  induction cards as [|c cards IH]; simpl; [lia|].
  destruct (PrimFloat.ltb clientY (taskCenter c)); lia.
Qed.

Lemma findIndex_cards taskId (cards : list Card) : forall ts,
  shows cards ts ->
  findIndex (hasCardId taskId) cards = findIndex (hasTaskId taskId) ts.
Proof.
  unfold shows. induction cards as [|c cards IH]; intros [|t ts] H;
    try discriminate; [reflexivity|].
  cbn [map] in H. injection H as Hid Hrest.
  cbn [findIndex]. unfold hasCardId at 1, hasTaskId at 1. rewrite Hid.
  now rewrite (IH ts Hrest).
Qed.

Lemma shows_length (cards : list Card) ts : shows cards ts -> length cards = length ts.
Proof.
  unfold shows. intros H. apply (f_equal (@length string)) in H.
  now rewrite !length_map in H.
Qed.

(** The place of a task in a list: the tasks in front of it are others. *)
Lemma findIndex_split taskId (ts : list KanbanTask) i :
  findIndex (hasTaskId taskId) ts = Some i ->
  exists l1 task l2,
    ts = l1 ++ task :: l2 /\ length l1 = i /\ hasTaskId taskId task = true /\
    others taskId l1 = l1 /\ nth_error ts i = Some task.
Proof.
  revert i. induction ts as [|t ts IH]; intros i H; [discriminate|].
  cbn [findIndex] in H. destruct (hasTaskId taskId t) eqn:E.
  - injection H as <-. now exists [], t, ts.
  - destruct (findIndex (hasTaskId taskId) ts) as [j|]; [|discriminate].
    injection H as <-. destruct (IH j eq_refl) as (l1 & task & l2 & -> & Hl & Ht & Ho & Hn).
    exists (t :: l1), task, l2. repeat split; try assumption.
    + simpl. now rewrite Hl.
    + unfold others in *. cbn [filter]. now rewrite E, Ho.
Qed.

Lemma others_absent taskId (l : list KanbanTask) :
  ~ In taskId (map task_id l) -> others taskId l = l.
Proof.
  unfold others. induction l as [|t l IH]; intros H; [reflexivity|].
  cbn [filter]. unfold hasTaskId at 1.
  destruct (String.eqb_spec (task_id t) taskId) as [E|E].
  - exfalso. apply H. left. exact E.
  - cbn [negb]. rewrite IH; [reflexivity|]. intros Hin. apply H. now right.
Qed.

Lemma others_app taskId (a b : list KanbanTask) :
  others taskId (a ++ b) = others taskId a ++ others taskId b.
Proof. apply filter_app. Qed.

Lemma others_firstn taskId (l : list KanbanTask) k :
  others taskId l = l -> others taskId (firstn k l) = firstn k l.
Proof.
  unfold others. revert k. induction l as [|t l IH]; intros [|k] H; try reflexivity.
  cbn [filter firstn] in *. destruct (negb (hasTaskId taskId t)) eqn:E.
  - injection H as H. now rewrite IH.
  - exfalso. pose proof (filter_length_le (fun t0 => negb (hasTaskId taskId t0)) l) as Hle.
    rewrite H in Hle. simpl in Hle. lia.
Qed.

Lemma others_skipn taskId (l : list KanbanTask) k :
  others taskId l = l -> others taskId (skipn k l) = skipn k l.
Proof.
  unfold others. revert k. induction l as [|t l IH]; intros [|k] H; try reflexivity.
  - exact H.
  - cbn [filter skipn] in *. destruct (negb (hasTaskId taskId t)) eqn:E.
    + injection H as H. now apply IH.
    + exfalso. pose proof (filter_length_le (fun t0 => negb (hasTaskId taskId t0)) l) as Hle.
      rewrite H in Hle. simpl in Hle. lia.
Qed.

(** Taking the task out and putting it back in front of the card at [d]:
    the other tasks keep their order. *)
Lemma reinsert taskId (l1 l2 : list KanbanTask) task d :
  hasTaskId taskId task = true ->
  others taskId l1 = l1 -> others taskId l2 = l2 ->
  d <= length (l1 ++ task :: l2) ->
  insertAt (if (length l1 <? d)%nat then d - 1 else d) task (l1 ++ l2)
  = others taskId (firstn d (l1 ++ task :: l2)) ++
    task :: others taskId (skipn d (l1 ++ task :: l2)).
Proof.
  intros Ht H1 H2 Hd. unfold insertAt.
  assert (Hx : others taskId [task] = []).
  { unfold others. cbn [filter]. now rewrite Ht. }
  destruct (Nat.ltb_spec (length l1) d) as [Hlt|Hge].
  - rewrite firstn_app, skipn_app, (firstn_all2 (n := d - 1)), (skipn_all2 (n := d - 1))
      by lia.
    rewrite (firstn_app d), (skipn_app d), (firstn_all2 (n := d)), (skipn_all2 (n := d))
      by lia.
    replace (d - length l1) with (S (d - 1 - length l1)) by lia.
    cbn [firstn skipn app]. rewrite others_app, H1.
    rewrite ?app_nil_l.
    change (task :: firstn (d - 1 - length l1) l2)
      with ([task] ++ firstn (d - 1 - length l1) l2).
    rewrite others_app, Hx, (others_firstn _ _ _ H2), (others_skipn _ _ _ H2).
    reflexivity.
  - rewrite !firstn_app, !skipn_app.
    replace (d - length l1) with 0 by lia. cbn [firstn skipn app].
    rewrite app_nil_r, !others_app, (others_firstn _ _ _ H1), (others_skipn _ _ _ H1).
    change (task :: l2) with ([task] ++ l2).
    rewrite others_app, Hx, H2. reflexivity.
Qed.

Lemma find_updateFirst_other {A : Type} (p q : A -> bool) (f : A -> A) (l : list A) :
  (forall x, q (f x) = q x) -> (forall x, p x = true -> q x = false) ->
  find q (updateFirst p f l) = find q l.
Proof.
  intros Hq Hpq. induction l as [|y l IH]; [reflexivity|].
  cbn [updateFirst find]. destruct (p y) eqn:E; cbn [find].
  - now rewrite Hq, (Hpq y E).
  - now rewrite IH.
Qed.

(** Two columns of a board whose task ids are distinct share no id. *)
Lemma distinct_columns (cs : list KanbanColumn) (c1 c2 : KanbanColumn) taskId :
  NoDup (taskIds cs) -> In c1 cs -> In c2 cs -> c1 <> c2 ->
  In taskId (columnIds c1) -> ~ In taskId (columnIds c2).
Proof.
  unfold taskIds. induction cs as [|c cs IH]; intros Hn H1 H2 Hne Hin1 Hin2;
    [contradiction|].
  cbn [flat_map] in Hn.
  assert (Hd : forall x, In x (columnIds c) -> ~ In x (flat_map columnIds cs)).
  { intros x Hx Hy. apply NoDup_app_remove_l in Hn as Hn'.
    revert Hn Hx Hy. clear. induction (columnIds c) as [|y l IHl]; intros Hn Hx Hy;
      [contradiction|].
    cbn [app] in Hn. inversion Hn as [|? ? Hnot Hrest]; subst.
    destruct Hx as [->|Hx].
    - apply Hnot. apply in_or_app. now right.
    - now apply IHl. }
  destruct H1 as [<-|H1], H2 as [<-|H2].
  - now apply Hne.
  - apply (Hd taskId Hin1). apply in_flat_map. now exists c2.
  - apply (Hd taskId Hin2). apply in_flat_map. now exists c1.
  - apply NoDup_app_remove_l in Hn. now apply (IH Hn H1 H2 Hne).
Qed.

Lemma column_distinct (cs : list KanbanColumn) (c : KanbanColumn) :
  NoDup (taskIds cs) -> In c cs -> NoDup (columnIds c).
Proof.
  unfold taskIds. induction cs as [|y cs IH]; intros Hn Hin; [contradiction|].
  cbn [flat_map] in Hn. destruct Hin as [<-|Hin].
  - now apply NoDup_app_remove_r in Hn.
  - apply NoDup_app_remove_l in Hn. now apply IH.
Qed.

Lemma removeAt_middle {A : Type} (l1 l2 : list A) (x : A) :
  removeAt (length l1) (l1 ++ x :: l2) = l1 ++ l2.
Proof.
  unfold removeAt. rewrite firstn_app, skipn_app, Nat.sub_diag, firstn_all.
  rewrite (skipn_all2 (n := S (length l1))) by lia.
  replace (S (length l1) - length l1) with 1 by lia.
  cbn [firstn skipn app]. now rewrite app_nil_r.
Qed.

(** The place of the task [find] returns. *)
Lemma find_place taskId (ts : list KanbanTask) task :
  find (hasTaskId taskId) ts = Some task ->
  exists l1 l2,
    ts = l1 ++ task :: l2 /\ others taskId l1 = l1 /\
    findIndex (hasTaskId taskId) ts = Some (length l1) /\
    nth_error ts (length l1) = Some task.
Proof.
  induction ts as [|t ts IH]; intros H; [discriminate|].
  cbn [find] in H. destruct (hasTaskId taskId t) eqn:E.
  - injection H as ->. exists [], ts. cbn [app length findIndex nth_error].
    now rewrite E.
  - destruct (IH H) as (l1 & l2 & -> & Ho & Hi & Hn).
    exists (t :: l1), l2. cbn [app length findIndex nth_error].
    rewrite E, Hi. repeat split; try assumption.
    unfold others in *. cbn [filter]. now rewrite E, Ho.
Qed.

(** [moveTask] within one column. *)
Lemma moveTask_within b taskId columnId column l1 task l2 newIndex :
  findColumn b columnId = Some column ->
  col_tasks column = l1 ++ task :: l2 ->
  findIndex (hasTaskId taskId) (col_tasks column) = Some (length l1) ->
  exists target,
    findColumn (moveTask taskId columnId columnId newIndex b) columnId = Some target /\
    col_tasks target
    = insertAt (spliceStart (length (l1 ++ l2)) newIndex) task (l1 ++ l2).
Proof.
  intros Hc Hts Hi. unfold moveTask. rewrite Hc, Hi, Hts.
  assert (Hn : nth_error (l1 ++ task :: l2) (length l1) = Some task).
  { rewrite nth_error_app2, Nat.sub_diag by lia. reflexivity. }
  rewrite Hn. unfold updateColumn, findColumn in *. cbn [board_columns set_columns].
  rewrite updateFirst_twice by reflexivity.
  rewrite find_updateFirst_same by reflexivity. rewrite Hc. cbn [option_map].
  eexists. split; [reflexivity|]. cbn [col_tasks set_tasks].
  now rewrite Hts, removeAt_middle.
Qed.

(** [moveTask] from one column to another. *)
Lemma moveTask_across b taskId fromColumnId toColumnId fromColumn toColumn task
    newIndex :
  fromColumnId <> toColumnId ->
  findColumn b fromColumnId = Some fromColumn ->
  findColumn b toColumnId = Some toColumn ->
  find (hasTaskId taskId) (col_tasks fromColumn) = Some task ->
  exists target,
    findColumn (moveTask taskId fromColumnId toColumnId newIndex b) toColumnId
      = Some target /\
    col_tasks target
    = insertAt (spliceStart (length (col_tasks toColumn)) newIndex) task
        (col_tasks toColumn).
Proof.
  intros Hne Hfrom Hto Htask. unfold moveTask. rewrite Hfrom, Hto.
  destruct (find_place _ _ _ Htask) as (l1 & l2 & Hts & _ & Hi & Hn).
  rewrite Hi, Hn. unfold updateColumn, findColumn in *.
  cbn [board_columns set_columns].
  rewrite find_updateFirst_same by reflexivity.
  rewrite find_updateFirst_other.
  - rewrite Hto. cbn [option_map]. eexists. split; reflexivity.
  - reflexivity.
  - intros x Hx. unfold hasColumnId in *.
    apply String.eqb_eq in Hx. apply String.eqb_neq. congruence.
Qed.

End DragAndDrop.

(** X19.  A card dropped on a column lands in front of the first card
    whose centre is below the pointer, and last when there is none: with
    the cards of the column showing its tasks and the task ids of the
    board distinct, the [drop] listener posts a [moveTask] message, and
    after the panel has handled it the tasks of the column are the other
    tasks that stood before that card, the task dropped, and the other
    tasks from that card on, whether the task came from this column or
    from another. *)
Theorem drop_puts_card_in_front freshId b cards clientY taskId fromColumnId columnId
    fromColumn toColumn task :
  findColumn b fromColumnId = Some fromColumn ->
  findColumn b columnId = Some toColumn ->
  find (hasTaskId taskId) (col_tasks fromColumn) = Some task ->
  NoDup (boardIds b) ->
  shows cards (col_tasks toColumn) ->
  truthy taskId = true -> truthy fromColumnId = true ->
  plainSelector taskId = true ->
  exists message b' target,
    dropMessage cards clientY taskId fromColumnId columnId = Some (Some message) /\
    handleMessage freshId message b = Some b' /\
    findColumn b' columnId = Some target /\
    col_tasks target
    = (others taskId (firstn (firstCardBelow clientY cards) (col_tasks toColumn)) ++
       task ::
       others taskId (skipn (firstCardBelow clientY cards) (col_tasks toColumn)))%list.
Proof.
  intros Hfrom Hto Htask Hids Hshows HtaskId HfromId Hplain.
  pose proof (firstCardBelow_le clientY cards) as Hd.
  rewrite (shows_length _ _ Hshows) in Hd.
  set (d := firstCardBelow clientY cards) in *.
  assert (Hid : hasTaskId taskId task = true) by (now apply find_some in Htask).
  assert (HinFrom : In fromColumn (board_columns b)).
  { unfold findColumn in Hfrom. now apply find_some in Hfrom. }
  assert (HinTo : In toColumn (board_columns b)).
  { unfold findColumn in Hto. now apply find_some in Hto. }
  destruct (find_place _ _ _ Htask) as (l1 & l2 & Hts & Ho1 & Hi & _).
  unfold dropMessage, calculateDropIndex. rewrite HtaskId, HfromId. cbn [andb].
  fold d. destruct (String.eqb_spec fromColumnId columnId) as [E|E].
  - subst columnId. rewrite Hfrom in Hto. injection Hto as <-.
    rewrite Hplain, (findIndex_cards _ _ _ Hshows), Hi.
    assert (Ho2 : others taskId l2 = l2).
    { apply others_absent. intros Hin.
      pose proof (column_distinct _ _ Hids HinFrom) as Hn.
      unfold columnIds in Hn. rewrite Hts, map_app in Hn. cbn [map] in Hn.
      apply NoDup_remove_2 in Hn. apply Hn. apply in_or_app. right.
      unfold hasTaskId in Hid. apply String.eqb_eq in Hid. now rewrite Hid. }
    assert (Hlen : length (col_tasks fromColumn) = S (length (l1 ++ l2))).
    { rewrite Hts, !length_app. cbn [length]. lia. }
    assert (Hl1 : length l1 <= length (l1 ++ l2)) by (rewrite length_app; lia).
    assert (Hput : forall newIndex,
              spliceStart (length (l1 ++ l2)) newIndex
              = (if (length l1 <? d)%nat then d - 1 else d) ->
              exists target,
                findColumn (moveTask taskId fromColumnId fromColumnId newIndex b)
                  fromColumnId = Some target /\
                col_tasks target
                = (others taskId (firstn d (col_tasks fromColumn)) ++
                   task :: others taskId (skipn d (col_tasks fromColumn)))%list).
    { intros newIndex Hs.
      destruct (moveTask_within b taskId fromColumnId fromColumn l1 task l2 newIndex
                  Hfrom Hts Hi) as (target & Hfind & Htasks).
      exists target. split; [exact Hfind|].
      rewrite Htasks, Hs, Hts. apply reinsert; try assumption.
      rewrite <- Hts. exact Hd. }
    destruct (Z.ltb_spec (Z.of_nat (length l1)) (Z.of_nat d)) as [Hlt|Hge].
    + destruct (Hput (Z.of_nat d - 1)%Z) as (target & Hfind & Htasks).
      { unfold spliceStart. destruct (Nat.ltb_spec (length l1) d); [|lia].
        destruct (Z.ltb_spec (Z.of_nat d - 1) 0); lia. }
      eexists _, _, target. repeat split; [exact Hfind | exact Htasks].
    + destruct (Hput (Z.of_nat d)) as (target & Hfind & Htasks).
      { unfold spliceStart. destruct (Nat.ltb_spec (length l1) d); [lia|].
        destruct (Z.ltb_spec (Z.of_nat d) 0); lia. }
      eexists _, _, target. repeat split; [exact Hfind | exact Htasks].
  - destruct (moveTask_across b taskId fromColumnId columnId fromColumn toColumn task
                (Z.of_nat d) E Hfrom Hto Htask) as (target & Hfind & Htasks).
    eexists _, _, target. repeat split; [exact Hfind|].
    assert (Ho : others taskId (col_tasks toColumn) = col_tasks toColumn).
    { apply others_absent.
      apply (distinct_columns _ fromColumn toColumn taskId Hids HinFrom HinTo).
      - intros ->. unfold findColumn in *.
        apply find_some in Hfrom, Hto. unfold hasColumnId in *.
        destruct Hfrom as [_ H1], Hto as [_ H2].
        apply String.eqb_eq in H1, H2. congruence.
      - unfold columnIds. rewrite Hts, map_app. apply in_or_app. right. left.
        unfold hasTaskId in Hid. now apply String.eqb_eq in Hid. }
    rewrite Htasks, (others_firstn _ _ _ Ho), (others_skipn _ _ _ Ho).
    unfold insertAt, spliceStart.
    destruct (Z.ltb_spec (Z.of_nat d) 0); [lia|].
    now rewrite Nat2Z.id, Nat.min_l by lia.
Qed.

Lemma drop_sample :
  exists message b' target,
    dropMessage sampleCards samplePointer "TSK_1" "c1" "c1" = Some (Some message) /\
    handleMessage "fresh" message sampleBoard = Some b' /\
    findColumn b' "c1" = Some target /\
    col_tasks target = [sampleTask "TSK_2" "second"; sampleTask "TSK_1" "first"].
Proof.
  assert (Hids : NoDup (boardIds sampleBoard)).
  { repeat constructor; cbn; intuition discriminate. }
  exact (drop_puts_card_in_front "fresh" sampleBoard sampleCards samplePointer
           "TSK_1" "c1" "c1" _ _ _ eq_refl eq_refl eq_refl Hids eq_refl eq_refl
           eq_refl eq_refl).
Defined.

(** ** The ids shown on the cards *)

Section DisplayIds.

Local Open Scope list_scope.

(** The ids the counter hands out are written with an underscore. *)
Lemma isDisplayId_counted (n : N) :
  isDisplayId ("TSK_" ++ numberToString n) = false.
Proof. reflexivity. Qed.

(** An id that is shown is a canonical id. *)
Lemma isDisplayId_canonical (s : string) :
  isDisplayId s = true -> isCanonicalId s = true.
Proof.
  unfold isDisplayId, isCanonicalId, matchTsk. intros H.
  destruct (stripPrefix "TSK-" s) as [r|] eqn:E; [|discriminate].
  apply stripPrefix_inv in E. subst s.
  cbn [bind] in H. destruct (digits1 r) as [[d rest]|] eqn:Ed; [|discriminate].
  change (stripPrefix "TSK" ("TSK-" ++ r)) with (Some (String "-" r)).
  cbn [bind oneOf].
  change (isIdSeparator "-") with true.
  cbn [bind fst snd]. rewrite Ed. exact H.
Qed.

Lemma getTaskDisplayId_set_id t (n : N) :
  isCanonicalId (task_id t) = false ->
  getTaskDisplayId (set_id t ("TSK_" ++ numberToString n)) = getTaskDisplayId t.
Proof.
  intros H. unfold getTaskDisplayId. cbn [task_id set_id].
  rewrite isDisplayId_counted, andb_false_r.
  destruct (isDisplayId (task_id t)) eqn:E.
  - apply isDisplayId_canonical in E. congruence.
  - now rewrite andb_false_r.
Qed.

Lemma assignTasks_display (ts : list KanbanTask) : forall n,
  map getTaskDisplayId (fst (assignTasks n ts)) = map getTaskDisplayId ts.
Proof.
  induction ts as [|t ts IH]; intros n; [reflexivity|].
  cbn [assignTasks]. destruct (isCanonicalId (task_id t)) eqn:E.
  - specialize (IH n). destruct (assignTasks n ts) as [rest k].
    cbn [fst map] in *. now rewrite IH.
  - specialize (IH (increment n)). destruct (assignTasks (increment n) ts) as [rest k].
    cbn [fst map] in *. now rewrite IH, getTaskDisplayId_set_id.
Qed.

End DisplayIds.

(** X20.  A task added from the board surface shows no id on its card:
    [addTask] puts the new task last in its column under the id of the
    counter, written with an underscore, and [getTaskDisplayId] accepts
    ids written with a hyphen only. *)
Theorem added_task_shows_no_id columnId taskData b c :
  findColumn b columnId = Some c ->
  exists c' t,
    findColumn (addTask columnId taskData b) columnId = Some c' /\
    col_tasks c' = (col_tasks c ++ [t])%list /\
    task_id t = "TSK_" ++ numberToString (board_nextId b) /\
    getTaskDisplayId t = None.
Proof.
  intros Hc. unfold addTask. rewrite Hc. cbn [getNextTaskId].
  unfold findColumn, updateColumn in *. cbn [board_columns set_columns].
  rewrite find_updateFirst_same by reflexivity. rewrite Hc. cbn [option_map].
  eexists _, _. split; [reflexivity|]. cbn [col_tasks set_tasks].
  split; [reflexivity|]. split; [reflexivity|].
  unfold getTaskDisplayId. cbn [task_id taskOfData].
  now rewrite isDisplayId_counted, andb_false_r.
Qed.

Lemma added_task_sample :
  exists c' t,
    findColumn (addTask "c2" sampleData sampleBoard) "c2" = Some c' /\
    col_tasks c' = [sampleTask "TSK_3" "third"; t] /\
    task_id t = "TSK_7" /\
    getTaskDisplayId t = None.
Proof.
  exact (added_task_shows_no_id "c2" sampleData sampleBoard _ eq_refl).
Defined.

(** X21.  The last pass of [parseMarkdown] gives no task an id that is
    shown and takes none away: after it the cards show the ids that the
    tasks had before it, task by task.  An id with a hyphen is canonical
    and stays; an id the pass assigns has an underscore and replaces an
    id that was not shown. *)
Theorem last_pass_keeps_shown_ids (nextId : N) (cs : list KanbanColumn) :
  map getTaskDisplayId (allTasks (fst (assignColumns nextId cs)))
  = map getTaskDisplayId (allTasks cs).
Proof.
  revert nextId. induction cs as [|c cs IH]; intros n; [reflexivity|].
  cbn [assignColumns].
  pose proof (assignTasks_display (col_tasks c) n) as Ht.
  destruct (assignTasks n (col_tasks c)) as [ts k].
  specialize (IH k). destruct (assignColumns k cs) as [rest k'].
  cbn [fst] in *. unfold allTasks in *. cbn [flat_map col_tasks set_tasks].
  now rewrite !map_app, Ht, IH.
Qed.

(** ** Archiving a column and taking it back *)

Section Archive.

Local Open Scope list_scope.

Lemma map_updateFirst_same {A B : Type} (p : A -> bool) (f : A -> A) (g : A -> B)
    (l : list A) (x : A) :
  find p l = Some x -> g (f x) = g x -> map g (updateFirst p f l) = map g l.
Proof.
  intros Hx Hg. destruct (updateFirst_split p f l x Hx) as (l1 & l2 & -> & ->).
  rewrite !map_app. cbn [map]. now rewrite Hg.
Qed.

Lemma generateColumn_unarchived fmt c :
  isArchived c = false ->
  generateColumn fmt (set_archived c (Some false)) = generateColumn fmt c.
Proof.
  unfold isArchived, generateColumn, columnHeading. cbn [col_archived set_archived
    col_title col_tasks].
  destruct (col_archived c) as [[|]|]; [discriminate | reflexivity | reflexivity].
Qed.

End Archive.

(** X22.  A column archived from its heading and taken back from the
    archive column is saved as before.  The button in the heading of a
    column that is not archived posts the request to archive it; the
    column then is among the archived ones, where its section has the
    button that posts the request to take it back; after both the board
    is the old one with the flag of the column set to false, and the
    text saved is the text of the old board. *)
Theorem archive_and_unarchive freshId fmt b columnId c :
  findColumn b columnId = Some c ->
  isArchived c = false ->
  columnId <> "unified-archive" ->
  exists m1 b1 c1 m2 b2,
    Webview.toggleColumnArchive b columnId = Some m1 /\
    handleMessage freshId m1 b = Some b1 /\
    findColumn b1 columnId = Some c1 /\ In c1 (archivedColumns b1) /\
    Webview.unarchiveColumn b1 columnId = Some m2 /\
    handleMessage freshId m2 b1 = Some b2 /\
    b2 = updateColumn b columnId (fun column => set_archived column (Some false)) /\
    generateMarkdown b2 fmt = generateMarkdown b fmt.
Proof.
  intros Hc Hflag Hid.
  set (b1 := updateColumn b columnId (fun column => set_archived column (Some true))).
  assert (H1 : findColumn b1 columnId = Some (set_archived c (Some true))).
  { unfold b1, findColumn, updateColumn in *. cbn [board_columns set_columns].
    rewrite find_updateFirst_same by reflexivity. now rewrite Hc. }
  exists (ToggleColumnArchive columnId true), b1, (set_archived c (Some true)),
    (ToggleColumnArchive columnId false),
    (updateColumn b columnId (fun column => set_archived column (Some false))).
  repeat split.
  - unfold Webview.toggleColumnArchive.
    destruct (String.eqb_spec columnId "unified-archive") as [E|_]; [contradiction|].
    unfold findColumn in Hc. now rewrite Hc, Hflag.
  - cbn [handleMessage handleMessageWith].
    unfold toggleColumnArchive. now rewrite Hc.
  - exact H1.
  - unfold archivedColumns. apply filter_In. split; [|reflexivity].
    unfold findColumn in H1. now apply find_some in H1.
  - unfold Webview.unarchiveColumn. unfold findColumn in H1. now rewrite H1.
  - cbn [handleMessage handleMessageWith].
    unfold toggleColumnArchive. rewrite H1.
    unfold b1, updateColumn. cbn [board_columns set_columns].
    rewrite updateFirst_twice by reflexivity. reflexivity.
  - unfold generateMarkdown, updateColumn. cbn [board_nextId board_title
      board_columns set_columns].
    unfold findColumn in Hc.
    now rewrite (map_updateFirst_same _ _ (generateColumn fmt) _ c Hc
                   (generateColumn_unarchived fmt c Hflag)).
Qed.

Lemma archive_sample :
  exists m1 b1 c1 m2 b2,
    Webview.toggleColumnArchive sampleBoard "c1" = Some m1 /\
    handleMessage "fresh" m1 sampleBoard = Some b1 /\
    findColumn b1 "c1" = Some c1 /\ In c1 (archivedColumns b1) /\
    Webview.unarchiveColumn b1 "c1" = Some m2 /\
    handleMessage "fresh" m2 b1 = Some b2 /\
    b2 = sampleBoard /\
    generateMarkdown b2 ListFormat = generateMarkdown sampleBoard ListFormat.
Proof.
  assert (H : "c1" <> "unified-archive") by discriminate.
  exact (archive_and_unarchive "fresh" ListFormat sampleBoard "c1" _ eq_refl eq_refl H).
Defined.

(** ** The loop of the earlier parser *)

Section LegacyLoop.

Variable gen : nat -> string.

Local Open Scope list_scope.

Lemma old_step_again st line st' :
  Legacy.step gen st line = (st', true) -> Legacy.currentTask st' = None.
Proof.
  unfold Legacy.step, Legacy.closingLine.
  repeat break_if; intros H; inversion H; reflexivity.
Qed.

Lemma old_step_no_task st line :
  Legacy.currentTask st = None -> snd (Legacy.step gen st line) = false.
Proof.
  intros H. unfold Legacy.step, Legacy.closingLine. rewrite H.
  repeat break_if; try reflexivity.
  all: cbn [isSome] in *; rewrite andb_false_r in *; discriminate.
Qed.

Lemma old_run_stateAfter lines : forall fuel st,
  2 * length lines <= fuel ->
  Legacy.run gen fuel st lines = Some (Legacy.stateAfter gen st lines).
Proof.
  induction lines as [|line rest IH]; intros fuel st Hfuel.
  - destruct fuel; reflexivity.
  - simpl in Hfuel. destruct fuel as [|fuel]; [lia|].
    simpl. unfold Legacy.stepLine.
    destruct (Legacy.step gen st line) as [st1 again] eqn:Hstep.
    destruct again.
    + destruct fuel as [|fuel]; [lia|].
      simpl.
      pose proof (old_step_no_task st1 line (old_step_again _ _ _ Hstep)) as Hno.
      destruct (Legacy.step gen st1 line) as [st2 again2]. simpl in Hno. subst again2.
      simpl. apply IH. lia.
    + apply IH. lia.
Qed.

Lemma old_parseLines_stateAfter nextId lines :
  Legacy.parseLines gen nextId lines
  = Some (Legacy.boardOfState nextId (Legacy.stateAfter gen Legacy.initialState lines)).
Proof.
  unfold Legacy.parseLines. rewrite old_run_stateAfter by lia. reflexivity.
Qed.

Lemma old_stateAfter_app st l1 l2 :
  Legacy.stateAfter gen st (l1 ++ l2)
  = Legacy.stateAfter gen (Legacy.stateAfter gen st l1) l2.
Proof. apply fold_left_app. Qed.

Lemma old_stateAfter_cons st l ls :
  Legacy.stateAfter gen st (l :: ls)
  = Legacy.stateAfter gen (Legacy.stepLine gen st l) ls.
Proof. reflexivity. Qed.

(** The text of some lines parses as the lines do. *)
Lemma old_parseMarkdown_unlines (lines : list string) :
  Forall properLine lines ->
  Legacy.parseMarkdown gen (unlines lines)
  = Legacy.parseLines gen (declaredNextId (unlines lines)) lines.
Proof.
  intros H. unfold Legacy.parseMarkdown. destruct lines as [|l ls].
  - rewrite !old_parseLines_stateAfter. reflexivity.
  - rewrite splitLines_unlines; [reflexivity | exact H | discriminate].
Qed.

End LegacyLoop.

(** ** The lines of the indented dialect, read by the earlier parser *)

Section LegacyRead.

Variable gen : nat -> string.

Local Open Scope list_scope.

(** A comment line leaves the loop where it is. *)
Lemma old_stepLine_comment st line :
  startsWith (trim line) "<!--" = true -> endsWith (trim line) "-->" = true ->
  Legacy.stepLine gen st line = st.
Proof.
  intros H1 H2. unfold Legacy.stepLine, Legacy.step. now rewrite H1, H2.
Qed.

Lemma old_stepLine_counter st (n : N) :
  Legacy.stepLine gen st ("<!-- next-id: " ++ numberToString n ++ " -->") = st.
Proof.
  assert (Htrim : trim ("<!-- next-id: " ++ numberToString n ++ " -->")
                  = (("<!-- next-id: " ++ numberToString n ++ " ") ++ "-->")%string).
  { rewrite <- (trim_prefixed ("<!-- next-id: " ++ numberToString n ++ " ") "-->");
      [ now rewrite !append_assoc
      | do 2 eexists; split; reflexivity | reflexivity | discriminate ]. }
  apply old_stepLine_comment; rewrite Htrim; [reflexivity | apply endsWith_app].
Qed.

(** Outside a code block an empty line does so, too. *)
Lemma old_stepLine_blank st :
  Legacy.inCodeBlock st = false -> Legacy.stepLine gen st EmptyString = st.
Proof.
  intros Hcode. unfold Legacy.stepLine, Legacy.step, Legacy.closingLine,
    Legacy.propertiesLine, parseOldChecklistItem.
  rewrite Hcode. cbn.
  destruct (Legacy.inTaskProperties st); [|reflexivity].
  destruct (Legacy.currentTask st) as [t|]; [|reflexivity].
  destruct (Legacy.activeListKey st) as [key|]; [|now rewrite andb_false_r].
  destruct (getList t key); now rewrite andb_false_r.
Qed.

Lemma old_stepLine_title st title :
  Legacy.st_title st = EmptyString -> Legacy.inCodeBlock st = false ->
  cleanText title = true ->
  Legacy.stepLine gen st ("# " ++ title)
  = {| Legacy.st_title := title; Legacy.st_columns := Legacy.st_columns st;
       Legacy.currentColumn :=
         finalizeCurrentTask (Legacy.currentTask st) (Legacy.currentColumn st);
       Legacy.currentTask := None; Legacy.inTaskProperties := false;
       Legacy.inTaskDescription := false; Legacy.inCodeBlock := false;
       Legacy.activeListKey := None; Legacy.generated := Legacy.generated st |}.
Proof.
  intros HT Hcode Hc. destruct (cleanText_spec _ Hc) as (Htrim & Hne & _).
  assert (Hline : trim ("# " ++ title) = ("# " ++ title)%string)
    by (apply trim_prefixed; [do 2 eexists; split; reflexivity | assumption..]).
  unfold Legacy.stepLine, Legacy.step. rewrite Hline, HT, Hcode.
  cbn [append startsWith Ascii.eqb Bool.eqb andb negb truthy isEmpty substringFrom
       fst snd].
  now rewrite Htrim.
Qed.

Lemma old_step_archived_header st line rest x :
  trim line = ("## " ++ rest)%string -> trim rest = (x ++ "[Archived]")%string ->
  Legacy.inCodeBlock st = false ->
  Legacy.step gen st line =
  ({| Legacy.st_title := Legacy.st_title st;
      Legacy.st_columns :=
        match finalizeCurrentTask (Legacy.currentTask st) (Legacy.currentColumn st) with
        | Some c => Legacy.st_columns st ++ [c]
        | None => Legacy.st_columns st
        end;
      Legacy.currentColumn :=
        Some {| col_id := gen (Legacy.generated st); col_title := trim x;
                col_tasks := []; col_archived := Some true |};
      Legacy.currentTask := None; Legacy.inTaskProperties := false;
      Legacy.inTaskDescription := false; Legacy.inCodeBlock := false;
      Legacy.activeListKey := None;
      Legacy.generated := S (Legacy.generated st) |}, false).
Proof.
  intros Hline Hrest Hcode. unfold Legacy.step. rewrite Hline, Hcode.
  cbn [append startsWith Ascii.eqb Bool.eqb andb negb substringFrom].
  rewrite Hrest, endsWith_app, stripArchived_marker, trim_trimEnd.
  reflexivity.
Qed.

Lemma old_stepLine_column st c :
  Legacy.inCodeBlock st = false ->
  cleanText (col_title c) = true ->
  match col_archived c with
  | Some true => true
  | Some false => negb (endsWith (col_title c) "[Archived]")
  | None => false
  end = true ->
  Legacy.stepLine gen st ("## " ++ columnHeading c)
  = {| Legacy.st_title := Legacy.st_title st;
       Legacy.st_columns :=
         match finalizeCurrentTask (Legacy.currentTask st) (Legacy.currentColumn st) with
         | Some d => Legacy.st_columns st ++ [d]
         | None => Legacy.st_columns st
         end;
       Legacy.currentColumn :=
         Some {| col_id := gen (Legacy.generated st); col_title := col_title c;
                 col_tasks := []; col_archived := col_archived c |};
       Legacy.currentTask := None; Legacy.inTaskProperties := false;
       Legacy.inTaskDescription := false; Legacy.inCodeBlock := false;
       Legacy.activeListKey := None;
       Legacy.generated := S (Legacy.generated st) |}.
Proof.
  intros Hcode Hc Ha. destruct (cleanText_spec _ Hc) as (Htrim & Hne & _).
  unfold columnHeading.
  destruct (col_archived c) as [[|]|]; [| |discriminate].
  - unfold Legacy.stepLine.
    rewrite (old_step_archived_header st _ _ _
               (heading_trim (col_title c)) (rest_trim (col_title c)) Hcode).
    cbn [fst snd]. now rewrite trim_trimStart_space by exact Htrim.
  - apply negb_true_iff in Ha.
    assert (Hline : trim ("## " ++ col_title c) = ("## " ++ col_title c)%string)
      by (apply trim_prefixed; [do 2 eexists; split; reflexivity | assumption..]).
    unfold Legacy.stepLine, Legacy.step. rewrite Hline, Hcode.
    cbn [append startsWith Ascii.eqb Bool.eqb andb negb substringFrom fst snd].
    rewrite Htrim, Ha. reflexivity.
Qed.

(** *** The header of a task *)

(** What the later parser takes for a header, the earlier one does. *)
Lemma old_isTaskTitle (line trimmedLine : string) :
  isTaskTitle line trimmedLine = true -> Legacy.isTaskTitle line trimmedLine = true.
Proof.
  unfold isTaskTitle, Legacy.isTaskTitle.
  destruct (startsWith line "- " &&
            (isSome (matchPropertyPrefix trimmedLine) || isSome (matchIndentedBox line)));
    [discriminate|].
  destruct (isSome (matchChecklistPrefix trimmedLine)); [discriminate|].
  destruct (isSome (matchBoldPrefix trimmedLine)); [discriminate|].
  trivial.
Qed.

Lemma old_stepLine_plain_header fmt st c title :
  Legacy.currentColumn st = Some c -> Legacy.inCodeBlock st = false ->
  plainTitle title = true ->
  Legacy.stepLine gen st (headerPrefix fmt ++ title)
  = Legacy.openTask (Legacy.st_title st) (Legacy.st_columns st)
      (finalizeCurrentTask (Legacy.currentTask st) (Some c))
      (newTask (gen (Legacy.generated st)) title) None (S (Legacy.generated st)).
Proof.
  intros Hcol Hcode Hp.
  destruct (plainTitle_spec title Hp) as (Hc & Hm & His & Hbox).
  destruct (cleanText_spec _ Hc) as (Htrim & Hne & _).
  assert (Hline : trim (headerPrefix fmt ++ title) = (headerPrefix fmt ++ title)%string).
  { apply trim_prefixed; try assumption.
    destruct fmt; do 2 eexists; split; reflexivity. }
  assert (Htitle : headerTitle (headerPrefix fmt ++ title) = title).
  { destruct fmt.
    - exact Htrim.
    - change (headerTitle (headerPrefix ListFormat ++ title))
        with (if startsWith (trim title) "[ ] " || startsWith (trim title) "[x] "
              then trim (substringFrom 4 (trim title))
              else trim title).
      now rewrite Htrim, Hbox. }
  assert (His' : Legacy.isTaskTitle (headerPrefix fmt ++ title) (headerPrefix fmt ++ title)
                 = true)
    by (destruct fmt; [reflexivity | now apply old_isTaskTitle]).
  unfold Legacy.stepLine, Legacy.step. rewrite Hline, His', Htitle, Hcol, Hcode.
  destruct fmt; reflexivity.
Qed.

(** *** The lines under the header *)

(** The loop hands a line to the tests on the properties of the open task
    when none of the tests in front applies. *)
Lemma old_stepLine_in_properties T cs c t key n line st' :
  startsWith (trim line) "<!--" && endsWith (trim line) "-->" = false ->
  startsWith (trim line) "# " = false -> startsWith (trim line) "## " = false ->
  Legacy.isTaskTitle line (trim line) = false ->
  Legacy.propertiesLine (Legacy.openTask T cs c t key n) t line (trim line) = Some st' ->
  Legacy.stepLine gen (Legacy.openTask T cs c t key n) line = st'.
Proof.
  intros H1 H3 H4 H5 H6. unfold Legacy.stepLine, Legacy.step.
  rewrite H1, H3, H4, H5.
  cbn [Legacy.openTask Legacy.inTaskDescription Legacy.inCodeBlock
       Legacy.inTaskProperties Legacy.currentTask Legacy.st_title andb negb].
  rewrite andb_false_r. cbn [andb].
  change (Legacy.propertiesLine _ t line (trim line))
    with (Legacy.propertiesLine (Legacy.openTask T cs c t key n) t line (trim line)).
  now rewrite H6.
Qed.

(** In an open task, a line the property pattern matches is read as that
    property; it makes the list of its key the active one, or none. *)
Lemma old_stepLine_property T cs c t key n line k t' :
  parseTaskProperty line t = Some (k, t') ->
  Legacy.stepLine gen (Legacy.openTask T cs c t key n) line
  = Legacy.openTask T cs c t' (keyOfProperty k) n.
Proof.
  intros Hparse.
  assert (Hm : exists v, matchProperty line = Some (k, v)).
  { unfold parseTaskProperty in Hparse.
    destruct (matchProperty line) as [[k0 v]|]; [|discriminate].
    injection Hparse as -> _. now exists v. }
  destruct Hm as [v Hm].
  destruct (property_line_shape line k v Hm) as (Hdash & name & rest & Hin & Htrim).
  apply old_stepLine_in_properties.
  - rewrite Htrim. reflexivity.
  - rewrite Htrim. reflexivity.
  - rewrite Htrim. reflexivity.
  - unfold Legacy.isTaskTitle. rewrite Hdash, Htrim. reflexivity.
  - unfold Legacy.propertiesLine. now rewrite Hparse.
Qed.

(** The key line of a list. *)
Lemma old_stepLine_legacyKey T cs c t key0 n key :
  Legacy.stepLine gen (Legacy.openTask T cs c t key0 n) ("  - " ++ legacyKey key ++ ":")
  = Legacy.openTask T cs c (setList t key (Some [])) (Some key) n.
Proof. destruct key; reflexivity. Qed.

(** An item line under the key of its list. *)
Lemma old_stepLine_item T cs c t key n l item :
  getList t key = Some l ->
  cleanText (item_text item) = true ->
  Legacy.stepLine gen (Legacy.openTask T cs c t (Some key) n) (legacyItemLine item)
  = Legacy.openTask T cs c (setList t key (Some (l ++ [item]))) (Some key) n.
Proof.
  intros Hl Hc. destruct (cleanText_spec _ Hc) as (Htrim & Hne & Hline).
  destruct (trim_fixed _ Htrim) as [Hs He].
  destruct item as [x done]. cbn [item_text] in *.
  set (mark := if done then "x"%char else " "%char).
  assert (Hshape : legacyItemLine {| item_text := x; item_completed := done |}
                   = ("      " ++ "- [" ++ String mark ("] " ++ x))%string)
    by (unfold legacyItemLine, itemLine, checkbox, mark; now destruct done).
  rewrite Hshape.
  assert (Ht : trim ("      " ++ "- [" ++ String mark ("] " ++ x))
               = ("- [" ++ String mark ("] " ++ x))%string).
  { unfold trim.
    change (trimStart ("      " ++ "- [" ++ String mark ("] " ++ x)))
      with (("- [" ++ String mark "] ") ++ x)%string.
    rewrite trimEnd_app; rewrite He; [reflexivity | exact Hne]. }
  assert (Hdone : Ascii.eqb mark "x" = done) by (unfold mark; now destruct done).
  assert (Hitem : checklistItem mark x = {| item_text := x; item_completed := done |}).
  { unfold checklistItem. now rewrite Htrim, Hdone. }
  assert (Hold : matchOldChecklistItem ("      " ++ "- [" ++ String mark ("] " ++ x))
                 = Some (mark, x)).
  { unfold matchOldChecklistItem, matchIndentedBox, matchBox, mark.
    destruct done; cbn; now rewrite Hs, Hline. }
  apply old_stepLine_in_properties; rewrite ?Ht; try reflexivity.
  unfold Legacy.propertiesLine, parseOldChecklistItem.
  change (parseTaskProperty ("      " ++ "- [" ++ String mark ("] " ++ x)) t)
    with (@None (PropertyKey * KanbanTask)).
  cbn [Legacy.openTask Legacy.activeListKey]. now rewrite Hl, Hold, Hitem.
Qed.

Lemma fence_md (l : string) :
  startsWith l "```" = false -> startsWith l "```md" = false.
Proof.
  intros H. destruct (startsWith l "```md") eqn:E; [|reflexivity].
  apply startsWith_inv in E as [r ->]. discriminate H.
Qed.

(** A line the later parser does not take for a header, behind white
    space, is none for the earlier parser. *)
Lemma old_not_title_indented (l : string) :
  isTaskTitle ("    " ++ l) l = false -> Legacy.isTaskTitle ("    " ++ l) l = false.
Proof.
  unfold isTaskTitle, Legacy.isTaskTitle.
  change (startsWith ("    " ++ l) "- ") with false. cbn [andb orb].
  destruct (isSome (matchChecklistPrefix l)) eqn:E1.
  { intros _. destruct (startsWith l "### ") eqn:E; [|reflexivity].
    apply startsWith_inv in E as [r ->]. discriminate E1. }
  destruct (isSome (matchBoldPrefix l)) eqn:E2; [|trivial].
  intros _. destruct (startsWith l "### ") eqn:E; [|reflexivity].
  apply startsWith_inv in E as [r ->]. discriminate E2.
Qed.

(** A line of a description under the [desc] key. *)
Lemma old_stepLine_indented_text T cs c t n l :
  legacyTextLine l = true -> isSome (description t) = true ->
  Legacy.stepLine gen (Legacy.openTask T cs c t None n) ("    " ++ l)
  = Legacy.openTask T cs c (appendDescription t l) None n.
Proof.
  unfold legacyTextLine. intros H Hd.
  do 8 (apply andb_prop in H as [H ?]).
  repeat match goal with
         | [ Hn : negb _ = true |- _ ] => apply negb_true_iff in Hn
         end.
  destruct (cleanText_spec l H) as (Htrim & Hne & Hline).
  destruct (trim_fixed _ Htrim) as [Hs _].
  assert (Ht : trim ("    " ++ l) = l) by exact Htrim.
  assert (Hprop : matchProperty ("    " ++ l) = None)
    by (destruct (matchProperty ("    " ++ l)); [discriminate | reflexivity]).
  assert (Hindent : matchIndent4 ("    " ++ l) = true) by reflexivity.
  assert (Hempty : String.eqb l EmptyString = false)
    by (destruct l; [congruence | reflexivity]).
  assert (Hfence : Legacy.matchFenceMd ("    " ++ l) = false).
  { unfold Legacy.matchFenceMd.
    change (skipWhite1 ("    " ++ l)) with (Some (trimStart l)).
    rewrite Hs. now apply fence_md. }
  apply old_stepLine_in_properties; rewrite ?Ht; try assumption.
  - now apply old_not_title_indented.
  - unfold Legacy.propertiesLine, parseTaskProperty, parseOldChecklistItem.
    rewrite Hprop, Hfence, Hindent, Hd, Hempty.
    cbn [Legacy.openTask Legacy.activeListKey Legacy.inTaskProperties
         Legacy.inTaskDescription Legacy.inCodeBlock Legacy.withTask
         Legacy.st_title Legacy.st_columns Legacy.currentColumn Legacy.generated
         negb andb].
    destruct (matchImage l); reflexivity.
Qed.

End LegacyRead.


(** ** A task of the indented dialect, read by the earlier parser *)

Section LegacyTaskRead.

Variable gen : nat -> string.

Local Open Scope list_scope.

Lemma old_reads_nil t : Legacy.reads gen [] t t.
Proof. intros T cs c key n. now exists key. Qed.

Lemma old_reads_app l1 l2 t1 t2 t3 :
  Legacy.reads gen l1 t1 t2 -> Legacy.reads gen l2 t2 t3 -> Legacy.reads gen (l1 ++ l2) t1 t3.
Proof.
  intros H1 H2 T cs c key n.
  destruct (H1 T cs c key n) as (k1 & E1).
  destruct (H2 T cs c k1 n) as (k2 & E2).
  exists k2. now rewrite old_stateAfter_app, E1, E2.
Qed.

Lemma old_reads_value k name v t t' :
  In (k, name) propertyKeys -> cleanText v = true ->
  (forall t0, parseTaskProperty ("  - " ++ name ++ ": " ++ v) t = Some (k, t0) ->
              t0 = t') ->
  Legacy.reads gen [("  - " ++ name ++ ": " ++ v)%string] t t'.
Proof.
  intros Hin Hc Ht T cs c key n.
  pose proof (parseTaskProperty_value k name v t Hin Hc) as Hp.
  exists (keyOfProperty k).
  rewrite old_stateAfter_cons, (old_stepLine_property gen T cs c t key n _ _ _ Hp).
  cbn [Legacy.stateAfter fold_left]. f_equal. now apply Ht.
Qed.

Ltac old_value_phase k name :=
  apply (old_reads_value k name);
  [ cbn; tauto
  | assumption
  | let t0 := fresh "t0" in
    let H := fresh "H" in
    intros t0 H;
    rewrite (parseTaskProperty_value k name) in H by (assumption || (cbn; tauto));
    injection H as <-; try reflexivity ].

Lemma old_reads_id i t :
  Legacy.isLegacyId i = true ->
  Legacy.reads gen (if truthy i && Legacy.isLegacyId i then [("  - id: " ++ i)%string] else [])
    t (set_id t i).
Proof.
  intros H. destruct (legacyId_spec i H) as [_ Hc]. rewrite H.
  destruct (cleanText_spec i Hc) as (_ & Hne & _).
  replace (truthy i) with true by (destruct i; [congruence | reflexivity]).
  cbn [andb]. old_value_phase Kid "id"%string.
Qed.

Lemma old_reads_due due t :
  match due with None => true | Some d => cleanText d end = true ->
  Legacy.reads gen
    (match due with
     | Some d => if truthy d then [("  - due: " ++ d)%string] else []
     | None => []
     end)
    t (match due with Some d => set_dueDate t (Some d) | None => t end).
Proof.
  intros H. destruct due as [d|]; [|apply old_reads_nil].
  destruct (cleanText_spec d H) as (_ & Hne & _).
  replace (truthy d) with true by (destruct d; [congruence | reflexivity]).
  old_value_phase Kdue "due"%string.
Qed.

Lemma old_reads_tags tg t :
  match tg with
  | None => true
  | Some [] => false
  | Some l => forallb legacyTag l
  end = true ->
  Legacy.reads gen
    (match tg with
     | Some (x :: l) => [("  - tags: [" ++ join ", " (x :: l) ++ "]")%string]
     | _ => []
     end)
    t (match tg with Some (x :: l) => set_tags t (Some (x :: l)) | _ => t end).
Proof.
  intros H. destruct tg as [[|x l]|]; [discriminate| |apply old_reads_nil].
  destruct (tags_value x l H) as [Hc Hv].
  apply (old_reads_value Ktags "tags"); [cbn; tauto | exact Hc |].
  intros t0 Ht0.
  rewrite (parseTaskProperty_value Ktags "tags") in Ht0 by (assumption || (cbn; tauto)).
  change (String "[" (join ", " (x :: l) ++ "]"))
    with ("[" ++ join ", " (x :: l) ++ "]")%string in Ht0.
  destruct (searchBracketed ("[" ++ join ", " (x :: l) ++ "]")); [|discriminate].
  injection Hv as Hv. rewrite Hv in Ht0. now injection Ht0 as <-.
Qed.

Lemma old_reads_priority p t :
  Legacy.reads gen
    (match p with
     | Some p0 => [("  - priority: " ++ priorityName p0)%string]
     | None => []
     end)
    t (match p with Some p0 => set_priority t (Some p0) | None => t end).
Proof.
  destruct p as [p0|]; [|apply old_reads_nil].
  assert (Hc : cleanText (priorityName p0) = true) by (now destruct p0).
  old_value_phase Kpriority "priority"%string. now destruct p0.
Qed.

Lemma old_reads_workload w t :
  Legacy.reads gen
    (match w with
     | Some w0 => [("  - workload: " ++ workloadName w0)%string]
     | None => []
     end)
    t (match w with Some w0 => set_workload t (Some w0) | None => t end).
Proof.
  destruct w as [w0|]; [|apply old_reads_nil].
  assert (Hc : cleanText (workloadName w0) = true) by (now destruct w0).
  old_value_phase Kworkload "workload"%string. now destruct w0.
Qed.

Lemma old_reads_expanded de t :
  Legacy.reads gen
    (match de with
     | Some true => ["  - defaultExpanded: true"%string]
     | _ => []
     end)
    t (match de with Some true => set_defaultExpanded t (Some true) | _ => t end).
Proof.
  destruct de as [[|]|]; try apply old_reads_nil.
  assert (Hc : cleanText "true" = true) by reflexivity.
  change "  - defaultExpanded: true"%string
    with ("  - " ++ "defaultExpanded" ++ ": " ++ "true")%string.
  old_value_phase KdefaultExpanded "defaultExpanded"%string.
Qed.

Lemma old_reads_files f t :
  match f with None => true | Some x => cleanText x end = true ->
  Legacy.reads gen
    (match f with
     | Some x => if truthy x then [("  - files: " ++ x)%string] else []
     | None => []
     end)
    t (match f with Some x => set_files t (Some x) | None => t end).
Proof.
  intros H. destruct f as [x|]; [|apply old_reads_nil].
  destruct (cleanText_spec x H) as (_ & Hne & _).
  replace (truthy x) with true by (destruct x; [congruence | reflexivity]).
  old_value_phase Kfiles "files"%string.
Qed.

(** The items of a list under its key, pushed one by one. *)
Lemma old_stateAfter_legacy_items T cs c n t key (items : list ChecklistItem) :
  forall l0,
  forallb (fun i => cleanText (item_text i)) items = true ->
  Legacy.stateAfter gen (Legacy.openTask T cs c (setList t key (Some l0)) (Some key) n)
    (map legacyItemLine items)
  = Legacy.openTask T cs c (setList t key (Some (l0 ++ items))) (Some key) n.
Proof.
  induction items as [|i items IH]; intros l0 H.
  - now rewrite app_nil_r.
  - cbn [forallb] in H. apply andb_prop in H as [Hi His].
    cbn [map]. rewrite old_stateAfter_cons.
    rewrite (old_stepLine_item gen T cs c _ key n l0 i (getList_setList _ _ _) Hi).
    rewrite setList_twice, (IH _ His), <- app_assoc. reflexivity.
Qed.

Lemma old_reads_list key items t :
  cleanList items = true ->
  Legacy.reads gen (legacyChecklistLines (legacyKey key) items) t (readList key items t).
Proof.
  intros Hclean T cs c key0 n. unfold legacyChecklistLines, readList.
  destruct items as [[|i l]|]; [discriminate| |now exists key0].
  exists (Some key).
  rewrite old_stateAfter_cons, old_stepLine_legacyKey.
  now rewrite (old_stateAfter_legacy_items T cs c n t key (i :: l) [] Hclean).
Qed.

(** *** The description under its key *)

Lemma old_stateAfter_indented T cs c n (ls : list string) : forall t,
  forallb legacyTextLine ls = true -> isSome (description t) = true ->
  Legacy.stateAfter gen (Legacy.openTask T cs c t None n)
    (map (fun descLine => ("    " ++ descLine)%string) ls)
  = Legacy.openTask T cs c (fold_left appendDescription ls t) None n.
Proof.
  induction ls as [|l ls IH]; intros t H Hd; [reflexivity|].
  cbn [forallb] in H. apply andb_prop in H as [Hl Hls].
  cbn [map fold_left]. rewrite old_stateAfter_cons.
  rewrite old_stepLine_indented_text by assumption.
  now apply IH.
Qed.

Lemma old_reads_description d t :
  description t = Some EmptyString -> legacyDescription d = true ->
  Legacy.reads gen
    (if truthy d && negb (String.eqb (trim d) EmptyString)
     then match split LF (trim d) with
          | [l] => [("  - desc: " ++ l)%string]
          | descriptionLines =>
              "  - desc:"%string
              :: map (fun descLine => ("    " ++ descLine)%string) descriptionLines
          end
     else [])
    t (if isEmpty d then t else set_description t (Some d)).
Proof.
  intros Hd H. destruct d as [|c0 d0]; [apply old_reads_nil|].
  unfold legacyDescription in H. cbn [isEmpty orb] in H.
  set (d := String c0 d0) in *.
  assert (Hall : Forall (fun l => cleanText l = true) (split LF d)).
  { destruct (split LF d) as [|l [|l2 ls]]; [constructor | now repeat constructor |].
    rewrite forallb_forall in H. apply Forall_forall.
    intros x Hx. apply legacyTextLine_clean. now apply H. }
  rewrite (trim_clean_lines d Hall).
  change (truthy d && negb (String.eqb d EmptyString)) with true.
  cbv iota. change (isEmpty d) with false. cbv iota.
  pose proof (join_split d) as Hjoin.
  destruct (split LF d) as [|l [|l2 ls]].
  - discriminate Hjoin.
  - change (join newline [l]) with l in Hjoin. subst l.
    apply (old_reads_value Kdesc "desc"); [cbn; tauto | exact H |].
    intros t0 Ht0.
    rewrite (parseTaskProperty_value Kdesc "desc") in Ht0 by (assumption || (cbn; tauto)).
    injection Ht0 as <-. now apply appendDescription_fresh.
  - intros T cs c key n. exists None.
    assert (Hkey : parseTaskProperty "  - desc:" t = Some (Kdesc, t)) by reflexivity.
    rewrite old_stateAfter_cons, (old_stepLine_property gen T cs c t key n _ _ _ Hkey).
    rewrite old_stateAfter_indented; [|exact H | now rewrite Hd].
    f_equal. cbn [fold_left keyOfProperty].
    rewrite (appendDescription_fresh t l Hd).
    change (fold_left appendDescription ls
              (appendDescription (set_description t (Some l)) l2))
      with (fold_left appendDescription (l2 :: ls) (set_description t (Some l))).
    assert (Hne : l <> EmptyString).
    { inversion Hall as [|? ? Hl _]; subst.
      now destruct (cleanText_spec l Hl) as (_ & ? & _). }
    rewrite (appendLines (l2 :: ls) (set_description t (Some l)) l eq_refl Hne).
    rewrite Hjoin. reflexivity.
Qed.

Lemma old_reads_blank t : Legacy.reads gen [EmptyString] t t.
Proof.
  intros T cs c key n. exists key.
  now rewrite old_stateAfter_cons, old_stepLine_blank.
Qed.

Lemma old_reads_eq lines t t1 t2 :
  Legacy.reads gen lines t t1 -> t1 = t2 -> Legacy.reads gen lines t t2.
Proof. now intros H <-. Qed.

(** The lines behind the header of a task of the indented dialect make
    the task of the task the header opens, whatever id the header drew. *)
Lemma old_legacy_body t g :
  legacyTask t = true ->
  Legacy.reads gen (legacyPropertyLines t ++ legacyDescriptionLines t ++ [EmptyString])
    (newTask g (task_title t)) t.
Proof.
  destruct t as [i ti d tg p w due sd de s a v f].
  unfold legacyTask. cbn [task_id task_title description tags priority workload
                          dueDate startDate defaultExpanded steps ac verify files].
  intros H. repeat (apply andb_prop in H as [H ?]).
  destruct sd; [discriminate|]. destruct d as [d|]; [|discriminate].
  unfold legacyPropertyLines, legacyIdLines, legacyDueLines, legacyTagsLines,
    legacyPriorityLines, legacyWorkloadLines, legacyExpandedLines, legacyFilesLines,
    legacyDescriptionLines.
  cbn [task_id task_title description tags priority workload
       dueDate startDate defaultExpanded steps ac verify files].
  rewrite <- !app_assoc.
  set (e := Some EmptyString).
  apply (old_reads_app _ _ _
           (Build_KanbanTask i ti e None None None None None None None None None None)).
  { eapply old_reads_eq; [apply old_reads_id; assumption | reflexivity]. }
  apply (old_reads_app _ _ _
           (Build_KanbanTask i ti e None None None due None None None None None None)).
  { eapply old_reads_eq; [apply old_reads_due; assumption | now destruct due]. }
  apply (old_reads_app _ _ _
           (Build_KanbanTask i ti e tg None None due None None None None None None)).
  { eapply old_reads_eq; [apply old_reads_tags; assumption | now destruct tg as [[|? ?]|]]. }
  apply (old_reads_app _ _ _
           (Build_KanbanTask i ti e tg p None due None None None None None None)).
  { eapply old_reads_eq; [apply old_reads_priority | now destruct p]. }
  apply (old_reads_app _ _ _
           (Build_KanbanTask i ti e tg p w due None None None None None None)).
  { eapply old_reads_eq; [apply old_reads_workload | now destruct w]. }
  apply (old_reads_app _ _ _
           (Build_KanbanTask i ti e tg p w due None de None None None None)).
  { eapply old_reads_eq; [apply old_reads_expanded | now destruct de as [[|]|]]. }
  apply (old_reads_app _ _ _
           (Build_KanbanTask i ti e tg p w due None de s None None None)).
  { eapply old_reads_eq; [apply (old_reads_list Steps); assumption
                     | now destruct s as [[|? ?]|]]. }
  apply (old_reads_app _ _ _
           (Build_KanbanTask i ti e tg p w due None de s a None None)).
  { eapply old_reads_eq; [apply (old_reads_list Ac); assumption
                     | now destruct a as [[|? ?]|]]. }
  apply (old_reads_app _ _ _
           (Build_KanbanTask i ti e tg p w due None de s a v None)).
  { eapply old_reads_eq; [apply (old_reads_list Verify); assumption
                     | now destruct v as [[|? ?]|]]. }
  apply (old_reads_app _ _ _
           (Build_KanbanTask i ti e tg p w due None de s a v f)).
  { eapply old_reads_eq; [apply old_reads_files; assumption | now destruct f]. }
  apply (old_reads_app _ _ _
           (Build_KanbanTask i ti (Some d) tg p w due None de s a v f)).
  { eapply old_reads_eq; [apply old_reads_description; [reflexivity | assumption]
                     | now destruct d]. }
  apply old_reads_blank.
Qed.

End LegacyTaskRead.

(** ** A board of the indented dialect, read by the earlier parser *)

Section LegacyBoardRead.

Variable gen : nat -> string.

Local Open Scope list_scope.

Lemma old_pending_column st pc :
  Legacy.pendingColumn st = Some pc -> exists c, Legacy.currentColumn st = Some c.
Proof.
  unfold Legacy.pendingColumn, finalizeCurrentTask.
  destruct (Legacy.currentColumn st) as [c|]; [eauto|].
  destruct (Legacy.currentTask st); discriminate.
Qed.

(** The lines of a task of the indented dialect add the task to the
    pending column; its header draws one id from the supply. *)
Lemma old_task_lines fmt T cs pc n st t :
  Legacy.loopAt T cs (Some pc) n st -> legacyTask t = true ->
  Legacy.loopAt T cs (Some (set_tasks pc (col_tasks pc ++ [t]))) (S n)
    (Legacy.stateAfter gen st (legacyTaskLines fmt t)).
Proof.
  intros (HT & Hcs & Hp & Hcode & Hn) Hclean.
  destruct (old_pending_column st pc Hp) as [c Hc].
  destruct (legacyTask_spec t Hclean) as (_ & Hti & _).
  unfold Legacy.pendingColumn in Hp. rewrite Hc in Hp.
  assert (Hheader : Legacy.stateAfter gen st (legacyHeaderLines fmt t)
                    = Legacy.openTask T cs (Some pc) (newTask (gen n) (task_title t))
                        None (S n)).
  { unfold legacyHeaderLines. destruct fmt.
    - rewrite !old_stateAfter_cons.
      change ("### " ++ task_title t)%string
        with (headerPrefix TitleFormat ++ task_title t)%string.
      rewrite (old_stepLine_plain_header gen TitleFormat st c _ Hc Hcode Hti).
      rewrite old_stepLine_blank by reflexivity. rewrite Hp, HT, Hcs, Hn. reflexivity.
    - rewrite !old_stateAfter_cons.
      change ("- " ++ task_title t)%string
        with (headerPrefix ListFormat ++ task_title t)%string.
      rewrite (old_stepLine_plain_header gen ListFormat st c _ Hc Hcode Hti).
      rewrite Hp, HT, Hcs, Hn. reflexivity. }
  unfold legacyTaskLines. rewrite old_stateAfter_app, Hheader.
  destruct (old_legacy_body gen t (gen n) Hclean T cs (Some pc) None (S n))
    as (key & E).
  rewrite E. unfold Legacy.loopAt, Legacy.pendingColumn.
  cbn [Legacy.openTask Legacy.st_title Legacy.st_columns Legacy.currentTask
       Legacy.currentColumn Legacy.inCodeBlock Legacy.generated].
  now rewrite finalize_legacy.
Qed.

Lemma old_tasks_lines fmt T cs (ts : list KanbanTask) : forall pc n st,
  Legacy.loopAt T cs (Some pc) n st -> forallb legacyTask ts = true ->
  Legacy.loopAt T cs (Some (set_tasks pc (col_tasks pc ++ ts))) (n + length ts)
    (Legacy.stateAfter gen st (flat_map (legacyTaskLines fmt) ts)).
Proof.
  induction ts as [|t ts IH]; intros pc n st Hst H.
  - rewrite app_nil_r, Nat.add_0_r. now destruct pc.
  - cbn [forallb] in H. apply andb_prop in H as [Ht Hts].
    cbn [flat_map]. rewrite old_stateAfter_app.
    pose proof (IH _ _ _ (old_task_lines fmt T cs pc n st t Hst Ht) Hts) as H.
    unfold set_tasks in H |- *. cbn [col_id col_title col_tasks col_archived] in H.
    rewrite <- app_assoc in H. cbn [length]. now rewrite Nat.add_succ_r.
Qed.

Lemma old_column_lines fmt T cs pc n st c :
  Legacy.loopAt T cs pc n st -> legacyColumn c = true ->
  Legacy.loopAt T (closed cs pc)
    (Some {| col_id := gen n; col_title := col_title c; col_tasks := col_tasks c;
             col_archived := col_archived c |})
    (S n + length (col_tasks c))
    (Legacy.stateAfter gen st (legacyColumnLines fmt c)).
Proof.
  intros (HT & Hcs & Hp & Hcode & Hn) H.
  unfold legacyColumn in H. apply andb_prop in H as [H Hts].
  apply andb_prop in H as [Ht Ha].
  unfold legacyColumnLines. rewrite !old_stateAfter_cons.
  rewrite (old_stepLine_column gen st c Hcode Ht Ha).
  rewrite old_stepLine_blank by reflexivity.
  fold (Legacy.pendingColumn st). rewrite Hp, HT, Hcs, Hn.
  fold (closed cs pc).
  apply (old_tasks_lines fmt T (closed cs pc) (col_tasks c)
           {| col_id := gen n; col_title := col_title c; col_tasks := [];
              col_archived := col_archived c |}); [|exact Hts].
  repeat split.
Qed.

Lemma old_columns_lines fmt T (cols : list KanbanColumn) : forall cs pc n st,
  Legacy.loopAt T cs pc n st -> forallb legacyColumn cols = true ->
  exists cs' pc' n',
    Legacy.loopAt T cs' pc' n'
      (Legacy.stateAfter gen st (flat_map (legacyColumnLines fmt) cols)) /\
    closed cs' pc' = closed cs pc ++ relabelLegacyFrom gen n cols.
Proof.
  induction cols as [|c cols IH]; intros cs pc n st Hst H.
  - exists cs, pc, n. rewrite app_nil_r. now split.
  - cbn [forallb] in H. apply andb_prop in H as [Hc Hcols].
    cbn [flat_map]. rewrite old_stateAfter_app.
    destruct (IH _ _ _ _ (old_column_lines fmt T cs pc n st c Hst Hc) Hcols)
      as (cs' & pc' & n' & Hst' & E).
    exists cs', pc', n'. split; [exact Hst'|].
    rewrite E. cbn [closed relabelLegacyFrom]. now rewrite <- app_assoc.
Qed.

(** The loop in front of the columns. *)
Lemma old_front_lines b :
  isEmpty (board_title b) || cleanText (board_title b) = true ->
  Legacy.loopAt (board_title b) [] None 0
    (Legacy.stateAfter gen Legacy.initialState
       (("<!-- next-id: " ++ numberToString (board_nextId b) ++ " -->")%string
        :: titleLines b)).
Proof.
  intros HT.
  rewrite old_stateAfter_cons, old_stepLine_counter. unfold titleLines.
  destruct (board_title b) as [|c0 T0] eqn:E; [now repeat split|].
  cbn [isEmpty orb] in HT. cbn [truthy isEmpty negb].
  rewrite !old_stateAfter_cons,
    (old_stepLine_title gen Legacy.initialState _ eq_refl eq_refl HT).
  rewrite old_stepLine_blank by reflexivity. now repeat split.
Qed.

Lemma old_boardOfState_loopAt T cs pc n st (k : N) :
  Legacy.loopAt T cs pc n st ->
  Legacy.boardOfState k st
  = let '(cols, k') := Legacy.assignColumns k (closed cs pc) in
    {| board_title := T; board_columns := cols; board_nextId := k' |}.
Proof.
  intros (HT & Hcs & Hp & _ & _). unfold Legacy.boardOfState, Legacy.closeColumns.
  unfold Legacy.pendingColumn in Hp. now rewrite Hp, Hcs, HT.
Qed.

Lemma old_assignTasks_legacy (ts : list KanbanTask) (n : N) :
  forallb legacyTask ts = true -> Legacy.assignTasks n ts = (ts, n).
Proof.
  induction ts as [|t ts IH]; intros H; [reflexivity|].
  cbn [forallb] in H. apply andb_prop in H as [Ht Hts].
  destruct (legacyTask_spec t Ht) as (Hi & _).
  cbn [Legacy.assignTasks]. now rewrite Hi, (IH Hts).
Qed.

Lemma old_assignColumns_legacy (cs : list KanbanColumn) (n : N) :
  forallb legacyColumn cs = true -> forall k,
  Legacy.assignColumns n (relabelLegacyFrom gen k cs) = (relabelLegacyFrom gen k cs, n).
Proof.
  induction cs as [|c cs IH]; intros H k; [reflexivity|].
  cbn [forallb] in H. apply andb_prop in H as [Hc Hcs].
  unfold legacyColumn in Hc. apply andb_prop in Hc as [_ Hts].
  cbn [relabelLegacyFrom Legacy.assignColumns col_tasks].
  now rewrite (old_assignTasks_legacy _ n Hts), (IH Hcs).
Qed.

(** The text of a board of the indented dialect parses to the board. *)
Lemma old_parse_legacy_text (b : KanbanBoard) (fmt : TaskHeaderFormat) :
  legacyBoard b = true ->
  (board_nextId b <= twoTo53)%N ->
  Legacy.parseMarkdown gen (Legacy.generateMarkdown b fmt)
  = Some (relabelLegacy gen b).
Proof.
  intros Hclean Hn.
  pose proof (declaredNextId_legacy b fmt Hn) as Hcounter.
  rewrite legacyMarkdown_text, <- unlines_text in Hcounter |- *.
  rewrite old_parseMarkdown_unlines, Hcounter
    by (apply Forall_app; split;
        [now apply legacyBoardLines_proper | now repeat constructor]).
  rewrite old_parseLines_stateAfter, old_stateAfter_app.
  unfold legacyBoardLines. rewrite app_comm_cons, old_stateAfter_app.
  unfold legacyBoard in Hclean. apply andb_prop in Hclean as [HT Hcols].
  pose proof (old_front_lines b HT) as Hfront.
  destruct (old_columns_lines fmt _ (board_columns b) _ _ _ _ Hfront Hcols)
    as (cs & pc & n' & Hst & E).
  rewrite (old_stateAfter_cons gen _ EmptyString []).
  rewrite old_stepLine_blank by (now destruct Hst as (_ & _ & _ & ? & _)).
  change (Legacy.stateAfter gen ?st []) with st.
  rewrite (old_boardOfState_loopAt _ _ _ _ _ _ Hst), E.
  change (closed [] None ++ ?l) with l.
  now rewrite (old_assignColumns_legacy _ _ Hcols).
Qed.

Lemma legacyColumn_relabel fmt (cs : list KanbanColumn) : forall k,
  map (Legacy.generateColumn fmt) (relabelLegacyFrom gen k cs)
  = map (Legacy.generateColumn fmt) cs.
Proof.
  induction cs as [|c cs IH]; intros k; [reflexivity|].
  cbn [relabelLegacyFrom map]. now rewrite IH.
Qed.

(** X23.  The earlier revision reads what it writes, and the later one
    reads the same: the text the earlier serializer writes for a board
    of the indented dialect whose counter is at most 2^53, in either
    header style, is parsed by the earlier parser to the board itself,
    with column ids from the supply; writing that board gives the text
    again; and the later parser returns the same board for the text. *)
Theorem legacy_round_trip (b : KanbanBoard) (fmt : TaskHeaderFormat) :
  legacyBoard b = true ->
  (board_nextId b <= twoTo53)%N ->
  Legacy.parseMarkdown gen (Legacy.generateMarkdown b fmt)
    = Some (relabelLegacy gen b) /\
  Legacy.generateMarkdown (relabelLegacy gen b) fmt = Legacy.generateMarkdown b fmt /\
  parseMarkdown gen (Legacy.generateMarkdown b fmt)
    = Legacy.parseMarkdown gen (Legacy.generateMarkdown b fmt).
Proof.
  intros H Hn. split; [now apply old_parse_legacy_text|]. split.
  - unfold Legacy.generateMarkdown, relabelLegacy, set_columns.
    cbn [board_nextId board_title board_columns].
    now rewrite legacyColumn_relabel.
  - now rewrite old_parse_legacy_text, (parse_legacy_text gen).
Qed.

End LegacyBoardRead.

Lemma legacy_round_trip_sample :
  legacyBoard legacySample = true /\
  (board_nextId legacySample <= twoTo53)%N /\
  relabelLegacy demoIds legacySample = legacySample /\
  Legacy.parseMarkdown demoIds (Legacy.generateMarkdown legacySample ListFormat)
    = Some (relabelLegacy demoIds legacySample) /\
  Legacy.generateMarkdown (relabelLegacy demoIds legacySample) ListFormat
    = Legacy.generateMarkdown legacySample ListFormat /\
  parseMarkdown demoIds (Legacy.generateMarkdown legacySample ListFormat)
    = Legacy.parseMarkdown demoIds (Legacy.generateMarkdown legacySample ListFormat).
Proof.
  assert (Hn : (board_nextId legacySample <= twoTo53)%N)
    by (vm_compute; discriminate).
  split; [reflexivity|]. split; [exact Hn|]. split; [reflexivity|].
  exact (legacy_round_trip demoIds legacySample ListFormat eq_refl Hn).
Defined.

(** ** The ids of the earlier parser on the cards *)

Section LegacyIds.

Variable gen : nat -> string.

Local Open Scope list_scope.

Lemma isDisplayId_legacy (s : string) : isDisplayId s = Legacy.isLegacyId s.
Proof.
  unfold isDisplayId, Legacy.isLegacyId.
  now destruct (stripPrefix "TSK-" s).
Qed.

Lemma isLegacyId_counted (n : N) :
  (n <= twoTo53)%N -> Legacy.isLegacyId ("TSK-" ++ numberToString n) = true.
Proof.
  intros Hn. rewrite numberToString_safe by exact Hn.
  unfold Legacy.isLegacyId.
  change (stripPrefix "TSK-" ("TSK-" ++ decimalDigits n))
    with (Some (decimalDigits n)).
  rewrite <- (append_nil_r (decimalDigits n)).
  rewrite digits1_number by exact I.
  reflexivity.
Qed.

Lemma shown_legacy t :
  Legacy.isLegacyId (task_id t) = true -> getTaskDisplayId t = Some (task_id t).
Proof.
  intros H. unfold getTaskDisplayId. rewrite isDisplayId_legacy, H.
  destruct (task_id t); [discriminate H | reflexivity].
Qed.

Lemma old_assignTasks_shown (ts : list KanbanTask) : forall n,
  (n <= twoTo53)%N ->
  Forall (fun t => getTaskDisplayId t = Some (task_id t))
    (fst (Legacy.assignTasks n ts)) /\
  (snd (Legacy.assignTasks n ts) <= twoTo53)%N.
Proof.
  induction ts as [|t ts IH]; intros n Hn; [split; [constructor | exact Hn]|].
  cbn [Legacy.assignTasks]. destruct (Legacy.isLegacyId (task_id t)) eqn:E.
  - specialize (IH n Hn). destruct (Legacy.assignTasks n ts) as [rest k].
    cbn [fst snd] in *. split; [|apply IH].
    constructor; [now apply shown_legacy | apply IH].
  - specialize (IH (increment n) (proj2 (increment_bounded n Hn))).
    destruct (Legacy.assignTasks (increment n) ts) as [rest k].
    cbn [fst snd] in *. split; [|apply IH]. constructor; [|apply IH].
    apply shown_legacy. cbn [task_id set_id]. now apply isLegacyId_counted.
Qed.

Lemma old_assignColumns_shown (cs : list KanbanColumn) : forall n,
  (n <= twoTo53)%N ->
  Forall (fun t => getTaskDisplayId t = Some (task_id t))
    (allTasks (fst (Legacy.assignColumns n cs))).
Proof.
  induction cs as [|c cs IH]; intros n Hn; [constructor|].
  cbn [Legacy.assignColumns].
  pose proof (old_assignTasks_shown (col_tasks c) n Hn) as [Ht Hk].
  destruct (Legacy.assignTasks n (col_tasks c)) as [ts k].
  cbn [fst snd] in *.
  specialize (IH k Hk). destruct (Legacy.assignColumns k cs) as [rest k'].
  cbn [fst] in *. unfold allTasks in *. cbn [flat_map col_tasks set_tasks].
  apply Forall_app. now split.
Qed.

(** X24.  The earlier parser returns a board for every text, and when
    the declared counter is at most 2^53 every card of that board shows
    the id of its task: the last pass of that revision leaves only ids
    of the form [TSK-] and digits, the very form [getTaskDisplayId] asks
    for. *)
Theorem earlier_parser_shows_every_id (content : string) :
  exists b,
    Legacy.parseMarkdown gen content = Some b /\
    ((declaredNextId content <= twoTo53)%N ->
     Forall (fun t => getTaskDisplayId t = Some (task_id t))
       (allTasks (board_columns b))).
Proof.
  unfold Legacy.parseMarkdown. rewrite old_parseLines_stateAfter.
  eexists. split; [reflexivity|]. intros Hn.
  unfold Legacy.boardOfState.
  pose proof (old_assignColumns_shown
                (Legacy.closeColumns
                   (Legacy.stateAfter gen Legacy.initialState (splitLines content)))
                (declaredNextId content) Hn) as H.
  destruct (Legacy.assignColumns _ _) as [cs k]. exact H.
Qed.

End LegacyIds.

(** The text of the allocation example, read by the earlier parser. *)
Lemma earlier_parser_sample :
  (declaredNextId allocationDocument <= twoTo53)%N /\
  exists b,
    Legacy.parseMarkdown demoIds allocationDocument = Some b /\
    Forall (fun t => getTaskDisplayId t = Some (task_id t))
      (allTasks (board_columns b)).
Proof.
  assert (Hn : (declaredNextId allocationDocument <= twoTo53)%N)
    by (vm_compute; discriminate).
  split; [exact Hn|].
  destruct (earlier_parser_shows_every_id demoIds allocationDocument)
    as (b & Hb & Hshown).
  exists b. split; [exact Hb | exact (Hshown Hn)].
Defined.

(** ** A description between fences, read by the earlier parser *)

Section LegacyFence.

Variable gen : nat -> string.

Local Open Scope list_scope.

Lemma fence_line_shape (line : string) :
  Legacy.matchFenceMd line = true ->
  startsWith line "- " = false /\
  exists rest, trimStart line = ("```md" ++ rest)%string /\
               trim line = ("```md" ++ trimEnd rest)%string.
Proof.
  unfold Legacy.matchFenceMd, skipWhite1. intros H.
  destruct line as [|w l]; [discriminate|].
  destruct (isWhite w) eqn:Hw; [|discriminate].
  apply startsWith_inv in H as [rest Hrest].
  split.
  - cbn [startsWith]. destruct (Ascii.eqb_spec "-" w) as [<-|]; [discriminate Hw | reflexivity].
  - exists rest. unfold trim. cbn [trimStart]. rewrite Hw, Hrest.
    split; [reflexivity|].
    cbn [append]. now rewrite !trimEnd_black by reflexivity.
Qed.

(** The opening fence under the header of a task. *)
Lemma old_stepLine_opening T cs c t key n opening :
  Legacy.matchFenceMd opening = true ->
  Legacy.stepLine gen (Legacy.openTask T cs c t key n) opening = fencedTask T cs c t n.
Proof.
  intros H. destruct (fence_line_shape opening H) as (Hdash & rest & Hs & Ht).
  apply old_stepLine_in_properties; rewrite ?Ht; try reflexivity.
  - unfold Legacy.isTaskTitle. rewrite Hdash. reflexivity.
  - assert (Hp : matchProperty opening = None).
    { unfold matchProperty, skipWhite1. destruct opening as [|w l]; [reflexivity|].
      cbn [trimStart] in Hs. destruct (isWhite w); [|reflexivity].
      rewrite Hs. reflexivity. }
    assert (Hi : matchOldChecklistItem opening = None).
    { unfold matchOldChecklistItem, matchIndentedBox.
      destruct (6 <=? countWhite opening)%nat; [|reflexivity].
      rewrite Hs. reflexivity. }
    unfold Legacy.propertiesLine, parseTaskProperty, parseOldChecklistItem.
    rewrite Hp, Hi, H. cbn [Legacy.openTask Legacy.activeListKey].
    destruct key as [k|]; [destruct (getList t k)|]; reflexivity.
Qed.

(** A line of text between the fences. *)
Lemma old_stepLine_fencedTask T cs c t n line :
  fencedText line = true ->
  Legacy.stepLine gen (fencedTask T cs c t n) line
  = fencedTask T cs c (appendDescription t (Legacy.stripIndent4 line)) n.
Proof.
  unfold fencedText. intros H.
  apply andb_prop in H as [H H3]. apply andb_prop in H as [H1 H2].
  apply negb_true_iff in H1, H2, H3.
  unfold Legacy.stepLine, Legacy.step. rewrite H1, H2, H3.
  rewrite andb_false_r. reflexivity.
Qed.

Lemma old_stateAfter_fencedTask T cs c n (body : list string) : forall t,
  forallb fencedText body = true ->
  Legacy.stateAfter gen (fencedTask T cs c t n) body
  = fencedTask T cs c (fold_left appendDescription (map Legacy.stripIndent4 body) t) n.
Proof.
  induction body as [|l body IH]; intros t H; [reflexivity|].
  cbn [forallb] in H. apply andb_prop in H as [Hl Hbody].
  rewrite old_stateAfter_cons, (old_stepLine_fencedTask T cs c t n l Hl).
  cbn [map fold_left]. now apply IH.
Qed.

(** The closing fence. *)
Lemma old_stepLine_closing T cs c t n closing :
  trim closing = "```"%string ->
  Legacy.stepLine gen (fencedTask T cs c t n) closing = describedTask T cs c t n.
Proof.
  intros H. unfold Legacy.stepLine, Legacy.step. rewrite H. reflexivity.
Qed.

(** X25.  In the earlier revision the lines between an indented
    [```md] fence and the closing fence under a task are its
    description: whatever a line between the fences looks like, a
    column header or a task header included, it is appended to the
    description of the open task, without its indentation when that is
    four or more white characters; only comment lines and fences are
    not text.  The task stays open behind the closing fence. *)
Theorem earlier_fence_is_description T cs c t key n opening body closing :
  Legacy.matchFenceMd opening = true ->
  forallb fencedText body = true ->
  trim closing = "```"%string ->
  Legacy.stateAfter gen (Legacy.openTask T cs c t key n)
    (opening :: body ++ [closing])
  = describedTask T cs c
      (fold_left appendDescription (map Legacy.stripIndent4 body) t) n.
Proof.
  intros Hopen Hbody Hclose.
  rewrite old_stateAfter_cons, (old_stepLine_opening T cs c t key n opening Hopen).
  rewrite old_stateAfter_app, (old_stateAfter_fencedTask T cs c n body t Hbody).
  rewrite old_stateAfter_cons. now rewrite old_stepLine_closing.
Qed.

End LegacyFence.

Lemma earlier_fence_sample :
  Legacy.matchFenceMd "    ```md" = true /\
  forallb fencedText
    ["    First line"; "      ## not a column"; "- [ ] not a task"] = true /\
  trim "    ```" = "```" /\
  Legacy.stateAfter demoIds
    (Legacy.openTask "Board" [] (Some (archivedColumn "col0" "Todo"))
       (newTask "id" "Plan") None 1)
    fencedSample
  = describedTask "Board" [] (Some (archivedColumn "col0" "Todo"))
      (set_description (newTask "id" "Plan")
         (Some ("First line" ++ newline ++ "## not a column" ++ newline ++
                "- [ ] not a task"))) 1.
Proof.
  split; [reflexivity|]. split; [reflexivity|]. split; [reflexivity|].
  exact (earlier_fence_is_description demoIds "Board" [] _ (newTask "id" "Plan")
           None 1 "    ```md"
           ["    First line"; "      ## not a column"; "- [ ] not a task"]
           "    ```" eq_refl eq_refl eq_refl).
Defined.

(** ** Dropping a column *)

Section ColumnDrop.

Local Open Scope list_scope.

Lemma find_findIndex {A : Type} (p : A -> bool) (l : list A) (x : A) :
  find p l = Some x ->
  exists i, findIndex p l = Some i /\ nth_error l i = Some x /\ i < length l.
Proof.
  induction l as [|y l IH]; intros H; [discriminate|].
  cbn [find] in H. cbn [findIndex]. destruct (p y).
  - injection H as ->. exists 0. cbn. repeat split. lia.
  - destruct (IH H) as (i & Hi & Hn & Hlt). exists (S i).
    rewrite Hi. cbn. repeat split; [exact Hn | lia].
Qed.

Lemma inRange_index (len i : nat) : i < len -> inRange len (Z.of_nat i) = true.
Proof.
  intros H. unfold inRange. apply andb_true_intro. split.
  - apply Z.leb_le. lia.
  - apply Z.ltb_lt. lia.
Qed.

End ColumnDrop.

(** X26.  A column dropped on another column takes its place, and the
    request the board surface posts is always inside the columns: for a
    dragged and a target column that are both found and not archived,
    the [drop] listener posts [moveColumn] with the two places of the
    columns in the board, the panel moves the column without leaving an
    undefined entry, and afterwards the dragged column stands where the
    target stood, among the same columns. *)
Theorem column_drop_takes_the_place freshId b dragged target draggedColumn
    targetColumn :
  find (hasColumnId dragged) (board_columns b) = Some draggedColumn ->
  find (hasColumnId target) (board_columns b) = Some targetColumn ->
  isArchived draggedColumn = false -> isArchived targetColumn = false ->
  truthy dragged = true -> dragged <> target -> target <> "unified-archive" ->
  exists message b' j,
    columnDropMessage b (Some dragged) target = Some message /\
    handleMessage freshId message b = Some b' /\
    findIndex (hasColumnId target) (board_columns b) = Some j /\
    nth_error (board_columns b') j = Some draggedColumn /\
    Permutation (board_columns b) (board_columns b') /\
    board_title b' = board_title b /\ board_nextId b' = board_nextId b.
Proof.
  intros Hd Ht Had Hat Htruthy Hne Hunified.
  destruct (find_findIndex _ _ _ Hd) as (i & Hi & Hni & Hli).
  destruct (find_findIndex _ _ _ Ht) as (j & Hj & Hnj & Hlj).
  assert (Hij : (Z.of_nat i =? Z.of_nat j)%Z = false).
  { apply Z.eqb_neq. intros E. apply Nat2Z.inj in E. subst j.
    rewrite Hni in Hnj. injection Hnj as <-.
    apply find_some in Hd as [_ H1]. apply find_some in Ht as [_ H2].
    unfold hasColumnId in *. apply String.eqb_eq in H1, H2. congruence. }
  pose proof (inRange_index _ _ Hli) as Ri.
  pose proof (inRange_index _ _ Hlj) as Rj.
  assert (Hni' : nth_error (board_columns b) (Z.to_nat (Z.of_nat i)) = Some draggedColumn)
    by (now rewrite Nat2Z.id).
  pose proof (moveColumn_distinct _ _ b draggedColumn Hij Ri Rj Hni') as Hmove.
  rewrite !Nat2Z.id in Hmove.
  exists (MoveColumn (Z.of_nat i) (Z.of_nat j)),
    (set_columns b (insertAt j draggedColumn (removeAt i (board_columns b)))), j.
  split; [|split; [exact Hmove|split; [exact Hj|split; [|split]]]].
  - unfold columnDropMessage, getOriginalColumnIndex.
    destruct (String.eqb_spec target "unified-archive") as [E|_]; [contradiction|].
    destruct (String.eqb_spec dragged target) as [E|_]; [contradiction|].
    rewrite Htruthy, Hd, Ht, Had, Hat, Hi, Hj. cbn [andb negb].
    destruct (Z.eqb_spec (Z.of_nat i) (-1)); [lia|].
    destruct (Z.eqb_spec (Z.of_nat j) (-1)); [lia|]. reflexivity.
  - cbn [board_columns set_columns]. apply nth_error_insertAt.
    rewrite length_removeAt by exact Hli. lia.
  - cbn [board_columns set_columns]. rewrite insertAt_perm. now apply removeAt_perm.
  - split; reflexivity.
Qed.

Lemma column_drop_sample :
  exists message b' j,
    columnDropMessage sampleBoard (Some "c1") "c2" = Some message /\
    handleMessage "fresh" message sampleBoard = Some b' /\
    findIndex (hasColumnId "c2") (board_columns sampleBoard) = Some j /\
    nth_error (board_columns b') j = nth_error (board_columns sampleBoard) 0 /\
    Permutation (board_columns sampleBoard) (board_columns b') /\
    board_title b' = board_title sampleBoard /\
    board_nextId b' = board_nextId sampleBoard.
Proof.
  assert (H1 : "c1" <> "c2") by discriminate.
  assert (H2 : "c2" <> "unified-archive") by discriminate.
  exact (column_drop_takes_the_place "fresh" sampleBoard "c1" "c2" _ _
           eq_refl eq_refl eq_refl eq_refl eq_refl H1 H2).
Defined.

(** ** Dropping a step *)

Section StepDrop.

Local Open Scope list_scope.

(** The drop rearranges the items. *)
Lemma dropStep_perm (items : list StepItem) y : Permutation (dropStep items y) items.
Proof.
  unfold dropStep.
  destruct (findIndex step_dragging items) as [d|]; [|reflexivity].
  destruct (nth_error items d) as [x|] eqn:Hx; [|reflexivity].
  destruct (getDragAfterElement items y) as [a|].
  - rewrite insertAt_perm. symmetry. now apply removeAt_perm.
  - rewrite Permutation_app_comm. symmetry. now apply removeAt_perm.
Qed.

Lemma reorder_rearranged (l : list ChecklistItem) (order : list Z) :
  Permutation order (map Z.of_nat (seq 0 (length l))) ->
  Permutation (reorder l order) l.
Proof.
  intros Hperm.
  assert (Hid : reorder l (map Z.of_nat (seq 0 (length l))) = l).
  { rewrite reorder_seq by lia. simpl. apply firstn_all. }
  rewrite <- Hid at 2. rewrite !reorder_flat_map.
  now apply Permutation_flat_map.
Qed.

End StepDrop.

(** X27.  After a step is dropped, the panel has the steps in the order
    of the items on the card.  With the items of the list showing the
    steps of the task, the [drop] listener moves the dragged item in
    front of the item [getDragAfterElement] returns, or to the end, and
    posts the indices of the items in their new order; [reorderTaskSteps]
    then leaves the task with its steps rearranged, none lost or
    repeated, the step of each item at the place of the item. *)
Theorem step_drop_follows_the_card freshId b taskId columnId c t l items y :
  findTask b columnId taskId = Some (c, t) ->
  steps t = Some l ->
  showsSteps items l ->
  exists b' c' l',
    handleMessage freshId (stepDropMessage items y taskId columnId) b = Some b' /\
    findTask b' columnId taskId = Some (c', setList t Steps (Some l')) /\
    map Some l' = map (stepOf l) (dropStep items y) /\
    Permutation (dropStep items y) items /\
    Permutation l' l.
Proof.
  intros Hfind Hsteps Hshows.
  set (order := map step_index (dropStep items y)).
  assert (Hperm : Permutation order (map Z.of_nat (seq 0 (length l)))).
  { unfold order. rewrite <- Hshows. apply Permutation_map, dropStep_perm. }
  assert (Hrange : Forall (fun i => inRange (length l) i = true) order).
  { apply Forall_forall. intros i Hi.
    apply (Permutation_in _ Hperm) in Hi. apply in_map_iff in Hi as (k & <- & Hk).
    apply in_seq in Hk. apply inRange_index. lia. }
  destruct (findTask_updateTask b columnId taskId
              (fun u => setList u Steps (Some (reorder l order)))
              c t (fun _ => eq_refl) Hfind) as (c' & Hc' & _).
  exists (reorderTaskSteps taskId columnId order b), c', (reorder l order).
  split; [reflexivity|]. split; [|split; [|split]].
  - unfold reorderTaskSteps. rewrite Hfind, Hsteps. exact Hc'.
  - rewrite (reorder_in_range l order Hrange). unfold order, stepOf.
    now rewrite map_map.
  - apply dropStep_perm.
  - now apply reorder_rearranged.
Qed.

Lemma step_drop_sample :
  exists b' c' l',
    handleMessage "fresh" (stepDropMessage sampleItems sampleStepPointer "TSK_1" "c1")
      stepsBoard = Some b' /\
    findTask b' "c1" "TSK_1" = Some (c', l') /\
    steps l' = Some [ {| item_text := "two"; item_completed := true |};
                      {| item_text := "one"; item_completed := false |};
                      {| item_text := "three"; item_completed := false |} ].
Proof.
  destruct (step_drop_follows_the_card "fresh" stepsBoard "TSK_1" "c1" _ _ _
              sampleItems sampleStepPointer eq_refl eq_refl eq_refl)
    as (b' & c' & l' & H1 & H2 & H3 & _).
  exists b', c', (setList (nth 0 (col_tasks (nth 0 (board_columns stepsBoard)
                                              (archivedColumn "" "")))
                             (sampleTask "" "")) Steps (Some l')).
  split; [exact H1|]. split; [exact H2|].
  cbn [steps setList]. f_equal.
  apply (f_equal (fun x => x)) in H3.
  vm_compute in H3.
  destruct l' as [|x1 [|x2 [|x3 [|x4 l4]]]]; try discriminate H3.
  now injection H3 as -> -> ->.
Defined.
